(** * Candidate pipeline engine: a shallow embedding and its verified properties

    The development follows the TypeScript sources of the recruiting
    pipeline: [identity.ts] (identity resolver), [scoring.ts] (candidate
    scorer), [config.ts] (resolved configuration), [store.ts] (SQLite
    persistence layer), [pipeline.ts] (run orchestrator and the hybrid
    review workflow) and [external.ts] (external footprint).

    Modelling conventions.
    - JavaScript numbers that the code computes with are exact rationals
      ([Q]); where the code tests [Number.isFinite] the argument is a
      [number], which adds NaN and the two infinities.
    - [string | null | undefined] is [option string]; both [null] and
      [undefined] are [None].  Truthiness of such a value is [truthy].
    - Strings are sequences of 8-bit characters; [trim] and [toLowerCase]
      act on the ASCII range.
    - A SQLite table is the list of its rows in rowid order.  A statement
      either succeeds or throws a constraint error; PRIMARY KEY, UNIQUE and
      (since the store opens with [PRAGMA foreign_keys=ON]) FOREIGN KEY
      constraints are checked as the schema declares them.
    - [Date.now()] and [crypto.randomUUID()] are inputs of the operation
      that calls them. *)

From Stdlib Require Import List String Ascii Bool Arith ZArith QArith Qround Qabs Lia Lqa.
From Stdlib Require Import DecimalString.
From Stdlib Require Import Sorting.Sorted Permutation.
Import ListNotations.

Open Scope string_scope.
Open Scope Q_scope.

(* ------------------------------------------------------------------ *)
(** ** JavaScript values *)

Module Js.

(** [value ?? fallback] *)
Definition nullish {A} (v : option A) (fallback : A) : A :=
  match v with Some a => a | None => fallback end.

(** Truthiness of a [string | null | undefined]. *)
Definition truthy (v : option string) : bool :=
  match v with
  | Some s => negb (String.eqb s "")
  | None => false
  end.

Definition is_space (c : ascii) : bool :=
  let n := nat_of_ascii c in
  ((9 <=? n) && (n <=? 13))%nat || (n =? 32)%nat.

Fixpoint trimStart (s : string) : string :=
  match s with
  | String c t => if is_space c then trimStart t else s
  | EmptyString => EmptyString
  end.

Definition reverse (s : string) : string :=
  string_of_list_ascii (rev (list_ascii_of_string s)).

Fixpoint trimEnd (s : string) : string :=
  match s with
  | String c t =>
      let t' := trimEnd t in
      if is_space c && String.eqb t' "" then EmptyString else String c t'
  | EmptyString => EmptyString
  end.

Definition trim (s : string) : string := trimEnd (trimStart s).

Definition lower_ascii (c : ascii) : ascii :=
  let n := nat_of_ascii c in
  if ((65 <=? n) && (n <=? 90))%nat then ascii_of_nat (n + 32) else c.

Fixpoint toLowerCase (s : string) : string :=
  match s with
  | String c t => String (lower_ascii c) (toLowerCase t)
  | EmptyString => EmptyString
  end.

Fixpoint startsWith (s p : string) : bool :=
  match p, s with
  | EmptyString, _ => true
  | String a p', String b s' => Ascii.eqb a b && startsWith s' p'
  | String _ _, EmptyString => false
  end.

Definition endsWith (s p : string) : bool :=
  startsWith (reverse s) (reverse p).

(** [s.slice(0, -1)] *)
Definition dropLast (s : string) : string :=
  string_of_list_ascii (removelast (list_ascii_of_string s)).

(** [hay.includes(needle)] *)
Fixpoint includes (hay needle : string) : bool :=
  startsWith hay needle ||
  match hay with
  | String _ t => includes t needle
  | EmptyString => false
  end.

(** [s.split(sep)[0]] for a one-character separator. *)
Fixpoint beforeFirst (sep : ascii) (s : string) : string :=
  match s with
  | String c t => if Ascii.eqb c sep then EmptyString else String c (beforeFirst sep t)
  | EmptyString => EmptyString
  end.

(** [array.push(item)] *)
Definition push {A} (l : list A) (a : A) : list A := (l ++ [a])%list.

(** A JavaScript number as the code can observe it. *)
Inductive number : Type :=
| Fin (q : Q)
| NaN
| PosInf
| NegInf.

Definition isFinite (n : number) : bool :=
  match n with Fin _ => true | _ => false end.

Definition Math_max (a b : Q) : Q := if Qle_bool a b then b else a.
Definition Math_min (a b : Q) : Q := if Qle_bool a b then a else b.

(** [Math.round]: nearest integer, a tie goes towards plus infinity. *)
Definition Math_round (q : Q) : Z := Qfloor (q + (1 # 2)).

(** [Math.trunc] *)
Definition Math_trunc (q : Q) : Z :=
  if Qle_bool 0 q then Qfloor q else Qceiling q.

(** [Math.ceil] *)
Definition Math_ceil (q : Q) : Z := Qceiling q.

End Js.

Import Js.

(* ------------------------------------------------------------------ *)
(** ** identity.ts *)

Inductive IdentityBand : Type := CONFIRMED | HIGH | MEDIUM | LOW.

Definition IdentityBand_eqb (a b : IdentityBand) : bool :=
  match a, b with
  | CONFIRMED, CONFIRMED | HIGH, HIGH | MEDIUM, MEDIUM | LOW, LOW => true
  | _, _ => false
  end.

Record LinkedinInput : Type := {
  li_providerId : option string;
  li_publicIdentifier : option string;
  li_profileUrl : option string;
  li_name : option string;
  li_employer : option string;
  li_location : option string
}.

Record GithubInput : Type := {
  gh_handle : option string;
  gh_url : option string;
  gh_profileLinkedinUrl : option string;
  gh_employer : option string;
  gh_location : option string
}.

Record XInput : Type := {
  x_handle : option string;
  x_url : option string;
  x_profileLinkedinUrl : option string
}.

Record PersonalSiteInput : Type := {
  site_url : option string;
  site_linkedinUrl : option string;
  site_githubUrl : option string;
  site_xUrl : option string
}.

Record IdentityResolutionInput : Type := {
  linkedin : LinkedinInput;
  github : option GithubInput;
  x : option XInput;
  personalSite : option PersonalSiteInput
}.

Record IdentityResolution : Type := {
  confidence : Q;
  band : IdentityBand;
  shortlistEligible : bool;
  reasons : list string
}.

(** [obj?.field] on an optional record. *)
Definition opt_field {A} (o : option A) (f : A -> option string) : option string :=
  match o with Some a => f a | None => None end.

Definition normalizeUrl (value : option string) : option string :=
  match value with
  | None => None
  | Some v =>
      if String.eqb v "" then None
      else
        let trimmed := toLowerCase (trim v) in
        if String.eqb trimmed "" then None
        else Some (if endsWith trimmed "/" then dropLast trimmed else trimmed)
  end.

Definition opt_string_eqb (a b : option string) : bool :=
  match a, b with
  | Some s, Some t => String.eqb s t
  | None, None => true
  | _, _ => false
  end.

Definition includesLinkedinUrl (value linkedinUrl : option string) : bool :=
  if negb (truthy value) || negb (truthy linkedinUrl) then false
  else opt_string_eqb (normalizeUrl value) linkedinUrl.

Definition resolveBand (confidence : Q) : IdentityBand :=
  if Qle_bool (9 # 10) confidence then CONFIRMED
  else if Qle_bool (8 # 10) confidence then HIGH
  else if Qle_bool (6 # 10) confidence then MEDIUM
  else LOW.

Definition rule_direct_profile_link (input : IdentityResolutionInput) : bool :=
  let linkedinUrl := normalizeUrl (li_profileUrl (linkedin input)) in
  let githubLinkedin := normalizeUrl (opt_field (github input) gh_profileLinkedinUrl) in
  let xLinkedin := normalizeUrl (opt_field (x input) x_profileLinkedinUrl) in
  let siteLinkedin := normalizeUrl (opt_field (personalSite input) site_linkedinUrl) in
  includesLinkedinUrl githubLinkedin linkedinUrl
  || includesLinkedinUrl xLinkedin linkedinUrl
  || includesLinkedinUrl siteLinkedin linkedinUrl.

Definition rule_reverse_link_via_site (input : IdentityResolutionInput) : bool :=
  let linkedinUrl := normalizeUrl (li_profileUrl (linkedin input)) in
  let githubUrl := normalizeUrl (opt_field (github input) gh_url) in
  let xUrl := normalizeUrl (opt_field (x input) x_url) in
  let siteGithub := normalizeUrl (opt_field (personalSite input) site_githubUrl) in
  let siteX := normalizeUrl (opt_field (personalSite input) site_xUrl) in
  truthy linkedinUrl
  && ((truthy githubUrl && opt_string_eqb siteGithub githubUrl)
      || (truthy xUrl && opt_string_eqb siteX xUrl)).

(** [a && b && a.trim().toLowerCase() === b.trim().toLowerCase()] *)
Definition same_text (a b : option string) : bool :=
  match a, b with
  | Some s, Some t =>
      negb (String.eqb s "") && negb (String.eqb t "")
      && String.eqb (toLowerCase (trim s)) (toLowerCase (trim t))
  | _, _ => false
  end.

Definition sameEmployer (input : IdentityResolutionInput) : bool :=
  same_text (li_employer (linkedin input)) (opt_field (github input) gh_employer).

Definition sameLocation (input : IdentityResolutionInput) : bool :=
  same_text (li_location (linkedin input)) (opt_field (github input) gh_location).

(** [Boolean(h?.trim())] *)
Definition trimmed_truthy (h : option string) : bool :=
  match h with
  | Some s => negb (String.eqb (trim s) "")
  | None => false
  end.

Definition handlePatternMatch (input : IdentityResolutionInput) : bool :=
  let gh := opt_field (github input) gh_handle in
  let xh := opt_field (x input) x_handle in
  trimmed_truthy gh && trimmed_truthy xh
  && opt_string_eqb (option_map (fun s => toLowerCase (trim s)) gh)
                    (option_map (fun s => toLowerCase (trim s)) xh).

(** The resolver threads [score] and [reasons] through its rules. *)
Definition RuleState : Type := (Q * list string)%type.

(** [score = Math.max(score, value); reasons.push(reason)] *)
Definition fire (value : Q) (reason : string) (st : RuleState) : RuleState :=
  (Math_max (fst st) value, push (snd st) reason).

(** [if (cond) { ... }] *)
Definition when (cond : bool) (body : RuleState -> RuleState) (st : RuleState) : RuleState :=
  if cond then body st else st.

(** Rule 3: the strong contextual match and its partial [else if]. *)
Definition rule_context (employer location handle : bool) (st : RuleState) : RuleState :=
  if employer && location && handle
  then fire (82 # 100) "strong_context_employer_location_handle" st
  else if (employer && location) || (employer && handle)
  then fire (7 # 10) "context_partial_match" st
  else st.

(** [if (score === 0) reasons.push("unconfirmed_no_strong_match")] *)
Definition rule_unconfirmed (st : RuleState) : RuleState :=
  if Qeq_bool (fst st) 0
  then (fst st, push (snd st) "unconfirmed_no_strong_match")
  else st.

Definition resolution_of (st : RuleState) : IdentityResolution :=
  let confidence := inject_Z (Math_round (fst st * 1000)) / 1000 in
  let band := resolveBand confidence in
  {| confidence := confidence;
     band := band;
     shortlistEligible := IdentityBand_eqb band CONFIRMED || IdentityBand_eqb band HIGH;
     reasons := snd st |}.

Definition resolveIdentity (input : IdentityResolutionInput) : IdentityResolution :=
  let st := (0, []) in
  let st := when (rule_direct_profile_link input)
                 (fire (95 # 100) "direct_profile_link") st in
  let st := when (rule_reverse_link_via_site input)
                 (fire (9 # 10) "reverse_link_via_site") st in
  let st := rule_context (sameEmployer input) (sameLocation input)
                         (handlePatternMatch input) st in
  let st := rule_unconfirmed st in
  resolution_of st.

(* ------------------------------------------------------------------ *)
(** ** scoring.ts *)

(** The [details] objects the pipeline attaches to a signal. *)
Inductive SignalDetails : Type :=
| details_skills (skills : list string)
| details_url (url : string).

Record CandidateSignal : Type := {
  sig_key : string;
  sig_value : option string;
  sig_numericValue : option number;
  sig_source : string;
  sig_details : option SignalDetails
}.

Record CandidateEvidenceLink : Type := {
  ev_url : string;
  ev_title : option string;
  ev_source : string;
  ev_relevance : option Q
}.

Record CandidateScoreBreakdown : Type := {
  builder_activity : Q;
  ai_native_evidence : Q;
  technical_depth : Q;
  role_fit : Q;
  identity_confidence : Q
}.

Record CandidateScore : Type := {
  total : Q;
  score_shortlistEligible : bool;
  breakdown : CandidateScoreBreakdown;
  concerns : list string;
  outreachAngle : string
}.

Module WEIGHTS.
Definition builder_activity : Q := 25 # 100.
Definition ai_native_evidence : Q := 25 # 100.
Definition technical_depth : Q := 2 # 10.
Definition role_fit : Q := 2 # 10.
Definition identity_confidence : Q := 1 # 10.
End WEIGHTS.

Definition clamp01 (value : number) : Q :=
  match value with
  | Fin q => Math_min 1 (Math_max 0 q)
  | _ => 0
  end.

Definition round3 (value : Q) : Q :=
  inject_Z (Math_round (value * 1000)) / 1000.

(** [Math.max(a, b)] on numbers that may be infinite or NaN. *)
Definition number_max (a b : number) : number :=
  match a, b with
  | NaN, _ | _, NaN => NaN
  | PosInf, _ | _, PosInf => PosInf
  | NegInf, n | n, NegInf => n
  | Fin p, Fin q => Fin (Math_max p q)
  end.

(** [Math.max(...values)]; with no argument the result is minus infinity. *)
Definition Math_max_spread (values : list number) : number :=
  fold_left number_max values NegInf.

Definition has_number (v : option number) : bool :=
  match v with Some _ => true | None => false end.

Definition scoreFromSignals (signals : list CandidateSignal) (key : string) : Q :=
  let values :=
    filter isFinite
      (map (fun signal => nullish (sig_numericValue signal) NaN)
         (filter (fun signal =>
                    String.eqb (sig_key signal) key && has_number (sig_numericValue signal))
                 signals)) in
  if (List.length values =? 0)%nat then 0
  else clamp01 (Math_max_spread values).

Definition ai_keywords : list string :=
  ["codex"; "claude code"; "mcp"; "agent"; "agents"; "automation"].

Definition hasAiEvidence (evidence : list CandidateEvidenceLink) : bool :=
  existsb (fun item =>
             let title := match ev_title item with
                          | Some t => t
                          | None => ""
                          end in
             let haystack := toLowerCase (title ++ " " ++ ev_url item) in
             existsb (fun keyword => includes haystack keyword) ai_keywords)
          evidence.

Record ScoreParams : Type := {
  sp_signals : list CandidateSignal;
  sp_identity : IdentityResolution;
  sp_evidence : list CandidateEvidenceLink;
  sp_openToWork : option bool
}.

Definition push_if {A} (cond : bool) (a : A) (l : list A) : list A :=
  if cond then push l a else l.

Definition computeCandidateScore (params : ScoreParams) : CandidateScore :=
  let builderActivity := scoreFromSignals (sp_signals params) "builder_activity" in
  let aiNative :=
    Math_max (scoreFromSignals (sp_signals params) "ai_native_evidence")
             (if hasAiEvidence (sp_evidence params) then 7 # 10 else 0) in
  let technicalDepth := scoreFromSignals (sp_signals params) "technical_depth" in
  let roleFit := scoreFromSignals (sp_signals params) "role_fit" in
  let identityConfidence := clamp01 (Fin (confidence (sp_identity params))) in
  let breakdown :=
    {| builder_activity := round3 builderActivity;
       ai_native_evidence := round3 aiNative;
       technical_depth := round3 technicalDepth;
       role_fit := round3 roleFit;
       identity_confidence := round3 identityConfidence |} in
  let total :=
    round3 (builder_activity breakdown * WEIGHTS.builder_activity
            + ai_native_evidence breakdown * WEIGHTS.ai_native_evidence
            + technical_depth breakdown * WEIGHTS.technical_depth
            + role_fit breakdown * WEIGHTS.role_fit
            + identity_confidence breakdown * WEIGHTS.identity_confidence) in
  let concerns := [] in
  let concerns :=
    push_if (negb (shortlistEligible (sp_identity params))) "identity_unconfirmed" concerns in
  let concerns :=
    push_if (negb (Qle_bool (3 # 10) (builder_activity breakdown)))
            "low_recent_builder_activity" concerns in
  let concerns :=
    push_if (negb (Qle_bool (3 # 10) (ai_native_evidence breakdown)))
            "limited_ai_native_evidence" concerns in
  let concerns :=
    push_if (negb (Qle_bool (3 # 10) (role_fit breakdown))) "weak_role_fit" concerns in
  let concerns :=
    push_if (match sp_openToWork params with Some true => true | _ => false end)
            "open_to_work_signal_recorded_no_penalty" concerns in
  let outreachAngle :=
    if Qle_bool (6 # 10) (ai_native_evidence breakdown)
    then "Lead with AI-native shipping evidence and ask about current build velocity."
    else if Qle_bool (6 # 10) (builder_activity breakdown)
    then "Lead with recent shipped work and invite a builder-focused conversation."
    else "Lead with role fit and verify current hands-on project scope." in
  {| total := total;
     score_shortlistEligible := shortlistEligible (sp_identity params);
     breakdown := breakdown;
     concerns := concerns;
     outreachAngle := outreachAngle |}.




(* ------------------------------------------------------------------ *)
(** ** config.ts *)

Module BrowserVerificationMode.
Inductive t : Type := high_only | always.
End BrowserVerificationMode.

Record RecruitingConfig : Type := {
  cfg_enabled : bool;
  cfg_store_path : string;
  cfg_minConfidenceForShortlist : Q;
  cfg_targetCandidatesPerRole : Z;
  cfg_defaultCadence : string;
  cfg_browserVerification_enabled : bool;
  cfg_browserVerification_mode : BrowserVerificationMode.t;
  cfg_promotion_minProofLinks : option Z
}.

(** The raw [tools.recruiting] values the resolver reads; a field is
    [Some] when [typeof] finds a value of the expected type. *)
Record RawRecruitingConfig : Type := {
  raw_enabled : bool;
  raw_store_path : string;
  raw_minConfidenceForShortlist : option number;
  raw_targetCandidatesPerRole : option number;
  raw_defaultCadence : string;
  raw_browserVerification_enabled : bool;
  raw_browserVerification_mode : option string;
  raw_promotion_minProofLinks : option number
}.

Definition clampNumber (value : option number) (min max fallback : Q) : Q :=
  match value with
  | Some (Fin v) => Math_min max (Math_max min v)
  | _ => fallback
  end.

Definition resolveRecruitingConfig (raw : RawRecruitingConfig) (stateDir : string)
  : RecruitingConfig :=
  let configuredPath := trim (raw_store_path raw) in
  let cadenceRaw := trim (raw_defaultCadence raw) in
  let modeRaw := match raw_browserVerification_mode raw with
                 | Some m => toLowerCase (trim m)
                 | None => ""
                 end in
  {| cfg_enabled := raw_enabled raw;
     cfg_store_path :=
       if String.eqb configuredPath ""
       then stateDir ++ "/recruiting/candidates.sqlite"
       else configuredPath;
     cfg_minConfidenceForShortlist :=
       clampNumber (raw_minConfidenceForShortlist raw) 0 1 (8 # 10);
     cfg_targetCandidatesPerRole :=
       Math_trunc (clampNumber (raw_targetCandidatesPerRole raw) 1 2000 300);
     cfg_defaultCadence := if String.eqb cadenceRaw "" then "0 6 * * *" else cadenceRaw;
     cfg_browserVerification_enabled := raw_browserVerification_enabled raw;
     cfg_browserVerification_mode :=
       if String.eqb modeRaw "always"
       then BrowserVerificationMode.always
       else BrowserVerificationMode.high_only;
     cfg_promotion_minProofLinks :=
       Some (Math_trunc (clampNumber (raw_promotion_minProofLinks raw) 1 10 2)) |}.

(** The configuration resolved from an empty [tools.recruiting] section. *)
Definition default_raw_config : RawRecruitingConfig :=
  {| raw_enabled := true;
     raw_store_path := "";
     raw_minConfidenceForShortlist := None;
     raw_targetCandidatesPerRole := None;
     raw_defaultCadence := "";
     raw_browserVerification_enabled := false;
     raw_browserVerification_mode := None;
     raw_promotion_minProofLinks := None |}.

Definition default_config : RecruitingConfig :=
  resolveRecruitingConfig default_raw_config "/state".

(* ------------------------------------------------------------------ *)
(** ** types.ts *)

Inductive RunStatus : Type := running | completed | failed.

Inductive CandidateReviewStatus : Type :=
| new_review | under_verification | promoted_shortlist | rejected | deferred.

Inductive VerificationOutcome : Type :=
| outcome_confirmed | outcome_rejected | outcome_inconclusive.

Inductive VerificationMethod : Type := browser | api.

Inductive QueryMode : Type := mode_default | mode_broad | mode_strict.

Record CandidatePipelineCounts : Type := {
  sourced : nat;
  enriched : nat;
  enrichFailed : nat;
  externalDiscovered : nat;
  identityConfirmedHigh : nat;
  identityMediumLow : nat;
  count_shortlistEligible : nat
}.

Record CandidatePipelineErrorMessage : Type := {
  em_message : string;
  em_errorType : string;
  em_count : nat
}.

Record CandidatePipelineStageError : Type := {
  se_stage : string;
  se_count : nat;
  se_topMessages : list CandidatePipelineErrorMessage
}.

Record CandidatePipelineSearchQueryUsed : Type := {
  sq_api : string;
  sq_keywords : option string;
  sq_roleKeywords : list string;
  sq_skills : list string;
  sq_companyKeywords : list string;
  sq_location : option string;
  sq_industry : option string;
  sq_networkDistance : list Z;
  sq_pageSize : Z;
  sq_maxPages : Z
}.

Record CandidatePipelineLinkedInAccountHealth : Type := {
  ah_requestedAccountId : option string;
  ah_resolvedAccountId : string;
  ah_unipileAccountId : option string;
  ah_enabled : bool;
  ah_apiKeySource : string;
  ah_missingCredentials : list string;
  ah_recruiterReady : bool
}.

Record FailureDescriptor : Type := {
  fd_stage : string;
  fd_message : string;
  fd_errorType : string
}.

Record CandidatePipelineDiagnostics : Type := {
  diag_counts : CandidatePipelineCounts;
  diag_errorsByStage : list CandidatePipelineStageError;
  diag_searchQueryUsed : CandidatePipelineSearchQueryUsed;
  diag_sourceQueryMode : QueryMode;
  diag_evidenceQueryMode : QueryMode;
  diag_accountHealth : CandidatePipelineLinkedInAccountHealth;
  diag_failure : option FailureDescriptor
}.

Record CandidatePipelineStatus : Type := {
  status_runId : string;
  status_status : RunStatus;
  status_startedAt : Z;
  status_finishedAt : option Z;
  status_targetCandidates : Q;
  status_roleKey : string;
  status_roleTitle : string;
  status_diagnostics : option CandidatePipelineDiagnostics
}.

Record CandidatePipelineResultRow : Type := {
  row_candidateId : string;
  row_name : string;
  row_headline : option string;
  row_location : option string;
  row_totalScore : Q;
  row_shortlistEligible : bool;
  row_identityBand : IdentityBand;
  row_identityConfidence : Q;
  row_outreachAngle : string;
  row_topEvidence : list CandidateEvidenceLink;
  row_concerns : list string
}.

Record ResultsMeta : Type := {
  meta_generatedAt : Z;
  meta_totalCandidates : nat;
  meta_shortlistCount : nat;
  meta_reviewCount : nat;
  meta_counts : option CandidatePipelineCounts;
  meta_errorsByStage : option (list CandidatePipelineStageError);
  meta_searchQueryUsed : option CandidatePipelineSearchQueryUsed;
  meta_modes : option (QueryMode * QueryMode);
  meta_accountHealth : option CandidatePipelineLinkedInAccountHealth;
  meta_failure : option FailureDescriptor
}.

Record CandidatePipelineResults : Type := {
  res_runId : string;
  res_shortlist : list CandidatePipelineResultRow;
  res_reviewQueue : list CandidatePipelineResultRow;
  res_meta : ResultsMeta
}.

Record CandidateRecord : Type := {
  cr_providerId : option string;
  cr_publicIdentifier : option string;
  cr_profileUrl : option string;
  cr_name : option string;
  cr_headline : option string;
  cr_location : option string;
  cr_currentCompany : option string;
  cr_currentRole : option string
}.

(* ------------------------------------------------------------------ *)
(** ** Thrown values *)

(** What a [catch] clause can receive: the pipeline's own stage error, any
    other [Error] instance (with its [name] and [message]), or a value
    that is not an [Error] (with its [String(err)] text). *)
Inductive Thrown : Type :=
| PipelineStageError (stage message errorType : string) (retryable : bool)
| JsError (name message : string)
| NonError (text : string).

Inductive Result (A : Type) : Type :=
| Ok (a : A)
| Throw (e : Thrown).

Arguments Ok {A} a.
Arguments Throw {A} e.

(** The error [node:sqlite] raises for a failed statement. *)
Definition sqlite_error (message : string) : Thrown := JsError "Error" message.


(* ------------------------------------------------------------------ *)
(** ** LinkedIn search types (linkedin/search.js), as the pipeline reads them *)

Record SearchFilter : Type := {
  f_keywords : option string;
  f_id : option string;
  f_name : option string
}.

Record TalentSearchParams : Type := {
  ts_api : option string;
  ts_keywords : option string;
  ts_role : option (list SearchFilter);
  ts_skills : option (list SearchFilter);
  ts_company : option (list SearchFilter);
  ts_location : option string;
  ts_industry : option string;
  ts_network_distance : option (list Z);
  ts_accountId : option string
}.

Record TalentCandidate : Type := {
  tc_provider_id : string;
  tc_public_identifier : option string;
  tc_public_profile_url : option string;
  tc_profile_url : option string;
  tc_name : string;
  tc_headline : option string;
  tc_location : option string;
  tc_current_company : option string;
  tc_current_role : option string;
  tc_skills : list string
}.

Record RunCriteria : Type := {
  crit_search : TalentSearchParams;
  crit_source_query_mode : QueryMode;
  crit_evidence_query_mode : QueryMode
}.

(* ------------------------------------------------------------------ *)
(** ** store.ts: the tables *)

Record PipelineRunRow : Type := {
  run_id : string;
  run_idempotency_key : option string;
  run_status : RunStatus;
  run_started_at : Z;
  run_finished_at : option Z;
  run_target_candidates : Q;
  run_role_key : string;
  run_role_title : string;
  run_config_json : option RecruitingConfig;
  run_summary_json : option CandidatePipelineDiagnostics
}.

Record RunRoleRow : Type := {
  rr_run_id : string;
  rr_role_key : string;
  rr_role_title : string;
  rr_criteria_json : option RunCriteria;
  rr_status : RunStatus;
  rr_started_at : Z;
  rr_finished_at : option Z
}.

Record CandidateRow : Type := {
  cand_id : string;
  cand_provider : string;
  cand_provider_id : option string;
  cand_public_identifier : option string;
  cand_normalized_profile_url_hash : option string;
  cand_full_name : option string;
  cand_headline : option string;
  cand_location : option string;
  cand_current_company : option string;
  cand_current_role : option string;
  cand_first_seen_at : Z;
  cand_last_seen_at : Z
}.

Record SourceRecordRow : Type := {
  src_candidate_id : string;
  src_run_id : string;
  src_source : string;
  src_source_rank : Z;
  src_raw_json : TalentCandidate;
  src_created_at : Z
}.

Record IdentityRow : Type := {
  idn_candidate_id : string;
  idn_platform : string;
  idn_handle : option string;
  idn_url : option string;
  idn_confidence : Q;
  idn_band : IdentityBand;
  idn_reasons_json : list string;
  idn_confirmed : bool;
  idn_created_at : Z;
  idn_updated_at : Z
}.

Record SignalRow : Type := {
  sg_candidate_id : string;
  sg_signal_key : string;
  sg_signal_value : option string;
  sg_numeric_value : option number;
  sg_observed_at : Z;
  sg_source : string;
  sg_details_json : option SignalDetails
}.

Record ScoreRow : Type := {
  sc_candidate_id : string;
  sc_run_id : string;
  sc_total_score : Q;
  sc_breakdown_json : CandidateScoreBreakdown;
  sc_concerns_json : list string;
  sc_shortlist_eligible : bool;
  sc_outreach_angle : option string;
  sc_created_at : Z
}.

Record EvidenceRow : Type := {
  evl_candidate_id : string;
  evl_run_id : string;
  evl_url : string;
  evl_title : option string;
  evl_source : string;
  evl_relevance : option Q;
  evl_created_at : Z
}.

Record FailureRow : Type := {
  fl_run_id : string;
  fl_step : string;
  fl_candidate_ref : option string;
  fl_error_type : string;
  fl_message : string;
  fl_retryable : bool;
  fl_created_at : Z;
  fl_payload_json : option string
}.

Record ReviewRow : Type := {
  rv_candidate_id : string;
  rv_run_id : string;
  rv_status : CandidateReviewStatus;
  rv_priority : Z;
  rv_notes : option string;
  rv_updated_by : option string;
  rv_created_at : Z;
  rv_updated_at : Z
}.

Record VerificationRow : Type := {
  vf_candidate_id : string;
  vf_run_id : string;
  vf_method : VerificationMethod;
  vf_outcome : VerificationOutcome;
  vf_identity_confidence_before : option Q;
  vf_identity_confidence_after : option Q;
  vf_proof_json : list string;
  vf_notes : option string;
  vf_created_at : Z
}.

Record PromotionRow : Type := {
  pr_candidate_id : string;
  pr_run_id : string;
  pr_promotion_reason : string;
  pr_confidence_override : option Q;
  pr_outreach_angle : option string;
  pr_proof_json : list string;
  pr_promoted_at : Z;
  pr_promoted_by : option string
}.

(** The database: every table of [ensureSchema] the pipeline reads or
    writes, each as its rows in rowid order. *)
Record Store : Type := {
  pipeline_runs : list PipelineRunRow;
  run_roles : list RunRoleRow;
  candidates : list CandidateRow;
  candidate_source_records : list SourceRecordRow;
  candidate_identities : list IdentityRow;
  candidate_signals : list SignalRow;
  candidate_scores : list ScoreRow;
  candidate_evidence_links : list EvidenceRow;
  run_failures : list FailureRow;
  candidate_reviews : list ReviewRow;
  candidate_verifications : list VerificationRow;
  candidate_promotions : list PromotionRow
}.

Definition empty_store : Store :=
  {| pipeline_runs := []; run_roles := []; candidates := [];
     candidate_source_records := []; candidate_identities := [];
     candidate_signals := []; candidate_scores := [];
     candidate_evidence_links := []; run_failures := [];
     candidate_reviews := []; candidate_verifications := [];
     candidate_promotions := [] |}.

Definition with_pipeline_runs (v : list PipelineRunRow) (s : Store) : Store :=
  {| pipeline_runs := v; run_roles := run_roles s; candidates := candidates s;
     candidate_source_records := candidate_source_records s;
     candidate_identities := candidate_identities s;
     candidate_signals := candidate_signals s; candidate_scores := candidate_scores s;
     candidate_evidence_links := candidate_evidence_links s;
     run_failures := run_failures s; candidate_reviews := candidate_reviews s;
     candidate_verifications := candidate_verifications s;
     candidate_promotions := candidate_promotions s |}.

Definition with_run_roles (v : list RunRoleRow) (s : Store) : Store :=
  {| pipeline_runs := pipeline_runs s; run_roles := v; candidates := candidates s;
     candidate_source_records := candidate_source_records s;
     candidate_identities := candidate_identities s;
     candidate_signals := candidate_signals s; candidate_scores := candidate_scores s;
     candidate_evidence_links := candidate_evidence_links s;
     run_failures := run_failures s; candidate_reviews := candidate_reviews s;
     candidate_verifications := candidate_verifications s;
     candidate_promotions := candidate_promotions s |}.

Definition with_candidates (v : list CandidateRow) (s : Store) : Store :=
  {| pipeline_runs := pipeline_runs s; run_roles := run_roles s; candidates := v;
     candidate_source_records := candidate_source_records s;
     candidate_identities := candidate_identities s;
     candidate_signals := candidate_signals s; candidate_scores := candidate_scores s;
     candidate_evidence_links := candidate_evidence_links s;
     run_failures := run_failures s; candidate_reviews := candidate_reviews s;
     candidate_verifications := candidate_verifications s;
     candidate_promotions := candidate_promotions s |}.

Definition with_candidate_source_records (v : list SourceRecordRow) (s : Store) : Store :=
  {| pipeline_runs := pipeline_runs s; run_roles := run_roles s; candidates := candidates s;
     candidate_source_records := v;
     candidate_identities := candidate_identities s;
     candidate_signals := candidate_signals s; candidate_scores := candidate_scores s;
     candidate_evidence_links := candidate_evidence_links s;
     run_failures := run_failures s; candidate_reviews := candidate_reviews s;
     candidate_verifications := candidate_verifications s;
     candidate_promotions := candidate_promotions s |}.

Definition with_candidate_identities (v : list IdentityRow) (s : Store) : Store :=
  {| pipeline_runs := pipeline_runs s; run_roles := run_roles s; candidates := candidates s;
     candidate_source_records := candidate_source_records s;
     candidate_identities := v;
     candidate_signals := candidate_signals s; candidate_scores := candidate_scores s;
     candidate_evidence_links := candidate_evidence_links s;
     run_failures := run_failures s; candidate_reviews := candidate_reviews s;
     candidate_verifications := candidate_verifications s;
     candidate_promotions := candidate_promotions s |}.

Definition with_candidate_signals (v : list SignalRow) (s : Store) : Store :=
  {| pipeline_runs := pipeline_runs s; run_roles := run_roles s; candidates := candidates s;
     candidate_source_records := candidate_source_records s;
     candidate_identities := candidate_identities s;
     candidate_signals := v; candidate_scores := candidate_scores s;
     candidate_evidence_links := candidate_evidence_links s;
     run_failures := run_failures s; candidate_reviews := candidate_reviews s;
     candidate_verifications := candidate_verifications s;
     candidate_promotions := candidate_promotions s |}.

Definition with_candidate_scores (v : list ScoreRow) (s : Store) : Store :=
  {| pipeline_runs := pipeline_runs s; run_roles := run_roles s; candidates := candidates s;
     candidate_source_records := candidate_source_records s;
     candidate_identities := candidate_identities s;
     candidate_signals := candidate_signals s; candidate_scores := v;
     candidate_evidence_links := candidate_evidence_links s;
     run_failures := run_failures s; candidate_reviews := candidate_reviews s;
     candidate_verifications := candidate_verifications s;
     candidate_promotions := candidate_promotions s |}.

Definition with_candidate_evidence_links (v : list EvidenceRow) (s : Store) : Store :=
  {| pipeline_runs := pipeline_runs s; run_roles := run_roles s; candidates := candidates s;
     candidate_source_records := candidate_source_records s;
     candidate_identities := candidate_identities s;
     candidate_signals := candidate_signals s; candidate_scores := candidate_scores s;
     candidate_evidence_links := v;
     run_failures := run_failures s; candidate_reviews := candidate_reviews s;
     candidate_verifications := candidate_verifications s;
     candidate_promotions := candidate_promotions s |}.

Definition with_run_failures (v : list FailureRow) (s : Store) : Store :=
  {| pipeline_runs := pipeline_runs s; run_roles := run_roles s; candidates := candidates s;
     candidate_source_records := candidate_source_records s;
     candidate_identities := candidate_identities s;
     candidate_signals := candidate_signals s; candidate_scores := candidate_scores s;
     candidate_evidence_links := candidate_evidence_links s;
     run_failures := v; candidate_reviews := candidate_reviews s;
     candidate_verifications := candidate_verifications s;
     candidate_promotions := candidate_promotions s |}.

Definition with_candidate_reviews (v : list ReviewRow) (s : Store) : Store :=
  {| pipeline_runs := pipeline_runs s; run_roles := run_roles s; candidates := candidates s;
     candidate_source_records := candidate_source_records s;
     candidate_identities := candidate_identities s;
     candidate_signals := candidate_signals s; candidate_scores := candidate_scores s;
     candidate_evidence_links := candidate_evidence_links s;
     run_failures := run_failures s; candidate_reviews := v;
     candidate_verifications := candidate_verifications s;
     candidate_promotions := candidate_promotions s |}.

Definition with_candidate_verifications (v : list VerificationRow) (s : Store) : Store :=
  {| pipeline_runs := pipeline_runs s; run_roles := run_roles s; candidates := candidates s;
     candidate_source_records := candidate_source_records s;
     candidate_identities := candidate_identities s;
     candidate_signals := candidate_signals s; candidate_scores := candidate_scores s;
     candidate_evidence_links := candidate_evidence_links s;
     run_failures := run_failures s; candidate_reviews := candidate_reviews s;
     candidate_verifications := v;
     candidate_promotions := candidate_promotions s |}.

Definition with_candidate_promotions (v : list PromotionRow) (s : Store) : Store :=
  {| pipeline_runs := pipeline_runs s; run_roles := run_roles s; candidates := candidates s;
     candidate_source_records := candidate_source_records s;
     candidate_identities := candidate_identities s;
     candidate_signals := candidate_signals s; candidate_scores := candidate_scores s;
     candidate_evidence_links := candidate_evidence_links s;
     run_failures := run_failures s; candidate_reviews := candidate_reviews s;
     candidate_verifications := candidate_verifications s;
     candidate_promotions := v |}.


(* ------------------------------------------------------------------ *)
(** ** store.ts: statements *)

(** An effectful computation over a state [S]: it returns or throws, and
    leaves a state behind. *)
Definition Eff (S A : Type) : Type := S -> Result A * S.

Definition ret {S A} (a : A) : Eff S A := fun s => (Ok a, s).

Definition throw {S A} (e : Thrown) : Eff S A := fun s => (Throw e, s).

Definition bind {S A B} (m : Eff S A) (k : A -> Eff S B) : Eff S B :=
  fun s =>
    match m s with
    | (Ok a, s') => k a s'
    | (Throw e, s') => (Throw e, s')
    end.

Definition query {S A} (f : S -> A) : Eff S A := fun s => (Ok (f s), s).

Definition exec {S} (f : S -> S) : Eff S unit := fun s => (Ok tt, f s).

(** [try { body } catch (err) { handler(err) }] *)
Definition try_catch {S A} (body : Eff S A) (handler : Thrown -> Eff S A) : Eff S A :=
  fun s =>
    match body s with
    | (Ok a, s') => (Ok a, s')
    | (Throw e, s') => handler e s'
    end.

Notation "x <- m ;; k" := (bind m (fun x => k))
  (at level 61, m at next level, right associativity).
Notation "m ;;; k" := (bind m (fun _ => k))
  (at level 61, right associativity).

(** A store operation. Statements run in autocommit mode, so what an
    operation wrote before it threw stays written unless the operation
    rolls back itself. *)
Definition DB (A : Type) : Type := Eff Store A.

(** [column = ?]: a NULL on either side never compares equal. *)
Definition sql_eq (column param : option string) : bool :=
  match column, param with
  | Some a, Some b => String.eqb a b
  | _, _ => false
  end.

(** [ORDER BY]: a stable insertion sort; [before a b] says that [a] sorts
    strictly before [b]. *)
Fixpoint insert_by {A} (before : A -> A -> bool) (a : A) (l : list A) : list A :=
  match l with
  | [] => [a]
  | b :: t => if before b a then b :: insert_by before a t else a :: b :: t
  end.

Definition order_by {A} (before : A -> A -> bool) (l : list A) : list A :=
  fold_right (insert_by before) [] l.

(** [LIMIT n] *)
Definition limit {A} (n : Z) (l : list A) : list A := firstn (Z.to_nat n) l.

Definition run_exists (id : string) (s : Store) : bool :=
  existsb (fun r => String.eqb (run_id r) id) (pipeline_runs s).

Definition candidate_exists (id : string) (s : Store) : bool :=
  existsb (fun c => String.eqb (cand_id c) id) (candidates s).

Definition foreign_key_failed : Thrown :=
  sqlite_error "FOREIGN KEY constraint failed".

Definition unique_failed (columns : string) : Thrown :=
  sqlite_error ("UNIQUE constraint failed: " ++ columns).

(** The check every child table with both foreign keys shares. *)
Definition references_ok (candidateId runId : string) (s : Store) : bool :=
  candidate_exists candidateId s && run_exists runId s.

Record BeginRunParams : Type := {
  br_runId : option string;
  br_idempotencyKey : option string;
  br_roleKey : string;
  br_roleTitle : string;
  br_targetCandidates : Q;
  br_config : option RecruitingConfig;
  br_criteria : option RunCriteria
}.

Record RunInfo : Type := {
  runId : string;
  resumed : bool
}.

Record CandidateDetail : Type := {
  detail_candidate : CandidateRow;
  detail_identities : list IdentityRow;
  detail_evidence : list EvidenceRow;
  detail_scores : list ScoreRow
}.

Record ReviewParams : Type := {
  rp_candidateId : string;
  rp_runId : string;
  rp_status : CandidateReviewStatus;
  rp_priority : option Z;
  rp_notes : option string;
  rp_updatedBy : option string
}.

Record VerificationParams : Type := {
  vp_candidateId : string;
  vp_runId : string;
  vp_method : VerificationMethod;
  vp_outcome : VerificationOutcome;
  vp_identityConfidenceBefore : option Q;
  vp_identityConfidenceAfter : option Q;
  vp_proofLinks : list string;
  vp_notes : option string
}.

Record PromotionParams : Type := {
  pp_candidateId : string;
  pp_runId : string;
  pp_promotionReason : string;
  pp_confidenceOverride : option Q;
  pp_outreachAngle : option string;
  pp_proofLinks : list string;
  pp_promotedBy : option string
}.

Record FailureParams : Type := {
  fp_runId : string;
  fp_step : string;
  fp_candidateRef : option string;
  fp_errorType : string;
  fp_message : string;
  fp_retryable : bool;
  fp_payload : option string
}.

Module CandidateStore.

(** [INSERT INTO pipeline_runs]: [id] is the primary key and
    [idempotency_key] is UNIQUE (NULL keys never collide). *)
Definition insert_pipeline_run (row : PipelineRunRow) : DB unit :=
  fun s =>
    if existsb (fun r => String.eqb (run_id r) (run_id row)) (pipeline_runs s)
    then (Throw (unique_failed "pipeline_runs.id"), s)
    else if existsb (fun r => sql_eq (run_idempotency_key r) (run_idempotency_key row))
                    (pipeline_runs s)
    then (Throw (unique_failed "pipeline_runs.idempotency_key"), s)
    else (Ok tt, with_pipeline_runs (push (pipeline_runs s) row) s).

(** [INSERT INTO run_roles]: UNIQUE(run_id, role_key), and [run_id]
    references [pipeline_runs(id)]. *)
Definition insert_run_role (row : RunRoleRow) : DB unit :=
  fun s =>
    if existsb (fun r => String.eqb (rr_run_id r) (rr_run_id row)
                         && String.eqb (rr_role_key r) (rr_role_key row))
               (run_roles s)
    then (Throw (unique_failed "run_roles.run_id, run_roles.role_key"), s)
    else if negb (run_exists (rr_run_id row) s)
    then (Throw foreign_key_failed, s)
    else (Ok tt, with_run_roles (push (run_roles s) row) s).

(** [SELECT id, status FROM pipeline_runs WHERE idempotency_key = ?
     ORDER BY started_at DESC LIMIT 1] *)
Definition select_run_by_key (key : option string) (s : Store) : option PipelineRunRow :=
  hd_error
    (order_by (fun a b => (run_started_at b <? run_started_at a)%Z)
       (filter (fun r => sql_eq (run_idempotency_key r) key) (pipeline_runs s))).

Definition resumable (status : RunStatus) : bool :=
  match status with
  | running | completed => true
  | failed => false
  end.

(** The two INSERTs that create a run and its role row. *)
Definition insert_run (now : Z) (runId : string) (params : BeginRunParams)
  : DB RunInfo :=
  insert_pipeline_run
    {| run_id := runId;
       run_idempotency_key := br_idempotencyKey params;
       run_status := running;
       run_started_at := now;
       run_finished_at := None;
       run_target_candidates := br_targetCandidates params;
       run_role_key := br_roleKey params;
       run_role_title := br_roleTitle params;
       run_config_json := br_config params;
       run_summary_json := None |} ;;;
  insert_run_role
    {| rr_run_id := runId;
       rr_role_key := br_roleKey params;
       rr_role_title := br_roleTitle params;
       rr_criteria_json := br_criteria params;
       rr_status := running;
       rr_started_at := now;
       rr_finished_at := None |} ;;;
  ret {| runId := runId; resumed := false |}.

Definition beginRun (now : Z) (randomUUID : string) (params : BeginRunParams)
  : DB RunInfo :=
  existing <- query (fun s =>
                if truthy (br_idempotencyKey params)
                then select_run_by_key (br_idempotencyKey params) s
                else None) ;;
  let runId := if truthy (br_runId params)
               then nullish (br_runId params) "" else randomUUID in
  match existing with
  | Some row =>
      if resumable (run_status row)
      then ret {| runId := run_id row; resumed := true |}
      else insert_run now runId params
  | None => insert_run now runId params
  end.

Definition finish_run (status : RunStatus) (now : Z)
           (summary : option CandidatePipelineDiagnostics) (r : PipelineRunRow)
  : PipelineRunRow :=
  {| run_id := run_id r;
     run_idempotency_key := run_idempotency_key r;
     run_status := status;
     run_started_at := run_started_at r;
     run_finished_at := Some now;
     run_target_candidates := run_target_candidates r;
     run_role_key := run_role_key r;
     run_role_title := run_role_title r;
     run_config_json := run_config_json r;
     run_summary_json := summary |}.

Definition finish_run_role (status : RunStatus) (now : Z) (r : RunRoleRow) : RunRoleRow :=
  {| rr_run_id := rr_run_id r;
     rr_role_key := rr_role_key r;
     rr_role_title := rr_role_title r;
     rr_criteria_json := rr_criteria_json r;
     rr_status := status;
     rr_started_at := rr_started_at r;
     rr_finished_at := Some now |}.

(** [UPDATE pipeline_runs SET status=?, finished_at=?, summary_json=?
     WHERE id=?] and the matching update of [run_roles]. *)
Definition mark_run (status : RunStatus) (now : Z) (runId : string)
           (summary : option CandidatePipelineDiagnostics) : DB unit :=
  exec (fun s =>
          with_pipeline_runs
            (map (fun r => if String.eqb (run_id r) runId
                           then finish_run status now summary r else r)
                 (pipeline_runs s)) s) ;;;
  exec (fun s =>
          with_run_roles
            (map (fun r => if String.eqb (rr_run_id r) runId
                           then finish_run_role status now r else r)
                 (run_roles s)) s).

Definition markRunCompleted (now : Z) (runId : string)
           (summary : option CandidatePipelineDiagnostics) : DB unit :=
  mark_run completed now runId summary.

Definition markRunFailed (now : Z) (runId : string)
           (summary : option CandidatePipelineDiagnostics) : DB unit :=
  mark_run failed now runId summary.

Definition recordFailure (now : Z) (params : FailureParams) : DB unit :=
  fun s =>
    if negb (run_exists (fp_runId params) s)
    then (Throw foreign_key_failed, s)
    else (Ok tt,
          with_run_failures
            (push (run_failures s)
               {| fl_run_id := fp_runId params;
                  fl_step := fp_step params;
                  fl_candidate_ref := fp_candidateRef params;
                  fl_error_type := fp_errorType params;
                  fl_message := fp_message params;
                  fl_retryable := fp_retryable params;
                  fl_created_at := now;
                  fl_payload_json := fp_payload params |}) s).

Definition normalizeProfileUrl (value : option string) : option string :=
  if negb (truthy value) then None
  else
    let trimmed := toLowerCase (trim (nullish value "")) in
    if String.eqb trimmed "" then None
    else
      let withoutQuery := beforeFirst "?"%char trimmed in
      Some (if endsWith withoutQuery "/" then dropLast withoutQuery else withoutQuery).

Definition buildCandidateId (randomUUID : string)
           (providerId publicIdentifier normalizedProfileUrlHash : option string)
  : string :=
  if truthy providerId then "li:" ++ nullish providerId ""
  else if truthy publicIdentifier then "li_pub:" ++ nullish publicIdentifier ""
  else if truthy normalizedProfileUrlHash
  then "li_url:" ++ substring 0 24 (nullish normalizedProfileUrlHash "")
  else "li_rand:" ++ randomUUID.

(** The three UNIQUE constraints of [candidates], checked against the
    rows other than the one being written. *)
Definition candidate_unique_violation (row : CandidateRow) (others : list CandidateRow)
  : option Thrown :=
  if existsb (fun c => String.eqb (cand_provider c) (cand_provider row)
                       && sql_eq (cand_provider_id c) (cand_provider_id row)) others
  then Some (unique_failed "candidates.provider, candidates.provider_id")
  else if existsb (fun c => String.eqb (cand_provider c) (cand_provider row)
                            && sql_eq (cand_public_identifier c)
                                      (cand_public_identifier row)) others
  then Some (unique_failed "candidates.provider, candidates.public_identifier")
  else if existsb (fun c => String.eqb (cand_provider c) (cand_provider row)
                            && sql_eq (cand_normalized_profile_url_hash c)
                                      (cand_normalized_profile_url_hash row)) others
  then Some (unique_failed "candidates.provider, candidates.normalized_profile_url_hash")
  else None.

(** [INSERT INTO candidates ... ON CONFLICT(id) DO UPDATE SET ...]:
    the update keeps [id], [provider] and [first_seen_at]. *)
Definition upsert_candidate_row (row : CandidateRow) : DB unit :=
  fun s =>
    let others := filter (fun c => negb (String.eqb (cand_id c) (cand_id row)))
                         (candidates s) in
    match candidate_unique_violation row others with
    | Some e => (Throw e, s)
    | None =>
        if candidate_exists (cand_id row) s
        then (Ok tt,
              with_candidates
                (map (fun c =>
                        if String.eqb (cand_id c) (cand_id row)
                        then {| cand_id := cand_id c;
                                cand_provider := cand_provider c;
                                cand_provider_id := cand_provider_id row;
                                cand_public_identifier := cand_public_identifier row;
                                cand_normalized_profile_url_hash :=
                                  cand_normalized_profile_url_hash row;
                                cand_full_name := cand_full_name row;
                                cand_headline := cand_headline row;
                                cand_location := cand_location row;
                                cand_current_company := cand_current_company row;
                                cand_current_role := cand_current_role row;
                                cand_first_seen_at := cand_first_seen_at c;
                                cand_last_seen_at := cand_last_seen_at row |}
                        else c)
                     (candidates s)) s)
        else (Ok tt, with_candidates (push (candidates s) row) s)
    end.

Definition upsertCandidate (now : Z) (hashUrl : string -> string) (randomUUID : string)
           (input : CandidateRecord) : DB (string * option string) :=
  let normalizedProfileUrl := normalizeProfileUrl (cr_profileUrl input) in
  let normalizedProfileUrlHash :=
    if truthy normalizedProfileUrl
    then option_map hashUrl normalizedProfileUrl else None in
  existing <- query (fun s =>
                find (fun c =>
                        (String.eqb (cand_provider c) "linkedin"
                         && sql_eq (cand_provider_id c) (cr_providerId input))
                        || (String.eqb (cand_provider c) "linkedin"
                            && sql_eq (cand_public_identifier c) (cr_publicIdentifier input))
                        || (String.eqb (cand_provider c) "linkedin"
                            && sql_eq (cand_normalized_profile_url_hash c)
                                      normalizedProfileUrlHash))
                     (candidates s)) ;;
  let candidateId :=
    match existing with
    | Some c => cand_id c
    | None => buildCandidateId randomUUID (cr_providerId input)
                (cr_publicIdentifier input) normalizedProfileUrlHash
    end in
  upsert_candidate_row
    {| cand_id := candidateId;
       cand_provider := "linkedin";
       cand_provider_id := cr_providerId input;
       cand_public_identifier := cr_publicIdentifier input;
       cand_normalized_profile_url_hash := normalizedProfileUrlHash;
       cand_full_name := cr_name input;
       cand_headline := cr_headline input;
       cand_location := cr_location input;
       cand_current_company := cr_currentCompany input;
       cand_current_role := cr_currentRole input;
       cand_first_seen_at := now;
       cand_last_seen_at := now |} ;;;
  ret (candidateId, normalizedProfileUrlHash).


(** [INSERT OR IGNORE INTO candidate_source_records]: a row that
    collides on UNIQUE(candidate_id, run_id, source, source_rank) is
    skipped; a foreign-key failure still aborts. *)
Definition addSourceRecord (now : Z) (candidateId runId source : string) (sourceRank : Z)
           (raw : TalentCandidate) : DB unit :=
  fun s =>
    if existsb (fun r => String.eqb (src_candidate_id r) candidateId
                         && String.eqb (src_run_id r) runId
                         && String.eqb (src_source r) source
                         && (src_source_rank r =? sourceRank)%Z)
               (candidate_source_records s)
    then (Ok tt, s)
    else if negb (references_ok candidateId runId s)
    then (Throw foreign_key_failed, s)
    else (Ok tt,
          with_candidate_source_records
            (push (candidate_source_records s)
               {| src_candidate_id := candidateId;
                  src_run_id := runId;
                  src_source := source;
                  src_source_rank := sourceRank;
                  src_raw_json := raw;
                  src_created_at := now |}) s).

(** The [DO UPDATE SET ...] of an identity: it keeps [created_at]. *)
Definition updated_identity (now : Z) (handle url : option string)
           (resolution : IdentityResolution) (r : IdentityRow) : IdentityRow :=
  {| idn_candidate_id := idn_candidate_id r;
     idn_platform := idn_platform r;
     idn_handle := handle;
     idn_url := url;
     idn_confidence := confidence resolution;
     idn_band := band resolution;
     idn_reasons_json := reasons resolution;
     idn_confirmed := shortlistEligible resolution;
     idn_created_at := idn_created_at r;
     idn_updated_at := now |}.

Definition inserted_identity (now : Z) (candidateId platform : string)
           (handle url : option string) (resolution : IdentityResolution) : IdentityRow :=
  {| idn_candidate_id := candidateId;
     idn_platform := platform;
     idn_handle := handle;
     idn_url := url;
     idn_confidence := confidence resolution;
     idn_band := band resolution;
     idn_reasons_json := reasons resolution;
     idn_confirmed := shortlistEligible resolution;
     idn_created_at := now;
     idn_updated_at := now |}.

(** [INSERT INTO candidate_identities ... ON CONFLICT(candidate_id,
    platform) DO UPDATE SET ...] *)
Definition upsertIdentity (now : Z) (candidateId platform : string)
           (handle url : option string) (resolution : IdentityResolution) : DB unit :=
  fun s =>
    let same := fun r => String.eqb (idn_candidate_id r) candidateId
                         && String.eqb (idn_platform r) platform in
    if existsb same (candidate_identities s)
    then (Ok tt,
          with_candidate_identities
            (map (fun r => if same r then updated_identity now handle url resolution r else r)
                 (candidate_identities s)) s)
    else if negb (candidate_exists candidateId s)
    then (Throw foreign_key_failed, s)
    else (Ok tt,
          with_candidate_identities
            (push (candidate_identities s)
               (inserted_identity now candidateId platform handle url resolution)) s).

(** [BEGIN; ...; COMMIT], with [ROLLBACK] and a re-throw on failure. *)
Definition transaction {A} (body : DB A) : DB A :=
  fun s =>
    match body s with
    | (Ok a, s') => (Ok a, s')
    | (Throw e, _) => (Throw e, s)
    end.

Fixpoint for_each {A} (f : A -> DB unit) (items : list A) : DB unit :=
  match items with
  | [] => ret tt
  | a :: rest => f a ;;; for_each f rest
  end.

Definition insert_signal (now : Z) (candidateId : string) (signal : CandidateSignal)
  : DB unit :=
  fun s =>
    if negb (candidate_exists candidateId s)
    then (Throw foreign_key_failed, s)
    else (Ok tt,
          with_candidate_signals
            (push (candidate_signals s)
               {| sg_candidate_id := candidateId;
                  sg_signal_key := sig_key signal;
                  sg_signal_value := sig_value signal;
                  sg_numeric_value := sig_numericValue signal;
                  sg_observed_at := now;
                  sg_source := sig_source signal;
                  sg_details_json := sig_details signal |}) s).

Definition addSignals (now : Z) (candidateId : string) (signals : list CandidateSignal)
  : DB unit :=
  if (List.length signals =? 0)%nat then ret tt
  else transaction (for_each (insert_signal now candidateId) signals).

Definition score_row (now : Z) (candidateId runId : string) (score : CandidateScore)
  : ScoreRow :=
  {| sc_candidate_id := candidateId;
     sc_run_id := runId;
     sc_total_score := total score;
     sc_breakdown_json := breakdown score;
     sc_concerns_json := concerns score;
     sc_shortlist_eligible := score_shortlistEligible score;
     sc_outreach_angle := Some (outreachAngle score);
     sc_created_at := now |}.

(** [INSERT INTO candidate_scores ... ON CONFLICT(candidate_id, run_id)
    DO UPDATE SET ...]: the update rewrites every column of the row. *)
Definition upsertScore (now : Z) (candidateId runId : string) (score : CandidateScore)
  : DB unit :=
  fun s =>
    let same := fun r => String.eqb (sc_candidate_id r) candidateId
                         && String.eqb (sc_run_id r) runId in
    if existsb same (candidate_scores s)
    then (Ok tt,
          with_candidate_scores
            (map (fun r => if same r then score_row now candidateId runId score else r)
                 (candidate_scores s)) s)
    else if negb (references_ok candidateId runId s)
    then (Throw foreign_key_failed, s)
    else (Ok tt,
          with_candidate_scores
            (push (candidate_scores s) (score_row now candidateId runId score)) s).

(** [INSERT OR IGNORE INTO candidate_evidence_links], keyed by
    UNIQUE(candidate_id, run_id, url). *)
Definition insert_evidence_link (now : Z) (candidateId runId : string)
           (link : CandidateEvidenceLink) : DB unit :=
  fun s =>
    if existsb (fun r => String.eqb (evl_candidate_id r) candidateId
                         && String.eqb (evl_run_id r) runId
                         && String.eqb (evl_url r) (ev_url link))
               (candidate_evidence_links s)
    then (Ok tt, s)
    else if negb (references_ok candidateId runId s)
    then (Throw foreign_key_failed, s)
    else (Ok tt,
          with_candidate_evidence_links
            (push (candidate_evidence_links s)
               {| evl_candidate_id := candidateId;
                  evl_run_id := runId;
                  evl_url := ev_url link;
                  evl_title := ev_title link;
                  evl_source := ev_source link;
                  evl_relevance := ev_relevance link;
                  evl_created_at := now |}) s).

Definition addEvidenceLinks (now : Z) (candidateId runId : string)
           (links : list CandidateEvidenceLink) : DB unit :=
  if (List.length links =? 0)%nat then ret tt
  else transaction (for_each (insert_evidence_link now candidateId runId) links).

Definition getRunStatus (runId : string) : DB (option CandidatePipelineStatus) :=
  query (fun s =>
           option_map
             (fun row =>
                {| status_runId := run_id row;
                   status_status := run_status row;
                   status_startedAt := run_started_at row;
                   status_finishedAt := run_finished_at row;
                   status_targetCandidates := run_target_candidates row;
                   status_roleKey := run_role_key row;
                   status_roleTitle := run_role_title row;
                   status_diagnostics := run_summary_json row |})
             (find (fun r => String.eqb (run_id r) runId) (pipeline_runs s))).


Definition getCandidate (candidateId : string) : DB (option CandidateDetail) :=
  query (fun s =>
           match find (fun c => String.eqb (cand_id c) candidateId) (candidates s) with
           | None => None
           | Some candidate =>
               Some
                 {| detail_candidate := candidate;
                    detail_identities :=
                      order_by (fun a b => negb (Qle_bool (idn_confidence a) (idn_confidence b)))
                        (filter (fun r => String.eqb (idn_candidate_id r) candidateId)
                                (candidate_identities s));
                    detail_evidence :=
                      order_by (fun a b => (evl_created_at b <? evl_created_at a)%Z)
                        (filter (fun r => String.eqb (evl_candidate_id r) candidateId)
                                (candidate_evidence_links s));
                    detail_scores :=
                      order_by (fun a b => (sc_created_at b <? sc_created_at a)%Z)
                        (filter (fun r => String.eqb (sc_candidate_id r) candidateId)
                                (candidate_scores s)) |}
           end).

(** [FROM candidate_scores s JOIN candidates c ON c.id = s.candidate_id
     LEFT JOIN candidate_identities i
       ON i.candidate_id = c.id AND i.platform = 'cross_platform'
     WHERE s.run_id = ?] *)
Definition results_join (runId : string) (s : Store)
  : list (ScoreRow * CandidateRow * option IdentityRow) :=
  flat_map
    (fun sc =>
       flat_map
         (fun c =>
            match filter (fun i => String.eqb (idn_candidate_id i) (cand_id c)
                                   && String.eqb (idn_platform i) "cross_platform")
                         (candidate_identities s) with
            | [] => [(sc, c, None)]
            | matches => map (fun i => (sc, c, Some i)) matches
            end)
         (filter (fun c => String.eqb (cand_id c) (sc_candidate_id sc)) (candidates s)))
    (filter (fun sc => String.eqb (sc_run_id sc) runId) (candidate_scores s)).

Definition score_of (row : ScoreRow * CandidateRow * option IdentityRow) : Q :=
  sc_total_score (fst (fst row)).

(** [ORDER BY s.total_score DESC] *)
Definition score_desc (a b : ScoreRow * CandidateRow * option IdentityRow) : bool :=
  negb (Qle_bool (score_of a) (score_of b)).

(** [ORDER BY relevance DESC, created_at DESC]; SQLite sorts a NULL
    relevance below every number, so it comes last here. *)
Definition relevance_desc (a b : EvidenceRow) : bool :=
  match evl_relevance a, evl_relevance b with
  | Some x, Some y =>
      negb (Qle_bool x y) || (Qeq_bool x y && (evl_created_at b <? evl_created_at a)%Z)
  | Some _, None => true
  | None, Some _ => false
  | None, None => (evl_created_at b <? evl_created_at a)%Z
  end.

(** [SELECT url, title, source, relevance FROM candidate_evidence_links
     WHERE candidate_id = ? AND run_id = ?
     ORDER BY relevance DESC, created_at DESC LIMIT 3] *)
Definition top_evidence (candidateId runId : string) (s : Store) : list EvidenceRow :=
  limit 3
    (order_by relevance_desc
       (filter (fun r => String.eqb (evl_candidate_id r) candidateId
                         && String.eqb (evl_run_id r) runId)
               (candidate_evidence_links s))).

Definition evidence_link_of (entry : EvidenceRow) : CandidateEvidenceLink :=
  {| ev_url := evl_url entry;
     ev_title := evl_title entry;
     ev_source := evl_source entry;
     ev_relevance := evl_relevance entry |}.

Definition result_row (runId : string) (s : Store)
           (row : ScoreRow * CandidateRow * option IdentityRow)
  : CandidatePipelineResultRow :=
  let '(sc, c, i) := row in
  {| row_candidateId := cand_id c;
     row_name := nullish (cand_full_name c) "Unknown";
     row_headline := cand_headline c;
     row_location := cand_location c;
     row_totalScore := sc_total_score sc;
     row_shortlistEligible := sc_shortlist_eligible sc;
     row_identityBand := nullish (option_map idn_band i) LOW;
     row_identityConfidence := nullish (option_map idn_confidence i) 0;
     row_outreachAngle := nullish (sc_outreach_angle sc) "";
     row_topEvidence := map evidence_link_of (top_evidence (cand_id c) runId s);
     row_concerns := sc_concerns_json sc |}.

(** The rows [getResults] selects, in the order the query returns them. *)
Definition result_rows (runId : string) (limitArg : Q) (s : Store)
  : list CandidatePipelineResultRow :=
  map (result_row runId s)
      (limit (Z.max 1 (Math_trunc limitArg))
         (order_by score_desc (results_join runId s))).

Definition getResults (now : Z) (runId : string) (limitArg : Q)
  : DB CandidatePipelineResults :=
  query (fun s =>
           let diagnostics :=
             match find (fun r => String.eqb (run_id r) runId) (pipeline_runs s) with
             | Some runMeta => run_summary_json runMeta
             | None => None
             end in
           let rows := result_rows runId limitArg s in
           let shortlist := filter row_shortlistEligible rows in
           let reviewQueue := filter (fun item => negb (row_shortlistEligible item)) rows in
           {| res_runId := runId;
              res_shortlist := shortlist;
              res_reviewQueue := reviewQueue;
              res_meta :=
                {| meta_generatedAt := now;
                   meta_totalCandidates := List.length rows;
                   meta_shortlistCount := List.length shortlist;
                   meta_reviewCount := List.length reviewQueue;
                   meta_counts := option_map diag_counts diagnostics;
                   meta_errorsByStage := option_map diag_errorsByStage diagnostics;
                   meta_searchQueryUsed := option_map diag_searchQueryUsed diagnostics;
                   meta_modes :=
                     option_map (fun d => (diag_sourceQueryMode d, diag_evidenceQueryMode d))
                                diagnostics;
                   meta_accountHealth := option_map diag_accountHealth diagnostics;
                   meta_failure :=
                     match diagnostics with
                     | Some d => diag_failure d
                     | None => None
                     end |} |}).

(** The [DO UPDATE SET ...] of a review: it keeps [created_at]. *)
Definition updated_review (now : Z) (params : ReviewParams) (r : ReviewRow) : ReviewRow :=
  {| rv_candidate_id := rv_candidate_id r;
     rv_run_id := rv_run_id r;
     rv_status := rp_status params;
     rv_priority := nullish (rp_priority params) 0%Z;
     rv_notes := rp_notes params;
     rv_updated_by := rp_updatedBy params;
     rv_created_at := rv_created_at r;
     rv_updated_at := now |}.

Definition inserted_review (now : Z) (params : ReviewParams) : ReviewRow :=
  {| rv_candidate_id := rp_candidateId params;
     rv_run_id := rp_runId params;
     rv_status := rp_status params;
     rv_priority := nullish (rp_priority params) 0%Z;
     rv_notes := rp_notes params;
     rv_updated_by := rp_updatedBy params;
     rv_created_at := now;
     rv_updated_at := now |}.

(** [INSERT INTO candidate_reviews ... ON CONFLICT(candidate_id, run_id)
    DO UPDATE SET ...] *)
Definition upsertReviewStatus (now : Z) (params : ReviewParams) : DB unit :=
  fun s =>
    let same := fun r => String.eqb (rv_candidate_id r) (rp_candidateId params)
                         && String.eqb (rv_run_id r) (rp_runId params) in
    if existsb same (candidate_reviews s)
    then (Ok tt,
          with_candidate_reviews
            (map (fun r => if same r then updated_review now params r else r)
                 (candidate_reviews s)) s)
    else if negb (references_ok (rp_candidateId params) (rp_runId params) s)
    then (Throw foreign_key_failed, s)
    else (Ok tt,
          with_candidate_reviews
            (push (candidate_reviews s) (inserted_review now params)) s).

Definition getReviewStatus (candidateId runId : string) : DB (option ReviewRow) :=
  query (fun s =>
           find (fun r => String.eqb (rv_candidate_id r) candidateId
                          && String.eqb (rv_run_id r) runId)
                (candidate_reviews s)).

Definition submitVerification (now : Z) (params : VerificationParams) : DB unit :=
  fun s =>
    if negb (references_ok (vp_candidateId params) (vp_runId params) s)
    then (Throw foreign_key_failed, s)
    else (Ok tt,
          with_candidate_verifications
            (push (candidate_verifications s)
               {| vf_candidate_id := vp_candidateId params;
                  vf_run_id := vp_runId params;
                  vf_method := vp_method params;
                  vf_outcome := vp_outcome params;
                  vf_identity_confidence_before := vp_identityConfidenceBefore params;
                  vf_identity_confidence_after := vp_identityConfidenceAfter params;
                  vf_proof_json := vp_proofLinks params;
                  vf_notes := vp_notes params;
                  vf_created_at := now |}) s).

Definition insert_promotion (now : Z) (params : PromotionParams) : DB unit :=
  fun s =>
    if negb (references_ok (pp_candidateId params) (pp_runId params) s)
    then (Throw foreign_key_failed, s)
    else (Ok tt,
          with_candidate_promotions
            (push (candidate_promotions s)
               {| pr_candidate_id := pp_candidateId params;
                  pr_run_id := pp_runId params;
                  pr_promotion_reason := pp_promotionReason params;
                  pr_confidence_override := pp_confidenceOverride params;
                  pr_outreach_angle := pp_outreachAngle params;
                  pr_proof_json := pp_proofLinks params;
                  pr_promoted_at := now;
                  pr_promoted_by := pp_promotedBy params |}) s).

(** [now] is read for the promotion row and [now'] by the nested
    [upsertReviewStatus]. *)
Definition promoteCandidate (now now' : Z) (params : PromotionParams) : DB unit :=
  insert_promotion now params ;;;
  upsertReviewStatus now'
    {| rp_candidateId := pp_candidateId params;
       rp_runId := pp_runId params;
       rp_status := promoted_shortlist;
       rp_priority := None;
       rp_notes := None;
       rp_updatedBy := pp_promotedBy params |}.

(** [SELECT ... FROM candidate_promotions WHERE candidate_id = ? AND
     run_id = ? ORDER BY promoted_at DESC LIMIT 1] *)
Definition getPromotion (candidateId runId : string) : DB (option PromotionRow) :=
  query (fun s =>
           hd_error
             (order_by (fun a b => (pr_promoted_at b <? pr_promoted_at a)%Z)
                (filter (fun r => String.eqb (pr_candidate_id r) candidateId
                                  && String.eqb (pr_run_id r) runId)
                        (candidate_promotions s)))).


End CandidateStore.


(* ------------------------------------------------------------------ *)
(** ** The schema's key constraints as a store invariant *)

(** The non-NULL idempotency keys of a list of runs. *)
Definition run_keys (runs : list PipelineRunRow) : list string :=
  flat_map (fun r => match run_idempotency_key r with
                     | Some k => [k]
                     | None => []
                     end) runs.

Definition evidence_key (r : EvidenceRow) : string * string * string :=
  (evl_candidate_id r, evl_run_id r, evl_url r).

(** [pipeline_runs.id] PRIMARY KEY, [pipeline_runs.idempotency_key]
    UNIQUE, and UNIQUE(candidate_id, run_id, url) on the evidence links. *)
Record schema_ok (s : Store) : Prop := {
  runs_primary_key : NoDup (map run_id (pipeline_runs s));
  runs_key_unique : NoDup (run_keys (pipeline_runs s));
  evidence_unique : NoDup (map evidence_key (candidate_evidence_links s))
}.


(* ------------------------------------------------------------------ *)
(** ** Collaborators of the run orchestrator *)

Record LinkedInAccount : Type := {
  acc_accountId : string;
  acc_unipileAccountId : option string;
  acc_enabled : bool;
  acc_apiKeySource : string
}.

(** The client options built from an account; the pipeline only passes
    them on to the LinkedIn client. *)
Inductive ClientOptions : Type := client_options (account : LinkedInAccount).

Record LinkedInErrorInfo : Type := {
  le_type : string;
  le_isTransient : bool;
  le_message : string
}.

Record SearchRequest : Type := {
  rq_search : TalentSearchParams;
  rq_api : string;
  rq_limit : Z;
  rq_page_size : Z;
  rq_max_pages : Z
}.

Record SearchResult : Type := {
  sr_success : bool;
  sr_candidates : list TalentCandidate;
  sr_error : option string
}.

(** A field of an activity item, of type [unknown] in the source. *)
Inductive JsValue : Type :=
| VNumber (n : number)
| VString (s : string)
| VOther.

Record ActivityItem : Type := {
  item_created_at : option JsValue;
  item_published_at : option JsValue;
  item_timestamp : option JsValue
}.

(** [items] is [None] when the response's [items] is not an array. *)
Record ActivityResponse : Type := {
  items : option (list ActivityItem)
}.

(** [profile.is_open_to_work === true] *)
Record UserProfile : Type := {
  is_open_to_work : bool
}.

Record HandleHint : Type := {
  hint_handle : option string;
  hint_url : option string
}.

Record ExternalIdentityHints : Type := {
  hints_github : option HandleHint;
  hints_x : option HandleHint;
  hints_personalSite : option (option string)
}.

Record ExternalEnrichment : Type := {
  ext_signals : list CandidateSignal;
  ext_evidenceLinks : list CandidateEvidenceLink;
  ext_identityHints : ExternalIdentityHints
}.

Record EnrichRequest : Type := {
  er_evidenceQueryMode : QueryMode;
  er_name : string;
  er_headline : option string;
  er_currentCompany : option string;
  er_publicIdentifier : option string
}.

(** Everything [run] reaches outside the store. A call that can behave
    differently each time takes the number of the call as its first
    argument, so a value of this record is one complete behaviour of the
    outside world. *)
Record Collaborators : Type := {
  Date_now : nat -> Z;
  today : nat -> string;
  randomUUID : nat -> string;
  hashUrl : string -> string;
  Date_parse : string -> number;
  stripAiNativeTerms : string -> string;
  resolveLinkedInAccount : option string -> LinkedInAccount;
  getMissingCredentials : LinkedInAccount -> list string;
  buildClientOptions : LinkedInAccount -> option ClientOptions;
  classifyLinkedInError : Thrown -> LinkedInErrorInfo;
  searchTalent : nat -> SearchRequest -> Result SearchResult;
  getUserProfile : nat -> ClientOptions -> string -> Result UserProfile;
  getUserPosts : nat -> ClientOptions -> string -> Result ActivityResponse;
  getUserComments : nat -> ClientOptions -> string -> Result ActivityResponse;
  getUserReactions : nat -> ClientOptions -> string -> Result ActivityResponse;
  enrichExternalFootprint : nat -> EnrichRequest -> Result ExternalEnrichment
}.

(* ------------------------------------------------------------------ *)
(** ** pipeline.ts: helpers of the run orchestrator *)

(** Template-literal rendering of an integer. *)
Definition string_of_Z (z : Z) : string := NilZero.string_of_int (Z.to_int z).

Definition DEFAULT_PAGE_SIZE : Z := 50.

Inductive Provider : Type := unipile | exa.

(** [err.message] of an [Error], [String(err)] of anything else. *)
Definition thrown_message (err : Thrown) : string :=
  match err with
  | PipelineStageError _ message _ _ => message
  | JsError _ message => message
  | NonError text => text
  end.

Definition isRetryableExternalError (err : Thrown) : bool :=
  let message := toLowerCase (thrown_message err) in
  includes message "429" || includes message "503" || includes message "timeout"
  || includes message "network" || includes message "econn".

(** The stage errors: a [Map] from stage to a [Map] from
    ["errorType:message"] to its aggregate, both in insertion order. *)
Definition StageErrors : Type :=
  list (string * list (string * CandidatePipelineErrorMessage)).

Fixpoint map_get {V} (key : string) (m : list (string * V)) : option V :=
  match m with
  | [] => None
  | (k, v) :: rest => if String.eqb k key then Some v else map_get key rest
  end.

(** [Map.set]: an existing key keeps its position. *)
Fixpoint map_set {V} (key : string) (value : V) (m : list (string * V))
  : list (string * V) :=
  match m with
  | [] => [(key, value)]
  | (k, v) :: rest =>
      if String.eqb k key then (k, value) :: rest else (k, v) :: map_set key value rest
  end.

Definition upsertStageError (map : StageErrors) (stage message errorType : string)
  : StageErrors :=
  let stageMap := nullish (map_get stage map) [] in
  let key := errorType ++ ":" ++ message in
  let stageMap :=
    match map_get key stageMap with
    | Some current =>
        map_set key {| em_message := em_message current;
                       em_errorType := em_errorType current;
                       em_count := S (em_count current) |} stageMap
    | None =>
        map_set key {| em_message := message; em_errorType := errorType; em_count := 1 |}
                stageMap
    end in
  map_set stage stageMap map.

Definition buildStageErrors (map : StageErrors) : list CandidatePipelineStageError :=
  order_by (fun a b => (se_count b <? se_count a)%nat)
    (List.map
       (fun entry =>
          let messages :=
            firstn 3 (order_by (fun a b => (em_count b <? em_count a)%nat)
                               (List.map snd (snd entry))) in
          {| se_stage := fst entry;
             se_count := fold_left (fun sum item => (sum + em_count item)%nat) messages 0%nat;
             se_topMessages := messages |})
       map).

Definition is_stage_error (err : Thrown) : bool :=
  match err with PipelineStageError _ _ _ _ => true | _ => false end.

Record ErrorInfo : Type := {
  info_message : string;
  info_errorType : string;
  info_retryable : bool
}.

Definition classifyRunError (env : Collaborators) (err : Thrown) : ErrorInfo :=
  match err with
  | PipelineStageError _ message errorType retryable =>
      {| info_message := message; info_errorType := errorType; info_retryable := retryable |}
  | _ =>
      let linkedInError := classifyLinkedInError env err in
      if negb (String.eqb (le_type linkedInError) "unknown")
      then {| info_message := le_message linkedInError;
              info_errorType := le_type linkedInError;
              info_retryable := le_isTransient linkedInError |}
      else {| info_message := thrown_message err;
              info_errorType :=
                match err with
                | JsError name _ => if String.eqb name "" then "error" else name
                | _ => "error"
                end;
              info_retryable := isRetryableExternalError err |}
  end.

Definition toNumber (env : Collaborators) (value : option JsValue) : option Q :=
  match value with
  | Some (VNumber (Fin v)) =>
      if negb (Qle_bool v 1000000000000) then Some v
      else if negb (Qle_bool v 1000000000) then Some (v * 1000)
      else None
  | Some (VString text) =>
      if String.eqb (trim text) "" then None
      else match Date_parse env text with
           | Fin parsed => Some parsed
           | _ => None
           end
  | _ => None
  end.

(** [a ?? b] on two optional fields. *)
Definition or_else {A} (a b : option A) : option A :=
  match a with Some _ => a | None => b end.

Definition calcRecentActivityScore (env : Collaborators) (now : Z)
           (activityItems : list ActivityItem) (windowMs : Z) : Q :=
  if (List.length activityItems =? 0)%nat then 0
  else
    let cutoff := inject_Z (now - windowMs) in
    let recentCount :=
      List.length
        (filter (fun ts => Qle_bool cutoff ts)
           (flat_map
              (fun item =>
                 match toNumber env (or_else (item_created_at item)
                                       (or_else (item_published_at item)
                                                (item_timestamp item))) with
                 | Some ts => [ts]
                 | None => []
                 end)
              activityItems)) in
    if (recentCount <=? 0)%nat then 0
    else Math_min 1 (inject_Z (Z.of_nat recentCount) / 12).

Definition buildIdempotencyKey (roleKey : string) (targetCandidates : Z) (date : string)
  : string :=
  roleKey ++ ":" ++ string_of_Z targetCandidates ++ ":" ++ date.


(** [value ? stripAiNativeTerms(value) || undefined : value] *)
Definition strip_keywords (env : Collaborators) (value : option string) : option string :=
  if truthy value
  then let stripped := stripAiNativeTerms env (nullish value "") in
       if String.eqb stripped "" then None else Some stripped
  else value.

Definition strip_filter (env : Collaborators) (f : SearchFilter) : SearchFilter :=
  {| f_keywords := strip_keywords env (f_keywords f);
     f_id := f_id f;
     f_name := f_name f |}.

Definition normalizeSearchForSourceMode (env : Collaborators) (input : TalentSearchParams)
           (mode : QueryMode) : TalentSearchParams :=
  match mode with
  | mode_broad =>
      {| ts_api := ts_api input;
         ts_keywords := strip_keywords env (ts_keywords input);
         ts_role :=
           option_map
             (fun l => filter (fun f => truthy (f_keywords f) || truthy (f_id f))
                              (List.map (strip_filter env) l))
             (ts_role input);
         ts_skills :=
           option_map
             (fun l => filter (fun f => truthy (f_keywords f) || truthy (f_id f))
                              (List.map (strip_filter env) l))
             (ts_skills input);
         ts_company :=
           option_map
             (fun l => filter (fun f => truthy (f_keywords f) || truthy (f_id f)
                                        || truthy (f_name f))
                              (List.map (strip_filter env) l))
             (ts_company input);
         ts_location := ts_location input;
         ts_industry := ts_industry input;
         ts_network_distance := ts_network_distance input;
         ts_accountId := ts_accountId input |}
  | _ => input
  end.

Definition resolvedApi (search : TalentSearchParams) : string :=
  match ts_api search with
  | Some a =>
      if String.eqb a "recruiter" || String.eqb a "sales_navigator" then a else "classic"
  | None => "classic"
  end.

(** [item.keywords?.trim()] kept when truthy *)
Definition trimmed_keywords (filters : option (list SearchFilter)) : list string :=
  flat_map (fun f => match option_map trim (f_keywords f) with
                     | Some k => if String.eqb k "" then [] else [k]
                     | None => []
                     end)
           (nullish filters []).

Definition buildSearchQueryUsed (api : string) (search : TalentSearchParams)
           (pageSize maxPages : Z) : CandidatePipelineSearchQueryUsed :=
  {| sq_api := api;
     sq_keywords := ts_keywords search;
     sq_roleKeywords := trimmed_keywords (ts_role search);
     sq_skills := trimmed_keywords (ts_skills search);
     sq_companyKeywords :=
       flat_map (fun f =>
                   let k := option_map trim (f_keywords f) in
                   let chosen := if truthy k then k else option_map trim (f_name f) in
                   if truthy chosen then [nullish chosen ""] else [])
                (nullish (ts_company search) []);
     sq_location := ts_location search;
     sq_industry := ts_industry search;
     sq_networkDistance :=
       filter (fun v => (v =? 1)%Z || (v =? 2)%Z || (v =? 3)%Z)
              (nullish (ts_network_distance search) []);
     sq_pageSize := pageSize;
     sq_maxPages := maxPages |}.

Definition emptyCounts : CandidatePipelineCounts :=
  {| sourced := 0; enriched := 0; enrichFailed := 0; externalDiscovered := 0;
     identityConfirmedHigh := 0; identityMediumLow := 0; count_shortlistEligible := 0 |}.

Definition set_sourced (n : nat) (c : CandidatePipelineCounts) : CandidatePipelineCounts :=
  {| sourced := n; enriched := enriched c; enrichFailed := enrichFailed c;
     externalDiscovered := externalDiscovered c;
     identityConfirmedHigh := identityConfirmedHigh c;
     identityMediumLow := identityMediumLow c;
     count_shortlistEligible := count_shortlistEligible c |}.

Definition incr_enriched (c : CandidatePipelineCounts) : CandidatePipelineCounts :=
  {| sourced := sourced c; enriched := S (enriched c); enrichFailed := enrichFailed c;
     externalDiscovered := externalDiscovered c;
     identityConfirmedHigh := identityConfirmedHigh c;
     identityMediumLow := identityMediumLow c;
     count_shortlistEligible := count_shortlistEligible c |}.

Definition incr_enrichFailed (c : CandidatePipelineCounts) : CandidatePipelineCounts :=
  {| sourced := sourced c; enriched := enriched c; enrichFailed := S (enrichFailed c);
     externalDiscovered := externalDiscovered c;
     identityConfirmedHigh := identityConfirmedHigh c;
     identityMediumLow := identityMediumLow c;
     count_shortlistEligible := count_shortlistEligible c |}.

Definition incr_externalDiscovered (c : CandidatePipelineCounts) : CandidatePipelineCounts :=
  {| sourced := sourced c; enriched := enriched c; enrichFailed := enrichFailed c;
     externalDiscovered := S (externalDiscovered c);
     identityConfirmedHigh := identityConfirmedHigh c;
     identityMediumLow := identityMediumLow c;
     count_shortlistEligible := count_shortlistEligible c |}.

Definition incr_identityConfirmedHigh (c : CandidatePipelineCounts)
  : CandidatePipelineCounts :=
  {| sourced := sourced c; enriched := enriched c; enrichFailed := enrichFailed c;
     externalDiscovered := externalDiscovered c;
     identityConfirmedHigh := S (identityConfirmedHigh c);
     identityMediumLow := identityMediumLow c;
     count_shortlistEligible := count_shortlistEligible c |}.

Definition incr_identityMediumLow (c : CandidatePipelineCounts) : CandidatePipelineCounts :=
  {| sourced := sourced c; enriched := enriched c; enrichFailed := enrichFailed c;
     externalDiscovered := externalDiscovered c;
     identityConfirmedHigh := identityConfirmedHigh c;
     identityMediumLow := S (identityMediumLow c);
     count_shortlistEligible := count_shortlistEligible c |}.

Definition incr_shortlistEligible (c : CandidatePipelineCounts) : CandidatePipelineCounts :=
  {| sourced := sourced c; enriched := enriched c; enrichFailed := enrichFailed c;
     externalDiscovered := externalDiscovered c;
     identityConfirmedHigh := identityConfirmedHigh c;
     identityMediumLow := identityMediumLow c;
     count_shortlistEligible := S (count_shortlistEligible c) |}.

(** The state one [run] works on: the store, the number of outside calls
    made so far, and the two objects its closures mutate. *)
Record RunState : Type := {
  db : Store;
  tick : nat;
  counts : CandidatePipelineCounts;
  stageErrors : StageErrors
}.

Definition Run (A : Type) : Type := Eff RunState A.

Definition start (s : Store) : RunState :=
  {| db := s; tick := 0; counts := emptyCounts; stageErrors := [] |}.

Definition with_db (s : Store) (st : RunState) : RunState :=
  {| db := s; tick := tick st; counts := counts st; stageErrors := stageErrors st |}.

Definition next_tick (st : RunState) : RunState :=
  {| db := db st; tick := S (tick st); counts := counts st; stageErrors := stageErrors st |}.

Definition update_counts (f : CandidatePipelineCounts -> CandidatePipelineCounts)
  : Run unit :=
  exec (fun st => {| db := db st; tick := tick st; counts := f (counts st);
                     stageErrors := stageErrors st |}).

Definition update_stageErrors (f : StageErrors -> StageErrors) : Run unit :=
  exec (fun st => {| db := db st; tick := tick st; counts := counts st;
                     stageErrors := f (stageErrors st) |}).

(** A store operation that reads no clock. *)
Definition liftDB {A} (op : DB A) : Run A :=
  fun st => let '(r, s') := op (db st) in (r, with_db s' st).

(** A store operation inside a run; [Date.now()] and
    [crypto.randomUUID()] are read for it. *)
Definition store_op {A} (env : Collaborators) (op : Z -> string -> DB A) : Run A :=
  fun st =>
    let '(r, s') := op (Date_now env (tick st)) (randomUUID env (tick st)) (db st) in
    (r, next_tick (with_db s' st)).

(** An awaited collaborator call. *)
Definition call {A} (f : nat -> Result A) : Run A :=
  fun st => (f (tick st), next_tick st).

(** A value read from the outside world. *)
Definition read {A} (f : nat -> A) : Run A :=
  fun st => (Ok (f (tick st)), next_tick st).

(** [await sleep(jitter(...))]: only time passes. *)
Definition sleep : Run unit := ret tt.

Fixpoint retry_loop {A} (retryable : Thrown -> bool) (task : Run A)
         (maxAttempts attempt remaining : nat) : Run A :=
  match remaining with
  | O => throw (JsError "Error" "undefined")
  | S remaining' =>
      try_catch task
        (fun err =>
           if negb (retryable err) || (attempt =? maxAttempts)%nat
           then throw err
           else sleep ;;; retry_loop retryable task maxAttempts (S attempt) remaining')
  end.

(** [withRetry({provider, task})] with the default of four attempts. *)
Definition withRetry {A} (env : Collaborators) (provider : Provider) (task : Run A)
  : Run A :=
  let retryable :=
    match provider with
    | unipile => fun err => le_isTransient (classifyLinkedInError env err)
    | exa => isRetryableExternalError
    end in
  retry_loop retryable task 4 1 4.


Record PipelineRoleInput : Type := {
  role_roleKey : string;
  role_roleTitle : string;
  role_search : TalentSearchParams;
  role_targetCandidates : option Q
}.

Record CandidatePipelineRunInput : Type := {
  in_role : PipelineRoleInput;
  in_runId : option string;
  in_idempotencyKey : option string;
  in_browserVerificationEnabled : option bool;
  in_sourceQueryMode : option QueryMode;
  in_evidenceQueryMode : option QueryMode
}.

(** The constants of one [run]. *)
Record RunContext : Type := {
  ctx_browserVerificationEnabled : bool;
  ctx_sourceQueryMode : QueryMode;
  ctx_evidenceQueryMode : QueryMode;
  ctx_targetCandidates : Z;
  ctx_maxPages : Z;
  ctx_api : string;
  ctx_account : LinkedInAccount;
  ctx_missingCredentials : list string;
  ctx_accountHealth : CandidatePipelineLinkedInAccountHealth;
  ctx_normalizedSearch : TalentSearchParams;
  ctx_searchQueryUsed : CandidatePipelineSearchQueryUsed
}.

Record RunOutput : Type := {
  out_runId : string;
  out_resumed : bool;
  out_status : option CandidatePipelineStatus
}.

(** [Math.max(1, Math.trunc(role.targetCandidates ??
    this.recruiting.run.targetCandidatesPerRole))] *)
Definition effectiveTargetCandidates (recruiting : RecruitingConfig)
           (role : PipelineRoleInput) : Z :=
  Z.max 1 (Math_trunc (nullish (role_targetCandidates role)
                               (inject_Z (cfg_targetCandidatesPerRole recruiting)))).

(** The claim's reading of the same value: the role's target clamped to
    [1, 2000], the configured default when the role gives none. *)
Definition clampedTargetCandidates (recruiting : RecruitingConfig)
           (role : PipelineRoleInput) : Q :=
  match role_targetCandidates role with
  | Some requested => Math_min 2000 (Math_max 1 requested)
  | None => inject_Z (cfg_targetCandidatesPerRole recruiting)
  end.

(** The five signals [run] derives from the LinkedIn data; [now1..now3]
    are the clock readings of the three activity scores. *)
Definition linkedinSignals (env : Collaborators) (now1 now2 now3 : Z)
           (candidate : TalentCandidate) (posts comments reactions : list ActivityItem)
  : list CandidateSignal :=
  let windowMs := (90 * 24 * 60 * 60 * 1000)%Z in
  [ {| sig_key := "builder_activity"; sig_value := None;
       sig_numericValue := Some (Fin (calcRecentActivityScore env now1 posts windowMs));
       sig_source := "linkedin.posts"; sig_details := None |};
    {| sig_key := "builder_activity"; sig_value := None;
       sig_numericValue := Some (Fin (calcRecentActivityScore env now2 comments windowMs));
       sig_source := "linkedin.comments"; sig_details := None |};
    {| sig_key := "builder_activity"; sig_value := None;
       sig_numericValue := Some (Fin (calcRecentActivityScore env now3 reactions windowMs));
       sig_source := "linkedin.reactions"; sig_details := None |};
    {| sig_key := "technical_depth"; sig_value := None;
       sig_numericValue :=
         Some (Fin (if (0 <? List.length (tc_skills candidate))%nat
                    then Math_min 1 (inject_Z (Z.of_nat (List.length (tc_skills candidate)))
                                     / 12)
                    else 0));
       sig_source := "linkedin.profile";
       sig_details := Some (details_skills (firstn 20 (tc_skills candidate))) |};
    {| sig_key := "role_fit"; sig_value := None;
       sig_numericValue := Some (Fin (if truthy (tc_headline candidate)
                                      then 6 # 10 else 3 # 10));
       sig_source := "linkedin.profile"; sig_details := None |} ].

(** The input [run] hands to [resolveIdentity]. *)
Definition candidateIdentityInput (candidate : TalentCandidate)
           (external : ExternalEnrichment) : IdentityResolutionInput :=
  let hints := ext_identityHints external in
  {| linkedin :=
       {| li_providerId := Some (tc_provider_id candidate);
          li_publicIdentifier := tc_public_identifier candidate;
          li_profileUrl := or_else (tc_public_profile_url candidate)
                                   (tc_profile_url candidate);
          li_name := Some (tc_name candidate);
          li_employer := tc_current_company candidate;
          li_location := tc_location candidate |};
     github :=
       Some {| gh_handle := opt_field (hints_github hints) hint_handle;
               gh_url := opt_field (hints_github hints) hint_url;
               gh_profileLinkedinUrl := None;
               gh_employer := None;
               gh_location := None |};
     x :=
       Some {| x_handle := opt_field (hints_x hints) hint_handle;
               x_url := opt_field (hints_x hints) hint_url;
               x_profileLinkedinUrl := None |};
     personalSite :=
       Some {| site_url := opt_field (hints_personalSite hints) (fun url => url);
               site_linkedinUrl := None;
               site_githubUrl := None;
               site_xUrl := None |} |}.

(** The [identity] of a candidate in [run]: the resolver's result with
    [shortlistEligible] replaced by the threshold test. This is the value
    passed to [computeCandidateScore] and to [upsertIdentity]. *)
Definition candidateIdentity (recruiting : RecruitingConfig) (candidate : TalentCandidate)
           (external : ExternalEnrichment) : IdentityResolution :=
  let rawIdentity := resolveIdentity (candidateIdentityInput candidate external) in
  {| confidence := confidence rawIdentity;
     band := band rawIdentity;
     shortlistEligible :=
       Qle_bool (cfg_minConfidenceForShortlist recruiting) (confidence rawIdentity);
     reasons := reasons rawIdentity |}.

Definition candidateEvidence (candidate : TalentCandidate) (external : ExternalEnrichment)
  : list CandidateEvidenceLink :=
  filter (fun item => negb (String.eqb (ev_url item) ""))
    ({| ev_url := nullish (or_else (tc_public_profile_url candidate)
                                   (tc_profile_url candidate)) "";
        ev_title := Some ("LinkedIn: " ++ tc_name candidate);
        ev_source := "linkedin.profile";
        ev_relevance := Some 1 |} :: ext_evidenceLinks external).

Definition browserVerificationSignal : CandidateSignal :=
  {| sig_key := "browser_verification_needed"; sig_value := Some "true";
     sig_numericValue := Some (Fin 1); sig_source := "pipeline"; sig_details := None |}.

Definition is_high_only (mode : BrowserVerificationMode.t) : bool :=
  match mode with
  | BrowserVerificationMode.high_only => true
  | BrowserVerificationMode.always => false
  end.

(** All signals of a candidate, in the order [run] pushes them. *)
Definition candidateSignals (env : Collaborators) (recruiting : RecruitingConfig)
           (browserVerificationEnabled : bool) (now1 now2 now3 : Z)
           (candidate : TalentCandidate) (posts comments reactions : list ActivityItem)
           (external : ExternalEnrichment) : list CandidateSignal :=
  let signals := (linkedinSignals env now1 now2 now3 candidate posts comments reactions
                  ++ ext_signals external)%list in
  if browserVerificationEnabled
     && is_high_only (cfg_browserVerification_mode recruiting)
     && IdentityBand_eqb (band (candidateIdentity recruiting candidate external)) HIGH
  then push signals browserVerificationSignal
  else signals.


(* ------------------------------------------------------------------ *)
(** ** pipeline.ts: the hybrid review workflow *)

Record PromoteParams : Type := {
  pc_runId : string;
  pc_candidateId : string;
  pc_promotionReason : string;
  pc_evidenceLinks : list string;
  pc_confidenceOverride : option Q;
  pc_outreachAngle : option string
}.

Record PromoteResult : Type := {
  success : bool;
  error : option string
}.

Record SubmitVerificationParams : Type := {
  sv_runId : string;
  sv_candidateId : string;
  sv_outcome : VerificationOutcome;
  sv_identityConfidenceAfter : option Q;
  sv_proofLinks : list string;
  sv_notes : option string
}.

Module CandidatePipelineService.

(** [persistFailure]: aggregate the error under its stage, then write the
    [run_failures] row. *)
Definition persistFailure (env : Collaborators) (runId stage : string)
           (candidateRef : option string) (info : ErrorInfo) : Run unit :=
  update_stageErrors
    (fun map => upsertStageError map stage (info_message info) (info_errorType info)) ;;;
  store_op env
    (fun now _ =>
       CandidateStore.recordFailure now
         {| fp_runId := runId;
            fp_step := stage;
            fp_candidateRef := candidateRef;
            fp_errorType := info_errorType info;
            fp_message := info_message info;
            fp_retryable := info_retryable info;
            fp_payload := None |}).

Definition buildDiagnostics (ctx : RunContext) (failure : option FailureDescriptor)
  : Run CandidatePipelineDiagnostics :=
  query (fun st =>
           {| diag_counts := counts st;
              diag_errorsByStage := buildStageErrors (stageErrors st);
              diag_searchQueryUsed := ctx_searchQueryUsed ctx;
              diag_sourceQueryMode := ctx_sourceQueryMode ctx;
              diag_evidenceQueryMode := ctx_evidenceQueryMode ctx;
              diag_accountHealth := ctx_accountHealth ctx;
              diag_failure := failure |}).

(** The body of the per-candidate [try]. The three activity requests of
    [Promise.all] are taken in order; they write nothing, so the store
    cannot tell the interleavings apart. *)
Definition enrichAndScore (env : Collaborators) (recruiting : RecruitingConfig)
           (runId : string) (clientOpts : ClientOptions) (evidenceQueryMode : QueryMode)
           (browserVerificationEnabled : bool) (index : nat) (candidate : TalentCandidate)
  : Run unit :=
  candidateRecord <-
    store_op env
      (fun now uuid =>
         CandidateStore.upsertCandidate now (hashUrl env) uuid
           {| cr_providerId := Some (tc_provider_id candidate);
              cr_publicIdentifier := tc_public_identifier candidate;
              cr_profileUrl := or_else (tc_public_profile_url candidate)
                                       (tc_profile_url candidate);
              cr_name := Some (tc_name candidate);
              cr_headline := tc_headline candidate;
              cr_location := tc_location candidate;
              cr_currentCompany := tc_current_company candidate;
              cr_currentRole := tc_current_role candidate |}) ;;
  let candidateId := fst candidateRecord in
  store_op env
    (fun now _ =>
       CandidateStore.addSourceRecord now candidateId runId "linkedin.search"
         (Z.of_nat index + 1) candidate) ;;;
  profile <- withRetry env unipile
               (call (fun n => getUserProfile env n clientOpts (tc_provider_id candidate))) ;;
  postsRes <- withRetry env unipile
                (call (fun n => getUserPosts env n clientOpts (tc_provider_id candidate))) ;;
  commentsRes <- withRetry env unipile
                   (call (fun n => getUserComments env n clientOpts
                                     (tc_provider_id candidate))) ;;
  reactionsRes <- withRetry env unipile
                    (call (fun n => getUserReactions env n clientOpts
                                      (tc_provider_id candidate))) ;;
  let posts := nullish (items postsRes) [] in
  let comments := nullish (items commentsRes) [] in
  let reactions := nullish (items reactionsRes) [] in
  now1 <- read (Date_now env) ;;
  now2 <- read (Date_now env) ;;
  now3 <- read (Date_now env) ;;
  external <- withRetry env exa
                (call (fun n =>
                         enrichExternalFootprint env n
                           {| er_evidenceQueryMode := evidenceQueryMode;
                              er_name := tc_name candidate;
                              er_headline := tc_headline candidate;
                              er_currentCompany := tc_current_company candidate;
                              er_publicIdentifier := tc_public_identifier candidate |})) ;;
  (if (0 <? List.length (ext_evidenceLinks external))%nat
   then update_counts incr_externalDiscovered else ret tt) ;;;
  let identity := candidateIdentity recruiting candidate external in
  (if IdentityBand_eqb (band identity) CONFIRMED || IdentityBand_eqb (band identity) HIGH
   then update_counts incr_identityConfirmedHigh
   else update_counts incr_identityMediumLow) ;;;
  let evidenceLinks := candidateEvidence candidate external in
  let signals := candidateSignals env recruiting browserVerificationEnabled
                   now1 now2 now3 candidate posts comments reactions external in
  let score := computeCandidateScore
                 {| sp_signals := signals;
                    sp_identity := identity;
                    sp_evidence := evidenceLinks;
                    sp_openToWork := Some (is_open_to_work profile) |} in
  let hints := ext_identityHints external in
  store_op env
    (fun now _ =>
       CandidateStore.upsertIdentity now candidateId "cross_platform" None None identity) ;;;
  (if truthy (opt_field (hints_github hints) hint_handle)
      || truthy (opt_field (hints_github hints) hint_url)
   then store_op env
          (fun now _ =>
             CandidateStore.upsertIdentity now candidateId "github"
               (opt_field (hints_github hints) hint_handle)
               (opt_field (hints_github hints) hint_url) identity)
   else ret tt) ;;;
  (if truthy (opt_field (hints_x hints) hint_handle)
      || truthy (opt_field (hints_x hints) hint_url)
   then store_op env
          (fun now _ =>
             CandidateStore.upsertIdentity now candidateId "x"
               (opt_field (hints_x hints) hint_handle)
               (opt_field (hints_x hints) hint_url) identity)
   else ret tt) ;;;
  store_op env (fun now _ => CandidateStore.addSignals now candidateId signals) ;;;
  store_op env (fun now _ => CandidateStore.upsertScore now candidateId runId score) ;;;
  store_op env
    (fun now _ => CandidateStore.addEvidenceLinks now candidateId runId evidenceLinks) ;;;
  (if score_shortlistEligible score
   then update_counts incr_shortlistEligible else ret tt) ;;;
  update_counts incr_enriched.

(** One turn of the candidate loop: the [try] above and its [catch]. *)
Definition processCandidate (env : Collaborators) (recruiting : RecruitingConfig)
           (runId : string) (clientOpts : ClientOptions) (evidenceQueryMode : QueryMode)
           (browserVerificationEnabled : bool) (index : nat) (candidate : TalentCandidate)
  : Run unit :=
  try_catch
    (enrichAndScore env recruiting runId clientOpts evidenceQueryMode
                    browserVerificationEnabled index candidate)
    (fun err =>
       update_counts incr_enrichFailed ;;;
       persistFailure env runId "candidate_enrich_score"
                      (Some (tc_provider_id candidate)) (classifyRunError env err)).

(** [for (const [index, candidate] of candidates.entries())] *)
Fixpoint candidateLoop (env : Collaborators) (recruiting : RecruitingConfig)
         (runId : string) (clientOpts : ClientOptions) (evidenceQueryMode : QueryMode)
         (browserVerificationEnabled : bool) (index : nat)
         (candidates : list TalentCandidate) : Run unit :=
  match candidates with
  | [] => ret tt
  | candidate :: rest =>
      processCandidate env recruiting runId clientOpts evidenceQueryMode
                       browserVerificationEnabled index candidate ;;;
      candidateLoop env recruiting runId clientOpts evidenceQueryMode
                    browserVerificationEnabled (S index) rest
  end.


(** The [try] block of [run]: preflight, sourcing, the candidate loop and
    the completion of the run. *)
Definition runBody (env : Collaborators) (recruiting : RecruitingConfig)
           (ctx : RunContext) (runId : string) : Run RunOutput :=
  (if negb (acc_enabled (ctx_account ctx))
   then throw (PipelineStageError "linkedin_preflight"
                 "LinkedIn integration is disabled for the resolved account." "auth" false)
   else ret tt) ;;;
  clientOpts <-
    match buildClientOptions env (ctx_account ctx) with
    | Some opts => ret opts
    | None =>
        throw (PipelineStageError "linkedin_preflight"
                 ("LinkedIn credentials missing: "
                  ++ String.concat ", " (ctx_missingCredentials ctx) ++ ".")
                 "auth" false)
    end ;;
  searchResult <-
    withRetry env unipile
      (call (fun n =>
               searchTalent env n
                 {| rq_search := ctx_normalizedSearch ctx;
                    rq_api := ctx_api ctx;
                    rq_limit := ctx_targetCandidates ctx;
                    rq_page_size := DEFAULT_PAGE_SIZE;
                    rq_max_pages := ctx_maxPages ctx |})) ;;
  (if negb (sr_success searchResult)
   then
     let classified :=
       classifyLinkedInError env
         (NonError (nullish (sr_error searchResult) "LinkedIn search failed")) in
     throw (PipelineStageError "linkedin_search"
              (if truthy (sr_error searchResult)
               then nullish (sr_error searchResult) "" else "LinkedIn search failed")
              (le_type classified) (le_isTransient classified))
   else ret tt) ;;;
  update_counts (set_sourced (List.length (sr_candidates searchResult))) ;;;
  candidateLoop env recruiting runId clientOpts (ctx_evidenceQueryMode ctx)
                (ctx_browserVerificationEnabled ctx) 0 (sr_candidates searchResult) ;;;
  diagnostics <- buildDiagnostics ctx None ;;
  store_op env (fun now _ => CandidateStore.markRunCompleted now runId (Some diagnostics)) ;;;
  status <- liftDB (CandidateStore.getRunStatus runId) ;;
  ret {| out_runId := runId; out_resumed := false; out_status := status |}.

(** The stage [run] files an escaped error under. *)
Definition failureStage (err : Thrown) : string :=
  match err with
  | PipelineStageError stage _ _ _ => stage
  | _ => "pipeline_run"
  end.

(** The [failure] object [run] puts into the diagnostics of a failed run. *)
Definition failureDescriptor (env : Collaborators) (err : Thrown) : FailureDescriptor :=
  {| fd_stage := failureStage err;
     fd_message := info_message (classifyRunError env err);
     fd_errorType := info_errorType (classifyRunError env err) |}.

(** The [catch] block of [run]. *)
Definition runFailed (env : Collaborators) (ctx : RunContext) (runId : string)
           (err : Thrown) : Run RunOutput :=
  let info := classifyRunError env err in
  let stage := failureStage err in
  persistFailure env runId stage None info ;;;
  diagnostics <- buildDiagnostics ctx
                   (Some {| fd_stage := stage;
                            fd_message := info_message info;
                            fd_errorType := info_errorType info |}) ;;
  store_op env (fun now _ => CandidateStore.markRunFailed now runId (Some diagnostics)) ;;;
  status <- liftDB (CandidateStore.getRunStatus runId) ;;
  ret {| out_runId := runId; out_resumed := false; out_status := status |}.

(** What [run] passes to [beginRun]. *)
Definition beginRunParams (recruiting : RecruitingConfig) (input : CandidatePipelineRunInput)
           (date : string) : BeginRunParams :=
  let role := in_role input in
  let targetCandidates := effectiveTargetCandidates recruiting role in
  let dailyKey := buildIdempotencyKey (role_roleKey role) targetCandidates date in
  {| br_runId := in_runId input;
     br_idempotencyKey := Some (nullish (in_idempotencyKey input) dailyKey);
     br_roleKey := role_roleKey role;
     br_roleTitle := role_roleTitle role;
     br_targetCandidates := inject_Z targetCandidates;
     br_config := Some recruiting;
     br_criteria :=
       Some {| crit_search := role_search role;
               crit_source_query_mode := nullish (in_sourceQueryMode input) mode_default;
               crit_evidence_query_mode :=
                 nullish (in_evidenceQueryMode input) mode_default |} |}.

(** The constants [run] computes between [beginRun] and its [try]. *)
Definition runContext (env : Collaborators) (recruiting : RecruitingConfig)
           (input : CandidatePipelineRunInput) : RunContext :=
  let role := in_role input in
  let sourceQueryMode := nullish (in_sourceQueryMode input) mode_default in
  let targetCandidates := effectiveTargetCandidates recruiting role in
  let pages := Z.max 1 (Math_ceil (inject_Z targetCandidates / inject_Z DEFAULT_PAGE_SIZE)) in
  let maxPages := Z.max 3 pages in
  let api := resolvedApi (role_search role) in
  let account := resolveLinkedInAccount env (ts_accountId (role_search role)) in
  let missingCredentials := getMissingCredentials env account in
  let normalizedSearch :=
    normalizeSearchForSourceMode env (role_search role) sourceQueryMode in
  {| ctx_browserVerificationEnabled :=
       nullish (in_browserVerificationEnabled input)
               (cfg_browserVerification_enabled recruiting);
     ctx_sourceQueryMode := sourceQueryMode;
     ctx_evidenceQueryMode := nullish (in_evidenceQueryMode input) mode_default;
     ctx_targetCandidates := targetCandidates;
     ctx_maxPages := maxPages;
     ctx_api := api;
     ctx_account := account;
     ctx_missingCredentials := missingCredentials;
     ctx_accountHealth :=
       {| ah_requestedAccountId := ts_accountId (role_search role);
          ah_resolvedAccountId := acc_accountId account;
          ah_unipileAccountId := acc_unipileAccountId account;
          ah_enabled := acc_enabled account;
          ah_apiKeySource := acc_apiKeySource account;
          ah_missingCredentials := missingCredentials;
          ah_recruiterReady :=
            acc_enabled account && (List.length missingCredentials =? 0)%nat |};
     ctx_normalizedSearch := normalizedSearch;
     ctx_searchQueryUsed :=
       buildSearchQueryUsed api normalizedSearch DEFAULT_PAGE_SIZE maxPages |}.

(** The part of [run] that precedes its [try]: the daily key is built
    and [beginRun] is called; what it throws reaches the caller. *)
Definition begin (env : Collaborators) (recruiting : RecruitingConfig)
           (input : CandidatePipelineRunInput) : Run RunInfo :=
  date <- read (today env) ;;
  store_op env
    (fun now uuid => CandidateStore.beginRun now uuid (beginRunParams recruiting input date)).

Definition run (env : Collaborators) (recruiting : RecruitingConfig)
           (input : CandidatePipelineRunInput) : Run RunOutput :=
  runInfo <- begin env recruiting input ;;
  if resumed runInfo
  then
    status <- liftDB (CandidateStore.getRunStatus (runId runInfo)) ;;
    ret {| out_runId := runId runInfo; out_resumed := true; out_status := status |}
  else
    let ctx := runContext env recruiting input in
    try_catch (runBody env recruiting ctx (runId runInfo))
              (runFailed env ctx (runId runInfo)).

(** [identities?.find((i) => i.platform === "cross_platform")?.confidence] *)
Definition crossPlatformConfidence (candidateData : option CandidateDetail) : option Q :=
  match candidateData with
  | Some detail =>
      option_map idn_confidence
        (find (fun i => String.eqb (idn_platform i) "cross_platform")
              (detail_identities detail))
  | None => None
  end.

(** [now] is read by the store's [submitVerification], [now'] by the
    review update that may follow. *)
Definition submitVerification (now now' : Z) (params : SubmitVerificationParams)
  : DB unit :=
  candidateData <- CandidateStore.getCandidate (sv_candidateId params) ;;
  let identityConfidenceBefore := crossPlatformConfidence candidateData in
  CandidateStore.submitVerification now
    {| vp_candidateId := sv_candidateId params;
       vp_runId := sv_runId params;
       vp_method := browser;
       vp_outcome := sv_outcome params;
       vp_identityConfidenceBefore := identityConfidenceBefore;
       vp_identityConfidenceAfter := sv_identityConfidenceAfter params;
       vp_proofLinks := sv_proofLinks params;
       vp_notes := sv_notes params |} ;;;
  match sv_outcome params with
  | outcome_confirmed =>
      CandidateStore.upsertReviewStatus now'
        {| rp_candidateId := sv_candidateId params;
           rp_runId := sv_runId params;
           rp_status := promoted_shortlist;
           rp_priority := None;
           rp_notes := Some (trim ("Verified via browser. " ++ nullish (sv_notes params) ""));
           rp_updatedBy := None |}
  | outcome_rejected =>
      CandidateStore.upsertReviewStatus now'
        {| rp_candidateId := sv_candidateId params;
           rp_runId := sv_runId params;
           rp_status := rejected;
           rp_priority := None;
           rp_notes := Some (trim ("Verification rejected. " ++ nullish (sv_notes params) ""));
           rp_updatedBy := None |}
  | outcome_inconclusive => ret tt
  end.

Definition promoteCandidate (recruiting : RecruitingConfig) (now now' : Z)
           (params : PromoteParams) : DB PromoteResult :=
  let minProofLinks := nullish (cfg_promotion_minProofLinks recruiting) 2%Z in
  let provided := Z.of_nat (List.length (pc_evidenceLinks params)) in
  if (provided <? minProofLinks)%Z
  then ret {| success := false;
              error := Some ("Promotion requires at least " ++ string_of_Z minProofLinks
                             ++ " evidence links. Provided: " ++ string_of_Z provided
                             ++ ".") |}
  else
    existing <- CandidateStore.getPromotion (pc_candidateId params) (pc_runId params) ;;
    match existing with
    | Some _ =>
        ret {| success := false;
               error := Some "Candidate has already been promoted for this run." |}
    | None =>
        CandidateStore.promoteCandidate now now'
          {| pp_candidateId := pc_candidateId params;
             pp_runId := pc_runId params;
             pp_promotionReason := pc_promotionReason params;
             pp_confidenceOverride := pc_confidenceOverride params;
             pp_outreachAngle := pc_outreachAngle params;
             pp_proofLinks := pc_evidenceLinks params;
             pp_promotedBy := None |} ;;;
        ret {| success := true; error := None |}
    end.

Definition results (now : Z) (runId : string) (limitArg : option Q)
  : DB CandidatePipelineResults :=
  CandidateStore.getResults now runId (nullish limitArg 50).

End CandidatePipelineService.

(** The promotion rows of a (candidate, run) pair. *)
Definition promotions_of (candidateId runId : string) (s : Store) : list PromotionRow :=
  filter (fun r => String.eqb (pr_candidate_id r) candidateId
                   && String.eqb (pr_run_id r) runId)
         (candidate_promotions s).

(** The review row of a (candidate, run) pair, if one exists. *)
Definition review_of (candidateId runId : string) (s : Store) : option ReviewRow :=
  find (fun r => String.eqb (rv_candidate_id r) candidateId
                 && String.eqb (rv_run_id r) runId)
       (candidate_reviews s).

(* ------------------------------------------------------------------ *)
(** ** Auxiliary predicates and sample data used by the properties *)

Definition test_alice : IdentityResolutionInput :=
  {| linkedin := {| li_providerId := None; li_publicIdentifier := None;
                    li_profileUrl := Some "https://linkedin.com/in/alice";
                    li_name := None; li_employer := None; li_location := None |};
     github := Some {| gh_handle := None; gh_url := None;
                       gh_profileLinkedinUrl := Some "https://LinkedIn.com/in/alice/ ";
                       gh_employer := None; gh_location := None |};
     x := None; personalSite := None |}.

(** [order_by] sorts: no element sorts strictly before its predecessor,
    provided [before] is asymmetric. *)
Definition in_order {A} (before : A -> A -> bool) (x y : A) : Prop :=
  before y x = false.

Definition test_begin_params : BeginRunParams :=
  {| br_runId := None;
     br_idempotencyKey := Some "role:2026-01-01";
     br_roleKey := "backend";
     br_roleTitle := "Backend Engineer";
     br_targetCandidates := 300;
     br_config := None;
     br_criteria := None |}.

Definition test_store_after_first_run : Store :=
  snd (CandidateStore.beginRun 1000 "uuid-1" test_begin_params empty_store).

(** The store after a run under key ["role:2026-01-01"] was created and
    then marked failed. *)
Definition test_store_failed_run : Store :=
  snd (CandidateStore.markRunFailed 1500 "uuid-1" None test_store_after_first_run).

Definition review_key_eqb (candidateId runId : string) (r : ReviewRow) : bool :=
  String.eqb (rv_candidate_id r) candidateId && String.eqb (rv_run_id r) runId.

Definition test_candidate_record : CandidateRecord :=
  {| cr_providerId := Some "abc";
     cr_publicIdentifier := Some "alice";
     cr_profileUrl := Some "https://linkedin.com/in/alice";
     cr_name := Some "Alice";
     cr_headline := None;
     cr_location := None;
     cr_currentCompany := None;
     cr_currentRole := None |}.

(** A store with one run (["uuid-1"]) and one candidate (["li:abc"]). *)
Definition test_store_with_candidate : Store :=
  snd (CandidateStore.upsertCandidate 1100 (fun url => url) "uuid-c"
         test_candidate_record test_store_after_first_run).

Definition test_promote_params (candidateId : string) : PromoteParams :=
  {| pc_runId := "uuid-1";
     pc_candidateId := candidateId;
     pc_promotionReason := "strong builder";
     pc_evidenceLinks := ["https://github.com/alice"; "https://alice.dev"];
     pc_confidenceOverride := None;
     pc_outreachAngle := None |}.

Definition test_verification (candidateId : string) (outcome : VerificationOutcome)
  : SubmitVerificationParams :=
  {| sv_runId := "uuid-1";
     sv_candidateId := candidateId;
     sv_outcome := outcome;
     sv_identityConfidenceAfter := Some (95 # 100);
     sv_proofLinks := ["https://github.com/alice"];
     sv_notes := Some "profile links back" |}.

Definition test_score (totalScore : Q) (eligible : bool) : CandidateScore :=
  {| total := totalScore;
     score_shortlistEligible := eligible;
     breakdown := {| builder_activity := 8 # 10; ai_native_evidence := 7 # 10;
                     technical_depth := 6 # 10; role_fit := 7 # 10;
                     identity_confidence := 9 # 10 |};
     concerns := [];
     outreachAngle := "Builder-first outreach" |}.

Definition test_link (url : string) (rel : option Q) : CandidateEvidenceLink :=
  {| ev_url := url; ev_title := None; ev_source := "exa.search"; ev_relevance := rel |}.

Definition test_diagnostics : CandidatePipelineDiagnostics :=
  {| diag_counts := {| sourced := 12; enriched := 10; enrichFailed := 2;
                       externalDiscovered := 7; identityConfirmedHigh := 5;
                       identityMediumLow := 5; count_shortlistEligible := 3 |};
     diag_errorsByStage :=
       [{| se_stage := "candidate_enrich_score"; se_count := 2;
           se_topMessages := [{| em_message := "LinkedIn API error (429)";
                                 em_errorType := "rate_limit"; em_count := 2 |}] |}];
     diag_searchQueryUsed :=
       {| sq_api := "classic"; sq_keywords := None; sq_roleKeywords := ["staff engineer"];
          sq_skills := ["typescript"]; sq_companyKeywords := [];
          sq_location := None; sq_industry := None; sq_networkDistance := [2%Z];
          sq_pageSize := 50; sq_maxPages := 3 |};
     diag_sourceQueryMode := mode_broad;
     diag_evidenceQueryMode := mode_strict;
     diag_accountHealth :=
       {| ah_requestedAccountId := None; ah_resolvedAccountId := "default";
          ah_unipileAccountId := None; ah_enabled := true; ah_apiKeySource := "env";
          ah_missingCredentials := []; ah_recruiterReady := true |};
     diag_failure := None |}.

(** Run ["uuid-1"] completed with two scored candidates: ["li:abc"]
    (0.78, eligible, four evidence links) and ["li:bob"] (0.4, not
    eligible). *)
Definition test_results_store : Store :=
  let s := test_store_with_candidate in
  let s := snd (CandidateStore.upsertScore 1200 "li:abc" "uuid-1"
                  (test_score (78 # 100) true) s) in
  let s := snd (CandidateStore.addEvidenceLinks 1300 "li:abc" "uuid-1"
                  [test_link "https://linkedin.com/in/alice" (Some 1);
                   test_link "https://github.com/alice" (Some (7 # 10));
                   test_link "https://alice.dev" None;
                   test_link "https://x.com/alice" (Some (9 # 10))] s) in
  let s := snd (CandidateStore.upsertCandidate 1400 (fun url => url) "uuid-d"
                  {| cr_providerId := Some "bob"; cr_publicIdentifier := None;
                     cr_profileUrl := None; cr_name := Some "Bob"; cr_headline := None;
                     cr_location := None; cr_currentCompany := None;
                     cr_currentRole := None |} s) in
  let s := snd (CandidateStore.upsertScore 1450 "li:bob" "uuid-1"
                  (test_score (4 # 10) false) s) in
  snd (CandidateStore.markRunCompleted 1500 "uuid-1" (Some test_diagnostics) s).

Definition test_search : TalentSearchParams :=
  {| ts_api := None; ts_keywords := Some "typescript"; ts_role := None; ts_skills := None;
     ts_company := None; ts_location := None; ts_industry := None;
     ts_network_distance := None; ts_accountId := None |}.

Definition test_role (target : option Q) : PipelineRoleInput :=
  {| role_roleKey := "backend"; role_roleTitle := "Backend Engineer";
     role_search := test_search; role_targetCandidates := target |}.

Definition test_input (target : option Q) (runId key : option string)
  : CandidatePipelineRunInput :=
  {| in_role := test_role target; in_runId := runId; in_idempotencyKey := key;
     in_browserVerificationEnabled := None; in_sourceQueryMode := None;
     in_evidenceQueryMode := None |}.

(** An outside world in which the LinkedIn account is ready but every
    request fails. *)
Definition offline_env : Collaborators :=
  {| Date_now := fun n => (10000 + Z.of_nat n)%Z;
     today := fun _ => "2026-01-01";
     randomUUID := fun n => "uuid-" ++ string_of_Z (Z.of_nat n);
     hashUrl := fun url => url;
     Date_parse := fun _ => NaN;
     stripAiNativeTerms := fun text => text;
     resolveLinkedInAccount :=
       fun _ => {| acc_accountId := "default"; acc_unipileAccountId := None;
                   acc_enabled := true; acc_apiKeySource := "env" |};
     getMissingCredentials := fun _ => [];
     buildClientOptions := fun account => Some (client_options account);
     classifyLinkedInError :=
       fun err => {| le_type := "unknown"; le_isTransient := false;
                     le_message := thrown_message err |};
     searchTalent := fun _ _ => Throw (JsError "TypeError" "fetch failed");
     getUserProfile := fun _ _ _ => Throw (JsError "TypeError" "fetch failed");
     getUserPosts := fun _ _ _ => Throw (JsError "TypeError" "fetch failed");
     getUserComments := fun _ _ _ => Throw (JsError "TypeError" "fetch failed");
     getUserReactions := fun _ _ _ => Throw (JsError "TypeError" "fetch failed");
     enrichExternalFootprint := fun _ _ => Throw (JsError "TypeError" "fetch failed") |}.

(** A configuration whose shortlist threshold is 0. *)
Definition config_threshold_zero : RecruitingConfig :=
  resolveRecruitingConfig
    {| raw_enabled := true; raw_store_path := "";
       raw_minConfidenceForShortlist := Some (Fin 0);
       raw_targetCandidatesPerRole := None; raw_defaultCadence := "";
       raw_browserVerification_enabled := false; raw_browserVerification_mode := None;
       raw_promotion_minProofLinks := None |} "/state".

(** [invariant P m]: whatever [m] does, returning or throwing, it keeps [P]. *)
Definition invariant {S A} (P : S -> Prop) (m : Eff S A) : Prop :=
  forall s r s', m s = (r, s') -> P s -> P s'.

(** A property of the store, read on the state of a run. *)
Definition on_db (P : Store -> Prop) (st : RunState) : Prop := P (db st).

Definition run_kept (theRun : string) (s : Store) : Prop := run_exists theRun s = true.

Definition test_talent (id : string) : TalentCandidate :=
  {| tc_provider_id := id; tc_public_identifier := Some id;
     tc_public_profile_url := Some ("https://linkedin.com/in/" ++ id);
     tc_profile_url := None; tc_name := id; tc_headline := Some "Engineer";
     tc_location := Some "Berlin"; tc_current_company := Some "OpenClaw";
     tc_current_role := None; tc_skills := ["typescript"; "rust"; "sql"] |}.

(** An outside world in which the search finds two candidates, ["alice"]
    and ["bob"]; every request for ["bob"]'s profile fails. *)
Definition scripted_env : Collaborators :=
  {| Date_now := fun n => (10000 + Z.of_nat n)%Z;
     today := fun _ => "2026-01-01";
     randomUUID := fun n => "uuid-" ++ string_of_Z (Z.of_nat n);
     hashUrl := fun url => "sha256:" ++ url;
     Date_parse := fun _ => NaN;
     stripAiNativeTerms := fun text => text;
     resolveLinkedInAccount :=
       fun _ => {| acc_accountId := "default"; acc_unipileAccountId := None;
                   acc_enabled := true; acc_apiKeySource := "env" |};
     getMissingCredentials := fun _ => [];
     buildClientOptions := fun account => Some (client_options account);
     classifyLinkedInError :=
       fun err => if includes (thrown_message err) "429"
                  then {| le_type := "rate_limit"; le_isTransient := true;
                          le_message := thrown_message err |}
                  else {| le_type := "unknown"; le_isTransient := false;
                          le_message := thrown_message err |};
     searchTalent :=
       fun _ _ => Ok {| sr_success := true;
                        sr_candidates := [test_talent "alice"; test_talent "bob"];
                        sr_error := None |};
     getUserProfile :=
       fun _ _ id => if String.eqb id "bob"
                     then Throw (JsError "Error" "LinkedIn API error (429)")
                     else Ok {| is_open_to_work := true |};
     getUserPosts := fun _ _ _ => Ok {| items := Some [] |};
     getUserComments := fun _ _ _ => Ok {| items := None |};
     getUserReactions := fun _ _ _ => Ok {| items := Some [] |};
     enrichExternalFootprint :=
       fun _ _ =>
         Ok {| ext_signals := [];
               ext_evidenceLinks := [test_link "https://github.com/alice" (Some (7 # 10))];
               ext_identityHints :=
                 {| hints_github := Some {| hint_handle := Some "alice";
                                            hint_url := Some "https://github.com/alice" |};
                    hints_x := None; hints_personalSite := None |} |} |}.

Definition stored_identity (candidateId platform : string) (s : Store) : option IdentityRow :=
  find (fun r => String.eqb (idn_candidate_id r) candidateId
                 && String.eqb (idn_platform r) platform)
       (candidate_identities s).

Definition stored_score (candidateId runId : string) (s : Store) : option ScoreRow :=
  find (fun r => String.eqb (sc_candidate_id r) candidateId
                 && String.eqb (sc_run_id r) runId)
       (candidate_scores s).

(** The state of the scripted run after [beginRun]. *)
Definition scripted_start : RunState :=
  snd (CandidatePipelineService.begin scripted_env default_config
         (test_input None None None) (start empty_store)).

(** The state the scripted run ends in when the threshold is 0. *)
Definition scripted_end_threshold_zero : RunState :=
  snd (CandidatePipelineService.run scripted_env config_threshold_zero
         (test_input None None None) (start empty_store)).

(* ------------------------------------------------------------------ *)
(** ** Auxiliary notions for the scorer *)

(** The numeric values [scoreFromSignals] takes its maximum over. *)
Definition signal_values (signals : list CandidateSignal) (key : string) : list number :=
  filter isFinite
    (map (fun signal => nullish (sig_numericValue signal) NaN)
       (filter (fun signal =>
                  String.eqb (sig_key signal) key && has_number (sig_numericValue signal))
               signals)).

(** The order of the values [Math.max] folds over: minus infinity, the
    value of [Math.max()], lies below every finite number. *)
Definition number_le (a b : number) : Prop :=
  match a, b with
  | NegInf, (NegInf | Fin _) => True
  | Fin p, Fin q => p <= q
  | _, _ => False
  end.

(** The four keys [computeCandidateScore] reads signals under. *)
Definition scoring_keys : list string :=
  ["builder_activity"; "ai_native_evidence"; "technical_depth"; "role_fit"].

(** A signal that cannot count: it sits under none of the scoring keys,
    or carries no finite number. *)
Definition inert_signal (signal : CandidateSignal) : bool :=
  negb (existsb (String.eqb (sig_key signal)) scoring_keys)
  || match sig_numericValue signal with
     | Some (Fin _) => false
     | _ => true
     end.

Definition with_signals (signals : list CandidateSignal) (params : ScoreParams)
  : ScoreParams :=
  {| sp_signals := signals;
     sp_identity := sp_identity params;
     sp_evidence := sp_evidence params;
     sp_openToWork := sp_openToWork params |}.

(* ------------------------------------------------------------------ *)
(** ** Auxiliary notions for the stage errors *)

(** The number of errors aggregated under one stage. *)
Definition stage_total (entries : list (string * CandidatePipelineErrorMessage)) : nat :=
  list_sum (map (fun entry => em_count (snd entry)) entries).

(** The number of errors aggregated in the whole map. *)
Definition errors_total (map : StageErrors) : nat :=
  list_sum (List.map (fun stage => stage_total (snd stage)) map).

(* ------------------------------------------------------------------ *)
(** ** store.ts: listings, the verification queue and the statistics *)

Record DailyOutputContract : Type := {
  doc_runId : string;
  doc_roleKey : string;
  doc_date : string;
  doc_promotedCount : Q;
  doc_reviewedCount : Q;
  doc_verifiedCount : Q;
  doc_rejectedCount : Q;
  doc_deferredCount : Q;
  doc_generatedAt : Z
}.

Record WorkflowStats : Type := {
  ws_reviewedCount : nat;
  ws_promotedCount : nat;
  ws_deferredCount : nat;
  ws_rejectedCount : nat
}.

Record VerificationStats : Type := {
  vs_queued : nat;
  vs_completed : nat;
  vs_browserVerified : nat;
  vs_blockedDomainHits : nat
}.

Record QuotaStatus : Type := {
  qs_verificationBudgetDaily : Q;
  qs_verificationUsedToday : nat;
  qs_promotionsTargetDaily : Q;
  qs_promotionsToday : nat;
  qs_reviewedTargetDaily : Q;
  qs_reviewedToday : nat
}.

(** The optional [quotaConfig] argument of [getQuotaStatus]. *)
Record QuotaConfig : Type := {
  qc_verificationBudgetDaily : option Q;
  qc_promotionsTargetDaily : option Q;
  qc_reviewedTargetDaily : option Q
}.

Inductive PriorityFilter : Type := priority_high | priority_all.

Record VerificationQueueParams : Type := {
  vq_runId : string;
  vq_limit : Q;
  vq_priority : option PriorityFilter
}.

Definition CandidateReviewStatus_eqb (a b : CandidateReviewStatus) : bool :=
  match a, b with
  | new_review, new_review | under_verification, under_verification
  | promoted_shortlist, promoted_shortlist | rejected, rejected | deferred, deferred => true
  | _, _ => false
  end.

Module CandidateStoreQueries.

(** The mapping from a [pipeline_runs] row to a status, shared by
    [getRunStatus] and [listRecentRuns]. *)
Definition status_of_row (row : PipelineRunRow) : CandidatePipelineStatus :=
  {| status_runId := run_id row;
     status_status := run_status row;
     status_startedAt := run_started_at row;
     status_finishedAt := run_finished_at row;
     status_targetCandidates := run_target_candidates row;
     status_roleKey := run_role_key row;
     status_roleTitle := run_role_title row;
     status_diagnostics := run_summary_json row |}.

(** [SELECT ... FROM pipeline_runs ORDER BY started_at DESC LIMIT ?] *)
Definition recent_runs (limitArg : Q) (s : Store) : list PipelineRunRow :=
  limit (Z.max 1 (Math_trunc limitArg))
    (order_by (fun a b => (run_started_at b <? run_started_at a)%Z) (pipeline_runs s)).

(** [listRecentRuns(limit = 20)] *)
Definition listRecentRuns (limitArg : option Q) : DB (list CandidatePipelineStatus) :=
  query (fun s => map status_of_row (recent_runs (nullish limitArg 20) s)).

(** [FROM candidate_reviews r
     JOIN candidates c ON c.id = r.candidate_id
     JOIN candidate_scores s ON s.candidate_id = c.id AND s.run_id = r.run_id
     LEFT JOIN candidate_identities i
       ON i.candidate_id = c.id AND i.platform = 'cross_platform'
     WHERE r.run_id = ? AND r.status = 'under_verification' [AND r.priority >= 50]] *)
Definition queue_join (runId : string) (priority : option PriorityFilter) (s : Store)
  : list (ReviewRow * (ScoreRow * CandidateRow * option IdentityRow)) :=
  flat_map
    (fun r =>
       flat_map
         (fun c =>
            flat_map
              (fun sc =>
                 match filter (fun i => String.eqb (idn_candidate_id i) (cand_id c)
                                        && String.eqb (idn_platform i) "cross_platform")
                              (candidate_identities s) with
                 | [] => [(r, (sc, c, None))]
                 | matches => map (fun i => (r, (sc, c, Some i))) matches
                 end)
              (filter (fun sc => String.eqb (sc_candidate_id sc) (cand_id c)
                                 && String.eqb (sc_run_id sc) (rv_run_id r))
                      (candidate_scores s)))
         (filter (fun c => String.eqb (cand_id c) (rv_candidate_id r)) (candidates s)))
    (filter (fun r => String.eqb (rv_run_id r) runId
                      && CandidateReviewStatus_eqb (rv_status r) under_verification
                      && match priority with
                         | Some priority_high => (50 <=? rv_priority r)%Z
                         | _ => true
                         end)
            (candidate_reviews s)).

(** [ORDER BY r.priority DESC, s.total_score DESC] *)
Definition queue_desc (a b : ReviewRow * (ScoreRow * CandidateRow * option IdentityRow))
  : bool :=
  (rv_priority (fst b) <? rv_priority (fst a))%Z
  || ((rv_priority (fst a) =? rv_priority (fst b))%Z
      && negb (Qle_bool (CandidateStore.score_of (snd a)) (CandidateStore.score_of (snd b)))).

(** The rows the queue query returns, in its order, before they are
    mapped to result rows. *)
Definition queue_rows (params : VerificationQueueParams) (s : Store)
  : list (ReviewRow * (ScoreRow * CandidateRow * option IdentityRow)) :=
  limit (Z.max 1 (Math_trunc (vq_limit params)))
    (order_by queue_desc (queue_join (vq_runId params) (vq_priority params) s)).

Definition getVerificationQueue (params : VerificationQueueParams)
  : DB (list CandidatePipelineResultRow) :=
  query (fun s =>
           map (fun row => CandidateStore.result_row (vq_runId params) s (snd row))
               (queue_rows params s)).

(** [SELECT ... FROM candidate_verifications WHERE candidate_id = ? AND
     run_id = ? ORDER BY created_at DESC LIMIT 1] *)
Definition getVerification (candidateId runId : string) : DB (option VerificationRow) :=
  query (fun s =>
           hd_error
             (order_by (fun a b => (vf_created_at b <? vf_created_at a)%Z)
                (filter (fun r => String.eqb (vf_candidate_id r) candidateId
                                  && String.eqb (vf_run_id r) runId)
                        (candidate_verifications s)))).

(** [SUM(CASE WHEN cond THEN 1 ELSE 0 END)] over the rows selected; the
    NULL of an empty selection is read as 0 by [?? 0]. *)
Definition sum_case {A} (cond : A -> bool) (rows : list A) : nat :=
  List.length (filter cond rows).

Definition is_reviewed (status : CandidateReviewStatus) : bool :=
  match status with
  | promoted_shortlist | rejected | deferred => true
  | _ => false
  end.

Definition getWorkflowStats (runId : string) : DB WorkflowStats :=
  query (fun s =>
           let rows := filter (fun r => String.eqb (rv_run_id r) runId) (candidate_reviews s) in
           {| ws_reviewedCount := sum_case (fun r => is_reviewed (rv_status r)) rows;
              ws_promotedCount :=
                sum_case (fun r => CandidateReviewStatus_eqb (rv_status r) promoted_shortlist)
                         rows;
              ws_deferredCount :=
                sum_case (fun r => CandidateReviewStatus_eqb (rv_status r) deferred) rows;
              ws_rejectedCount :=
                sum_case (fun r => CandidateReviewStatus_eqb (rv_status r) rejected) rows |}).

Definition getVerificationStats (runId : string) : DB VerificationStats :=
  query (fun s =>
           let verifications :=
             filter (fun r => String.eqb (vf_run_id r) runId) (candidate_verifications s) in
           {| vs_queued :=
                List.length
                  (filter (fun r => String.eqb (rv_run_id r) runId
                                    && CandidateReviewStatus_eqb (rv_status r)
                                                                 under_verification)
                          (candidate_reviews s));
              vs_completed := List.length verifications;
              vs_browserVerified :=
                sum_case (fun r => match vf_method r with browser => true | api => false end)
                         verifications;
              vs_blockedDomainHits :=
                List.length
                  (filter (fun r => String.eqb (fl_run_id r) runId
                                    && String.eqb (fl_error_type r) "blocked_domain")
                          (run_failures s)) |}).

(** [column >= ? AND column < ?] with the bounds [dayStart] and
    [dayStart + 24 * 60 * 60 * 1000]; [dayStart] is
    [new Date(date).getTime()], which is NaN for a date that does not
    parse, and SQLite binds NaN as NULL, so that no row compares. *)
Definition within_day (dayStart : number) (at_ : Z) : bool :=
  match dayStart with
  | Fin start =>
      Qle_bool start (inject_Z at_)
      && negb (Qle_bool (start + inject_Z (24 * 60 * 60 * 1000)) (inject_Z at_))
  | _ => false
  end.

Definition getQuotaStatus (getTime : string -> number) (runId date : string)
           (quotaConfig : option QuotaConfig) : DB QuotaStatus :=
  query (fun s =>
           let dayStart := getTime date in
           {| qs_verificationBudgetDaily :=
                nullish (match quotaConfig with
                         | Some c => qc_verificationBudgetDaily c
                         | None => None
                         end) 20;
              qs_verificationUsedToday :=
                List.length
                  (filter (fun r => String.eqb (vf_run_id r) runId
                                    && within_day dayStart (vf_created_at r))
                          (candidate_verifications s));
              qs_promotionsTargetDaily :=
                nullish (match quotaConfig with
                         | Some c => qc_promotionsTargetDaily c
                         | None => None
                         end) 10;
              qs_promotionsToday :=
                List.length
                  (filter (fun r => String.eqb (pr_run_id r) runId
                                    && within_day dayStart (pr_promoted_at r))
                          (candidate_promotions s));
              qs_reviewedTargetDaily :=
                nullish (match quotaConfig with
                         | Some c => qc_reviewedTargetDaily c
                         | None => None
                         end) 30;
              qs_reviewedToday :=
                List.length
                  (filter (fun r => String.eqb (rv_run_id r) runId
                                    && is_reviewed (rv_status r)
                                    && within_day dayStart (rv_updated_at r))
                          (candidate_reviews s)) |}).

End CandidateStoreQueries.

(* ------------------------------------------------------------------ *)
(** ** store.ts: the daily output contract *)

Record DailyOutputRow : Type := {
  dro_run_id : string;
  dro_role_key : string;
  dro_date : string;
  dro_promoted_count : Q;
  dro_reviewed_count : Q;
  dro_verified_count : Q;
  dro_rejected_count : Q;
  dro_deferred_count : Q;
  dro_generated_at : Z
}.

(** The whole database: the tables of [Store] and [daily_run_outputs],
    the one table only the daily contract reads and writes. *)
Record Database : Type := {
  tables : Store;
  daily_run_outputs : list DailyOutputRow
}.

Definition empty_database : Database :=
  {| tables := empty_store; daily_run_outputs := [] |}.

(** A store operation, run on the whole database. *)
Definition on_tables {A} (op : DB A) : Eff Database A :=
  fun d =>
    let '(r, s') := op (tables d) in
    (r, {| tables := s'; daily_run_outputs := daily_run_outputs d |}).

(** [Partial<Omit<DailyOutputContract, "runId" | "roleKey" | "date" |
    "generatedAt">>] *)
Record DailyCounts : Type := {
  dc_promotedCount : option Q;
  dc_reviewedCount : option Q;
  dc_verifiedCount : option Q;
  dc_rejectedCount : option Q;
  dc_deferredCount : option Q
}.

Record DailyUpdateParams : Type := {
  du_runId : string;
  du_roleKey : string;
  du_date : string;
  du_counts : DailyCounts
}.

Module DailyOutputs.

Definition same_contract (runId roleKey date : string) (r : DailyOutputRow) : bool :=
  String.eqb (dro_run_id r) runId && String.eqb (dro_role_key r) roleKey
  && String.eqb (dro_date r) date.

Definition contract_of_row (row : DailyOutputRow) : DailyOutputContract :=
  {| doc_runId := dro_run_id row;
     doc_roleKey := dro_role_key row;
     doc_date := dro_date row;
     doc_promotedCount := dro_promoted_count row;
     doc_reviewedCount := dro_reviewed_count row;
     doc_verifiedCount := dro_verified_count row;
     doc_rejectedCount := dro_rejected_count row;
     doc_deferredCount := dro_deferred_count row;
     doc_generatedAt := dro_generated_at row |}.

Definition getDailyOutputContract (runId roleKey date : string)
  : Eff Database (option DailyOutputContract) :=
  query (fun d =>
           option_map contract_of_row
             (find (same_contract runId roleKey date) (daily_run_outputs d))).

(** The [UPDATE daily_run_outputs SET ... WHERE run_id = ? AND role_key = ?
    AND date = ?] of an existing contract. *)
Definition updated_daily_row (now : Z) (counts : DailyCounts)
           (existing : DailyOutputContract) (r : DailyOutputRow) : DailyOutputRow :=
  {| dro_run_id := dro_run_id r;
     dro_role_key := dro_role_key r;
     dro_date := dro_date r;
     dro_promoted_count := nullish (dc_promotedCount counts) (doc_promotedCount existing);
     dro_reviewed_count := nullish (dc_reviewedCount counts) (doc_reviewedCount existing);
     dro_verified_count := nullish (dc_verifiedCount counts) (doc_verifiedCount existing);
     dro_rejected_count := nullish (dc_rejectedCount counts) (doc_rejectedCount existing);
     dro_deferred_count := nullish (dc_deferredCount counts) (doc_deferredCount existing);
     dro_generated_at := now |}.

Definition inserted_daily_row (now : Z) (params : DailyUpdateParams) : DailyOutputRow :=
  {| dro_run_id := du_runId params;
     dro_role_key := du_roleKey params;
     dro_date := du_date params;
     dro_promoted_count := nullish (dc_promotedCount (du_counts params)) 0;
     dro_reviewed_count := nullish (dc_reviewedCount (du_counts params)) 0;
     dro_verified_count := nullish (dc_verifiedCount (du_counts params)) 0;
     dro_rejected_count := nullish (dc_rejectedCount (du_counts params)) 0;
     dro_deferred_count := nullish (dc_deferredCount (du_counts params)) 0;
     dro_generated_at := now |}.

(** [INSERT INTO daily_run_outputs]: UNIQUE(run_id, role_key, date), and
    [run_id] references [pipeline_runs(id)]. *)
Definition insert_daily_row (row : DailyOutputRow) : Eff Database unit :=
  fun d =>
    if existsb (same_contract (dro_run_id row) (dro_role_key row) (dro_date row))
               (daily_run_outputs d)
    then (Throw (unique_failed
                   "daily_run_outputs.run_id, daily_run_outputs.role_key, daily_run_outputs.date"),
          d)
    else if negb (run_exists (dro_run_id row) (tables d))
    then (Throw foreign_key_failed, d)
    else (Ok tt, {| tables := tables d;
                    daily_run_outputs := push (daily_run_outputs d) row |}).

Definition updateDailyOutputContract (now : Z) (params : DailyUpdateParams)
  : Eff Database unit :=
  existing <- getDailyOutputContract (du_runId params) (du_roleKey params) (du_date params) ;;
  match existing with
  | None => insert_daily_row (inserted_daily_row now params)
  | Some contract =>
      exec (fun d =>
              {| tables := tables d;
                 daily_run_outputs :=
                   map (fun r =>
                          if same_contract (du_runId params) (du_roleKey params)
                                           (du_date params) r
                          then updated_daily_row now (du_counts params) contract r
                          else r)
                       (daily_run_outputs d) |})
  end.

End DailyOutputs.

(* ------------------------------------------------------------------ *)
(** ** pipeline.ts: status, review and report operations of the service *)

(** What [status] returns: one run's status when an id is given, the
    recent runs otherwise. *)
Inductive StatusResult : Type :=
| one_status (status : option CandidatePipelineStatus)
| recent_statuses (runs : list CandidatePipelineStatus).

Record UpdateReviewParams : Type := {
  ur_runId : string;
  ur_candidateId : string;
  ur_status : CandidateReviewStatus;
  ur_notes : option string
}.

(** [this.recruiting.dailyQuotas], the part of the resolved configuration
    the daily report reads. *)
Record DailyQuotas : Type := {
  dq_promotedTarget : Z;
  dq_reviewedTarget : Z;
  dq_verificationBudget : Z
}.

Record RawDailyQuotas : Type := {
  raw_promotedTarget : option number;
  raw_reviewedTarget : option number;
  raw_verificationBudget : option number
}.

(** The [dailyQuotas] field [resolveRecruitingConfig] builds. *)
Definition resolveDailyQuotas (raw : RawDailyQuotas) : DailyQuotas :=
  {| dq_promotedTarget := Math_trunc (clampNumber (raw_promotedTarget raw) 1 100 10);
     dq_reviewedTarget := Math_trunc (clampNumber (raw_reviewedTarget raw) 1 200 30);
     dq_verificationBudget := Math_trunc (clampNumber (raw_verificationBudget raw) 1 100 20) |}.

Record DailyReportParams : Type := {
  dr_runId : option string;
  dr_date : option string;
  dr_roleKey : string
}.

Record DailyReport : Type := {
  report_contract : option DailyOutputContract;
  report_workflow : WorkflowStats;
  report_verification : VerificationStats;
  report_quota : QuotaStatus
}.

Module CandidatePipelineWorkflow.

Definition status (runId : option string) : DB StatusResult :=
  if truthy runId
  then s <- CandidateStore.getRunStatus (nullish runId "") ;; ret (one_status s)
  else l <- CandidateStoreQueries.listRecentRuns (Some 20) ;; ret (recent_statuses l).

Definition candidate (candidateId : string) : DB (option CandidateDetail) :=
  CandidateStore.getCandidate candidateId.

Definition updateReviewStatus (now : Z) (params : UpdateReviewParams) : DB unit :=
  CandidateStore.upsertReviewStatus now
    {| rp_candidateId := ur_candidateId params;
       rp_runId := ur_runId params;
       rp_status := ur_status params;
       rp_priority := None;
       rp_notes := ur_notes params;
       rp_updatedBy := None |}.

Definition getVerificationQueue (params : VerificationQueueParams)
  : DB (list CandidatePipelineResultRow) :=
  CandidateStoreQueries.getVerificationQueue params.

(** [today] is [new Date().toISOString().slice(0, 10)] and [getTime] is
    [new Date(date).getTime()]. *)
Definition getDailyReport (dailyQuotas : option DailyQuotas) (today : string)
           (getTime : string -> number) (params : DailyReportParams)
  : Eff Database (option DailyReport) :=
  found <-
    (if truthy (dr_runId params)
     then ret (dr_runId params)
     else
       recentRuns <- on_tables (CandidateStoreQueries.listRecentRuns (Some 20)) ;;
       ret (option_map status_runId
              (find (fun r => String.eqb (status_roleKey r) (dr_roleKey params))
                    recentRuns))) ;;
  match found with
  | None => ret None
  | Some runId =>
      let date := nullish (dr_date params) today in
      contract <- DailyOutputs.getDailyOutputContract runId (dr_roleKey params) date ;;
      workflow <- on_tables (CandidateStoreQueries.getWorkflowStats runId) ;;
      verification <- on_tables (CandidateStoreQueries.getVerificationStats runId) ;;
      quota <- on_tables
                 (CandidateStoreQueries.getQuotaStatus getTime runId date
                    (Some {| qc_verificationBudgetDaily :=
                               Some (nullish (option_map
                                                (fun q => inject_Z (dq_verificationBudget q))
                                                dailyQuotas) 20);
                             qc_promotionsTargetDaily :=
                               Some (nullish (option_map
                                                (fun q => inject_Z (dq_promotedTarget q))
                                                dailyQuotas) 10);
                             qc_reviewedTargetDaily :=
                               Some (nullish (option_map
                                                (fun q => inject_Z (dq_reviewedTarget q))
                                                dailyQuotas) 30) |})) ;;
      ret (Some {| report_contract := contract;
                   report_workflow := workflow;
                   report_verification := verification;
                   report_quota := quota |})
  end.

End CandidatePipelineWorkflow.

(* ------------------------------------------------------------------ *)
(** ** The schema's constraints as store invariants *)

(** The non-NULL values of a nullable column that is UNIQUE together with
    [provider]. *)
Definition provider_keys (column : CandidateRow -> option string) (rows : list CandidateRow)
  : list (string * string) :=
  flat_map (fun c => match column c with
                     | Some v => [(cand_provider c, v)]
                     | None => []
                     end) rows.

Definition source_key (r : SourceRecordRow) : string * string * string * Z :=
  (src_candidate_id r, src_run_id r, src_source r, src_source_rank r).

(** Every PRIMARY KEY and UNIQUE constraint [ensureSchema] declares on
    the tables of [Store]; and every candidate row has the provider
    ['linkedin'], the only value [upsertCandidate] writes and one its
    update never changes. *)
Record keys_ok (s : Store) : Prop := {
  keys_schema : schema_ok s;
  keys_provider : Forall (fun c => cand_provider c = "linkedin") (candidates s);
  keys_run_roles : NoDup (map (fun r => (rr_run_id r, rr_role_key r)) (run_roles s));
  keys_candidates : NoDup (map cand_id (candidates s));
  keys_provider_id : NoDup (provider_keys cand_provider_id (candidates s));
  keys_public_identifier : NoDup (provider_keys cand_public_identifier (candidates s));
  keys_url_hash : NoDup (provider_keys cand_normalized_profile_url_hash (candidates s));
  keys_sources : NoDup (map source_key (candidate_source_records s));
  keys_identities :
    NoDup (map (fun r => (idn_candidate_id r, idn_platform r)) (candidate_identities s));
  keys_scores : NoDup (map (fun r => (sc_candidate_id r, sc_run_id r)) (candidate_scores s));
  keys_reviews : NoDup (map (fun r => (rv_candidate_id r, rv_run_id r)) (candidate_reviews s))
}.

(** Every FOREIGN KEY [ensureSchema] declares on the tables of [Store]:
    each child row names a run and a candidate that exist. *)
Record references_kept (s : Store) : Prop := {
  refs_run_roles : Forall (fun r => run_exists (rr_run_id r) s = true) (run_roles s);
  refs_sources :
    Forall (fun r => references_ok (src_candidate_id r) (src_run_id r) s = true)
           (candidate_source_records s);
  refs_identities :
    Forall (fun r => candidate_exists (idn_candidate_id r) s = true) (candidate_identities s);
  refs_signals :
    Forall (fun r => candidate_exists (sg_candidate_id r) s = true) (candidate_signals s);
  refs_scores :
    Forall (fun r => references_ok (sc_candidate_id r) (sc_run_id r) s = true)
           (candidate_scores s);
  refs_evidence :
    Forall (fun r => references_ok (evl_candidate_id r) (evl_run_id r) s = true)
           (candidate_evidence_links s);
  refs_failures : Forall (fun r => run_exists (fl_run_id r) s = true) (run_failures s);
  refs_reviews :
    Forall (fun r => references_ok (rv_candidate_id r) (rv_run_id r) s = true)
           (candidate_reviews s);
  refs_verifications :
    Forall (fun r => references_ok (vf_candidate_id r) (vf_run_id r) s = true)
           (candidate_verifications s);
  refs_promotions :
    Forall (fun r => references_ok (pr_candidate_id r) (pr_run_id r) s = true)
           (candidate_promotions s)
}.


(** From [s] to [s'] no run and no candidate disappeared. *)
Definition store_grows (s s' : Store) : Prop :=
  (forall id, run_exists id s = true -> run_exists id s' = true)
  /\ (forall id, candidate_exists id s = true -> candidate_exists id s' = true).

(** The UNIQUE(candidate_id, run_id, url) key of [candidate_evidence_links]:
    whether a row with the key of [link] is stored. *)
Definition link_stored (candidateId runId : string) (link : CandidateEvidenceLink)
           (s : Store) : bool :=
  existsb (fun r => String.eqb (evl_candidate_id r) candidateId
                    && String.eqb (evl_run_id r) runId
                    && String.eqb (evl_url r) (ev_url link))
          (candidate_evidence_links s).

(** No (candidate, run) pair has two promotion rows. The table declares
    no such constraint; the service's guard is what keeps it. *)
Definition promoted_once (s : Store) : Prop :=
  NoDup (map (fun r => (pr_candidate_id r, pr_run_id r)) (candidate_promotions s)).

(* ------------------------------------------------------------------ *)
(** ** The books of a run *)

(** What a run keeps count of: its counters, the errors it aggregated
    by stage, and the rows of [run_failures]. *)
Record Ledger : Type := {
  led_counts : CandidatePipelineCounts;
  led_errors : nat;
  led_failures : nat
}.

Definition ledger (st : RunState) : Ledger :=
  {| led_counts := counts st;
     led_errors := errors_total (stageErrors st);
     led_failures := List.length (run_failures (db st)) |}.

(** [books L m Q R]: started with books in [L], [m] returns [a] with
    books in [Q a], or throws with books in [R]. *)
Definition books {A} (L : Ledger -> Prop) (m : Run A) (Q : A -> Ledger -> Prop)
           (R : Ledger -> Prop) : Prop :=
  forall st r st', m st = (r, st') -> L (ledger st) ->
                   match r with
                   | Ok a => Q a (ledger st')
                   | Throw _ => R (ledger st')
                   end.

(** [quiet m]: [m] leaves the books as they are. *)
Definition quiet {A} (m : Run A) : Prop :=
  forall st r st', m st = (r, st') -> ledger st' = ledger st.

(** Candidates whose identity was resolved. *)
Definition identified (c : CandidatePipelineCounts) : nat :=
  (identityConfirmedHigh c + identityMediumLow c)%nat.

(** The counters after [n] more candidates went through the loop. *)
Definition counts_advance (n : nat) (c c' : CandidatePipelineCounts) : Prop :=
  (sourced c' = sourced c
   /\ enriched c' + enrichFailed c' = enriched c + enrichFailed c + n
   /\ enriched c <= enriched c'
   /\ enrichFailed c <= enrichFailed c'
   /\ count_shortlistEligible c <= count_shortlistEligible c'
   /\ count_shortlistEligible c' + enriched c <= count_shortlistEligible c + enriched c'
   /\ identityConfirmedHigh c <= identityConfirmedHigh c'
   /\ identityMediumLow c <= identityMediumLow c'
   /\ enriched c' + identified c <= enriched c + identified c'
   /\ identified c' <= identified c + n
   /\ externalDiscovered c <= externalDiscovered c'
   /\ externalDiscovered c' + identified c <= externalDiscovered c + identified c')%nat.

(** The books after [n] more candidates: every failed candidate added
    one aggregated error and one [run_failures] row. *)
Definition ledger_advance (n : nat) (l l' : Ledger) : Prop :=
  (counts_advance n (led_counts l) (led_counts l')
   /\ led_errors l' + enrichFailed (led_counts l) = led_errors l + enrichFailed (led_counts l')
   /\ led_failures l' + enrichFailed (led_counts l)
      = led_failures l + enrichFailed (led_counts l'))%nat.

(** The books when the [try] of a candidate threw: nothing but the
    identity and external counters may have moved. *)
Definition ledger_tried (l l' : Ledger) : Prop :=
  (led_errors l' = led_errors l
   /\ led_failures l' = led_failures l
   /\ sourced (led_counts l') = sourced (led_counts l)
   /\ enriched (led_counts l') = enriched (led_counts l)
   /\ enrichFailed (led_counts l') = enrichFailed (led_counts l)
   /\ count_shortlistEligible (led_counts l') = count_shortlistEligible (led_counts l)
   /\ identityConfirmedHigh (led_counts l) <= identityConfirmedHigh (led_counts l')
   /\ identityMediumLow (led_counts l) <= identityMediumLow (led_counts l')
   /\ identified (led_counts l') <= identified (led_counts l) + 1
   /\ externalDiscovered (led_counts l) <= externalDiscovered (led_counts l')
   /\ externalDiscovered (led_counts l') + identified (led_counts l)
      <= externalDiscovered (led_counts l) + identified (led_counts l'))%nat.

(** The books with the counters changed by [f]. *)
Definition ledger_counts (f : CandidatePipelineCounts -> CandidatePipelineCounts)
           (l : Ledger) : Ledger :=
  {| led_counts := f (led_counts l);
     led_errors := led_errors l;
     led_failures := led_failures l |}.

(* ------------------------------------------------------------------ *)
(** ** external.ts *)

Module External.

Record SearchHit : Type := {
  hit_title : option string;
  hit_url : string;
  hit_description : option string;
  hit_siteName : option string;
  hit_score : option Q
}.

(** The parameters of one [searchExa] request. *)
Record ExaSearch : Type := {
  exa_query : string;
  exa_count : Z;
  exa_includeDomains : option (list string);
  exa_category : string
}.

(** What [enrichExternalFootprint] awaits and parses. [searchExa] and
    [fetchUrl] are the two cached requests, taken with what they resolve
    to at each call; [URL_hostname] and [URL_pathname] are the fields of
    [new URL(url)], [None] when the constructor throws. *)
Record Web : Type := {
  searchExa : nat -> ExaSearch -> Result (list SearchHit);
  fetchUrl : nat -> string -> Result string;
  URL_hostname : string -> option string;
  URL_pathname : string -> option string
}.

Definition AI_NATIVE_KEYWORDS : list string :=
  ["codex"; "claude code"; "mcp"; "agent"; "agents"; "autogen"].

Definition SHIPPING_KEYWORDS : list string :=
  ["shipped"; "release"; "launched"; "production"; "deployed"; "commit"; "pr"].

(** [path.replace(/^\/+/, "")] *)
Fixpoint stripLeadingSlashes (s : string) : string :=
  match s with
  | String c t => if Ascii.eqb c "/" then stripLeadingSlashes t else s
  | EmptyString => EmptyString
  end.

(** [path.replace(/^@/, "")] *)
Definition stripLeadingAt (s : string) : string :=
  match s with
  | String c t => if Ascii.eqb c "@" then t else s
  | EmptyString => EmptyString
  end.

Definition extractHandle (web : Web) (url : string) : option string :=
  match URL_pathname web url with
  | Some pathname =>
      let path := beforeFirst "/" (stripLeadingSlashes pathname) in
      if String.eqb path "" then None else Some (stripLeadingAt path)
  | None => None
  end.

Definition keywordScore (text : string) (keywords : list string) : Q :=
  let lower := toLowerCase text in
  let matches := List.length (filter (fun keyword => includes lower keyword) keywords) in
  if (matches =? 0)%nat then 0
  else Math_min 1 (inject_Z (Z.of_nat matches)
                   / Math_max 2 (inject_Z (Z.of_nat (List.length keywords)) / 2)).

Definition normalizeDomain (web : Web) (url : string) : string :=
  match URL_hostname web url with
  | Some hostname => toLowerCase hostname
  | None => ""
  end.

(** An awaited request; the state is the number of requests made. *)
Definition request {A} (f : nat -> Result A) : Eff nat A :=
  fun n => (f n, S n).

(** [Promise.all(items.map(task))], the tasks taken in order. *)
Fixpoint all {A B} (task : A -> Eff nat B) (items : list A) : Eff nat (list B) :=
  match items with
  | [] => ret []
  | item :: rest =>
      first <- task item ;;
      others <- all task rest ;;
      ret (first :: others)
  end.

Definition evidence_of (source : string) (hit : SearchHit) : CandidateEvidenceLink :=
  {| ev_url := hit_url hit;
     ev_title := hit_title hit;
     ev_source := source;
     ev_relevance := hit_score hit |}.

(** The loop over [evidenceLinks] with its [seenUrls] set. *)
Fixpoint dedupe (seenUrls : list string) (links : list CandidateEvidenceLink)
  : list CandidateEvidenceLink :=
  match links with
  | [] => []
  | link :: rest =>
      if String.eqb (ev_url link) "" || existsb (String.eqb (ev_url link)) seenUrls
      then dedupe seenUrls rest
      else link :: dedupe (ev_url link :: seenUrls) rest
  end.

Definition option_list {A} (o : option A) : list A :=
  match o with Some a => [a] | None => [] end.

(** The signals pushed for the hits of the strict search. *)
Definition strictSignals (strictAiHits : list SearchHit) : list CandidateSignal :=
  flat_map
    (fun hit =>
       let snippet := nullish (hit_title hit) "" ++ " " ++ nullish (hit_description hit) "" in
       let aiScore := keywordScore snippet AI_NATIVE_KEYWORDS in
       if negb (Qle_bool aiScore 0)
       then [{| sig_key := "ai_native_evidence"; sig_value := None;
                sig_numericValue := Some (Fin (Math_max (35 # 100) aiScore));
                sig_source := "exa.search";
                sig_details := Some (details_url (hit_url hit)) |}]
       else [])
    strictAiHits.

(** The signals pushed for the fetched pages. *)
Definition fetchedSignals (fetchedContent : list (CandidateEvidenceLink * string))
  : list CandidateSignal :=
  flat_map
    (fun item =>
       let aiScore := keywordScore (snd item) AI_NATIVE_KEYWORDS in
       let shipScore := keywordScore (snd item) SHIPPING_KEYWORDS in
       ((if negb (Qle_bool aiScore 0)
         then [{| sig_key := "ai_native_evidence"; sig_value := None;
                  sig_numericValue := Some (Fin aiScore);
                  sig_source := "web_fetch";
                  sig_details := Some (details_url (ev_url (fst item))) |}]
         else [])
        ++
        (if negb (Qle_bool shipScore 0)
         then [{| sig_key := "builder_activity"; sig_value := None;
                  sig_numericValue := Some (Fin shipScore);
                  sig_source := "web_fetch";
                  sig_details := Some (details_url (ev_url (fst item))) |}]
         else []))%list)
    fetchedContent.

Definition is_strict (mode : QueryMode) : bool :=
  match mode with mode_strict => true | _ => false end.

Definition enrichExternalFootprint (web : Web) (params : EnrichRequest)
  : Eff nat ExternalEnrichment :=
  let strictEvidence := is_strict (er_evidenceQueryMode params) in
  let baseQuery :=
    String.concat " "
      (flat_map (fun part => if truthy part then [nullish part ""] else [])
                [Some (er_name params); er_currentCompany params; er_headline params]) in
  githubHits <-
    request (fun n => searchExa web n
                        {| exa_query := baseQuery ++ " github";
                           exa_count := 5;
                           exa_includeDomains := Some ["github.com"];
                           exa_category := "person" |}) ;;
  socialHits <-
    request (fun n => searchExa web n
                        {| exa_query := baseQuery ++ " x.com OR twitter.com";
                           exa_count := 5;
                           exa_includeDomains := Some ["x.com"; "twitter.com"];
                           exa_category := "person" |}) ;;
  webHits <-
    request (fun n => searchExa web n
                        {| exa_query := baseQuery ++ " blog portfolio personal site";
                           exa_count := 5;
                           exa_includeDomains := None;
                           exa_category := "person" |}) ;;
  strictAiHits <-
    (if strictEvidence
     then request (fun n =>
                     searchExa web n
                       {| exa_query :=
                            baseQuery
                            ++ " (" ++ String (ascii_of_nat 34) "claude code"
                            ++ String (ascii_of_nat 34) " OR codex OR mcp OR agent tooling OR "
                            ++ String (ascii_of_nat 34) "model context protocol"
                            ++ String (ascii_of_nat 34) ")";
                          exa_count := 8;
                          exa_includeDomains := None;
                          exa_category := "person" |})
     else ret []) ;;
  let github :=
    find (fun hit => includes (normalizeDomain web (hit_url hit)) "github.com") githubHits in
  let xHit :=
    find (fun hit =>
            let domain := normalizeDomain web (hit_url hit) in
            includes domain "x.com" || includes domain "twitter.com")
         socialHits in
  let personal :=
    find (fun hit =>
            let domain := normalizeDomain web (hit_url hit) in
            negb (String.eqb domain "")
            && negb (includes domain "linkedin.com")
            && negb (includes domain "github.com"))
         webHits in
  let evidenceLinks :=
    (option_list (option_map (evidence_of "exa.search") github)
     ++ option_list (option_map (evidence_of "exa.search") xHit)
     ++ option_list (option_map (evidence_of "exa.search") personal)
     ++ (if strictEvidence
         then List.map (evidence_of "exa.search.strict") strictAiHits
         else []))%list in
  let dedupedEvidence := dedupe [] evidenceLinks in
  let fetchedLinks := firstn (if strictEvidence then 5 else 3) dedupedEvidence in
  fetchedContent <-
    all (fun link =>
           content <- request (fun n => fetchUrl web n (ev_url link)) ;;
           ret (link, content))
        fetchedLinks ;;
  let signals :=
    ((if strictEvidence then strictSignals strictAiHits else [])
     ++ fetchedSignals fetchedContent)%list in
  ret {| ext_signals := signals;
         ext_evidenceLinks := dedupedEvidence;
         ext_identityHints :=
           {| hints_github :=
                option_map (fun hit => {| hint_handle := extractHandle web (hit_url hit);
                                          hint_url := Some (hit_url hit) |}) github;
              hints_x :=
                option_map (fun hit => {| hint_handle := extractHandle web (hit_url hit);
                                          hint_url := Some (hit_url hit) |}) xHit;
              hints_personalSite :=
                option_map (fun hit => Some (hit_url hit)) personal |} |}.

End External.

(** A web in which the GitHub search and the open search both find
    ["https://github.com/alice"], the open search also finds
    ["https://alice.dev/"], and every page reads the same. *)
Definition test_web : External.Web :=
  let hit := fun url => {| External.hit_title := Some "Alice";
                           External.hit_url := url;
                           External.hit_description := None;
                           External.hit_siteName := None;
                           External.hit_score := Some (9 # 10) |} in
  {| External.searchExa :=
       fun _ search =>
         match External.exa_includeDomains search with
         | Some ["github.com"] => Ok [hit "https://github.com/alice"]
         | Some _ => Ok []
         | None => Ok [hit "https://github.com/alice"; hit "https://alice.dev/"]
         end;
     External.fetchUrl := fun _ _ => Ok "Shipped an MCP agent to production";
     External.URL_hostname :=
       fun url => if startsWith url "https://"
                  then Some (beforeFirst "/" (substring 8 (String.length url) url))
                  else None;
     External.URL_pathname :=
       fun url => if startsWith url "https://github.com"
                  then Some (substring 18 (String.length url) url)
                  else None |}.

Definition test_enrich_request : EnrichRequest :=
  {| er_evidenceQueryMode := mode_default;
     er_name := "Alice";
     er_headline := Some "Engineer";
     er_currentCompany := None;
     er_publicIdentifier := Some "alice" |}.

(* ================================================================== *)
(** * Properties *)

Lemma Math_max_le_l : forall a b, a <= Math_max a b.
Proof.
  intros a b. unfold Math_max. destruct (Qle_bool a b) eqn:E.
  - now apply Qle_bool_iff.
  - apply Qle_refl.
Qed.

Lemma Math_max_le_r : forall a b, b <= Math_max a b.
Proof.
  intros a b. unfold Math_max. destruct (Qle_bool a b) eqn:E.
  - apply Qle_refl.
  - apply Qlt_le_weak, Qnot_le_lt. intro H. apply Qle_bool_iff in H. congruence.
Qed.

Lemma Math_max_cases : forall a b, Math_max a b = a \/ Math_max a b = b.
Proof. intros a b. unfold Math_max. destruct (Qle_bool a b); auto. Qed.

Lemma Math_min_cases : forall a b, Math_min a b = a \/ Math_min a b = b.
Proof. intros a b. unfold Math_min. destruct (Qle_bool a b); auto. Qed.

Lemma Math_min_le_l : forall a b, Math_min a b <= a.
Proof.
  intros a b. unfold Math_min. destruct (Qle_bool a b) eqn:E.
  - apply Qle_refl.
  - apply Qlt_le_weak, Qnot_le_lt. intro H. apply Qle_bool_iff in H. congruence.
Qed.

Lemma Math_min_le_r : forall a b, Math_min a b <= b.
Proof.
  intros a b. unfold Math_min. destruct (Qle_bool a b) eqn:E.
  - now apply Qle_bool_iff.
  - apply Qle_refl.
Qed.


(** ** Identity resolver *)

Example resolveIdentity_alice :
  band (resolveIdentity test_alice) = CONFIRMED /\
  Qred (confidence (resolveIdentity test_alice)) = (19 # 20) /\
  reasons (resolveIdentity test_alice) = ["direct_profile_link"].
Proof. vm_compute. auto. Qed.

Ltac decide_in :=
  repeat match goal with
         | H : In _ _ |- _ => simpl in H
         | H : _ \/ _ |- _ => destruct H
         | H : False |- _ => destruct H
         | H : @eq string _ _ |- _ => discriminate H
         | H : @eq IdentityBand _ _ |- _ => discriminate H
         | H : @eq (list _) _ _ |- _ => discriminate H
         | H : Qeq _ _ |- _ => discriminate H
         | H : @eq Z _ _ |- _ => discriminate H
         end.

Ltac close_case :=
  repeat split; intros; decide_in;
  try reflexivity;
  try (simpl; tauto);
  try (first [ left; reflexivity
             | right; left; reflexivity
             | right; right; left; reflexivity
             | right; right; right; left; reflexivity
             | right; right; right; right; reflexivity ]).

(** C10. [resolveIdentity] only ever returns one of the five rule scores
    0, 0.7, 0.82, 0.9, 0.95 as confidence; the reasons list is never empty
    and holds [unconfirmed_no_strong_match] exactly when the confidence is
    0; band CONFIRMED comes from the two link rules (0.95, 0.9) only and
    band MEDIUM from the partial-context rule (0.7) only. *)
Theorem resolveIdentity_confidence_finite_set :
  forall input : IdentityResolutionInput,
    let r := resolveIdentity input in
    (confidence r == 0 \/ confidence r == 7 # 10 \/ confidence r == 82 # 100
     \/ confidence r == 9 # 10 \/ confidence r == 95 # 100)
    /\ reasons r <> []
    /\ (In "unconfirmed_no_strong_match" (reasons r) <-> confidence r == 0)
    /\ (band r = CONFIRMED <->
        (confidence r == 9 # 10 \/ confidence r == 95 # 100))
    /\ (band r = CONFIRMED ->
        In "direct_profile_link" (reasons r) \/ In "reverse_link_via_site" (reasons r))
    /\ (band r = MEDIUM <-> confidence r == 7 # 10)
    /\ (band r = MEDIUM -> In "context_partial_match" (reasons r)).
Proof.
  intro input. unfold resolveIdentity.
  generalize (rule_direct_profile_link input) (rule_reverse_link_via_site input)
             (sameEmployer input) (sameLocation input) (handlePatternMatch input).
  intros [] [] [] [] []; vm_compute; close_case.
Qed.

Lemma resolveIdentity_confidence_finite_set_witness :
  band (resolveIdentity test_alice) = CONFIRMED /\
  (In "direct_profile_link" (reasons (resolveIdentity test_alice))
   \/ In "reverse_link_via_site" (reasons (resolveIdentity test_alice))).
Proof.
  split.
  - vm_compute. reflexivity.
  - pose proof (resolveIdentity_confidence_finite_set test_alice) as H.
    cbv zeta in H. destruct H as (_ & _ & _ & _ & H & _).
    apply H. vm_compute. reflexivity.
Defined.

(** ** Candidate scorer *)

Lemma div_1000 : forall x : Q, x / 1000 == x * (1 # 1000).
Proof. intro x. unfold Qdiv. reflexivity. Qed.



Lemma round3_nonneg : forall v : Q, 0 <= v -> 0 <= round3 v.
Proof.
  intros v Hv. unfold round3, Math_round. rewrite div_1000.
  assert (H : (0 <= Qfloor (v * 1000 + (1 # 2)))%Z).
  { apply Z.le_trans with (Qfloor 0).
    - vm_compute. discriminate.
    - apply Qfloor_resp_le. lra. }
  assert (H' : 0 <= inject_Z (Qfloor (v * 1000 + (1 # 2)))).
  { change 0 with (inject_Z 0). rewrite <- Zle_Qle. exact H. }
  lra.
Qed.

Lemma round3_le_1 : forall v : Q, v <= 1 -> round3 v <= 1.
Proof.
  intros v Hv. unfold round3, Math_round. rewrite div_1000.
  assert (H : (Qfloor (v * 1000 + (1 # 2)) <= 1000)%Z).
  { apply Z.le_trans with (Qfloor (1000 + (1 # 2))).
    - apply Qfloor_resp_le. lra.
    - vm_compute. discriminate. }
  assert (H' : inject_Z (Qfloor (v * 1000 + (1 # 2))) <= inject_Z 1000).
  { rewrite <- Zle_Qle. exact H. }
  change (inject_Z 1000) with 1000 in H'. lra.
Qed.



Lemma clamp01_bounds : forall n : number, 0 <= clamp01 n /\ clamp01 n <= 1.
Proof.
  intros [q | | | ]; simpl; try (split; lra).
  split.
  - destruct (Math_min_cases 1 (Math_max 0 q)) as [E | E]; rewrite E.
    + lra.
    + apply Math_max_le_l.
  - apply Math_min_le_l.
Qed.

Lemma scoreFromSignals_bounds : forall signals key,
    0 <= scoreFromSignals signals key /\ scoreFromSignals signals key <= 1.
Proof.
  intros signals key. unfold scoreFromSignals.
  match goal with |- context [if ?c then _ else _] => destruct c end.
  - split; lra.
  - apply clamp01_bounds.
Qed.

Lemma Math_max_bounds : forall a b lo hi : Q,
    lo <= a <= hi -> lo <= b <= hi -> lo <= Math_max a b <= hi.
Proof.
  intros a b lo hi Ha Hb. destruct (Math_max_cases a b) as [E | E]; rewrite E; assumption.
Qed.


(** ** Sorting and list facts *)


Lemma insert_by_perm : forall {A} (before : A -> A -> bool) a l,
    Permutation (a :: l) (insert_by before a l).
Proof.
  intros A before a l. induction l as [| b t IH]; simpl.
  - apply Permutation_refl.
  - destruct (before b a).
    + eapply perm_trans; [apply perm_swap |]. apply perm_skip. exact IH.
    + apply Permutation_refl.
Qed.

Lemma order_by_perm : forall {A} (before : A -> A -> bool) l,
    Permutation l (order_by before l).
Proof.
  intros A before l. induction l as [| a t IH]; simpl.
  - apply perm_nil.
  - eapply perm_trans; [| apply insert_by_perm]. apply perm_skip. exact IH.
Qed.

Lemma order_by_In : forall {A} (before : A -> A -> bool) l x,
    In x (order_by before l) <-> In x l.
Proof.
  intros A before l x. split; intro H.
  - eapply Permutation_in; [apply Permutation_sym, order_by_perm | exact H].
  - eapply Permutation_in; [apply order_by_perm | exact H].
Qed.

Lemma order_by_length : forall {A} (before : A -> A -> bool) l,
    List.length (order_by before l) = List.length l.
Proof.
  intros A before l. symmetry. apply Permutation_length, order_by_perm.
Qed.

Lemma insert_by_sorted : forall {A} (before : A -> A -> bool),
    (forall x y, before x y = true -> before y x = false) ->
    forall a l, Sorted (in_order before) l -> Sorted (in_order before) (insert_by before a l).
Proof.
  intros A before Hasym a l Hs. induction Hs as [| b t Ht IH Hhd]; simpl.
  - constructor; constructor.
  - destruct (before b a) eqn:E.
    + constructor; [exact IH |].
      destruct t as [| c t']; simpl.
      * constructor. unfold in_order. apply Hasym. exact E.
      * destruct (before c a) eqn:E'.
        -- constructor. inversion Hhd; assumption.
        -- constructor. unfold in_order. apply Hasym. exact E.
    + constructor.
      * constructor; assumption.
      * constructor. unfold in_order. exact E.
Qed.

Lemma order_by_sorted : forall {A} (before : A -> A -> bool),
    (forall x y, before x y = true -> before y x = false) ->
    forall l, Sorted (in_order before) (order_by before l).
Proof.
  intros A before Hasym l. induction l as [| a t IH]; simpl.
  - constructor.
  - apply insert_by_sorted; assumption.
Qed.




Lemma NoDup_filter_map : forall {A B} (f : A -> B) (p : A -> bool) l,
    NoDup (map f l) -> NoDup (map f (filter p l)).
Proof.
  intros A B f p l. induction l as [| a t IH]; simpl; intro Hnd.
  - constructor.
  - inversion Hnd as [| ? ? Hnotin Ht]; subst.
    destruct (p a); simpl.
    + constructor; [| apply IH; exact Ht].
      intro Hin. apply Hnotin. apply in_map_iff in Hin.
      destruct Hin as [x [Hx Hin]]. apply filter_In in Hin.
      apply in_map_iff. exists x. tauto.
    + apply IH. exact Ht.
Qed.

(** ** Idempotent runs ([beginRun]) *)

Lemma sql_eq_true : forall column key,
    sql_eq column (Some key) = true <-> column = Some key.
Proof.
  intros [c |] key; simpl; split; intro H; try discriminate.
  - apply String.eqb_eq in H. now subst.
  - injection H as ->. apply String.eqb_refl.
Qed.

Lemma truthy_nonempty : forall key, key <> "" -> truthy (Some key) = true.
Proof.
  intros key H. simpl. destruct (String.eqb key "") eqn:E; [| reflexivity].
  apply String.eqb_eq in E. contradiction.
Qed.

Lemma run_keys_In : forall runs row key,
    In row runs -> run_idempotency_key row = Some key -> In key (run_keys runs).
Proof.
  intros runs row key Hin Hkey. unfold run_keys. apply in_flat_map.
  exists row. split; [exact Hin |]. rewrite Hkey. now left.
Qed.

Lemma filter_key_absent : forall runs key,
    ~ In key (run_keys runs) ->
    filter (fun r => sql_eq (run_idempotency_key r) (Some key)) runs = [].
Proof.
  intros runs key. induction runs as [| a t IH]; simpl; intro Hnot; [reflexivity |].
  destruct (sql_eq (run_idempotency_key a) (Some key)) eqn:E.
  - apply sql_eq_true in E. exfalso. apply Hnot. rewrite E. now left.
  - apply IH. intro Hin. apply Hnot. apply in_or_app. now right.
Qed.

(** Under the UNIQUE constraint the key selects its one row. *)
Lemma filter_key_unique : forall runs row key,
    NoDup (run_keys runs) -> In row runs -> run_idempotency_key row = Some key ->
    filter (fun r => sql_eq (run_idempotency_key r) (Some key)) runs = [row].
Proof.
  intros runs row key. induction runs as [| a t IH]; simpl; intros Hnd Hin Hkey.
  - destruct Hin.
  - destruct Hin as [-> | Hin].
    + rewrite Hkey in *. simpl in Hnd. inversion Hnd as [| ? ? Hnotin _]; subst.
      assert (E : sql_eq (Some key) (Some key) = true) by now apply sql_eq_true.
      rewrite E. f_equal. now apply filter_key_absent.
    + destruct (run_idempotency_key a) as [k |] eqn:Ka; simpl in Hnd.
      * inversion Hnd as [| ? ? Hnotin Hnd']; subst.
        destruct (sql_eq (Some k) (Some key)) eqn:E.
        -- apply sql_eq_true in E. injection E as ->.
           exfalso. apply Hnotin. eapply run_keys_In; eassumption.
        -- now apply IH.
      * simpl. now apply IH.
Qed.

Lemma select_run_by_key_unique : forall s row key,
    schema_ok s -> In row (pipeline_runs s) -> run_idempotency_key row = Some key ->
    CandidateStore.select_run_by_key (Some key) s = Some row.
Proof.
  intros s row key Hok Hin Hkey. unfold CandidateStore.select_run_by_key.
  rewrite (filter_key_unique _ _ _ (runs_key_unique _ Hok) Hin Hkey). reflexivity.
Qed.

Lemma select_run_by_key_In : forall s row key,
    CandidateStore.select_run_by_key key s = Some row ->
    In row (pipeline_runs s) /\ sql_eq (run_idempotency_key row) key = true.
Proof.
  intros s row key H. unfold CandidateStore.select_run_by_key in H.
  match type of H with hd_error ?l = _ => destruct l as [| r t] eqn:E end;
    simpl in H; [discriminate |]. injection H as ->.
  assert (Hin : In row (row :: t)) by now left.
  rewrite <- E in Hin. apply order_by_In in Hin. apply filter_In in Hin. exact Hin.
Qed.

(** What a successful pair of INSERTs leaves behind. *)
Lemma insert_run_ok : forall now id params s info s1,
    CandidateStore.insert_run now id params s = (Ok info, s1) ->
    info = {| runId := id; resumed := false |}
    /\ (exists row,
           pipeline_runs s1 = push (pipeline_runs s) row
           /\ run_id row = id
           /\ run_idempotency_key row = br_idempotencyKey params
           /\ run_status row = running)
    /\ ~ In id (map run_id (pipeline_runs s))
    /\ (forall key, br_idempotencyKey params = Some key ->
                    ~ In key (run_keys (pipeline_runs s)))
    /\ candidate_evidence_links s1 = candidate_evidence_links s.
Proof.
  intros now id params s info s1 H.
  unfold CandidateStore.insert_run, bind, CandidateStore.insert_pipeline_run,
    CandidateStore.insert_run_role, ret in H.
  cbn [run_id run_idempotency_key rr_run_id rr_role_key] in H.
  destruct (existsb (fun r => String.eqb (run_id r) id) (pipeline_runs s)) eqn:Eid;
    [discriminate |].
  destruct (existsb (fun r => sql_eq (run_idempotency_key r) (br_idempotencyKey params))
                    (pipeline_runs s)) eqn:Ekey; [discriminate |].
  simpl in H.
  repeat match type of H with
         | context [if ?c then _ else _] => destruct c; [discriminate |]
         end.
  simpl in H. injection H as <- <-. split; [reflexivity |]. split; [| split; [| split]].
  - eexists. split; [reflexivity |]. simpl. auto.
  - intro Hin. apply in_map_iff in Hin. destruct Hin as [r [Hr Hin]].
    assert (Ht : existsb (fun r => String.eqb (run_id r) id) (pipeline_runs s) = true).
    { apply existsb_exists. exists r. split; [exact Hin |]. rewrite Hr. apply String.eqb_refl. }
    congruence.
  - intros key Hkey Hin. unfold run_keys in Hin. apply in_flat_map in Hin.
    destruct Hin as [r [Hin Hk]].
    assert (Ht : existsb (fun r => sql_eq (run_idempotency_key r) (br_idempotencyKey params))
                         (pipeline_runs s) = true).
    { apply existsb_exists. exists r. split; [exact Hin |].
      rewrite Hkey. apply sql_eq_true.
      destruct (run_idempotency_key r); simpl in Hk; [| destruct Hk].
      destruct Hk as [-> | []]. reflexivity. }
    congruence.
  - reflexivity.
Qed.

Lemma run_keys_push : forall runs row,
    run_keys (push runs row)
    = (run_keys runs ++ match run_idempotency_key row with
                        | Some k => [k]
                        | None => []
                        end)%list.
Proof.
  intros runs row. unfold run_keys, push. rewrite flat_map_app. simpl.
  now rewrite app_nil_r.
Qed.

Lemma NoDup_snoc : forall {A} (l : list A) a, NoDup l -> ~ In a l -> NoDup (l ++ [a]).
Proof.
  intros A l a Hnd Hnot. apply NoDup_app; [exact Hnd | repeat constructor; auto |].
  intros x Hx [<- | []]. contradiction.
Qed.

(** A successful [insert_run] keeps the key constraints. *)
Lemma insert_run_schema_ok : forall now id params s info s1,
    schema_ok s ->
    CandidateStore.insert_run now id params s = (Ok info, s1) ->
    schema_ok s1.
Proof.
  intros now id params s info s1 Hok H.
  destruct (insert_run_ok _ _ _ _ _ _ H) as (_ & (row & Hruns & Hid & Hkey & _) & Hfresh & Hk & Hev).
  constructor.
  - rewrite Hruns. unfold push. rewrite map_app. simpl. rewrite Hid.
    apply NoDup_snoc; [apply (runs_primary_key _ Hok) | exact Hfresh].
  - rewrite Hruns, run_keys_push, Hkey.
    destruct (br_idempotencyKey params) as [k |] eqn:E.
    + apply NoDup_snoc; [apply (runs_key_unique _ Hok) | now apply Hk].
    + rewrite app_nil_r. apply (runs_key_unique _ Hok).
  - rewrite Hev. apply (evidence_unique _ Hok).
Qed.

Lemma beginRun_not_resumed : forall now uuid params s info s1,
    CandidateStore.beginRun now uuid params s = (Ok info, s1) ->
    resumed info = false ->
    exists id, CandidateStore.insert_run now id params s = (Ok info, s1).
Proof.
  intros now uuid params s info s1 H Hres.
  unfold CandidateStore.beginRun, bind, query in H.
  match type of H with
  | context [match ?e with Some _ => _ | None => _ end] => destruct e as [row |]
  end.
  - destruct (CandidateStore.resumable (run_status row)).
    + unfold ret in H. injection H as <- <-. discriminate Hres.
    + eexists. exact H.
  - eexists. exact H.
Qed.

Lemma beginRun_resumes : forall now uuid params s row key,
    schema_ok s ->
    br_idempotencyKey params = Some key -> key <> "" ->
    In row (pipeline_runs s) ->
    run_idempotency_key row = Some key ->
    run_status row = running \/ run_status row = completed ->
    CandidateStore.beginRun now uuid params s
    = (Ok {| runId := run_id row; resumed := true |}, s).
Proof.
  intros now uuid params s row key Hok Hkey Hne Hin Hrow Hst.
  unfold CandidateStore.beginRun, bind, query.
  rewrite Hkey, (truthy_nonempty _ Hne).
  rewrite (select_run_by_key_unique _ _ _ Hok Hin Hrow).
  destruct Hst as [-> | ->]; reflexivity.
Qed.

(** C2. Two [beginRun] calls with the same non-empty idempotency key: the
    first creates the run (in status running, under that key); whenever
    that run is running or completed when the second call is made, the
    second call returns the first call's [runId] with [resumed = true] and
    leaves the store as it found it. *)
Theorem beginRun_same_key_returns_same_run :
  forall (now1 now2 : Z) (uuid1 uuid2 : string) (p1 p2 : BeginRunParams)
         (key : string) (s s1 : Store) (r1 : string),
    schema_ok s ->
    br_idempotencyKey p1 = Some key -> key <> "" ->
    br_idempotencyKey p2 = Some key ->
    CandidateStore.beginRun now1 uuid1 p1 s = (Ok {| runId := r1; resumed := false |}, s1) ->
    schema_ok s1
    /\ (exists row, In row (pipeline_runs s1) /\ run_id row = r1
                    /\ run_idempotency_key row = Some key /\ run_status row = running)
    /\ (forall (s2 : Store) (row : PipelineRunRow),
           schema_ok s2 ->
           In row (pipeline_runs s2) ->
           run_id row = r1 ->
           run_idempotency_key row = Some key ->
           run_status row = running \/ run_status row = completed ->
           CandidateStore.beginRun now2 uuid2 p2 s2
           = (Ok {| runId := r1; resumed := true |}, s2)).
Proof.
  intros now1 now2 uuid1 uuid2 p1 p2 key s s1 r1 Hok Hk1 Hne Hk2 Hfirst.
  destruct (beginRun_not_resumed _ _ _ _ _ _ Hfirst eq_refl) as [id Hins].
  pose proof (insert_run_schema_ok _ _ _ _ _ _ Hok Hins) as Hok1.
  destruct (insert_run_ok _ _ _ _ _ _ Hins) as (Hinfo & (row & Hruns & Hid & Hkey & Hst) & _).
  injection Hinfo as ->.
  split; [exact Hok1 |]. split.
  - exists row. rewrite Hruns. unfold push. split; [apply in_or_app; right; now left |].
    rewrite Hkey, Hk1. auto.
  - intros s2 row2 Hok2 Hin2 Hid2 Hkey2 Hst2. rewrite <- Hid2.
    eapply beginRun_resumes; eassumption.
Qed.

Lemma empty_store_schema_ok : schema_ok empty_store.
Proof. constructor; simpl; constructor. Qed.

Lemma beginRun_same_key_returns_same_run_witness :
  CandidateStore.beginRun 2000 "uuid-2" test_begin_params test_store_after_first_run
  = (Ok {| runId := "uuid-1"; resumed := true |}, test_store_after_first_run).
Proof.
  destruct (beginRun_same_key_returns_same_run
              1000 2000 "uuid-1" "uuid-2" test_begin_params test_begin_params
              "role:2026-01-01" empty_store test_store_after_first_run "uuid-1"
              empty_store_schema_ok eq_refl ltac:(discriminate) eq_refl
              ltac:(vm_compute; reflexivity))
    as (Hok1 & _ & Hsecond).
  eapply Hsecond.
  - exact Hok1.
  - vm_compute. left. reflexivity.
  - reflexivity.
  - reflexivity.
  - left. reflexivity.
Defined.

(** C1 (the code departs from the claim). Re-submitting the key of a
    failed run does not restart it: the guard lets the call fall through
    to the INSERT, which repeats the failed run's [idempotency_key] and so
    violates the column's UNIQUE constraint; [beginRun] throws and no run
    row is added. *)
Theorem beginRun_failed_run_restart_throws :
  CandidateStore.select_run_by_key (Some "role:2026-01-01") test_store_failed_run
  = Some {| run_id := "uuid-1"; run_idempotency_key := Some "role:2026-01-01";
            run_status := failed; run_started_at := 1000; run_finished_at := Some 1500%Z;
            run_target_candidates := 300; run_role_key := "backend";
            run_role_title := "Backend Engineer"; run_config_json := None;
            run_summary_json := None |}
  /\ CandidateStore.beginRun 2000 "uuid-2" test_begin_params test_store_failed_run
     = (Throw (unique_failed "pipeline_runs.idempotency_key"), test_store_failed_run).
Proof. split; vm_compute; reflexivity. Qed.

(** The same holds for every store: when the run stored under the key is
    failed, [beginRun] with that key throws and changes nothing. *)
Lemma beginRun_failed_key_always_throws :
  forall now uuid params s key row,
    br_idempotencyKey params = Some key -> key <> "" ->
    CandidateStore.select_run_by_key (Some key) s = Some row ->
    run_status row = failed ->
    exists e, CandidateStore.beginRun now uuid params s = (Throw e, s).
Proof.
  intros now uuid params s key row Hkey Hne Hsel Hst.
  unfold CandidateStore.beginRun, bind, query.
  rewrite Hkey, (truthy_nonempty _ Hne), Hsel, Hst. simpl.
  unfold CandidateStore.insert_run, bind, CandidateStore.insert_pipeline_run.
  cbn [run_id run_idempotency_key].
  match goal with |- context [if ?c then _ else _] => destruct c end.
  - eexists. reflexivity.
  - rewrite Hkey.
    assert (E : existsb (fun r => sql_eq (run_idempotency_key r) (Some key))
                        (pipeline_runs s) = true).
    { apply existsb_exists. exists row. now apply select_run_by_key_In. }
    rewrite E. eexists. reflexivity.
Qed.

(** ** Review workflow: [upsertReviewStatus], [promoteCandidate], [submitVerification] *)

Lemma find_map_update : forall {A} (same : A -> bool) (upd : A -> A) (l : list A),
    (forall r, same r = true -> same (upd r) = true) ->
    existsb same l = true ->
    exists r0, find same l = Some r0
               /\ find same (map (fun r => if same r then upd r else r) l) = Some (upd r0).
Proof.
  intros A same upd l Hkeep. induction l as [| a t IH]; simpl; intro Hex; [discriminate |].
  destruct (same a) eqn:Ea.
  - exists a. rewrite (Hkeep _ Ea). auto.
  - rewrite Ea. simpl in Hex. apply IH. exact Hex.
Qed.

Lemma find_push_new : forall {A} (same : A -> bool) (l : list A) (row : A),
    existsb same l = false -> same row = true -> find same (push l row) = Some row.
Proof.
  intros A same l row. unfold push. induction l as [| a t IH]; simpl; intros Hex Hrow.
  - now rewrite Hrow.
  - apply orb_false_iff in Hex. destruct Hex as [Ea Ht]. rewrite Ea. now apply IH.
Qed.

Lemma find_map_other : forall {A} (same other : A -> bool) (upd : A -> A) (l : list A),
    (forall r, same r = true -> other r = false) ->
    (forall r, same r = true -> other (upd r) = false) ->
    find other (map (fun r => if same r then upd r else r) l) = find other l.
Proof.
  intros A same other upd l H1 H2. induction l as [| a t IH]; simpl; [reflexivity |].
  destruct (same a) eqn:Ea.
  - rewrite (H1 _ Ea), (H2 _ Ea). exact IH.
  - destruct (other a); [reflexivity | exact IH].
Qed.

Lemma find_push_other : forall {A} (other : A -> bool) (l : list A) (row : A),
    other row = false -> find other (push l row) = find other l.
Proof.
  intros A other l row Hrow. unfold push. induction l as [| a t IH]; simpl.
  - now rewrite Hrow.
  - destruct (other a); [reflexivity | exact IH].
Qed.

Lemma review_key_distinct : forall c1 r1 c2 r2 row,
    String.eqb c1 c2 && String.eqb r1 r2 = false ->
    review_key_eqb c1 r1 row = true -> review_key_eqb c2 r2 row = false.
Proof.
  intros c1 r1 c2 r2 row Hneq H. unfold review_key_eqb in *.
  apply andb_true_iff in H. destruct H as [Hc Hr].
  apply String.eqb_eq in Hc. apply String.eqb_eq in Hr. subst. exact Hneq.
Qed.

(** An upsert of a review succeeds as soon as candidate and run exist; it
    leaves exactly one change behind: the pair's review row now carries
    the given status and notes. *)
Lemma upsertReviewStatus_ok : forall now p s,
    references_ok (rp_candidateId p) (rp_runId p) s = true ->
    exists s' r,
      CandidateStore.upsertReviewStatus now p s = (Ok tt, s')
      /\ s' = with_candidate_reviews (candidate_reviews s') s
      /\ review_of (rp_candidateId p) (rp_runId p) s' = Some r
      /\ rv_status r = rp_status p
      /\ rv_notes r = rp_notes p
      /\ (forall c rn, String.eqb (rp_candidateId p) c && String.eqb (rp_runId p) rn = false ->
                       review_of c rn s' = review_of c rn s).
Proof.
  intros now p s Href. unfold CandidateStore.upsertReviewStatus.
  fold (review_key_eqb (rp_candidateId p) (rp_runId p)).
  destruct (existsb (review_key_eqb (rp_candidateId p) (rp_runId p)) (candidate_reviews s))
    eqn:Eex.
  - destruct (find_map_update (review_key_eqb (rp_candidateId p) (rp_runId p))
                (CandidateStore.updated_review now p) (candidate_reviews s))
      as [r0 [_ Hfind]]; [intros r Hr; exact Hr | exact Eex |].
    eexists. eexists. split; [reflexivity |]. split; [reflexivity |].
    split; [exact Hfind |]. split; [reflexivity |]. split; [reflexivity |].
    intros c rn Hneq. unfold review_of. cbn [candidate_reviews with_candidate_reviews].
    fold (review_key_eqb c rn).
    apply find_map_other; intros r Hr; eapply review_key_distinct; eauto.
  - rewrite Href. cbn [negb].
    eexists. eexists. split; [reflexivity |]. split; [reflexivity |].
    split.
    + unfold review_of. cbn [candidate_reviews with_candidate_reviews].
      fold (review_key_eqb (rp_candidateId p) (rp_runId p)).
      apply find_push_new; [exact Eex |].
      unfold review_key_eqb. cbn. now rewrite !String.eqb_refl.
    + split; [reflexivity |]. split; [reflexivity |].
      intros c rn Hneq. unfold review_of. cbn [candidate_reviews with_candidate_reviews].
      apply find_push_other. cbn. rewrite (String.eqb_sym (rp_candidateId p)).
      rewrite (String.eqb_sym (rp_runId p)). 
      rewrite (String.eqb_sym c), (String.eqb_sym rn). exact Hneq.
Qed.

Lemma order_by_nil_iff : forall {A} (before : A -> A -> bool) l,
    order_by before l = [] <-> l = [].
Proof.
  intros A before l. split; intro H.
  - apply length_zero_iff_nil. rewrite <- (order_by_length before). now rewrite H.
  - now subst.
Qed.

Lemma getPromotion_none : forall c r s,
    promotions_of c r s = [] ->
    CandidateStore.getPromotion c r s = (Ok None, s).
Proof.
  intros c r s H. unfold CandidateStore.getPromotion, query.
  fold (promotions_of c r s). rewrite H. reflexivity.
Qed.

Lemma getPromotion_some : forall c r s,
    promotions_of c r s <> [] ->
    exists p, CandidateStore.getPromotion c r s = (Ok (Some p), s).
Proof.
  intros c r s H. unfold CandidateStore.getPromotion, query.
  fold (promotions_of c r s).
  destruct (order_by (fun a b => (pr_promoted_at b <? pr_promoted_at a)%Z)
                     (promotions_of c r s)) as [| p t] eqn:E.
  - apply order_by_nil_iff in E. contradiction.
  - exists p. reflexivity.
Qed.

(** C7, as the code has it. [promoteCandidate] returns
    [{success: false, error}] and writes nothing when fewer than
    [minProofLinks] links are supplied (2 unless configured) or the
    (candidate, run) pair already has a promotion. Otherwise, if candidate
    and run exist in the store, it appends exactly one promotion row,
    upserts the pair's review to [promoted_shortlist], changes nothing
    else, and returns [{success: true}]; if either is unknown, the INSERT
    fails its foreign key, the call throws and nothing is written. *)
Theorem promoteCandidate_guards_then_promotes :
  forall (recruiting : RecruitingConfig) (now now' : Z) (params : PromoteParams)
         (s : Store),
    let minProofLinks := nullish (cfg_promotion_minProofLinks recruiting) 2%Z in
    let provided := Z.of_nat (List.length (pc_evidenceLinks params)) in
    let cand := pc_candidateId params in
    let run := pc_runId params in
    ((provided < minProofLinks)%Z \/ promotions_of cand run s <> [] ->
     exists msg,
       CandidatePipelineService.promoteCandidate recruiting now now' params s
       = (Ok {| success := false; error := Some msg |}, s))
    /\ ((minProofLinks <= provided)%Z -> promotions_of cand run s = [] ->
        references_ok cand run s = true ->
        exists s' review,
          CandidatePipelineService.promoteCandidate recruiting now now' params s
          = (Ok {| success := true; error := None |}, s')
          /\ candidate_promotions s'
             = push (candidate_promotions s)
                 {| pr_candidate_id := cand;
                    pr_run_id := run;
                    pr_promotion_reason := pc_promotionReason params;
                    pr_confidence_override := pc_confidenceOverride params;
                    pr_outreach_angle := pc_outreachAngle params;
                    pr_proof_json := pc_evidenceLinks params;
                    pr_promoted_at := now;
                    pr_promoted_by := None |}
          /\ review_of cand run s' = Some review
          /\ rv_status review = promoted_shortlist
          /\ (forall c rn, String.eqb cand c && String.eqb run rn = false ->
                           review_of c rn s' = review_of c rn s)
          /\ s' = with_candidate_reviews (candidate_reviews s')
                    (with_candidate_promotions (candidate_promotions s') s))
    /\ ((minProofLinks <= provided)%Z -> promotions_of cand run s = [] ->
        references_ok cand run s = false ->
        CandidatePipelineService.promoteCandidate recruiting now now' params s
        = (Throw foreign_key_failed, s))
    /\ cfg_promotion_minProofLinks default_config = Some 2%Z.
Proof.
  intros recruiting now now' params s minProofLinks provided cand run.
  unfold CandidatePipelineService.promoteCandidate.
  fold minProofLinks provided cand run.
  repeat split.
  - intros [Hfew | Hdup].
    + apply Z.ltb_lt in Hfew. rewrite Hfew. eexists. reflexivity.
    + destruct (provided <? minProofLinks)%Z; [eexists; reflexivity |].
      destruct (getPromotion_some _ _ _ Hdup) as [p Hp].
      unfold bind. rewrite Hp. eexists. reflexivity.
  - intros Hen Hnone Href.
    apply Z.ltb_ge in Hen. rewrite Hen. unfold bind at 1.
    rewrite (getPromotion_none _ _ _ Hnone).
    unfold CandidateStore.promoteCandidate, bind, CandidateStore.insert_promotion.
    cbn [pp_candidateId pp_runId pp_promotionReason pp_confidenceOverride
         pp_outreachAngle pp_proofLinks pp_promotedBy].
    rewrite Href. cbn [negb].
    match goal with
    | |- context [CandidateStore.upsertReviewStatus ?n ?p ?st] =>
        destruct (upsertReviewStatus_ok n p st) as (s' & r & Hup & Hs' & Hrev & Hst & _ & Hoth);
          [exact Href |]
    end.
    rewrite Hup. exists s', r. unfold ret.
    cbn [rp_candidateId rp_runId rp_status] in Hrev, Hst, Hoth.
    split; [reflexivity |]. split; [rewrite Hs'; reflexivity |].
    split; [exact Hrev |]. split; [exact Hst |]. split; [exact Hoth |].
    rewrite Hs' at 1. rewrite Hs' at 3. reflexivity.
  - intros Hen Hnone Href.
    apply Z.ltb_ge in Hen. rewrite Hen. unfold bind at 1.
    rewrite (getPromotion_none _ _ _ Hnone).
    unfold CandidateStore.promoteCandidate, bind, CandidateStore.insert_promotion.
    cbn [pp_candidateId pp_runId]. rewrite Href. reflexivity.
Qed.

Lemma promoteCandidate_guards_then_promotes_witness :
  exists s' review,
    CandidatePipelineService.promoteCandidate default_config 3000 3001
      (test_promote_params "li:abc") test_store_with_candidate
    = (Ok {| success := true; error := None |}, s')
    /\ review_of "li:abc" "uuid-1" s' = Some review
    /\ rv_status review = promoted_shortlist.
Proof.
  destruct (promoteCandidate_guards_then_promotes default_config 3000 3001
              (test_promote_params "li:abc") test_store_with_candidate)
    as (_ & Hpromote & _).
  destruct Hpromote as (s' & review & Hrun & _ & Hrev & Hst & _).
  - vm_compute. discriminate.
  - vm_compute. reflexivity.
  - vm_compute. reflexivity.
  - exists s', review. auto.
Defined.

(** C7 as stated fails: with enough proof links and no earlier promotion,
    a promotion for a candidate the store does not know is not answered
    with [{success: true}]; the INSERT fails its foreign key and the call
    throws. *)
Lemma promoteCandidate_unknown_candidate_throws :
  (List.length (pc_evidenceLinks (test_promote_params "ghost")) >= 2)%nat
  /\ promotions_of "ghost" "uuid-1" test_store_with_candidate = []
  /\ CandidatePipelineService.promoteCandidate default_config 3000 3001
       (test_promote_params "ghost") test_store_with_candidate
     = (Throw foreign_key_failed, test_store_with_candidate)
  /\ ~ (exists s',
           CandidatePipelineService.promoteCandidate default_config 3000 3001
             (test_promote_params "ghost") test_store_with_candidate
           = (Ok {| success := true; error := None |}, s')).
Proof.
  assert (H : CandidatePipelineService.promoteCandidate default_config 3000 3001
                (test_promote_params "ghost") test_store_with_candidate
              = (Throw foreign_key_failed, test_store_with_candidate))
    by (vm_compute; reflexivity).
  split; [vm_compute; lia |]. split; [vm_compute; reflexivity |].
  split; [exact H |].
  intros [s' Hs']. rewrite H in Hs'. discriminate Hs'.
Qed.

Lemma startsWith_app : forall p x, startsWith (p ++ x) p = true.
Proof.
  induction p as [| c t IH]; intro x; simpl.
  - destruct x; reflexivity.
  - rewrite Ascii.eqb_refl. apply IH.
Qed.

Lemma trimEnd_keeps_prefix : forall p x,
    p <> "" -> trimEnd p = p -> exists y, trimEnd (p ++ x) = p ++ y.
Proof.
  induction p as [| c t IH]; intros x Hne Hp; [contradiction |].
  simpl in Hp |- *.
  destruct t as [| d t'].
  - simpl in Hp. rewrite andb_true_r in Hp.
    destruct (is_space c) eqn:Ec; [discriminate |]. simpl.
    exists (trimEnd x). reflexivity.
  - assert (Ht : trimEnd (String d t') = String d t').
    { destruct (is_space c && String.eqb (trimEnd (String d t')) ""); [discriminate |].
      now injection Hp. }
    destruct (IH x ltac:(discriminate) Ht) as [y Hy].
    rewrite Hy. simpl. rewrite andb_false_r. exists y. reflexivity.
Qed.

(** Trimming a note that starts with a fixed, non-blank tag keeps the tag. *)
Lemma trim_keeps_tag : forall tag rest,
    tag <> "" -> trimStart tag = tag -> trimEnd tag = tag ->
    startsWith (trim (tag ++ " " ++ rest)) tag = true.
Proof.
  intros tag rest Hne Hs He. unfold trim.
  assert (Hstart : trimStart (tag ++ " " ++ rest) = tag ++ " " ++ rest).
  { destruct tag as [| c t]; [contradiction |]. simpl in Hs |- *.
    destruct (is_space c); [| reflexivity].
    exfalso. clear -Hs.
    assert (Hlen : forall u, (String.length (trimStart u) <= String.length u)%nat).
    { induction u as [| a u' IHu]; simpl; [lia |]. destruct (is_space a); simpl; lia. }
    pose proof (Hlen t) as Hl. rewrite Hs in Hl. simpl in Hl. lia. }
  rewrite Hstart.
  destruct (trimEnd_keeps_prefix tag (" " ++ rest) Hne He) as [y Hy].
  rewrite Hy. apply startsWith_app.
Qed.

(** What [submitVerification] reads as the confidence before: the
    confidence of a cross-platform identity row of the candidate, or
    nothing when the candidate has none. *)
Lemma crossPlatformConfidence_spec : forall cand s detail,
    CandidateStore.getCandidate cand s = (Ok detail, s) ->
    match CandidatePipelineService.crossPlatformConfidence detail with
    | Some c =>
        exists i, In i (candidate_identities s)
                  /\ idn_candidate_id i = cand
                  /\ idn_platform i = "cross_platform"
                  /\ idn_confidence i = c
    | None =>
        detail = None
        \/ forall i, In i (candidate_identities s) -> idn_candidate_id i = cand ->
                     idn_platform i <> "cross_platform"
    end.
Proof.
  intros cand s detail Hget.
  unfold CandidateStore.getCandidate, query in Hget.
  destruct (find (fun c => String.eqb (cand_id c) cand) (candidates s)) as [c |];
    injection Hget as <-; simpl; [| now left].
  match goal with
  | |- context [find ?p ?l] => destruct (find p l) as [i |] eqn:Ef
  end; simpl.
  - apply find_some in Ef. destruct Ef as [Hin Hp].
    apply order_by_In in Hin. apply filter_In in Hin. destruct Hin as [Hin Hc].
    exists i. apply String.eqb_eq in Hp. apply String.eqb_eq in Hc. auto.
  - right. intros i Hin Hc Hp.
    assert (Hin' : In i (order_by
                           (fun a b => negb (Qle_bool (idn_confidence a) (idn_confidence b)))
                           (filter (fun r => String.eqb (idn_candidate_id r) cand)
                                   (candidate_identities s)))).
    { apply order_by_In. apply filter_In. split; [exact Hin |].
      rewrite Hc. apply String.eqb_refl. }
    pose proof (find_none _ _ Ef _ Hin') as Hn. simpl in Hn.
    rewrite Hp in Hn. discriminate Hn.
Qed.

(** C8, as the code has it. When candidate and run exist in the store,
    [submitVerification] appends one verification row (method browser)
    whose [identity_confidence_before] is the candidate's cross-platform
    identity confidence; then outcome confirmed upserts the pair's review
    to [promoted_shortlist] with notes that start with
    "Verified via browser.", outcome rejected upserts it to [rejected]
    with notes that start with "Verification rejected.", and outcome
    inconclusive leaves the reviews as they are. When candidate or run is
    unknown, the INSERT fails its foreign key: the call throws and no row
    is written. *)
Theorem submitVerification_records_then_updates_review :
  forall (now now' : Z) (params : SubmitVerificationParams) (s : Store),
    let cand := sv_candidateId params in
    let run := sv_runId params in
    (references_ok cand run s = true ->
     exists s' before,
       CandidatePipelineService.submitVerification now now' params s = (Ok tt, s')
       /\ candidate_verifications s'
          = push (candidate_verifications s)
              {| vf_candidate_id := cand;
                 vf_run_id := run;
                 vf_method := browser;
                 vf_outcome := sv_outcome params;
                 vf_identity_confidence_before := before;
                 vf_identity_confidence_after := sv_identityConfidenceAfter params;
                 vf_proof_json := sv_proofLinks params;
                 vf_notes := sv_notes params;
                 vf_created_at := now |}
       /\ match before with
          | Some c =>
              exists i, In i (candidate_identities s)
                        /\ idn_candidate_id i = cand
                        /\ idn_platform i = "cross_platform"
                        /\ idn_confidence i = c
          | None =>
              forall i, In i (candidate_identities s) -> idn_candidate_id i = cand ->
                        idn_platform i <> "cross_platform"
          end
       /\ match sv_outcome params with
          | outcome_confirmed =>
              exists r notes,
                review_of cand run s' = Some r
                /\ rv_status r = promoted_shortlist
                /\ rv_notes r = Some notes
                /\ startsWith notes "Verified via browser." = true
          | outcome_rejected =>
              exists r notes,
                review_of cand run s' = Some r
                /\ rv_status r = rejected
                /\ rv_notes r = Some notes
                /\ startsWith notes "Verification rejected." = true
          | outcome_inconclusive => candidate_reviews s' = candidate_reviews s
          end)
    /\ (references_ok cand run s = false ->
        CandidatePipelineService.submitVerification now now' params s
        = (Throw foreign_key_failed, s)).
Proof.
  intros now now' params s cand run. split.
  - intro Href.
    unfold CandidatePipelineService.submitVerification, bind at 1.
    destruct (CandidateStore.getCandidate (sv_candidateId params) s) as [res s0] eqn:Hget.
    assert (Hs0 : s0 = s /\ exists detail, res = Ok detail).
    { unfold CandidateStore.getCandidate, query in Hget. injection Hget as <- <-.
      split; [reflexivity | eexists; reflexivity]. }
    destruct Hs0 as [-> [detail ->]].
    pose proof (crossPlatformConfidence_spec _ _ detail Hget) as Hbefore.
    unfold bind at 1, CandidateStore.submitVerification.
    cbn [vp_candidateId vp_runId vp_method vp_outcome vp_identityConfidenceBefore
         vp_identityConfidenceAfter vp_proofLinks vp_notes].
    fold cand run. rewrite Href. cbn [negb].
    set (s1 := with_candidate_verifications _ s).
    assert (Href1 : references_ok cand run s1 = true) by exact Href.
    assert (Hb : match CandidatePipelineService.crossPlatformConfidence detail with
                 | Some c =>
                     exists i, In i (candidate_identities s)
                               /\ idn_candidate_id i = cand
                               /\ idn_platform i = "cross_platform"
                               /\ idn_confidence i = c
                 | None =>
                     forall i, In i (candidate_identities s) -> idn_candidate_id i = cand ->
                               idn_platform i <> "cross_platform"
                 end).
    { destruct (CandidatePipelineService.crossPlatformConfidence detail); [exact Hbefore |].
      destruct Hbefore as [-> | H]; [| exact H].
      exfalso. unfold CandidateStore.getCandidate, query in Hget.
      destruct (find (fun c => String.eqb (cand_id c) (sv_candidateId params)) (candidates s))
        eqn:Ef; [discriminate |].
      unfold references_ok, candidate_exists in Href.
      apply andb_true_iff in Href. destruct Href as [Hex _].
      apply existsb_exists in Hex. destruct Hex as [c [Hin Hc]].
      pose proof (find_none _ _ Ef _ Hin) as Hn. simpl in Hn. fold cand in Hn. congruence. }
    destruct (sv_outcome params) eqn:Eout.
    + match goal with
      | |- context [CandidateStore.upsertReviewStatus ?n ?p ?st] =>
          destruct (upsertReviewStatus_ok n p st)
            as (s' & r & Hup & Hs' & Hrev & Hst & Hnotes & _); [exact Href1 |]
      end.
      exists s', (CandidatePipelineService.crossPlatformConfidence detail).
      split; [exact Hup |]. split; [rewrite Hs'; reflexivity |]. split; [exact Hb |].
      eexists r, _. split; [exact Hrev |]. split; [exact Hst |].
      split; [exact Hnotes |].
      apply (trim_keeps_tag "Verified via browser."); [discriminate | reflexivity | reflexivity].
    + match goal with
      | |- context [CandidateStore.upsertReviewStatus ?n ?p ?st] =>
          destruct (upsertReviewStatus_ok n p st)
            as (s' & r & Hup & Hs' & Hrev & Hst & Hnotes & _); [exact Href1 |]
      end.
      exists s', (CandidatePipelineService.crossPlatformConfidence detail).
      split; [exact Hup |]. split; [rewrite Hs'; reflexivity |]. split; [exact Hb |].
      eexists r, _. split; [exact Hrev |]. split; [exact Hst |].
      split; [exact Hnotes |].
      apply (trim_keeps_tag "Verification rejected."); [discriminate | reflexivity | reflexivity].
    + exists s1, (CandidatePipelineService.crossPlatformConfidence detail).
      split; [reflexivity |]. split; [reflexivity |]. split; [exact Hb | reflexivity].
  - intro Href.
    unfold CandidatePipelineService.submitVerification, bind, CandidateStore.getCandidate,
      query, CandidateStore.submitVerification.
    cbn [vp_candidateId vp_runId]. fold cand run. rewrite Href. reflexivity.
Qed.

Lemma submitVerification_records_then_updates_review_witness :
  exists s' r notes,
    CandidatePipelineService.submitVerification 4000 4001
      (test_verification "li:abc" outcome_confirmed) test_store_with_candidate
    = (Ok tt, s')
    /\ review_of "li:abc" "uuid-1" s' = Some r
    /\ rv_status r = promoted_shortlist
    /\ rv_notes r = Some notes
    /\ startsWith notes "Verified via browser." = true.
Proof.
  destruct (submitVerification_records_then_updates_review 4000 4001
              (test_verification "li:abc" outcome_confirmed) test_store_with_candidate)
    as [Hok _].
  destruct Hok as (s' & before & Hrun & _ & _ & Hreview).
  - vm_compute. reflexivity.
  - cbn [sv_outcome test_verification] in Hreview.
    destruct Hreview as (r & notes & Hrev & Hst & Hnotes & Hprefix).
    exists s', r, notes. auto.
Defined.

Example submitVerification_confirmed_notes :
  review_of "li:abc" "uuid-1"
    (snd (CandidatePipelineService.submitVerification 4000 4001
            (test_verification "li:abc" outcome_confirmed) test_store_with_candidate))
  = Some {| rv_candidate_id := "li:abc"; rv_run_id := "uuid-1";
            rv_status := promoted_shortlist; rv_priority := 0;
            rv_notes := Some "Verified via browser. profile links back";
            rv_updated_by := None; rv_created_at := 4001;
            rv_updated_at := 4001 |}.
Proof. vm_compute. reflexivity. Qed.

(** C8 as stated fails: for a candidate the store does not know no
    verification row is appended; the INSERT fails its foreign key and
    the call throws. *)
Lemma submitVerification_unknown_candidate_throws :
  CandidatePipelineService.submitVerification 4000 4001
    (test_verification "ghost" outcome_confirmed) test_store_with_candidate
  = (Throw foreign_key_failed, test_store_with_candidate)
  /\ candidate_verifications
       (snd (CandidatePipelineService.submitVerification 4000 4001
               (test_verification "ghost" outcome_confirmed) test_store_with_candidate))
     = [].
Proof. split; vm_compute; reflexivity. Qed.

(** ** Ranked results ([getResults]) *)






Lemma Sorted_strong : forall {A} (R : A -> A -> Prop) l,
    (forall x y z, R x y -> R y z -> R x z) -> Sorted R l -> StronglySorted R l.
Proof.
  intros A R l Htrans Hs. apply Sorted_StronglySorted; [| exact Hs].
  intros x y z. apply Htrans.
Qed.








Example getResults_test_store :
  let res := fst (CandidateStore.getResults 9000 "uuid-1" 10 test_results_store) in
  match res with
  | Ok r =>
      map row_candidateId (res_shortlist r) = ["li:abc"]
      /\ map row_candidateId (res_reviewQueue r) = ["li:bob"]
      /\ map (fun row => map ev_url (row_topEvidence row)) (res_shortlist r)
         = [["https://linkedin.com/in/alice"; "https://x.com/alice";
             "https://github.com/alice"]]
      /\ option_map sourced (meta_counts (res_meta r)) = Some 12%nat
  | Throw _ => False
  end.
Proof. vm_compute. repeat split. Qed.



(** ** The run orchestrator: target size and identity *)

(** C4 (the code departs from the claim). [run] bounds the requested
    target from below only: a request for 5000 candidates runs with 5000,
    is stored as the run's [target_candidates] and is sent to the search
    as its limit, where the claim's clamp to [1, 2000] gives 2000. *)
Theorem run_targetCandidates_has_no_upper_bound :
  effectiveTargetCandidates default_config (test_role (Some 5000)) = 5000%Z
  /\ Qred (clampedTargetCandidates default_config (test_role (Some 5000))) = 2000
  /\ Qred (br_targetCandidates
             (CandidatePipelineService.beginRunParams default_config
                (test_input (Some 5000) None None) "2026-01-01")) = 5000
  /\ ctx_targetCandidates
       (CandidatePipelineService.runContext offline_env default_config
          (test_input (Some 5000) None None)) = 5000%Z.
Proof. repeat split; vm_compute; reflexivity. Qed.

(** Where the claim and the code agree: without a role target the run
    uses the configured default, which [resolveRecruitingConfig] keeps
    within [1, 2000] and sets to 300 when nothing is configured. *)
Lemma run_targetCandidates_default : forall raw stateDir role,
    role_targetCandidates role = None ->
    let recruiting := resolveRecruitingConfig raw stateDir in
    effectiveTargetCandidates recruiting role = cfg_targetCandidatesPerRole recruiting
    /\ (1 <= cfg_targetCandidatesPerRole recruiting <= 2000)%Z
    /\ cfg_targetCandidatesPerRole default_config = 300%Z.
Proof.
  intros raw stateDir role Hnone recruiting.
  assert (Hrange : (1 <= cfg_targetCandidatesPerRole recruiting <= 2000)%Z).
  { unfold recruiting, resolveRecruitingConfig. cbn [cfg_targetCandidatesPerRole].
    set (v := clampNumber (raw_targetCandidatesPerRole raw) 1 2000 300).
    assert (Hv : 1 <= v /\ v <= 2000).
    { unfold v, clampNumber. destruct (raw_targetCandidatesPerRole raw) as [[q | | |] |];
        try (split; lra).
      split.
      - destruct (Math_min_cases 2000 (Math_max 1 q)) as [E | E]; rewrite E;
          [lra | apply Math_max_le_l].
      - apply Math_min_le_l. }
    destruct Hv as [Hlo Hhi]. unfold Math_trunc.
    assert (H0 : Qle_bool 0 v = true) by (apply Qle_bool_iff; lra).
    rewrite H0. split.
    - apply Z.le_trans with (Qfloor 1); [vm_compute; discriminate |].
      now apply Qfloor_resp_le.
    - apply Z.le_trans with (Qfloor 2000); [| vm_compute; discriminate].
      now apply Qfloor_resp_le. }
  split; [| split; [exact Hrange | vm_compute; reflexivity]].
  unfold effectiveTargetCandidates. rewrite Hnone. cbn [nullish].
  unfold Math_trunc.
  assert (H0 : Qle_bool 0 (inject_Z (cfg_targetCandidatesPerRole recruiting)) = true).
  { apply Qle_bool_iff. change 0 with (inject_Z 0). rewrite <- Zle_Qle. lia. }
  rewrite H0, Qfloor_Z. lia.
Qed.

Lemma resolveBand_high_or_confirmed : forall c,
    8 # 10 <= c -> resolveBand c = CONFIRMED \/ resolveBand c = HIGH.
Proof.
  intros c Hc. unfold resolveBand.
  destruct (Qle_bool (9 # 10) c); [now left |].
  apply Qle_bool_iff in Hc. rewrite Hc. now right.
Qed.

(** The [identity] of a candidate in [run] has the band of its
    confidence, and its [shortlistEligible] is the threshold test alone;
    the band takes no part in it. The two readings coincide whenever the
    threshold is at least 0.8. *)
Lemma candidateIdentity_band_and_threshold :
  forall (recruiting : RecruitingConfig) (candidate : TalentCandidate)
         (external : ExternalEnrichment),
    let identity := candidateIdentity recruiting candidate external in
    let threshold := cfg_minConfidenceForShortlist recruiting in
    band identity = resolveBand (confidence identity)
    /\ shortlistEligible identity = Qle_bool threshold (confidence identity)
    /\ (8 # 10 <= threshold ->
        shortlistEligible identity
        = (IdentityBand_eqb (band identity) CONFIRMED || IdentityBand_eqb (band identity) HIGH)
          && Qle_bool threshold (confidence identity)).
Proof.
  intros recruiting candidate external identity threshold.
  assert (Hband : band identity = resolveBand (confidence identity)) by reflexivity.
  split; [exact Hband |]. split; [reflexivity |].
  intro Hthr. change (shortlistEligible identity)
    with (Qle_bool threshold (confidence identity)).
  destruct (Qle_bool threshold (confidence identity)) eqn:E.
  - apply Qle_bool_iff in E.
    assert (Hc : 8 # 10 <= confidence identity) by (eapply Qle_trans; eassumption).
    rewrite Hband.
    destruct (resolveBand_high_or_confirmed _ Hc) as [-> | ->]; reflexivity.
  - now rewrite andb_false_r.
Qed.

(** In [run] the resolver is given neither a GitHub employer nor any
    declared profile link, so none of its rules can fire: every candidate
    comes out with confidence 0 and band LOW. *)
Lemma run_identity_always_unconfirmed :
  forall (recruiting : RecruitingConfig) (candidate : TalentCandidate)
         (external : ExternalEnrichment),
    let identity := candidateIdentity recruiting candidate external in
    confidence identity == 0
    /\ band identity = LOW
    /\ reasons identity = ["unconfirmed_no_strong_match"].
Proof.
  intros recruiting candidate external. cbv zeta.
  unfold candidateIdentity. cbn [confidence band reasons].
  unfold resolveIdentity.
  assert (H1 : rule_direct_profile_link (candidateIdentityInput candidate external) = false).
  { unfold rule_direct_profile_link, candidateIdentityInput, includesLinkedinUrl.
    cbn. reflexivity. }
  assert (H2 : rule_reverse_link_via_site (candidateIdentityInput candidate external) = false).
  { unfold rule_reverse_link_via_site, candidateIdentityInput.
    cbn [linkedin github x personalSite opt_field gh_url x_url site_githubUrl site_xUrl
         li_profileUrl].
    change (normalizeUrl None) with (@None string).
    destruct (normalizeUrl (opt_field (hints_github (ext_identityHints external)) hint_url));
      destruct (normalizeUrl (opt_field (hints_x (ext_identityHints external)) hint_url));
      cbn; rewrite ?andb_false_r; reflexivity. }
  assert (H3 : sameEmployer (candidateIdentityInput candidate external) = false).
  { unfold sameEmployer, candidateIdentityInput, same_text. cbn.
    destruct (tc_current_company candidate); reflexivity. }
  rewrite H1, H2, H3. vm_compute. repeat split.
Qed.

(** ** The run orchestrator: what a run leaves in the store *)

Lemma inv_ret : forall {S A} (P : S -> Prop) (a : A), invariant P (ret a).
Proof. intros S A P a s r s' H Hp. unfold ret in H. now injection H as _ <-. Qed.

Lemma inv_throw : forall {S A} (P : S -> Prop) (e : Thrown), invariant P (@throw S A e).
Proof. intros S A P e s r s' H Hp. unfold throw in H. now injection H as _ <-. Qed.

Lemma inv_query : forall {S A} (P : S -> Prop) (f : S -> A), invariant P (query f).
Proof. intros S A P f s r s' H Hp. unfold query in H. now injection H as _ <-. Qed.

Lemma inv_bind : forall {S A B} (P : S -> Prop) (m : Eff S A) (k : A -> Eff S B),
    invariant P m -> (forall a, invariant P (k a)) -> invariant P (bind m k).
Proof.
  intros S A B P m k Hm Hk s r s' H Hp. unfold bind in H.
  destruct (m s) as [[a | e] s1] eqn:E.
  - eapply Hk; [exact H |]. eapply Hm; eassumption.
  - injection H as _ <-. eapply Hm; eassumption.
Qed.

Lemma inv_try_catch : forall {S A} (P : S -> Prop) (body : Eff S A) (handler : Thrown -> Eff S A),
    invariant P body -> (forall e, invariant P (handler e)) ->
    invariant P (try_catch body handler).
Proof.
  intros S A P body handler Hb Hh s r s' H Hp. unfold try_catch in H.
  destruct (body s) as [[a | e] s1] eqn:E.
  - injection H as _ <-. eapply Hb; eassumption.
  - eapply Hh; [exact H |]. eapply Hb; eassumption.
Qed.

Lemma inv_if : forall {S A} (P : S -> Prop) (c : bool) (m1 m2 : Eff S A),
    invariant P m1 -> invariant P m2 -> invariant P (if c then m1 else m2).
Proof. intros S A P [] m1 m2 H1 H2; assumption. Qed.

Ltac inv_compose :=
  repeat first
    [ apply inv_ret
    | apply inv_throw
    | apply inv_query
    | apply inv_if
    | apply inv_bind; [| intro]
    | apply inv_try_catch; [| intro] ].

(** A statement that only touches tables other than [pipeline_runs]. *)
Ltac inv_statement op :=
  let s := fresh "s" in
  let r := fresh "r" in
  let s' := fresh "s'" in
  let H := fresh "H" in
  let Hp := fresh "Hp" in
  intros s r s' H Hp; unfold op in H;
  repeat match type of H with
         | context [if ?c then _ else _] => destruct c
         | context [match ?x with Some _ => _ | None => _ end] => destruct x
         end;
  injection H as _ <-; exact Hp.

Lemma liftDB_keeps : forall {A} (P : Store -> Prop) (op : DB A),
    invariant P op -> invariant (on_db P) (liftDB op).
Proof.
  intros A P op Hop st r st' H Hp. unfold liftDB in H.
  destruct (op (db st)) as [r0 s1] eqn:E. injection H as _ <-.
  unfold on_db. cbn [db with_db]. eapply Hop; eassumption.
Qed.

Lemma store_op_keeps : forall {A} (P : Store -> Prop) env (op : Z -> string -> DB A),
    (forall now uuid, invariant P (op now uuid)) ->
    invariant (on_db P) (store_op env op).
Proof.
  intros A P env op Hop st r st' H Hp. unfold store_op in H.
  destruct (op (Date_now env (tick st)) (randomUUID env (tick st)) (db st)) as [r0 s1] eqn:E.
  injection H as _ <-. unfold on_db. cbn [db with_db next_tick].
  eapply Hop; eassumption.
Qed.

Lemma call_keeps : forall {A} (P : Store -> Prop) (f : nat -> Result A),
    invariant (on_db P) (call f).
Proof. intros A P f st r st' H Hp. unfold call in H. now injection H as _ <-. Qed.

Lemma read_keeps : forall {A} (P : Store -> Prop) (f : nat -> A),
    invariant (on_db P) (read f).
Proof. intros A P f st r st' H Hp. unfold read in H. now injection H as _ <-. Qed.

Lemma update_counts_keeps : forall (P : Store -> Prop) f,
    invariant (on_db P) (update_counts f).
Proof.
  intros P f st r st' H Hp. unfold update_counts, exec in H. now injection H as _ <-.
Qed.

Lemma update_stageErrors_keeps : forall (P : Store -> Prop) f,
    invariant (on_db P) (update_stageErrors f).
Proof.
  intros P f st r st' H Hp. unfold update_stageErrors, exec in H. now injection H as _ <-.
Qed.

Lemma retry_loop_keeps :
  forall {A} (P : Store -> Prop) retryable (task : Run A) maxAttempts remaining attempt,
    invariant (on_db P) task ->
    invariant (on_db P) (retry_loop retryable task maxAttempts attempt remaining).
Proof.
  intros A P retryable task maxAttempts remaining.
  induction remaining as [| n IH]; intros attempt Ht; simpl.
  - apply inv_throw.
  - apply inv_try_catch; [exact Ht |]. intro e.
    apply inv_if; [apply inv_throw |].
    apply inv_bind; [apply inv_ret | intro; now apply IH].
Qed.

Lemma withRetry_keeps : forall {A} (P : Store -> Prop) env provider (task : Run A),
    invariant (on_db P) task -> invariant (on_db P) (withRetry env provider task).
Proof. intros A P env provider task Ht. unfold withRetry. now apply retry_loop_keeps. Qed.

Lemma transaction_keeps : forall {A} (P : Store -> Prop) (body : DB A),
    invariant P body -> invariant P (CandidateStore.transaction body).
Proof.
  intros A P body Hb s r s' H Hp. unfold CandidateStore.transaction in H.
  destruct (body s) as [[a | e] s1] eqn:E; injection H as _ <-.
  - eapply Hb; eassumption.
  - exact Hp.
Qed.

Lemma for_each_keeps : forall {A} (P : Store -> Prop) (f : A -> DB unit) items,
    (forall a, invariant P (f a)) ->
    invariant P (CandidateStore.for_each f items).
Proof.
  intros A P f items Hf. induction items as [| a t IH]; simpl.
  - apply inv_ret.
  - apply inv_bind; [apply Hf | intro; exact IH].
Qed.

Section KeepsRun.

Variable theRun : string.

Lemma run_exists_map : forall (f : PipelineRunRow -> PipelineRunRow) runs,
    (forall r, run_id (f r) = run_id r) ->
    existsb (fun r => String.eqb (run_id r) theRun) (map f runs)
    = existsb (fun r => String.eqb (run_id r) theRun) runs.
Proof.
  intros f runs Hf. induction runs as [| a t IH]; simpl; [reflexivity |].
  now rewrite Hf, IH.
Qed.

Lemma mark_run_keeps : forall status now id summary,
    invariant (run_kept theRun) (CandidateStore.mark_run status now id summary).
Proof.
  intros status now id summary s r s' H Hp.
  unfold CandidateStore.mark_run, bind, exec in H. injection H as _ <-.
  unfold run_kept, run_exists in *. cbn [pipeline_runs with_pipeline_runs with_run_roles].
  rewrite run_exists_map; [exact Hp |].
  intro r0. destruct (String.eqb (run_id r0) id); reflexivity.
Qed.

Lemma recordFailure_keeps : forall now p,
    invariant (run_kept theRun) (CandidateStore.recordFailure now p).
Proof. intros now p. inv_statement CandidateStore.recordFailure. Qed.

Lemma upsert_candidate_row_keeps : forall row,
    invariant (run_kept theRun) (CandidateStore.upsert_candidate_row row).
Proof. intro row. inv_statement CandidateStore.upsert_candidate_row. Qed.

Lemma upsertCandidate_keeps : forall now hash uuid input,
    invariant (run_kept theRun) (CandidateStore.upsertCandidate now hash uuid input).
Proof.
  intros now hash uuid input. unfold CandidateStore.upsertCandidate.
  inv_compose. apply upsert_candidate_row_keeps.
Qed.

Lemma addSourceRecord_keeps : forall now c r src rank raw,
    invariant (run_kept theRun) (CandidateStore.addSourceRecord now c r src rank raw).
Proof. intros now c r src rank raw. inv_statement CandidateStore.addSourceRecord. Qed.

Lemma upsertIdentity_keeps : forall now c p h u res,
    invariant (run_kept theRun) (CandidateStore.upsertIdentity now c p h u res).
Proof. intros now c p h u res. inv_statement CandidateStore.upsertIdentity. Qed.

Lemma addSignals_keeps : forall now c signals,
    invariant (run_kept theRun) (CandidateStore.addSignals now c signals).
Proof.
  intros now c signals. unfold CandidateStore.addSignals.
  apply inv_if; [apply inv_ret |]. apply transaction_keeps. apply for_each_keeps.
  intro a. inv_statement CandidateStore.insert_signal.
Qed.

Lemma upsertScore_keeps : forall now c r score,
    invariant (run_kept theRun) (CandidateStore.upsertScore now c r score).
Proof. intros now c r score. inv_statement CandidateStore.upsertScore. Qed.

Lemma addEvidenceLinks_keeps : forall now c r links,
    invariant (run_kept theRun) (CandidateStore.addEvidenceLinks now c r links).
Proof.
  intros now c r links. unfold CandidateStore.addEvidenceLinks.
  apply inv_if; [apply inv_ret |]. apply transaction_keeps. apply for_each_keeps.
  intro a. inv_statement CandidateStore.insert_evidence_link.
Qed.

End KeepsRun.

Lemma persistFailure_keeps : forall theRun env id stage ref info,
    invariant (on_db (run_kept theRun))
              (CandidatePipelineService.persistFailure env id stage ref info).
Proof.
  intros theRun env id stage ref info. unfold CandidatePipelineService.persistFailure.
  apply inv_bind; [apply update_stageErrors_keeps | intro].
  apply store_op_keeps. intros now uuid. apply recordFailure_keeps.
Qed.

Lemma enrichAndScore_keeps : forall theRun env recruiting id opts mode bv index candidate,
    invariant (on_db (run_kept theRun))
              (CandidatePipelineService.enrichAndScore env recruiting id opts mode bv
                 index candidate).
Proof.
  intros theRun env recruiting id opts mode bv index candidate.
  unfold CandidatePipelineService.enrichAndScore.
  repeat first
    [ apply inv_ret
    | apply inv_if
    | apply update_counts_keeps
    | apply read_keeps
    | apply withRetry_keeps; apply call_keeps
    | apply store_op_keeps; intros ? ?;
      first [ apply upsertCandidate_keeps | apply addSourceRecord_keeps
            | apply upsertIdentity_keeps | apply addSignals_keeps
            | apply upsertScore_keeps | apply addEvidenceLinks_keeps ]
    | apply inv_bind; [| intro] ].
Qed.

Lemma processCandidate_keeps : forall theRun env recruiting id opts mode bv index candidate,
    invariant (on_db (run_kept theRun))
              (CandidatePipelineService.processCandidate env recruiting id opts mode bv
                 index candidate).
Proof.
  intros. unfold CandidatePipelineService.processCandidate.
  apply inv_try_catch; [apply enrichAndScore_keeps | intro e].
  apply inv_bind; [apply update_counts_keeps | intro; apply persistFailure_keeps].
Qed.

Lemma candidateLoop_keeps : forall theRun env recruiting id opts mode bv candidates index,
    invariant (on_db (run_kept theRun))
              (CandidatePipelineService.candidateLoop env recruiting id opts mode bv
                 index candidates).
Proof.
  intros theRun env recruiting id opts mode bv candidates.
  induction candidates as [| c t IH]; intro index; simpl.
  - apply inv_ret.
  - apply inv_bind; [apply processCandidate_keeps | intro; apply IH].
Qed.

Lemma getRunStatus_keeps : forall theRun id,
    invariant (run_kept theRun) (CandidateStore.getRunStatus id).
Proof. intros theRun id. unfold CandidateStore.getRunStatus. apply inv_query. Qed.

(** Nothing in the [try] block of [run] removes the run's row, whether
    the block returns or throws. *)
Lemma runBody_keeps : forall theRun env recruiting ctx id,
    invariant (on_db (run_kept theRun))
              (CandidatePipelineService.runBody env recruiting ctx id).
Proof.
  intros theRun env recruiting ctx id. unfold CandidatePipelineService.runBody.
  repeat first
    [ apply inv_ret
    | apply inv_throw
    | apply inv_if
    | apply inv_query
    | apply update_counts_keeps
    | apply candidateLoop_keeps
    | apply withRetry_keeps; apply call_keeps
    | apply liftDB_keeps; apply getRunStatus_keeps
    | apply store_op_keeps; intros ? ?; apply mark_run_keeps
    | match goal with
      | |- invariant _ (match ?x with Some _ => _ | None => _ end) => destruct x
      end
    | apply inv_bind; [| intro] ].
Qed.

Lemma find_run_after_mark : forall status now id summary runs,
    existsb (fun r => String.eqb (run_id r) id) runs = true ->
    exists r0,
      find (fun r => String.eqb (run_id r) id)
           (map (fun r => if String.eqb (run_id r) id
                          then CandidateStore.finish_run status now summary r else r) runs)
      = Some (CandidateStore.finish_run status now summary r0).
Proof.
  intros status now id summary runs Hex.
  destruct (find_map_update (fun r => String.eqb (run_id r) id)
              (CandidateStore.finish_run status now summary) runs) as [r0 [_ H]].
  - intros r Hr. exact Hr.
  - exact Hex.
  - exists r0. exact H.
Qed.

(** The [catch] block of [run] on a store that holds the run: it
    returns, having appended the failure row and marked the run failed
    with the failure descriptor in its diagnostics. *)
Lemma runFailed_ok : forall env ctx id err st,
    run_exists id (db st) = true ->
    exists out st' status diagnostics,
      CandidatePipelineService.runFailed env ctx id err st = (Ok out, st')
      /\ out = {| out_runId := id; out_resumed := false; out_status := Some status |}
      /\ run_failures (db st')
         = push (run_failures (db st))
             {| fl_run_id := id;
                fl_step := CandidatePipelineService.failureStage err;
                fl_candidate_ref := None;
                fl_error_type := info_errorType (classifyRunError env err);
                fl_message := info_message (classifyRunError env err);
                fl_retryable := info_retryable (classifyRunError env err);
                fl_created_at := Date_now env (tick st);
                fl_payload_json := None |}
      /\ status_runId status = id
      /\ status_status status = failed
      /\ status_diagnostics status = Some diagnostics
      /\ diag_failure diagnostics = Some (CandidatePipelineService.failureDescriptor env err).
Proof.
  intros env ctx id err st Hex.
  unfold CandidatePipelineService.runFailed, CandidatePipelineService.persistFailure,
    CandidatePipelineService.buildDiagnostics, CandidateStore.markRunFailed,
    CandidateStore.mark_run, CandidateStore.recordFailure, CandidateStore.getRunStatus,
    update_stageErrors, store_op, liftDB, bind, exec, query, ret.
  cbn [db tick counts stageErrors with_db next_tick fp_runId].
  rewrite Hex. cbn [negb].
  cbn [db tick counts stageErrors with_db next_tick pipeline_runs run_failures
       with_run_failures with_pipeline_runs with_run_roles].
  destruct (find_run_after_mark failed
              (Date_now env (S (tick st)))
              id
              (Some {| diag_counts := counts st;
                       diag_errorsByStage :=
                         buildStageErrors
                           (upsertStageError (stageErrors st)
                              (CandidatePipelineService.failureStage err)
                              (info_message (classifyRunError env err))
                              (info_errorType (classifyRunError env err)));
                       diag_searchQueryUsed := ctx_searchQueryUsed ctx;
                       diag_sourceQueryMode := ctx_sourceQueryMode ctx;
                       diag_evidenceQueryMode := ctx_evidenceQueryMode ctx;
                       diag_accountHealth := ctx_accountHealth ctx;
                       diag_failure :=
                         Some {| fd_stage := CandidatePipelineService.failureStage err;
                                 fd_message := info_message (classifyRunError env err);
                                 fd_errorType := info_errorType (classifyRunError env err) |} |})
              (pipeline_runs (db st)) Hex) as [r0 Hfind].
  rewrite Hfind. cbn [option_map].
  eexists. eexists. eexists. eexists.
  split; [reflexivity |]. split; [reflexivity |]. split; [reflexivity |].
  cbn. repeat split.
  apply find_some in Hfind. destruct Hfind as [_ Hf]. cbn in Hf.
  apply String.eqb_eq in Hf. exact Hf.
Qed.

Lemma bind_ok_inv : forall {S A B} (m : Eff S A) (k : A -> Eff S B) s b s',
    bind m k s = (Ok b, s') ->
    exists a s1, m s = (Ok a, s1) /\ k a s1 = (Ok b, s').
Proof.
  intros S A B m k s b s' H. unfold bind in H.
  destruct (m s) as [[a | e] s1]; [| discriminate]. exists a, s1. auto.
Qed.

(** When the [try] block returns, it returns the run's id, not resumed. *)
Lemma runBody_output : forall env recruiting ctx id st out st',
    CandidatePipelineService.runBody env recruiting ctx id st = (Ok out, st') ->
    out_runId out = id /\ out_resumed out = false.
Proof.
  intros env recruiting ctx id st out st' H.
  unfold CandidatePipelineService.runBody in H.
  repeat (apply bind_ok_inv in H; destruct H as (? & ? & _ & H)).
  unfold ret in H. injection H as <- _. auto.
Qed.

(** A [begin] that created a run leaves its row in the store. *)
Lemma begin_created_run_exists : forall env recruiting input st info st1,
    CandidatePipelineService.begin env recruiting input st = (Ok info, st1) ->
    resumed info = false ->
    run_exists (runId info) (db st1) = true.
Proof.
  intros env recruiting input st info st1 H Hres.
  unfold CandidatePipelineService.begin, bind, read, store_op in H.
  cbn [db tick next_tick] in H.
  match type of H with
  | context [CandidateStore.beginRun ?n ?u ?p ?s] =>
      destruct (CandidateStore.beginRun n u p s) as [[i | e] s1] eqn:E
  end; [| discriminate].
  injection H as -> <-. cbn [db with_db next_tick].
  destruct (beginRun_not_resumed _ _ _ _ _ _ E Hres) as [id Hins].
  destruct (insert_run_ok _ _ _ _ _ _ Hins) as (Hinfo & (row & Hruns & Hid & _) & _).
  subst info. cbn [runId]. unfold run_exists. rewrite Hruns. unfold push.
  rewrite existsb_app. apply orb_true_iff. right. simpl. rewrite Hid.
  now rewrite String.eqb_refl.
Qed.

(** C3, as the code has it. Once [beginRun] has returned, [run] resolves
    with [{runId, resumed, status}] whatever the collaborators do: a
    resumed run is reported at once; otherwise the [try] block's result
    is returned, and an exception that escapes it is classified, written
    as a [run_failures] row, and the run is marked failed with
    diagnostics that carry the failure descriptor. *)
Theorem run_resolves_once_beginRun_returned :
  forall (env : Collaborators) (recruiting : RecruitingConfig)
         (input : CandidatePipelineRunInput) (st st1 : RunState) (info : RunInfo),
    CandidatePipelineService.begin env recruiting input st = (Ok info, st1) ->
    exists (out : RunOutput) (st2 : RunState),
      CandidatePipelineService.run env recruiting input st = (Ok out, st2)
      /\ out_runId out = runId info
      /\ out_resumed out = resumed info
      /\ (resumed info = false ->
          match CandidatePipelineService.runBody env recruiting
                  (CandidatePipelineService.runContext env recruiting input)
                  (runId info) st1 with
          | (Ok done, st_done) => out = done /\ st2 = st_done
          | (Throw err, st_err) =>
              run_failures (db st2)
              = push (run_failures (db st_err))
                  {| fl_run_id := runId info;
                     fl_step := CandidatePipelineService.failureStage err;
                     fl_candidate_ref := None;
                     fl_error_type := info_errorType (classifyRunError env err);
                     fl_message := info_message (classifyRunError env err);
                     fl_retryable := info_retryable (classifyRunError env err);
                     fl_created_at := Date_now env (tick st_err);
                     fl_payload_json := None |}
              /\ exists status diagnostics,
                  out_status out = Some status
                  /\ status_runId status = runId info
                  /\ status_status status = failed
                  /\ status_diagnostics status = Some diagnostics
                  /\ diag_failure diagnostics
                     = Some (CandidatePipelineService.failureDescriptor env err)
          end).
Proof.
  intros env recruiting input st st1 info Hbegin.
  unfold CandidatePipelineService.run. unfold bind at 1. rewrite Hbegin.
  destruct (resumed info) eqn:Hres.
  - unfold bind, liftDB, CandidateStore.getRunStatus, query, ret.
    eexists. eexists. split; [reflexivity |]. cbn. repeat split. discriminate.
  - pose proof (begin_created_run_exists _ _ _ _ _ _ Hbegin Hres) as Hex.
    cbv zeta. unfold try_catch.
    destruct (CandidatePipelineService.runBody env recruiting
                (CandidatePipelineService.runContext env recruiting input)
                (runId info) st1) as [[done | err] st_b] eqn:Hbody.
    + destruct (runBody_output _ _ _ _ _ _ _ Hbody) as [Hid Hr].
      exists done, st_b. split; [reflexivity |]. split; [exact Hid |].
      split; [exact Hr |]. intros _. auto.
    + assert (Hex' : run_exists (runId info) (db st_b) = true).
      { eapply (runBody_keeps (runId info)); [exact Hbody | exact Hex]. }
      destruct (runFailed_ok env (CandidatePipelineService.runContext env recruiting input)
                  (runId info) err st_b Hex')
        as (out & st2 & status & diagnostics & Hrun & Hout & Hfail & Hsid & Hst & Hd & Hf).
      exists out, st2. split; [exact Hrun |]. subst out. cbn [out_runId out_resumed out_status].
      split; [reflexivity |]. split; [reflexivity |]. intros _.
      split; [exact Hfail |]. exists status, diagnostics. auto.
Qed.

Lemma run_resolves_once_beginRun_returned_witness :
  exists (out : RunOutput) (st2 : RunState) status,
    CandidatePipelineService.run offline_env default_config (test_input None None None)
      (start empty_store) = (Ok out, st2)
    /\ out_resumed out = false
    /\ out_status out = Some status
    /\ status_status status = failed.
Proof.
  assert (Hbegin :
            CandidatePipelineService.begin offline_env default_config
              (test_input None None None) (start empty_store)
            = (Ok {| runId := "uuid-1"; resumed := false |},
               snd (CandidatePipelineService.begin offline_env default_config
                      (test_input None None None) (start empty_store))))
    by (vm_compute; reflexivity).
  destruct (run_resolves_once_beginRun_returned _ _ _ _ _ _ Hbegin)
    as (out & st2 & Hrun & _ & Hres & Hfailed).
  specialize (Hfailed eq_refl).
  assert (Hbody : exists st_err,
             CandidatePipelineService.runBody offline_env default_config
               (CandidatePipelineService.runContext offline_env default_config
                  (test_input None None None))
               "uuid-1"
               (snd (CandidatePipelineService.begin offline_env default_config
                       (test_input None None None) (start empty_store)))
             = (Throw (JsError "TypeError" "fetch failed"), st_err)).
  { eexists. vm_compute. reflexivity. }
  destruct Hbody as [st_err Hbody]. cbn [runId] in Hfailed. rewrite Hbody in Hfailed.
  destruct Hfailed as (_ & status & diagnostics & Hstatus & _ & Hst & _).
  exists out, st2, status. auto.
Defined.

(** C3 as stated fails: [beginRun] is called before the [try], so what it
    throws reaches the caller. Here the caller names a [runId] that is
    already in [pipeline_runs]; the INSERT violates the primary key and
    [run] throws instead of resolving. *)
Lemma run_throws_when_beginRun_throws :
  fst (CandidatePipelineService.run offline_env default_config
         (test_input None (Some "uuid-1") (Some "another-key"))
         (start test_store_after_first_run))
  = Throw (unique_failed "pipeline_runs.id")
  /\ ~ (exists out st2,
           CandidatePipelineService.run offline_env default_config
             (test_input None (Some "uuid-1") (Some "another-key"))
             (start test_store_after_first_run) = (Ok out, st2)).
Proof.
  assert (H : fst (CandidatePipelineService.run offline_env default_config
                     (test_input None (Some "uuid-1") (Some "another-key"))
                     (start test_store_after_first_run))
              = Throw (unique_failed "pipeline_runs.id")) by (vm_compute; reflexivity).
  split; [exact H |]. intros (out & st2 & Hrun). rewrite Hrun in H. discriminate H.
Qed.

Example run_scripted_completes :
  let '(result, st) :=
    CandidatePipelineService.run scripted_env default_config (test_input None None None)
      (start empty_store) in
  match result with
  | Ok out =>
      out_runId out = "uuid-1" /\ out_resumed out = false
      /\ option_map status_status (out_status out) = Some completed
      /\ (sourced (counts st), enriched (counts st), enrichFailed (counts st)) = (2, 1, 1)%nat
      /\ map (fun r => (idn_candidate_id r, idn_platform r, idn_band r, idn_confirmed r))
             (candidate_identities (db st))
         = [("li:alice", "cross_platform", LOW, false); ("li:alice", "github", LOW, false)]
      /\ map (fun r => (fl_step r, fl_candidate_ref r, fl_error_type r, fl_retryable r))
             (run_failures (db st))
         = [("candidate_enrich_score", Some "bob", "rate_limit", true)]
      /\ map (fun r => (sc_candidate_id r, Qred (sc_total_score r), sc_shortlist_eligible r))
             (candidate_scores (db st))
         = [("li:alice", 17 # 100, false)]
      /\ map evl_url (candidate_evidence_links (db st))
         = ["https://linkedin.com/in/alice"; "https://github.com/alice"]
  | Throw _ => False
  end.
Proof. vm_compute. repeat split. Qed.

(** ** The run orchestrator: what is persisted for a candidate *)

Lemma upsertIdentity_sets : forall now c p h u res s s',
    CandidateStore.upsertIdentity now c p h u res s = (Ok tt, s') ->
    exists r, stored_identity c p s' = Some r
              /\ idn_confidence r = confidence res
              /\ idn_band r = band res
              /\ idn_confirmed r = shortlistEligible res
              /\ idn_reasons_json r = reasons res.
Proof.
  intros now c p h u res s s' H. unfold CandidateStore.upsertIdentity in H.
  set (same := fun r => String.eqb (idn_candidate_id r) c && String.eqb (idn_platform r) p)
    in *.
  destruct (existsb same (candidate_identities s)) eqn:Eex.
  - injection H as <-.
    destruct (find_map_update same (CandidateStore.updated_identity now h u res)
                (candidate_identities s)) as [r0 [_ Hfind]];
      [intros r Hr; exact Hr | exact Eex |].
    eexists. split; [exact Hfind |]. cbn. auto.
  - destruct (negb (candidate_exists c s)); [discriminate |]. injection H as <-.
    eexists. split.
    + unfold stored_identity. cbn [candidate_identities with_candidate_identities].
      apply find_push_new; [exact Eex |]. unfold same. cbn. now rewrite !String.eqb_refl.
    + cbn. auto.
Qed.

Lemma upsertIdentity_other_platform : forall now c p c' p' h u res v,
    String.eqb p' p = false ->
    invariant (fun s => stored_identity c p s = v)
              (CandidateStore.upsertIdentity now c' p' h u res).
Proof.
  intros now c p c' p' h u res v Hneq s r s' H Hp.
  assert (Hother : forall row,
             String.eqb (idn_candidate_id row) c' && String.eqb (idn_platform row) p' = true ->
             String.eqb (idn_candidate_id row) c && String.eqb (idn_platform row) p = false).
  { intros row Hrow. apply andb_true_iff in Hrow. destruct Hrow as [_ Hp'].
    apply String.eqb_eq in Hp'. rewrite Hp', Hneq. apply andb_false_r. }
  unfold CandidateStore.upsertIdentity in H.
  destruct (existsb _ (candidate_identities s)).
  - injection H as _ <-. unfold stored_identity in *.
    cbn [candidate_identities with_candidate_identities].
    rewrite find_map_other; [exact Hp | exact Hother |].
    intros row Hrow. cbn. now apply Hother.
  - destruct (negb (candidate_exists c' s)); injection H as _ <-; [exact Hp |].
    unfold stored_identity in *. cbn [candidate_identities with_candidate_identities].
    rewrite find_push_other; [exact Hp |]. cbn. rewrite Hneq. apply andb_false_r.
Qed.

Lemma addSignals_keeps_identity : forall now c signals c0 p v,
    invariant (fun s => stored_identity c0 p s = v)
              (CandidateStore.addSignals now c signals).
Proof.
  intros now c signals c0 p v. unfold CandidateStore.addSignals.
  apply inv_if; [apply inv_ret |]. apply transaction_keeps. apply for_each_keeps.
  intro a. inv_statement CandidateStore.insert_signal.
Qed.

Lemma upsertScore_keeps_identity : forall now c r score c0 p v,
    invariant (fun s => stored_identity c0 p s = v)
              (CandidateStore.upsertScore now c r score).
Proof. intros. inv_statement CandidateStore.upsertScore. Qed.

Lemma addEvidenceLinks_keeps_identity : forall now c r links c0 p v,
    invariant (fun s => stored_identity c0 p s = v)
              (CandidateStore.addEvidenceLinks now c r links).
Proof.
  intros now c r links c0 p v. unfold CandidateStore.addEvidenceLinks.
  apply inv_if; [apply inv_ret |]. apply transaction_keeps. apply for_each_keeps.
  intro a. inv_statement CandidateStore.insert_evidence_link.
Qed.

Lemma addEvidenceLinks_keeps_score : forall now c r links c0 r0 v,
    invariant (fun s => stored_score c0 r0 s = v)
              (CandidateStore.addEvidenceLinks now c r links).
Proof.
  intros now c r links c0 r0 v. unfold CandidateStore.addEvidenceLinks.
  apply inv_if; [apply inv_ret |]. apply transaction_keeps. apply for_each_keeps.
  intro a. inv_statement CandidateStore.insert_evidence_link.
Qed.

Lemma upsertScore_sets : forall now c r score s s',
    CandidateStore.upsertScore now c r score s = (Ok tt, s') ->
    stored_score c r s' = Some (CandidateStore.score_row now c r score).
Proof.
  intros now c r score s s' H. unfold CandidateStore.upsertScore in H.
  set (same := fun row => String.eqb (sc_candidate_id row) c && String.eqb (sc_run_id row) r)
    in *.
  destruct (existsb same (candidate_scores s)) eqn:Eex.
  - injection H as <-.
    destruct (find_map_update same (fun _ => CandidateStore.score_row now c r score)
                (candidate_scores s)) as [r0 [_ Hfind]]; [| exact Eex | exact Hfind].
    intros row _. unfold same. cbn. now rewrite !String.eqb_refl.
  - destruct (negb (references_ok c r s)); [discriminate |]. injection H as <-.
    unfold stored_score. cbn [candidate_scores with_candidate_scores].
    apply find_push_new; [exact Eex |]. unfold same. cbn. now rewrite !String.eqb_refl.
Qed.

Lemma store_op_ok_inv : forall {A} env (op : Z -> string -> DB A) st a st',
    store_op env op st = (Ok a, st') ->
    op (Date_now env (tick st)) (randomUUID env (tick st)) (db st) = (Ok a, db st').
Proof.
  intros A env op st a st' H. unfold store_op in H.
  destruct (op (Date_now env (tick st)) (randomUUID env (tick st)) (db st)) as [r s1].
  injection H as -> <-. reflexivity.
Qed.

Ltac next_step H a s Hstep :=
  apply bind_ok_inv in H; destruct H as (a & s & Hstep & H).

(** What a candidate's completed [try] block leaves in the store: the
    cross-platform identity row is [candidateIdentity], and the score row
    is [computeCandidateScore] applied to that same identity. *)
Lemma enrichAndScore_persists :
  forall env recruiting runId opts mode bv index candidate st st',
    CandidatePipelineService.enrichAndScore env recruiting runId opts mode bv index candidate st
    = (Ok tt, st') ->
    exists candidateId external identityRow signals evidence openToWork now,
      let identity := candidateIdentity recruiting candidate external in
      stored_identity candidateId "cross_platform" (db st') = Some identityRow
      /\ idn_confidence identityRow = confidence identity
      /\ idn_band identityRow = band identity
      /\ idn_confirmed identityRow = shortlistEligible identity
      /\ stored_score candidateId runId (db st')
         = Some (CandidateStore.score_row now candidateId runId
                   (computeCandidateScore
                      {| sp_signals := signals; sp_identity := identity;
                         sp_evidence := evidence; sp_openToWork := openToWork |})).
Proof.
  intros env recruiting runId opts mode bv index candidate st st' H.
  unfold CandidatePipelineService.enrichAndScore in H.
  next_step H rec s1 H1. next_step H u2 s2 H2. next_step H profile s3 H3.
  next_step H posts s4 H4. next_step H comments s5 H5. next_step H reactions s6 H6.
  next_step H now1 s7 H7. next_step H now2 s8 H8. next_step H now3 s9 H9.
  next_step H external s10 H10. next_step H u11 s11 H11. next_step H u12 s12 H12.
  next_step H u13 s13 Hidentity. next_step H u14 s14 Hgithub. next_step H u15 s15 Hx.
  next_step H u16 s16 Hsignals. next_step H u17 s17 Hscore.
  next_step H u18 s18 Hlinks.
  clear H1 H2 H3 H4 H5 H6 H7 H8 H9 H10 H11 H12.
  destruct u13. apply store_op_ok_inv in Hidentity.
  destruct (upsertIdentity_sets _ _ _ _ _ _ _ _ Hidentity) as (row & Hrow & Hc & Hb & He & _).
  set (P := fun s => stored_identity (fst rec) "cross_platform" s = Some row).
  assert (P14 : on_db P s14).
  { revert Hgithub. match goal with |- ?m s13 = _ -> _ => assert (Hinv : invariant (on_db P) m) end.
    - apply inv_if; [| apply inv_ret]. apply store_op_keeps. intros.
      apply upsertIdentity_other_platform. reflexivity.
    - intro Hstep. eapply Hinv; [exact Hstep | exact Hrow]. }
  assert (P15 : on_db P s15).
  { revert Hx. match goal with |- ?m s14 = _ -> _ => assert (Hinv : invariant (on_db P) m) end.
    - apply inv_if; [| apply inv_ret]. apply store_op_keeps. intros.
      apply upsertIdentity_other_platform. reflexivity.
    - intro Hstep. eapply Hinv; [exact Hstep | exact P14]. }
  assert (P16 : on_db P s16).
  { eapply (store_op_keeps P); [| exact Hsignals | exact P15].
    intros. apply addSignals_keeps_identity. }
  assert (P17 : on_db P s17).
  { eapply (store_op_keeps P); [| exact Hscore | exact P16].
    intros. apply upsertScore_keeps_identity. }
  assert (P18 : on_db P s18).
  { eapply (store_op_keeps P); [| exact Hlinks | exact P17].
    intros. apply addEvidenceLinks_keeps_identity. }
  destruct u17. apply store_op_ok_inv in Hscore. apply upsertScore_sets in Hscore.
  set (Q := fun s => stored_score (fst rec) runId s = stored_score (fst rec) runId (db s17)).
  assert (Q18 : on_db Q s18).
  { eapply (store_op_keeps Q); [| exact Hlinks | reflexivity].
    intros. apply addEvidenceLinks_keeps_score. }
  assert (Hrest : invariant (on_db (fun s => P s /\ Q s))
                    (bind (if score_shortlistEligible
                                (computeCandidateScore
                                   {| sp_signals :=
                                        candidateSignals env recruiting bv now1 now2 now3
                                          candidate (nullish (items posts) [])
                                          (nullish (items comments) [])
                                          (nullish (items reactions) []) external;
                                      sp_identity := candidateIdentity recruiting candidate
                                                       external;
                                      sp_evidence := candidateEvidence candidate external;
                                      sp_openToWork := Some (is_open_to_work profile) |})
                           then update_counts incr_shortlistEligible else ret tt)
                          (fun _ => update_counts incr_enriched))).
  { apply inv_bind; [apply inv_if; [apply update_counts_keeps | apply inv_ret] |].
    intro. apply update_counts_keeps. }
  destruct (Hrest _ _ _ H (conj P18 Q18)) as [Pend Qend].
  unfold P in Pend. unfold Q in Qend. rewrite Hscore in Qend.
  eexists (fst rec), external, row, _, _, _, _. cbv zeta.
  split; [exact Pend |]. split; [exact Hc |]. split; [exact Hb |]. split; [exact He |].
  exact Qend.
Qed.

(** C5, as the code has it. For every candidate whose processing in
    [run] completes, the cross-platform identity row that was persisted
    and the score row computed from the same identity satisfy: the band
    is the banded form of the confidence, and [shortlistEligible] (the
    row's [confirmed], the score's [shortlist_eligible]) is the threshold
    test [confidence >= minConfidenceForShortlist] alone. The band takes
    no part in it; the reading with the band coincides with the code
    whenever the threshold is at least 0.8. *)
Theorem run_identity_band_and_threshold :
  forall (env : Collaborators) (recruiting : RecruitingConfig) (runId : string)
         (opts : ClientOptions) (mode : QueryMode) (bv : bool) (index : nat)
         (candidate : TalentCandidate) (st st' : RunState),
    CandidatePipelineService.enrichAndScore env recruiting runId opts mode bv index candidate st
    = (Ok tt, st') ->
    let threshold := cfg_minConfidenceForShortlist recruiting in
    exists (candidateId : string) (identityRow : IdentityRow) (scoreRow : ScoreRow),
      stored_identity candidateId "cross_platform" (db st') = Some identityRow
      /\ stored_score candidateId runId (db st') = Some scoreRow
      /\ idn_band identityRow = resolveBand (idn_confidence identityRow)
      /\ idn_confirmed identityRow = Qle_bool threshold (idn_confidence identityRow)
      /\ sc_shortlist_eligible scoreRow = idn_confirmed identityRow
      /\ identity_confidence (sc_breakdown_json scoreRow)
         = round3 (clamp01 (Fin (idn_confidence identityRow)))
      /\ (8 # 10 <= threshold ->
          idn_confirmed identityRow
          = (IdentityBand_eqb (idn_band identityRow) CONFIRMED
             || IdentityBand_eqb (idn_band identityRow) HIGH)
            && Qle_bool threshold (idn_confidence identityRow)).
Proof.
  intros env recruiting runId opts mode bv index candidate st st' H threshold.
  destruct (enrichAndScore_persists _ _ _ _ _ _ _ _ _ _ H)
    as (candidateId & external & row & signals & evidence & otw & now
        & Hrow & Hc & Hb & He & Hscore).
  destruct (candidateIdentity_band_and_threshold recruiting candidate external)
    as (Hband & Helig & Hagree).
  eexists candidateId, row, _. split; [exact Hrow |]. split; [exact Hscore |].
  rewrite Hc, Hb, He. cbn [CandidateStore.score_row sc_shortlist_eligible sc_breakdown_json].
  split; [exact Hband |]. split; [exact Helig |].
  split; [reflexivity |]. split; [reflexivity |]. exact Hagree.
Qed.

Lemma run_identity_band_and_threshold_witness :
  exists (candidateId : string) (identityRow : IdentityRow) (scoreRow : ScoreRow),
    stored_identity candidateId "cross_platform"
      (db (snd (CandidatePipelineService.enrichAndScore scripted_env default_config "uuid-1"
                  (client_options (resolveLinkedInAccount scripted_env None)) mode_default
                  false 0 (test_talent "alice") scripted_start)))
    = Some identityRow
    /\ idn_band identityRow = resolveBand (idn_confidence identityRow)
    /\ idn_confirmed identityRow
       = Qle_bool (cfg_minConfidenceForShortlist default_config) (idn_confidence identityRow)
    /\ sc_shortlist_eligible scoreRow = idn_confirmed identityRow.
Proof.
  assert (H : CandidatePipelineService.enrichAndScore scripted_env default_config "uuid-1"
                (client_options (resolveLinkedInAccount scripted_env None)) mode_default
                false 0 (test_talent "alice") scripted_start
              = (Ok tt,
                 snd (CandidatePipelineService.enrichAndScore scripted_env default_config
                        "uuid-1" (client_options (resolveLinkedInAccount scripted_env None))
                        mode_default false 0 (test_talent "alice") scripted_start)))
    by (vm_compute; reflexivity).
  destruct (run_identity_band_and_threshold _ _ _ _ _ _ _ _ _ _ H)
    as (candidateId & identityRow & scoreRow & Hrow & _ & Hband & Helig & Hscore & _).
  exists candidateId, identityRow, scoreRow. auto.
Defined.

(** C5 as stated fails: with the threshold configured to 0 the candidate
    is persisted with band LOW (confidence 0) and yet as shortlist
    eligible, in the identity row and in the score row alike, although
    its band is neither CONFIRMED nor HIGH. *)
Lemma run_identity_eligible_with_low_band :
  exists (identityRow : IdentityRow) (scoreRow : ScoreRow),
    stored_identity "li:alice" "cross_platform" (db scripted_end_threshold_zero)
    = Some identityRow
    /\ stored_score "li:alice" "uuid-1" (db scripted_end_threshold_zero) = Some scoreRow
    /\ idn_band identityRow = LOW
    /\ idn_confirmed identityRow = true
    /\ sc_shortlist_eligible scoreRow = true
    /\ idn_confirmed identityRow
       <> (IdentityBand_eqb (idn_band identityRow) CONFIRMED
           || IdentityBand_eqb (idn_band identityRow) HIGH)
          && Qle_bool (cfg_minConfidenceForShortlist config_threshold_zero)
                      (idn_confidence identityRow).
Proof.
  eexists. eexists. split; [vm_compute; reflexivity |]. split; [vm_compute; reflexivity |].
  vm_compute. repeat split. discriminate.
Qed.

(* ================================================================== *)
(** * Further properties *)

(** ** The identity resolver: which rule decides *)

(** X1. The highest-scoring rule that fires decides the confidence, whatever
    else fired. *)
Theorem resolveIdentity_highest_rule_wins :
  forall input : IdentityResolutionInput,
    let r := resolveIdentity input in
    let direct := rule_direct_profile_link input in
    let reverse := rule_reverse_link_via_site input in
    let strong := sameEmployer input && sameLocation input && handlePatternMatch input in
    let partial :=
      negb strong
      && ((sameEmployer input && sameLocation input)
          || (sameEmployer input && handlePatternMatch input)) in
    (confidence r == 95 # 100 <-> direct = true)
    /\ (confidence r == 9 # 10 <-> direct = false /\ reverse = true)
    /\ (confidence r == 82 # 100 <-> direct = false /\ reverse = false /\ strong = true)
    /\ (confidence r == 7 # 10 <-> direct = false /\ reverse = false /\ partial = true)
    /\ (confidence r == 0 <-> direct = false /\ reverse = false /\ strong = false
                              /\ partial = false)
    /\ shortlistEligible r = direct || reverse || strong
    /\ reasons r
       = ((if direct then ["direct_profile_link"] else [])
          ++ (if reverse then ["reverse_link_via_site"] else [])
          ++ (if strong then ["strong_context_employer_location_handle"]
              else if partial then ["context_partial_match"] else [])
          ++ (if direct || reverse || strong || partial then []
              else ["unconfirmed_no_strong_match"]))%list.
Proof.
  intro input. unfold resolveIdentity.
  generalize (rule_direct_profile_link input) (rule_reverse_link_via_site input)
             (sameEmployer input) (sameLocation input) (handlePatternMatch input).
  intros [] [] [] [] []; vm_compute;
    repeat split; intros; decide_in; try reflexivity;
    repeat match goal with
           | H : _ /\ _ |- _ => destruct H
           | H : @eq bool _ _ |- _ => discriminate H
           end.
Qed.

(** ** The scorer: bounds, monotonicity, signals that do not count *)

Lemma Math_round_monotone : forall u v : Q, u <= v -> (Math_round u <= Math_round v)%Z.
Proof.
  intros u v H. unfold Math_round. apply Qfloor_resp_le. lra.
Qed.

Lemma round3_monotone : forall u v : Q, u <= v -> round3 u <= round3 v.
Proof.
  intros u v H. unfold round3. rewrite !div_1000.
  apply Qmult_le_compat_r; [| discriminate].
  rewrite <- Zle_Qle. apply Math_round_monotone. lra.
Qed.

Lemma Math_max_monotone : forall a b c d : Q, a <= c -> b <= d -> Math_max a b <= Math_max c d.
Proof.
  intros a b c d Hac Hbd.
  pose proof (Math_max_le_l c d). pose proof (Math_max_le_r c d).
  destruct (Math_max_cases a b) as [-> | ->]; lra.
Qed.

Lemma Math_min_monotone : forall a b c d : Q, a <= c -> b <= d -> Math_min a b <= Math_min c d.
Proof.
  intros a b c d Hac Hbd.
  pose proof (Math_min_le_l a b). pose proof (Math_min_le_r a b).
  destruct (Math_min_cases c d) as [-> | ->]; lra.
Qed.

Lemma scoreFromSignals_values : forall signals key,
    scoreFromSignals signals key
    = if (List.length (signal_values signals key) =? 0)%nat then 0
      else clamp01 (Math_max_spread (signal_values signals key)).
Proof. reflexivity. Qed.

Lemma signal_values_app : forall s1 s2 key,
    signal_values (s1 ++ s2) key = (signal_values s1 key ++ signal_values s2 key)%list.
Proof.
  intros. unfold signal_values. now rewrite filter_app, map_app, filter_app.
Qed.

Lemma signal_values_finite : forall signals key,
    Forall (fun n => isFinite n = true) (signal_values signals key).
Proof.
  intros. unfold signal_values. apply Forall_forall. intros n Hn.
  apply filter_In in Hn. tauto.
Qed.

Lemma number_le_refl : forall a, a <> NaN -> a <> PosInf -> number_le a a.
Proof. intros [q | | |] H1 H2; cbn; try tauto. apply Qle_refl. Qed.

Lemma number_max_fold_ge : forall l acc,
    Forall (fun n => isFinite n = true) l ->
    acc <> NaN -> acc <> PosInf ->
    number_le acc (fold_left number_max l acc)
    /\ fold_left number_max l acc <> NaN /\ fold_left number_max l acc <> PosInf.
Proof.
  induction l as [| n l IH]; intros acc Hl Ha1 Ha2; cbn [fold_left].
  - split; [now apply number_le_refl | tauto].
  - inversion Hl as [| ? ? Hn Hl']; subst.
    destruct n as [q | | |]; try discriminate Hn.
    assert (Hstep : number_le acc (number_max acc (Fin q))
                    /\ number_max acc (Fin q) <> NaN /\ number_max acc (Fin q) <> PosInf).
    { destruct acc as [p | | |]; cbn; try tauto.
      - split; [apply Math_max_le_l | split; discriminate].
      - split; [exact I | split; discriminate]. }
    destruct Hstep as (Hle & Hn1 & Hn2).
    destruct (IH _ Hl' Hn1 Hn2) as (Hle' & Hr1 & Hr2).
    split; [| tauto].
    destruct acc as [p | | |], (number_max _ (Fin q)) as [p1 | | |],
             (fold_left number_max l _) as [p2 | | |]; cbn in *; try tauto.
    eapply Qle_trans; eassumption.
Qed.

Lemma number_max_fold_monotone : forall l a b,
    Forall (fun n => isFinite n = true) l ->
    number_le a b ->
    number_le (fold_left number_max l a) (fold_left number_max l b).
Proof.
  induction l as [| n l IH]; intros a b Hl Hab; cbn [fold_left]; [exact Hab |].
  inversion Hl as [| ? ? Hn Hl']; subst.
  destruct n as [q | | |]; try discriminate Hn.
  apply IH; [exact Hl' |].
  destruct a as [p | | |], b as [p' | | |]; cbn in *; try tauto;
    first [ apply Math_max_monotone; [exact Hab | apply Qle_refl]
          | apply Math_max_le_r
          | apply Qle_refl ].
Qed.

Lemma clamp01_monotone : forall a b, number_le a b -> clamp01 a <= clamp01 b.
Proof.
  intros [p | | |] [q | | |] H; cbn in *; try tauto;
    first [ apply Math_min_monotone; [apply Qle_refl |];
            apply Math_max_monotone; [apply Qle_refl | exact H]
          | apply (clamp01_bounds (Fin q))
          | apply Qle_refl ].
Qed.

Lemma scoreFromSignals_monotone : forall signals extra key,
    scoreFromSignals signals key <= scoreFromSignals (signals ++ extra) key.
Proof.
  intros signals extra key. rewrite !scoreFromSignals_values, signal_values_app.
  pose proof (signal_values_finite signals key) as Hf1.
  pose proof (signal_values_finite extra key) as Hf2.
  rewrite length_app.
  destruct (List.length (signal_values signals key)) as [| n] eqn:E1.
  - cbn [Nat.eqb Nat.add].
    destruct (List.length (signal_values extra key) =? 0)%nat; [apply Qle_refl |].
    apply clamp01_bounds.
  - cbn [Nat.eqb Nat.add]. unfold Math_max_spread.
    apply clamp01_monotone. rewrite fold_left_app.
    apply number_max_fold_ge; [exact Hf2 | |];
      apply (number_max_fold_ge _ NegInf Hf1); discriminate.
Qed.

Lemma breakdown_bounds : forall params,
    let b := breakdown (computeCandidateScore params) in
    (0 <= builder_activity b <= 1) /\ (0 <= ai_native_evidence b <= 1)
    /\ (0 <= technical_depth b <= 1) /\ (0 <= role_fit b <= 1)
    /\ (0 <= identity_confidence b <= 1).
Proof.
  intro params. cbn.
  assert (R : forall v, 0 <= v <= 1 -> 0 <= round3 v <= 1).
  { intros v [H0 H1]. split; [now apply round3_nonneg | now apply round3_le_1]. }
  repeat split; apply R;
    try apply scoreFromSignals_bounds;
    try (apply Math_max_bounds;
         [apply scoreFromSignals_bounds | destruct (hasAiEvidence _); lra]);
    apply (clamp01_bounds (Fin _)).
Qed.

(** X2. Every component of the breakdown and the total lie in [0, 1]. *)
Theorem computeCandidateScore_in_unit_interval :
  forall params : ScoreParams,
    let sc := computeCandidateScore params in
    let b := breakdown sc in
    (0 <= total sc <= 1)
    /\ (0 <= builder_activity b <= 1) /\ (0 <= ai_native_evidence b <= 1)
    /\ (0 <= technical_depth b <= 1) /\ (0 <= role_fit b <= 1)
    /\ (0 <= identity_confidence b <= 1).
Proof.
  intro params. pose proof (breakdown_bounds params) as Hb.
  cbv zeta in *. split; [| exact Hb].
  destruct Hb as (H1 & H2 & H3 & H4 & H5).
  change (total (computeCandidateScore params))
    with (round3 (builder_activity (breakdown (computeCandidateScore params))
                    * WEIGHTS.builder_activity
                  + ai_native_evidence (breakdown (computeCandidateScore params))
                    * WEIGHTS.ai_native_evidence
                  + technical_depth (breakdown (computeCandidateScore params))
                    * WEIGHTS.technical_depth
                  + role_fit (breakdown (computeCandidateScore params)) * WEIGHTS.role_fit
                  + identity_confidence (breakdown (computeCandidateScore params))
                    * WEIGHTS.identity_confidence)).
  unfold WEIGHTS.builder_activity, WEIGHTS.ai_native_evidence, WEIGHTS.technical_depth,
    WEIGHTS.role_fit, WEIGHTS.identity_confidence.
  split; [apply round3_nonneg | apply round3_le_1]; lra.
Qed.

(** X3. Adding signals never lowers a component of the breakdown nor the
    total: each component is a maximum over the signals under its key. *)
Theorem computeCandidateScore_more_signals_never_lower :
  forall (params : ScoreParams) (extra : list CandidateSignal),
    let sc := computeCandidateScore params in
    let sc' := computeCandidateScore (with_signals (sp_signals params ++ extra) params) in
    builder_activity (breakdown sc) <= builder_activity (breakdown sc')
    /\ ai_native_evidence (breakdown sc) <= ai_native_evidence (breakdown sc')
    /\ technical_depth (breakdown sc) <= technical_depth (breakdown sc')
    /\ role_fit (breakdown sc) <= role_fit (breakdown sc')
    /\ identity_confidence (breakdown sc) == identity_confidence (breakdown sc')
    /\ total sc <= total sc'
    /\ score_shortlistEligible sc' = score_shortlistEligible sc.
Proof.
  intros params extra. cbv zeta.
  assert (M : forall key, round3 (scoreFromSignals (sp_signals params) key)
                          <= round3 (scoreFromSignals (sp_signals params ++ extra) key)).
  { intro key. apply round3_monotone, scoreFromSignals_monotone. }
  assert (Hai : round3 (Math_max (scoreFromSignals (sp_signals params) "ai_native_evidence")
                          (if hasAiEvidence (sp_evidence params) then 7 # 10 else 0))
                <= round3 (Math_max (scoreFromSignals (sp_signals params ++ extra)
                                       "ai_native_evidence")
                             (if hasAiEvidence (sp_evidence params) then 7 # 10 else 0))).
  { apply round3_monotone, Math_max_monotone;
      [apply scoreFromSignals_monotone | apply Qle_refl]. }
  pose proof (M "builder_activity") as Hb.
  pose proof (M "technical_depth") as Ht.
  pose proof (M "role_fit") as Hr.
  cbn [computeCandidateScore with_signals breakdown total score_shortlistEligible
       sp_signals sp_identity sp_evidence sp_openToWork
       builder_activity ai_native_evidence technical_depth role_fit identity_confidence].
  repeat split; try assumption; try apply Qle_refl.
  apply round3_monotone.
  unfold WEIGHTS.builder_activity, WEIGHTS.ai_native_evidence, WEIGHTS.technical_depth,
    WEIGHTS.role_fit, WEIGHTS.identity_confidence.
  lra.
Qed.

Lemma inert_signal_values : forall extra key,
    In key scoring_keys ->
    forallb inert_signal extra = true ->
    signal_values extra key = [].
Proof.
  intros extra key Hkey Hall. unfold signal_values.
  induction extra as [| sg rest IH]; [reflexivity |].
  cbn [forallb] in Hall. apply andb_true_iff in Hall. destruct Hall as [Hsg Hrest].
  specialize (IH Hrest). cbn [filter].
  destruct (String.eqb (sig_key sg) key) eqn:Ek; cbn [andb]; [| exact IH].
  apply String.eqb_eq in Ek.
  unfold inert_signal in Hsg.
  assert (Hin : existsb (String.eqb (sig_key sg)) scoring_keys = true).
  { apply existsb_exists. exists key. split; [exact Hkey |]. rewrite Ek. apply String.eqb_refl. }
  rewrite Hin in Hsg. cbn [negb orb] in Hsg.
  destruct (sig_numericValue sg) as [[q | | |] |] eqn:En; try discriminate Hsg;
    cbn [has_number map filter]; try rewrite En; cbn [nullish isFinite]; exact IH.
Qed.

(** X4. Signals under a key the scorer does not read, and signals whose
    numeric value is missing, NaN or infinite, change nothing: the score
    is the same with and without them. The marker signal the pipeline adds
    for browser verification is such a signal. *)
Theorem computeCandidateScore_ignores_inert_signals :
  forall (params : ScoreParams) (extra : list CandidateSignal),
    forallb inert_signal extra = true ->
    computeCandidateScore (with_signals (sp_signals params ++ extra) params)
    = computeCandidateScore params.
Proof.
  intros params extra Hall.
  assert (E : forall key, In key scoring_keys ->
                          scoreFromSignals (sp_signals params ++ extra) key
                          = scoreFromSignals (sp_signals params) key).
  { intros key Hkey. rewrite !scoreFromSignals_values, signal_values_app.
    rewrite (inert_signal_values extra key Hkey Hall), app_nil_r. reflexivity. }
  unfold computeCandidateScore.
  cbn [with_signals sp_signals sp_identity sp_evidence sp_openToWork].
  rewrite !E by (cbn; tauto). reflexivity.
Qed.

Lemma computeCandidateScore_ignores_inert_signals_witness :
  inert_signal browserVerificationSignal = true
  /\ computeCandidateScore
       (with_signals
          (sp_signals {| sp_signals := []; sp_identity := resolveIdentity test_alice;
                         sp_evidence := []; sp_openToWork := None |}
           ++ [browserVerificationSignal])
          {| sp_signals := []; sp_identity := resolveIdentity test_alice;
             sp_evidence := []; sp_openToWork := None |})
     = computeCandidateScore
         {| sp_signals := []; sp_identity := resolveIdentity test_alice;
            sp_evidence := []; sp_openToWork := None |}.
Proof.
  split; [vm_compute; reflexivity |].
  apply computeCandidateScore_ignores_inert_signals. vm_compute. reflexivity.
Defined.

(** ** The resolved configuration *)

Lemma clampNumber_bounds : forall value lo hi fallback,
    lo <= hi -> lo <= fallback <= hi ->
    lo <= clampNumber value lo hi fallback <= hi.
Proof.
  intros value lo hi fallback Hlh Hf. unfold clampNumber.
  destruct value as [[v | | |] |]; try exact Hf.
  pose proof (Math_max_le_l lo v). pose proof (Math_min_le_l hi (Math_max lo v)).
  split; [| exact H0].
  destruct (Math_min_cases hi (Math_max lo v)) as [-> | ->]; assumption.
Qed.

Lemma Math_trunc_bounds : forall (q : Q) (lo hi : Z),
    (0 <= lo)%Z -> inject_Z lo <= q <= inject_Z hi -> (lo <= Math_trunc q <= hi)%Z.
Proof.
  intros q lo hi H0 [Hlo Hhi]. unfold Math_trunc.
  assert (Hq : 0 <= q).
  { eapply Qle_trans; [| exact Hlo]. change (inject_Z 0 <= inject_Z lo).
    rewrite <- Zle_Qle. exact H0. }
  apply Qle_bool_iff in Hq. rewrite Hq. split.
  - rewrite <- (Qfloor_Z lo). now apply Qfloor_resp_le.
  - rewrite <- (Qfloor_Z hi). now apply Qfloor_resp_le.
Qed.

(** X5. Whatever the raw configuration holds, the resolved one is in range:
    the shortlist threshold in [0, 1], the per-role target an integer in
    [1, 2000], the minimum of proof links an integer in [1, 10], the store
    path and the cadence never empty; a value that is missing, NaN or
    infinite gives the default (0.8, 300, 2). The daily quotas are
    integers in [1, 100], [1, 200] and [1, 100]. *)
Theorem resolveRecruitingConfig_in_range :
  forall (raw : RawRecruitingConfig) (stateDir : string),
    let c := resolveRecruitingConfig raw stateDir in
    (0 <= cfg_minConfidenceForShortlist c <= 1)
    /\ (1 <= cfg_targetCandidatesPerRole c <= 2000)%Z
    /\ (exists k, cfg_promotion_minProofLinks c = Some k /\ (1 <= k <= 10)%Z)
    /\ cfg_store_path c <> ""
    /\ cfg_defaultCadence c <> ""
    /\ (match raw_minConfidenceForShortlist raw with
        | Some (Fin _) => True
        | _ => cfg_minConfidenceForShortlist c = 8 # 10
        end)
    /\ (match raw_targetCandidatesPerRole raw with
        | Some (Fin _) => True
        | _ => cfg_targetCandidatesPerRole c = 300%Z
        end)
    /\ (match raw_promotion_minProofLinks raw with
        | Some (Fin _) => True
        | _ => cfg_promotion_minProofLinks c = Some 2%Z
        end)
    /\ (forall quotas : RawDailyQuotas,
           let q := resolveDailyQuotas quotas in
           (1 <= dq_promotedTarget q <= 100)%Z
           /\ (1 <= dq_reviewedTarget q <= 200)%Z
           /\ (1 <= dq_verificationBudget q <= 100)%Z).
Proof.
  intros raw stateDir. cbn.
  split; [apply clampNumber_bounds; lra |].
  split; [apply (Math_trunc_bounds _ 1 2000); [lia |];
          apply (clampNumber_bounds _ 1 2000 300); lra |].
  split; [eexists; split; [reflexivity |];
          apply (Math_trunc_bounds _ 1 10); [lia |];
          apply (clampNumber_bounds _ 1 10 2); lra |].
  split.
  { destruct (String.eqb (trim (raw_store_path raw)) "") eqn:E.
    - destruct stateDir; discriminate.
    - intro H. rewrite H in E. discriminate E. }
  split.
  { destruct (String.eqb (trim (raw_defaultCadence raw)) "") eqn:E; [discriminate |].
    intro H. rewrite H in E. discriminate E. }
  split; [destruct (raw_minConfidenceForShortlist raw) as [[v | | |] |]; trivial |].
  split; [destruct (raw_targetCandidatesPerRole raw) as [[v | | |] |]; trivial |].
  split; [destruct (raw_promotion_minProofLinks raw) as [[v | | |] |]; trivial |].
  intros quotas. cbn.
  split; [apply (Math_trunc_bounds _ 1 100); [lia |];
          apply (clampNumber_bounds _ 1 100 10); lra |].
  split; [apply (Math_trunc_bounds _ 1 200); [lia |];
          apply (clampNumber_bounds _ 1 200 30); lra |].
  apply (Math_trunc_bounds _ 1 100); [lia |].
  apply (clampNumber_bounds _ 1 100 20); lra.
Qed.

(** ** Retrying an outside call *)

Lemma retry_loop_call : forall {A} (retryable : Thrown -> bool) (f : nat -> Result A)
                               (remaining attempt : nat) (st st' : RunState) (r : Result A),
    (attempt + remaining = 5)%nat -> (1 <= attempt)%nat -> (1 <= remaining)%nat ->
    retry_loop retryable (call f) 4 attempt remaining st = (r, st') ->
    exists k : nat,
      (k < remaining)%nat
      /\ tick st' = (tick st + S k)%nat
      /\ db st' = db st /\ counts st' = counts st /\ stageErrors st' = stageErrors st
      /\ r = f (tick st + k)%nat
      /\ (forall j, (j < k)%nat ->
                    exists e, f (tick st + j)%nat = Throw e /\ retryable e = true)
      /\ match r with
         | Ok _ => True
         | Throw e => retryable e = false \/ (attempt + k = 4)%nat
         end.
Proof.
  intros A retryable f remaining.
  induction remaining as [| n IH]; intros attempt st st' r Hsum Hatt Hrem H; [lia |].
  cbn [retry_loop] in H. unfold try_catch, call in H.
  destruct (f (tick st)) as [a | e] eqn:Ef.
  - injection H as <- <-. exists 0%nat. rewrite Nat.add_0_r, Ef. cbn.
    repeat split; try lia.
  - destruct (negb (retryable e) || (attempt =? 4)%nat) eqn:Estop.
    + unfold throw in H. injection H as <- <-. exists 0%nat. rewrite Nat.add_0_r, Ef. cbn.
      repeat split; try lia.
      apply orb_true_iff in Estop. destruct Estop as [Hr | Ha].
      * left. now apply negb_true_iff.
      * right. apply Nat.eqb_eq in Ha. lia.
    + apply orb_false_iff in Estop. destruct Estop as [Hr Ha].
      apply negb_false_iff in Hr. apply Nat.eqb_neq in Ha.
      unfold bind, sleep, ret in H.
      assert (Hn : (1 <= n)%nat) by lia.
      destruct (IH (S attempt) (next_tick st) st' r ltac:(lia) ltac:(lia) Hn H)
        as (k & Hk & Ht & Hdb & Hc & Hs & Hres & Hearlier & Hlast).
      cbn [next_tick tick db counts stageErrors] in *.
      exists (S k). repeat split; try lia; try assumption.
      * rewrite Hres. f_equal. lia.
      * intros j Hj. destruct j as [| j].
        -- exists e. rewrite Nat.add_0_r. split; assumption.
        -- destruct (Hearlier j ltac:(lia)) as (e' & He' & Hr').
           exists e'. split; [| exact Hr']. rewrite <- He'. f_equal. lia.
      * destruct r as [a | e']; [exact I |]. destruct Hlast as [Hl | Hl]; [now left |].
        right. lia.
Qed.

(** X6. [withRetry] around one outside call makes between one and four
    attempts and writes nothing. Every attempt but the last threw a
    retryable error; the last attempt's outcome is the outcome of
    [withRetry], and if that is an error then either the error is not
    retryable or it was the fourth attempt. *)
Theorem withRetry_at_most_four_attempts :
  forall (A : Type) (env : Collaborators) (provider : Provider) (f : nat -> Result A)
         (st st' : RunState) (r : Result A),
    withRetry env provider (call f) st = (r, st') ->
    let retryable :=
      match provider with
      | unipile => fun err => le_isTransient (classifyLinkedInError env err)
      | exa => isRetryableExternalError
      end in
    exists k : nat,
      (k < 4)%nat
      /\ tick st' = (tick st + S k)%nat
      /\ db st' = db st /\ counts st' = counts st /\ stageErrors st' = stageErrors st
      /\ r = f (tick st + k)%nat
      /\ (forall j, (j < k)%nat ->
                    exists e, f (tick st + j)%nat = Throw e /\ retryable e = true)
      /\ match r with
         | Ok _ => True
         | Throw e => retryable e = false \/ k = 3%nat
         end.
Proof.
  intros A env provider f st st' r H retryable. unfold withRetry in H.
  destruct (retry_loop_call _ f 4 1 st st' r eq_refl (le_n 1) ltac:(lia) H)
    as (k & Hk & Ht & Hdb & Hc & Hs & Hres & Hearlier & Hlast).
  exists k. repeat split; try assumption.
  destruct r as [a | e]; [exact I |]. destruct Hlast as [Hl | Hl]; [now left | right; lia].
Qed.

Lemma withRetry_at_most_four_attempts_witness :
  exists k : nat,
    (k < 4)%nat
    /\ fst (withRetry scripted_env unipile
              (call (fun n => getUserProfile scripted_env n
                                (client_options (resolveLinkedInAccount scripted_env None))
                                "bob"))
              (start empty_store))
       = getUserProfile scripted_env (0 + k)
           (client_options (resolveLinkedInAccount scripted_env None)) "bob"
    /\ k = 3%nat.
Proof.
  assert (H : withRetry scripted_env unipile
                (call (fun n => getUserProfile scripted_env n
                                  (client_options (resolveLinkedInAccount scripted_env None))
                                  "bob"))
                (start empty_store)
              = (Throw (JsError "Error" "LinkedIn API error (429)"),
                 {| db := empty_store; tick := 4; counts := emptyCounts; stageErrors := [] |}))
    by (vm_compute; reflexivity).
  destruct (withRetry_at_most_four_attempts _ _ _ _ _ _ _ H)
    as (k & Hk & Ht & _ & _ & _ & Hres & _ & Hlast).
  exists k. split; [exact Hk |]. split; [rewrite H; exact Hres |].
  cbn in Ht. lia.
Defined.

(** ** Signals derived from LinkedIn activity *)

Lemma unit_fraction_bounds : forall n : nat,
    0 <= Math_min 1 (inject_Z (Z.of_nat n) / 12) <= 1.
Proof.
  intro n. split; [| apply Math_min_le_l].
  assert (H : 0 <= inject_Z (Z.of_nat n) / 12).
  { apply Qle_shift_div_l; [reflexivity |]. rewrite Qmult_0_l.
    change 0 with (inject_Z 0). rewrite <- Zle_Qle. lia. }
  destruct (Math_min_cases 1 (inject_Z (Z.of_nat n) / 12)) as [-> | ->]; [discriminate | exact H].
Qed.

Lemma calcRecentActivityScore_bounds : forall env now activityItems windowMs,
    0 <= calcRecentActivityScore env now activityItems windowMs <= 1.
Proof.
  intros. unfold calcRecentActivityScore.
  destruct (List.length activityItems =? 0)%nat; [split; discriminate |].
  match goal with |- context [(?n <=? 0)%nat] => destruct (n <=? 0)%nat end;
    [split; discriminate | apply unit_fraction_bounds].
Qed.

Lemma calcRecentActivityScore_more_items : forall env now item activityItems windowMs,
    calcRecentActivityScore env now activityItems windowMs
    <= calcRecentActivityScore env now (item :: activityItems) windowMs.
Proof.
  intros env now item activityItems windowMs.
  pose proof (calcRecentActivityScore_bounds env now (item :: activityItems) windowMs)
    as [Hlow _].
  unfold calcRecentActivityScore in *.
  destruct (List.length activityItems =? 0)%nat; [exact Hlow |].
  cbn [List.length Nat.eqb flat_map] in *.
  rewrite filter_app, length_app in *.
  match goal with
  | |- context [(List.length ?recent <=? 0)%nat] =>
      generalize dependent (List.length recent)
  end.
  match goal with
  | |- context [(?k + _ <=? 0)%nat] => generalize k
  end.
  intros k n Hlow.
  destruct (n <=? 0)%nat eqn:En; [exact Hlow |].
  apply Nat.leb_gt in En.
  destruct (k + n <=? 0)%nat eqn:Ekn; [apply Nat.leb_le in Ekn; lia |].
  apply Math_min_monotone; [apply Qle_refl |].
  apply Qmult_le_compat_r; [| discriminate].
  rewrite <- Zle_Qle. lia.
Qed.

(** X7. The activity score is a fraction of twelve recent items, capped at
    1: it lies in [0, 1], is 0 for an empty list, and one more item never
    lowers it. The five signals [run] derives from a candidate's
    LinkedIn data all sit under a scoring key and carry a finite value
    in [0, 1]. *)
Theorem linkedinSignals_values_in_unit_interval :
  forall (env : Collaborators) (now1 now2 now3 : Z) (candidate : TalentCandidate)
         (posts comments reactions : list ActivityItem),
    Forall (fun signal =>
              In (sig_key signal) scoring_keys
              /\ exists q, sig_numericValue signal = Some (Fin q) /\ 0 <= q <= 1)
           (linkedinSignals env now1 now2 now3 candidate posts comments reactions)
    /\ (forall now windowMs, calcRecentActivityScore env now [] windowMs = 0)
    /\ (forall now item activityItems windowMs,
           calcRecentActivityScore env now activityItems windowMs
           <= calcRecentActivityScore env now (item :: activityItems) windowMs).
Proof.
  intros. split; [| split; [reflexivity | intros; apply calcRecentActivityScore_more_items]].
  unfold linkedinSignals.
  repeat (apply Forall_cons; [split; [cbn; tauto | eexists; split; [reflexivity |]] |]);
    try apply calcRecentActivityScore_bounds; [| | apply Forall_nil].
  - destruct (0 <? List.length (tc_skills candidate))%nat;
      [apply unit_fraction_bounds | split; discriminate].
  - destruct (truthy (tc_headline candidate)); split; discriminate.
Qed.

(** ** Aggregated stage errors *)

Lemma map_set_sum : forall {V} (mu : V -> nat) key value (m : list (string * V)),
    (list_sum (map (fun e => mu (snd e)) (map_set key value m))
     + match map_get key m with Some old => mu old | None => 0 end
     = list_sum (map (fun e => mu (snd e)) m) + mu value)%nat.
Proof.
  intros V mu key value m. unfold list_sum.
  induction m as [| [k v] rest IH]; cbn; [lia |].
  destruct (String.eqb k key); cbn; lia.
Qed.

Lemma map_set_keys : forall {V} key value (m : list (string * V)),
    map fst (map_set key value m)
    = match map_get key m with
      | Some _ => map fst m
      | None => (map fst m ++ [key])%list
      end.
Proof.
  intros V key value m. induction m as [| [k v] rest IH]; cbn; [reflexivity |].
  destruct (String.eqb k key); cbn; [reflexivity |].
  rewrite IH. now destruct (map_get key rest).
Qed.

Lemma map_get_set : forall {V} key value (m : list (string * V)),
    map_get key (map_set key value m) = Some value.
Proof.
  intros V key value m. induction m as [| [k v] rest IH]; cbn.
  - now rewrite String.eqb_refl.
  - destruct (String.eqb k key) eqn:E; cbn; rewrite E; [reflexivity | exact IH].
Qed.




Lemma stage_total_upsert : forall (stageMap : list (string * CandidatePipelineErrorMessage))
                                 (message errorType key : string),
    stage_total
      (match map_get key stageMap with
       | Some current =>
           map_set key {| em_message := em_message current;
                          em_errorType := em_errorType current;
                          em_count := S (em_count current) |} stageMap
       | None =>
           map_set key {| em_message := message; em_errorType := errorType; em_count := 1 |}
                   stageMap
       end)
    = S (stage_total stageMap).
Proof.
  intros stageMap message errorType key. unfold stage_total.
  destruct (map_get key stageMap) as [current |] eqn:Eg.
  - pose proof (map_set_sum em_count key
                  {| em_message := em_message current; em_errorType := em_errorType current;
                     em_count := S (em_count current) |} stageMap) as H.
    rewrite Eg in H. cbn [em_count] in H. lia.
  - pose proof (map_set_sum em_count key
                  {| em_message := message; em_errorType := errorType; em_count := 1 |}
                  stageMap) as H.
    rewrite Eg in H. cbn [em_count] in H. lia.
Qed.

Lemma errors_total_upsert : forall (map : StageErrors) (stage message errorType : string),
    errors_total (upsertStageError map stage message errorType) = S (errors_total map).
Proof.
  intros m stage message errorType. unfold upsertStageError. cbv zeta.
  pose proof (stage_total_upsert (nullish (map_get stage m) []) message errorType
                (errorType ++ ":" ++ message)) as Hstage.
  unfold errors_total.
  match goal with
  | |- context [map_set stage ?updated m] =>
      pose proof (map_set_sum stage_total stage updated m) as H
  end.
  unfold nullish in *.
  destruct (map_get stage m); [lia |].
  change (stage_total []) with 0%nat in Hstage. lia.
Qed.

(** X8. Recording a failure adds exactly one to the errors aggregated in the
    map, and one to those of its stage, for every stage, message and
    error type. *)
Theorem upsertStageError_counts_one :
  forall (map : StageErrors) (stage message errorType : string),
    errors_total (upsertStageError map stage message errorType) = S (errors_total map)
    /\ (exists entries,
           map_get stage (upsertStageError map stage message errorType) = Some entries
           /\ stage_total entries = S (stage_total (nullish (map_get stage map) []))).
Proof.
  intros m stage message errorType.
  split; [apply errors_total_upsert |].
  unfold upsertStageError. cbv zeta.
  eexists. split; [apply map_get_set |].
  apply stage_total_upsert.
Qed.

Lemma Sorted_weaken : forall {A} (R R' : A -> A -> Prop) l,
    (forall x y, R x y -> R' x y) -> Sorted R l -> Sorted R' l.
Proof.
  intros A R R' l HR H. induction H as [| a l Hs IH Hhd]; constructor; [exact IH |].
  destruct Hhd; constructor. now apply HR.
Qed.



(** ** Store invariants carried through a run *)

(** A property of the store that each store operation [run] uses keeps
    is kept by [run] as a whole, whatever the collaborators do and
    whether [run] returns or throws. *)
Section RunKeeps.

Variable P : Store -> Prop.

Hypothesis beginRun_keeps_P : forall now uuid params,
    invariant P (CandidateStore.beginRun now uuid params).
Hypothesis mark_run_keeps_P : forall status now id summary,
    invariant P (CandidateStore.mark_run status now id summary).
Hypothesis recordFailure_keeps_P : forall now params,
    invariant P (CandidateStore.recordFailure now params).
Hypothesis upsertCandidate_keeps_P : forall now hash uuid input,
    invariant P (CandidateStore.upsertCandidate now hash uuid input).
Hypothesis addSourceRecord_keeps_P : forall now c r src rank raw,
    invariant P (CandidateStore.addSourceRecord now c r src rank raw).
Hypothesis upsertIdentity_keeps_P : forall now c p h u res,
    invariant P (CandidateStore.upsertIdentity now c p h u res).
Hypothesis addSignals_keeps_P : forall now c signals,
    invariant P (CandidateStore.addSignals now c signals).
Hypothesis upsertScore_keeps_P : forall now c r score,
    invariant P (CandidateStore.upsertScore now c r score).
Hypothesis addEvidenceLinks_keeps_P : forall now c r links,
    invariant P (CandidateStore.addEvidenceLinks now c r links).

Lemma persistFailure_keeps_P : forall env id stage ref info,
    invariant (on_db P) (CandidatePipelineService.persistFailure env id stage ref info).
Proof.
  intros. unfold CandidatePipelineService.persistFailure.
  apply inv_bind; [apply update_stageErrors_keeps | intro].
  apply store_op_keeps. intros now uuid. apply recordFailure_keeps_P.
Qed.

Lemma enrichAndScore_keeps_P : forall env recruiting id opts mode bv index candidate,
    invariant (on_db P)
              (CandidatePipelineService.enrichAndScore env recruiting id opts mode bv
                 index candidate).
Proof.
  intros. unfold CandidatePipelineService.enrichAndScore.
  repeat first
    [ apply inv_ret
    | apply inv_if
    | apply update_counts_keeps
    | apply read_keeps
    | apply withRetry_keeps; apply call_keeps
    | apply store_op_keeps; intros ? ?;
      first [ apply upsertCandidate_keeps_P | apply addSourceRecord_keeps_P
            | apply upsertIdentity_keeps_P | apply addSignals_keeps_P
            | apply upsertScore_keeps_P | apply addEvidenceLinks_keeps_P ]
    | apply inv_bind; [| intro] ].
Qed.

Lemma processCandidate_keeps_P : forall env recruiting id opts mode bv index candidate,
    invariant (on_db P)
              (CandidatePipelineService.processCandidate env recruiting id opts mode bv
                 index candidate).
Proof.
  intros. unfold CandidatePipelineService.processCandidate.
  apply inv_try_catch; [apply enrichAndScore_keeps_P | intro e].
  apply inv_bind; [apply update_counts_keeps | intro; apply persistFailure_keeps_P].
Qed.

Lemma candidateLoop_keeps_P : forall env recruiting id opts mode bv candidates index,
    invariant (on_db P)
              (CandidatePipelineService.candidateLoop env recruiting id opts mode bv
                 index candidates).
Proof.
  intros env recruiting id opts mode bv candidates.
  induction candidates as [| c t IH]; intro index; simpl.
  - apply inv_ret.
  - apply inv_bind; [apply processCandidate_keeps_P | intro; apply IH].
Qed.

Lemma runBody_keeps_P : forall env recruiting ctx id,
    invariant (on_db P) (CandidatePipelineService.runBody env recruiting ctx id).
Proof.
  intros env recruiting ctx id. unfold CandidatePipelineService.runBody.
  repeat first
    [ apply inv_ret
    | apply inv_throw
    | apply inv_if
    | apply inv_query
    | apply update_counts_keeps
    | apply candidateLoop_keeps_P
    | apply withRetry_keeps; apply call_keeps
    | apply liftDB_keeps; apply inv_query
    | apply store_op_keeps; intros ? ?; apply mark_run_keeps_P
    | match goal with
      | |- invariant _ (match ?x with Some _ => _ | None => _ end) => destruct x
      end
    | apply inv_bind; [| intro] ].
Qed.

Lemma runFailed_keeps_P : forall env ctx id err,
    invariant (on_db P) (CandidatePipelineService.runFailed env ctx id err).
Proof.
  intros env ctx id err. unfold CandidatePipelineService.runFailed.
  repeat first
    [ apply inv_ret
    | apply inv_query
    | apply persistFailure_keeps_P
    | apply liftDB_keeps; apply inv_query
    | apply store_op_keeps; intros ? ?; apply mark_run_keeps_P
    | apply inv_bind; [| intro] ].
Qed.

Lemma run_keeps_P : forall env recruiting input,
    invariant (on_db P) (CandidatePipelineService.run env recruiting input).
Proof.
  intros env recruiting input. unfold CandidatePipelineService.run.
  apply inv_bind.
  - unfold CandidatePipelineService.begin.
    apply inv_bind; [apply read_keeps | intro].
    apply store_op_keeps. intros. apply beginRun_keeps_P.
  - intro info. apply inv_if.
    + apply inv_bind; [apply liftDB_keeps; apply inv_query | intro; apply inv_ret].
    + apply inv_try_catch; [apply runBody_keeps_P | intro; apply runFailed_keeps_P].
Qed.

End RunKeeps.

(** ** Foreign keys: every store operation keeps them *)

Lemma store_grows_refl : forall s, store_grows s s.
Proof. intro s. split; auto. Qed.

Lemma references_ok_grows : forall s s' c r,
    store_grows s s' -> references_ok c r s = true -> references_ok c r s' = true.
Proof.
  intros s s' c r [Hr Hc] H. unfold references_ok in *.
  apply andb_true_iff in H. destruct H as [H1 H2].
  apply andb_true_iff. split; [now apply Hc | now apply Hr].
Qed.

Lemma references_kept_grows : forall s s',
    references_kept s -> store_grows s s' ->
    run_roles s' = run_roles s ->
    candidate_source_records s' = candidate_source_records s ->
    candidate_identities s' = candidate_identities s ->
    candidate_signals s' = candidate_signals s ->
    candidate_scores s' = candidate_scores s ->
    candidate_evidence_links s' = candidate_evidence_links s ->
    run_failures s' = run_failures s ->
    candidate_reviews s' = candidate_reviews s ->
    candidate_verifications s' = candidate_verifications s ->
    candidate_promotions s' = candidate_promotions s ->
    references_kept s'.
Proof.
  intros s s' Hk Hg E1 E2 E3 E4 E5 E6 E7 E8 E9 E10.
  pose proof Hg as [Hr Hc].
  constructor; rewrite ?E1, ?E2, ?E3, ?E4, ?E5, ?E6, ?E7, ?E8, ?E9, ?E10.
  - eapply Forall_impl; [| apply (refs_run_roles _ Hk)]. intros; now apply Hr.
  - eapply Forall_impl; [| apply (refs_sources _ Hk)]. intros; now apply (references_ok_grows s).
  - eapply Forall_impl; [| apply (refs_identities _ Hk)]. intros; now apply Hc.
  - eapply Forall_impl; [| apply (refs_signals _ Hk)]. intros; now apply Hc.
  - eapply Forall_impl; [| apply (refs_scores _ Hk)]. intros; now apply (references_ok_grows s).
  - eapply Forall_impl; [| apply (refs_evidence _ Hk)]. intros; now apply (references_ok_grows s).
  - eapply Forall_impl; [| apply (refs_failures _ Hk)]. intros; now apply Hr.
  - eapply Forall_impl; [| apply (refs_reviews _ Hk)]. intros; now apply (references_ok_grows s).
  - eapply Forall_impl; [| apply (refs_verifications _ Hk)].
    intros; now apply (references_ok_grows s).
  - eapply Forall_impl; [| apply (refs_promotions _ Hk)].
    intros; now apply (references_ok_grows s).
Qed.

Lemma Forall_push : forall {A} (Q : A -> Prop) l row,
    Forall Q l -> Q row -> Forall Q (push l row).
Proof. intros. unfold push. apply Forall_app. split; [assumption | now constructor]. Qed.

Lemma Forall_upsert : forall {A} (Q : A -> Prop) (same : A -> bool) (upd : A -> A) l,
    Forall Q l -> (forall r, same r = true -> Q r -> Q (upd r)) ->
    Forall Q (map (fun r => if same r then upd r else r) l).
Proof.
  intros A Q same upd l Hl Hupd. apply Forall_map. eapply Forall_impl; [| exact Hl].
  intros r Hr. cbv beta. destruct (same r) eqn:E; [now apply Hupd | exact Hr].
Qed.

Lemma existsb_map_key : forall {A} (key : A -> string) (f : A -> A) id l,
    (forall r, key (f r) = key r) ->
    existsb (fun r => String.eqb (key r) id) (map f l)
    = existsb (fun r => String.eqb (key r) id) l.
Proof.
  intros A key f id l Hf. induction l as [| a t IH]; [reflexivity |].
  cbn. now rewrite Hf, IH.
Qed.

Lemma existsb_push_grows : forall {A} (p : A -> bool) l row,
    existsb p l = true -> existsb p (push l row) = true.
Proof. intros. unfold push. rewrite existsb_app, H. reflexivity. Qed.

(** After unfolding a statement in [H : op s = (r, s')], the cases of its
    checks are opened and [s'] is replaced by what the statement wrote. *)
Ltac open_statement H :=
  repeat match type of H with
         | context [if ?c then _ else _] => destruct c eqn:?
         | context [match ?x with Some _ => _ | None => _ end] => destruct x eqn:?
         end;
  injection H as _ <-.

(** A statement that wrote one child table: the nine others are kept
    because no run and no candidate went away. *)
Ltac refs_one_table Hk :=
  constructor;
  unfold references_ok, run_exists, candidate_exists in *;
  cbn [pipeline_runs run_roles candidates candidate_source_records candidate_identities
       candidate_signals candidate_scores candidate_evidence_links run_failures
       candidate_reviews candidate_verifications candidate_promotions
       with_pipeline_runs with_run_roles with_candidates with_candidate_source_records
       with_candidate_identities with_candidate_signals with_candidate_scores
       with_candidate_evidence_links with_run_failures with_candidate_reviews
       with_candidate_verifications with_candidate_promotions];
  try solve [apply Hk].

Section KeepsReferences.

Lemma insert_pipeline_run_refs : forall row,
    invariant references_kept (CandidateStore.insert_pipeline_run row).
Proof.
  intros row s r s' H Hk. unfold CandidateStore.insert_pipeline_run in H.
  open_statement H; try exact Hk.
  apply (references_kept_grows s); try reflexivity; [exact Hk |].
  split; intros id Hid; [| exact Hid].
  unfold run_exists in *. cbn [pipeline_runs with_pipeline_runs].
  now apply existsb_push_grows.
Qed.

Lemma insert_run_role_refs : forall row,
    invariant references_kept (CandidateStore.insert_run_role row).
Proof.
  intros row s r s' H Hk. unfold CandidateStore.insert_run_role in H.
  open_statement H; try exact Hk.
  refs_one_table Hk. apply Forall_push; [apply Hk |].
  match goal with E : negb _ = false |- _ => apply negb_false_iff in E; exact E end.
Qed.

Lemma beginRun_refs : forall now uuid params,
    invariant references_kept (CandidateStore.beginRun now uuid params).
Proof.
  intros now uuid params. unfold CandidateStore.beginRun.
  apply inv_bind; [apply inv_query | intro existing].
  assert (Hins : forall id, invariant references_kept (CandidateStore.insert_run now id params)).
  { intro id. unfold CandidateStore.insert_run.
    apply inv_bind; [apply insert_pipeline_run_refs | intro].
    apply inv_bind; [apply insert_run_role_refs | intro; apply inv_ret]. }
  destruct existing as [row |]; [| apply Hins].
  apply inv_if; [apply inv_ret | apply Hins].
Qed.

Lemma mark_run_refs : forall status now id summary,
    invariant references_kept (CandidateStore.mark_run status now id summary).
Proof.
  intros status now id summary s r s' H Hk.
  unfold CandidateStore.mark_run, bind, exec in H. injection H as _ <-.
  assert (Hg : forall rid,
             existsb (fun r => String.eqb (run_id r) rid)
                     (map (fun r => if String.eqb (run_id r) id
                                    then CandidateStore.finish_run status now summary r else r)
                          (pipeline_runs s))
             = existsb (fun r => String.eqb (run_id r) rid) (pipeline_runs s)).
  { intro rid. apply (existsb_map_key run_id). intro r0.
    destruct (String.eqb (run_id r0) id); reflexivity. }
  constructor;
    unfold references_ok, run_exists, candidate_exists in *;
    cbn [pipeline_runs run_roles candidates candidate_source_records candidate_identities
         candidate_signals candidate_scores candidate_evidence_links run_failures
         candidate_reviews candidate_verifications candidate_promotions
         with_pipeline_runs with_run_roles];
    try (eapply Forall_impl; [| solve [apply Hk]]; cbv beta; intros ? Hrow;
         rewrite Hg; exact Hrow).
  - apply Forall_map. eapply Forall_impl; [| apply (refs_run_roles _ Hk)].
    cbv beta. intros r0 Hr0. rewrite Hg.
    destruct (String.eqb (rr_run_id r0) id); exact Hr0.
  - apply Hk.
  - apply Hk.
Qed.

Lemma recordFailure_refs : forall now params,
    invariant references_kept (CandidateStore.recordFailure now params).
Proof.
  intros now params s r s' H Hk. unfold CandidateStore.recordFailure in H.
  open_statement H; try exact Hk.
  refs_one_table Hk. apply Forall_push; [apply Hk |].
  match goal with E : negb _ = false |- _ => apply negb_false_iff in E; exact E end.
Qed.

Lemma upsert_candidate_row_refs : forall row,
    invariant references_kept (CandidateStore.upsert_candidate_row row).
Proof.
  intros row s r s' H Hk. unfold CandidateStore.upsert_candidate_row in H.
  open_statement H; try exact Hk.
  - apply (references_kept_grows s); try reflexivity; [exact Hk |].
    split; intros id Hid; [exact Hid |].
    unfold candidate_exists in *. cbn [candidates with_candidates].
    rewrite (existsb_map_key cand_id); [exact Hid |].
    intro c. destruct (String.eqb (cand_id c) (cand_id row)); reflexivity.
  - apply (references_kept_grows s); try reflexivity; [exact Hk |].
    split; intros id Hid; [exact Hid |].
    unfold candidate_exists in *. cbn [candidates with_candidates].
    now apply existsb_push_grows.
Qed.

Lemma upsertCandidate_refs : forall now hash uuid input,
    invariant references_kept (CandidateStore.upsertCandidate now hash uuid input).
Proof.
  intros. unfold CandidateStore.upsertCandidate.
  inv_compose. apply upsert_candidate_row_refs.
Qed.

Lemma addSourceRecord_refs : forall now c r src rank raw,
    invariant references_kept (CandidateStore.addSourceRecord now c r src rank raw).
Proof.
  intros now c rn src rank raw s r s' H Hk. unfold CandidateStore.addSourceRecord in H.
  open_statement H; try exact Hk.
  refs_one_table Hk. apply Forall_push; [apply Hk |].
  match goal with E : negb _ = false |- _ => apply negb_false_iff in E; exact E end.
Qed.

Lemma upsertIdentity_refs : forall now c p h u res,
    invariant references_kept (CandidateStore.upsertIdentity now c p h u res).
Proof.
  intros now c p h u res s r s' H Hk. unfold CandidateStore.upsertIdentity in H.
  open_statement H; try exact Hk.
  - refs_one_table Hk. apply Forall_upsert; [apply Hk |]. intros r0 _ Hr0. exact Hr0.
  - refs_one_table Hk. apply Forall_push; [apply Hk |].
    match goal with E : negb _ = false |- _ => apply negb_false_iff in E; exact E end.
Qed.

Lemma addSignals_refs : forall now c signals,
    invariant references_kept (CandidateStore.addSignals now c signals).
Proof.
  intros now c signals. unfold CandidateStore.addSignals.
  apply inv_if; [apply inv_ret |]. apply transaction_keeps. apply for_each_keeps.
  intros a s r s' H Hk. unfold CandidateStore.insert_signal in H.
  open_statement H; try exact Hk.
  refs_one_table Hk. apply Forall_push; [apply Hk |].
  match goal with E : negb _ = false |- _ => apply negb_false_iff in E; exact E end.
Qed.

Lemma upsertScore_refs : forall now c r score,
    invariant references_kept (CandidateStore.upsertScore now c r score).
Proof.
  intros now c rn score s r s' H Hk. unfold CandidateStore.upsertScore in H.
  open_statement H; try exact Hk.
  - refs_one_table Hk.
    apply (Forall_upsert _ _ (fun _ => CandidateStore.score_row now c rn score));
      [apply Hk |].
    intros r0 Hsame Hr0. cbn [CandidateStore.score_row sc_candidate_id sc_run_id].
    apply andb_true_iff in Hsame. destruct Hsame as [E1 E2].
    apply String.eqb_eq in E1, E2. now rewrite <- E1, <- E2.
  - refs_one_table Hk. apply Forall_push; [apply Hk |].
    match goal with E : negb _ = false |- _ => apply negb_false_iff in E; exact E end.
Qed.

Lemma addEvidenceLinks_refs : forall now c r links,
    invariant references_kept (CandidateStore.addEvidenceLinks now c r links).
Proof.
  intros now c rn links. unfold CandidateStore.addEvidenceLinks.
  apply inv_if; [apply inv_ret |]. apply transaction_keeps. apply for_each_keeps.
  intros a s r s' H Hk. unfold CandidateStore.insert_evidence_link in H.
  open_statement H; try exact Hk.
  refs_one_table Hk. apply Forall_push; [apply Hk |].
  match goal with E : negb _ = false |- _ => apply negb_false_iff in E; exact E end.
Qed.

Lemma upsertReviewStatus_refs : forall now params,
    invariant references_kept (CandidateStore.upsertReviewStatus now params).
Proof.
  intros now params s r s' H Hk. unfold CandidateStore.upsertReviewStatus in H.
  open_statement H; try exact Hk.
  - refs_one_table Hk. apply Forall_upsert; [apply Hk |]. intros r0 _ Hr0. exact Hr0.
  - refs_one_table Hk. apply Forall_push; [apply Hk |].
    match goal with E : negb _ = false |- _ => apply negb_false_iff in E; exact E end.
Qed.

Lemma store_submitVerification_refs : forall now params,
    invariant references_kept (CandidateStore.submitVerification now params).
Proof.
  intros now params s r s' H Hk. unfold CandidateStore.submitVerification in H.
  open_statement H; try exact Hk.
  refs_one_table Hk. apply Forall_push; [apply Hk |].
  match goal with E : negb _ = false |- _ => apply negb_false_iff in E; exact E end.
Qed.

Lemma store_promoteCandidate_refs : forall now now' params,
    invariant references_kept (CandidateStore.promoteCandidate now now' params).
Proof.
  intros now now' params. unfold CandidateStore.promoteCandidate.
  apply inv_bind; [| intro; apply upsertReviewStatus_refs].
  intros s r s' H Hk. unfold CandidateStore.insert_promotion in H.
  open_statement H; try exact Hk.
  refs_one_table Hk. apply Forall_push; [apply Hk |].
  match goal with E : negb _ = false |- _ => apply negb_false_iff in E; exact E end.
Qed.

End KeepsReferences.

Lemma empty_store_references_kept : references_kept empty_store.
Proof. constructor; constructor. Qed.

(** X10. Referential integrity is an invariant of the pipeline: a run, a
    review update, a verification and a promotion each leave every child
    row pointing at an existing run and an existing candidate, whether
    they return or throw, whatever the collaborators do. The empty store
    has the property, so every store the service has built has it. *)
Theorem service_keeps_foreign_keys :
  references_kept empty_store
  /\ (forall env recruiting input,
         invariant (on_db references_kept)
                   (CandidatePipelineService.run env recruiting input))
  /\ (forall now params,
         invariant references_kept (CandidatePipelineWorkflow.updateReviewStatus now params))
  /\ (forall now now' params,
         invariant references_kept
                   (CandidatePipelineService.submitVerification now now' params))
  /\ (forall recruiting now now' params,
         invariant references_kept
                   (CandidatePipelineService.promoteCandidate recruiting now now' params)).
Proof.
  split; [apply empty_store_references_kept |].
  split.
  { intros. apply run_keeps_P;
      auto using beginRun_refs, mark_run_refs, recordFailure_refs, upsertCandidate_refs,
        addSourceRecord_refs, upsertIdentity_refs, addSignals_refs, upsertScore_refs,
        addEvidenceLinks_refs. }
  split; [intros; apply upsertReviewStatus_refs |].
  split.
  - intros. unfold CandidatePipelineService.submitVerification.
    apply inv_bind; [apply inv_query | intro].
    apply inv_bind; [apply store_submitVerification_refs | intro].
    destruct (sv_outcome params); try apply upsertReviewStatus_refs. apply inv_ret.
  - intros. unfold CandidatePipelineService.promoteCandidate. cbv zeta.
    apply inv_if; [apply inv_ret |].
    apply inv_bind; [apply inv_query | intro existing].
    destruct existing; [apply inv_ret |].
    apply inv_bind; [apply store_promoteCandidate_refs | intro; apply inv_ret].
Qed.

(** ** Primary keys and UNIQUE constraints: every store operation keeps them *)

Lemma NoDup_app_disjoint : forall {A} (l1 l2 : list A) a,
    NoDup (l1 ++ l2) -> In a l1 -> ~ In a l2.
Proof.
  intros A l1. induction l1 as [| b t IH]; intros l2 a H Hin; [destruct Hin |].
  cbn in H. inversion H as [| ? ? Hnotin Hrest]; subst.
  destruct Hin as [-> | Hin].
  - intro Hl2. apply Hnotin. apply in_or_app. now right.
  - now apply IH.
Qed.

Lemma map_key_upsert : forall {A K} (key : A -> K) (same : A -> bool) (upd : A -> A) l,
    (forall r, same r = true -> key (upd r) = key r) ->
    map key (map (fun r => if same r then upd r else r) l) = map key l.
Proof.
  intros A K key same upd l Hk. rewrite map_map. apply map_ext. intro r.
  destruct (same r) eqn:E; [now apply Hk | reflexivity].
Qed.

Lemma NoDup_map_push : forall {A K} (key : A -> K) (same : A -> bool) l row,
    NoDup (map key l) ->
    existsb same l = false ->
    (forall r, key r = key row -> same r = true) ->
    NoDup (map key (push l row)).
Proof.
  intros A K key same l row Hnd Hex Hsame. unfold push. rewrite map_app. cbn [map].
  apply NoDup_snoc; [exact Hnd |]. intro Hin. apply in_map_iff in Hin.
  destruct Hin as (r & Hr & Hrin). apply Hsame in Hr.
  assert (existsb same l = true) by (apply existsb_exists; eauto). congruence.
Qed.

Lemma run_keys_absent : forall runs key,
    existsb (fun r => sql_eq (run_idempotency_key r) (Some key)) runs = false ->
    ~ In key (run_keys runs).
Proof.
  intros runs key Hex Hin. unfold run_keys in Hin. apply in_flat_map in Hin.
  destruct Hin as (r & Hr & Hk).
  destruct (run_idempotency_key r) as [k |] eqn:E; [| destruct Hk].
  destruct Hk as [-> | []].
  assert (existsb (fun r => sql_eq (run_idempotency_key r) (Some key)) runs = true).
  { apply existsb_exists. exists r. split; [exact Hr |]. rewrite E. cbn. apply String.eqb_refl. }
  congruence.
Qed.

Lemma run_keys_map : forall (f : PipelineRunRow -> PipelineRunRow) runs,
    (forall r, run_idempotency_key (f r) = run_idempotency_key r) ->
    run_keys (map f runs) = run_keys runs.
Proof.
  intros f runs Hf. unfold run_keys. induction runs as [| r t IH]; [reflexivity |].
  cbn. now rewrite Hf, IH.
Qed.

Lemma provider_keys_push : forall column l row,
    NoDup (provider_keys column l) ->
    existsb (fun c => String.eqb (cand_provider c) (cand_provider row)
                      && sql_eq (column c) (column row)) l = false ->
    NoDup (provider_keys column (push l row)).
Proof.
  intros column l row Hnd Hex. unfold provider_keys, push. rewrite flat_map_app.
  cbn [flat_map]. rewrite app_nil_r.
  destruct (column row) as [v |] eqn:Ev; [| now rewrite app_nil_r].
  apply NoDup_snoc; [exact Hnd |]. intro Hin. apply in_flat_map in Hin.
  destruct Hin as (c & Hc & Hk).
  destruct (column c) as [w |] eqn:Ew; [| destruct Hk]. destruct Hk as [Hk | []].
  injection Hk as Hp Hw. subst w.
  assert (existsb (fun c => String.eqb (cand_provider c) (cand_provider row)
                            && sql_eq (column c) (Some v)) l = true).
  { apply existsb_exists. exists c. split; [exact Hc |].
    rewrite Hp, Ew. cbn. now rewrite !String.eqb_refl. }
  congruence.
Qed.

Lemma provider_keys_update : forall column (row : CandidateRow) (upd : CandidateRow -> CandidateRow) l,
    NoDup (map cand_id l) ->
    NoDup (provider_keys column l) ->
    Forall (fun c => cand_provider c = cand_provider row) l ->
    (forall c, cand_provider (upd c) = cand_provider c /\ column (upd c) = column row) ->
    existsb (fun c => String.eqb (cand_provider c) (cand_provider row)
                      && sql_eq (column c) (column row))
            (filter (fun c => negb (String.eqb (cand_id c) (cand_id row))) l) = false ->
    NoDup (provider_keys column
             (map (fun c => if String.eqb (cand_id c) (cand_id row) then upd c else c) l)).
Proof.
  intros column row upd l Hid Hnd Hprov Hupd Hex. unfold provider_keys.
  set (keys := fun c : CandidateRow => match column c with
                                       | Some v => [(cand_provider c, v)]
                                       | None => []
                                       end).
  set (knew := match column row with
               | Some v => [(cand_provider row, v)]
               | None => []
               end).
  assert (Hin_l : forall c, In c l -> cand_provider c = cand_provider row).
  { apply Forall_forall. exact Hprov. }
  assert (Hknew : forall c, In c l -> keys (upd c) = knew).
  { intros c Hc. unfold keys, knew. destruct (Hupd c) as [-> ->]. now rewrite (Hin_l c Hc). }
  clear Hupd. revert Hid Hnd Hex Hin_l Hknew. clear Hprov.
  induction l as [| c t IH]; intros Hid Hnd Hex Hin_l Hknew; [constructor |].
  cbn [map flat_map filter] in *. inversion Hid as [| ? ? Hc Ht]; subst.
  assert (Hnd_t : NoDup (flat_map keys t)) by (eapply NoDup_app_remove_l; exact Hnd).
  assert (Hnd_c : NoDup (keys c)) by (eapply NoDup_app_remove_r; exact Hnd).
  assert (Hclash : forall a k, In a t \/ a = c -> cand_id a <> cand_id row ->
                               In k (keys a) -> ~ In k knew).
  { intros a k Ha Hne Hk Hkn. unfold keys in Hk. unfold knew in Hkn.
    destruct (column a) as [w |] eqn:Ew; [| destruct Hk]. destruct Hk as [<- | []].
    destruct (column row) as [v |] eqn:Ev; [| destruct Hkn]. destruct Hkn as [Hkn | []].
    injection Hkn as Hp Hv. subst w.
    assert (Hex' : existsb (fun c0 => String.eqb (cand_provider c0) (cand_provider row)
                                      && sql_eq (column c0) (Some v))
                     (if negb (String.eqb (cand_id c) (cand_id row))
                      then c :: filter (fun c0 => negb (String.eqb (cand_id c0)
                                                                   (cand_id row))) t
                      else filter (fun c0 => negb (String.eqb (cand_id c0) (cand_id row))) t)
                   = true).
    { apply existsb_exists. exists a. split.
      - apply String.eqb_neq in Hne.
        destruct Ha as [Ha | ->].
        + destruct (negb (String.eqb (cand_id c) (cand_id row)));
            [right |]; apply filter_In; (split; [exact Ha | now rewrite Hne]).
        + rewrite Hne. now left.
      - rewrite <- Hp, Ew. cbn. now rewrite !String.eqb_refl. }
    congruence. }
  assert (Hex_t : existsb (fun c0 => String.eqb (cand_provider c0) (cand_provider row)
                                     && sql_eq (column c0) (column row))
                    (filter (fun c0 => negb (String.eqb (cand_id c0) (cand_id row))) t)
                  = false).
  { destruct (negb (String.eqb (cand_id c) (cand_id row))); [| exact Hex].
    cbn [existsb] in Hex. apply orb_false_iff in Hex. tauto. }
  destruct (String.eqb (cand_id c) (cand_id row)) eqn:E.
  - apply String.eqb_eq in E.
    assert (Hsame : map (fun c0 => if String.eqb (cand_id c0) (cand_id row)
                                   then upd c0 else c0) t = t).
    { rewrite <- (map_id t) at 2. apply map_ext_in. intros a Ha.
      destruct (String.eqb (cand_id a) (cand_id row)) eqn:Ea; [| reflexivity].
      apply String.eqb_eq in Ea. exfalso. apply Hc. rewrite E, <- Ea. now apply in_map. }
    rewrite Hsame, (Hknew c (or_introl eq_refl)).
    apply NoDup_app; [unfold knew; destruct (column row); repeat constructor; auto
                     | exact Hnd_t |].
    intros k Hk Hin. apply in_flat_map in Hin. destruct Hin as (a & Ha & Hka).
    apply (Hclash a k); [now left | | exact Hka | exact Hk].
    intro Eq. apply Hc. rewrite E, <- Eq. now apply in_map.
  - apply String.eqb_neq in E.
    apply NoDup_app; [exact Hnd_c | |].
    + apply IH; try assumption.
      * intros a Ha. apply Hin_l. now right.
      * intros a Ha. apply Hknew. now right.
    + intros k Hk Hin. apply in_flat_map in Hin. destruct Hin as (a' & Ha' & Hka').
      apply in_map_iff in Ha'. destruct Ha' as (a & <- & Ha).
      destruct (String.eqb (cand_id a) (cand_id row)) eqn:Ea.
      * rewrite (Hknew a (or_intror Ha)) in Hka'.
        apply (Hclash c k); [now right | exact E | exact Hk | exact Hka'].
      * eapply NoDup_app_disjoint; [exact Hnd | exact Hk |].
        apply in_flat_map. eauto.
Qed.

(** A statement that wrote some tables: the key constraints of the
    others are the hypotheses. *)
Ltac keys_tables Hk :=
  destruct Hk as [[? ? ?] ? ? ? ? ? ? ? ? ? ?];
  constructor; [constructor | ..];
  cbn [pipeline_runs run_roles candidates candidate_source_records candidate_identities
       candidate_signals candidate_scores candidate_evidence_links run_failures
       candidate_reviews candidate_verifications candidate_promotions
       with_pipeline_runs with_run_roles with_candidates with_candidate_source_records
       with_candidate_identities with_candidate_signals with_candidate_scores
       with_candidate_evidence_links with_run_failures with_candidate_reviews
       with_candidate_verifications with_candidate_promotions];
  try assumption.

Ltac pair_eqb :=
  repeat match goal with
         | H : (_, _) = (_, _) |- _ => injection H as ? ?
         end;
  repeat (apply andb_true_iff; split);
  try (apply String.eqb_eq; assumption); try (apply Z.eqb_eq; assumption).

(** A statement that wrote only tables without key constraints. *)
Ltac keys_untouched op :=
  let s := fresh "s" in
  let r := fresh "r" in
  let s' := fresh "s'" in
  let H := fresh "H" in
  let Hk := fresh "Hk" in
  intros s r s' H Hk; unfold op in H;
  open_statement H; try exact Hk; keys_tables Hk.

Lemma insert_pipeline_run_keys : forall row,
    invariant keys_ok (CandidateStore.insert_pipeline_run row).
Proof.
  intros row s r s' H Hk. unfold CandidateStore.insert_pipeline_run in H.
  open_statement H; try exact Hk.
  keys_tables Hk.
  - apply (NoDup_map_push run_id (fun r => String.eqb (run_id r) (run_id row)));
      [assumption | assumption |].
    intros r0 Hr0. cbv beta. rewrite Hr0. apply String.eqb_refl.
  - rewrite run_keys_push. destruct (run_idempotency_key row) as [k |] eqn:Ek.
    + apply NoDup_snoc; [assumption |]. now apply run_keys_absent.
    + now rewrite app_nil_r.
Qed.

Lemma insert_run_role_keys : forall row,
    invariant keys_ok (CandidateStore.insert_run_role row).
Proof.
  intros row s r s' H Hk. unfold CandidateStore.insert_run_role in H.
  open_statement H; try exact Hk.
  keys_tables Hk.
  eapply NoDup_map_push; [eassumption | eassumption |].
  intros r0 Hr0. cbv beta. pair_eqb.
Qed.

Lemma beginRun_keys : forall now uuid params,
    invariant keys_ok (CandidateStore.beginRun now uuid params).
Proof.
  intros now uuid params. unfold CandidateStore.beginRun.
  apply inv_bind; [apply inv_query | intro existing].
  assert (Hins : forall id, invariant keys_ok (CandidateStore.insert_run now id params)).
  { intro id. unfold CandidateStore.insert_run.
    apply inv_bind; [apply insert_pipeline_run_keys | intro].
    apply inv_bind; [apply insert_run_role_keys | intro; apply inv_ret]. }
  destruct existing as [row |]; [| apply Hins].
  apply inv_if; [apply inv_ret | apply Hins].
Qed.

Lemma mark_run_keys : forall status now id summary,
    invariant keys_ok (CandidateStore.mark_run status now id summary).
Proof.
  intros status now id summary s r s' H Hk.
  unfold CandidateStore.mark_run, bind, exec in H. injection H as _ <-.
  keys_tables Hk.
  - rewrite map_key_upsert; [assumption |]. reflexivity.
  - rewrite run_keys_map; [assumption |].
    intro r0. destruct (String.eqb (run_id r0) id); reflexivity.
  - rewrite map_key_upsert; [assumption |]. reflexivity.
Qed.

Lemma recordFailure_keys : forall now params,
    invariant keys_ok (CandidateStore.recordFailure now params).
Proof. intros now params. keys_untouched CandidateStore.recordFailure. Qed.

Lemma filter_all : forall {A} (p : A -> bool) l,
    existsb p l = false -> filter (fun a => negb (p a)) l = l.
Proof.
  intros A p l H. induction l as [| a t IH]; [reflexivity |].
  cbn in *. apply orb_false_iff in H. destruct H as [Ha Ht].
  rewrite Ha, IH; auto.
Qed.

Lemma upsertCandidate_keys : forall now hash uuid input,
    invariant keys_ok (CandidateStore.upsertCandidate now hash uuid input).
Proof.
  intros now hash uuid input. unfold CandidateStore.upsertCandidate.
  apply inv_bind; [apply inv_query | intro existing].
  apply inv_bind; [| intro; apply inv_ret].
  match goal with |- invariant _ (CandidateStore.upsert_candidate_row ?x) => set (row := x) end.
  intros s r s' H Hk. unfold CandidateStore.upsert_candidate_row in H.
  set (others := filter (fun c => negb (String.eqb (cand_id c) (cand_id row))) (candidates s))
    in H.
  destruct (CandidateStore.candidate_unique_violation row others) as [e |] eqn:Ev;
    [injection H as _ <-; exact Hk |].
  unfold CandidateStore.candidate_unique_violation in Ev.
  destruct (existsb _ others) eqn:E1 in Ev; [discriminate |].
  destruct (existsb _ others) eqn:E2 in Ev; [discriminate |].
  destruct (existsb _ others) eqn:E3 in Ev; [discriminate |]. clear Ev.
  destruct (candidate_exists (cand_id row) s) eqn:Eex; injection H as _ <-.
  - (* the ON CONFLICT(id) DO UPDATE branch *)
    match goal with
    | |- keys_ok (with_candidates (map (fun c => if _ then ?u else c) _) _) =>
        set (upd := fun c : CandidateRow => u)
    end.
    assert (Hprov : Forall (fun c => cand_provider c = cand_provider row) (candidates s)).
    { eapply Forall_impl; [| apply (keys_provider _ Hk)]. intros c Hc. exact Hc. }
    keys_tables Hk.
    + apply (Forall_upsert _ (fun c => String.eqb (cand_id c) (cand_id row)) upd);
        [assumption |]. intros c _ Hc. exact Hc.
    + rewrite (map_key_upsert cand_id (fun c => String.eqb (cand_id c) (cand_id row)) upd);
        [assumption | reflexivity].
    + apply (provider_keys_update cand_provider_id row upd); auto.
    + apply (provider_keys_update cand_public_identifier row upd); auto.
    + apply (provider_keys_update cand_normalized_profile_url_hash row upd); auto.
  - (* the INSERT branch *)
    assert (Hall : others = candidates s).
    { unfold others.
      apply (filter_all (fun c => String.eqb (cand_id c) (cand_id row))). exact Eex. }
    rewrite Hall in E1, E2, E3.
    keys_tables Hk.
    + apply Forall_push; [assumption | reflexivity].
    + eapply NoDup_map_push; [eassumption | exact Eex |].
      intros c Hc. cbv beta. rewrite Hc. apply String.eqb_refl.
    + now apply provider_keys_push.
    + now apply provider_keys_push.
    + now apply provider_keys_push.
Qed.

Lemma addSourceRecord_keys : forall now c r src rank raw,
    invariant keys_ok (CandidateStore.addSourceRecord now c r src rank raw).
Proof.
  intros now c rn src rank raw s r s' H Hk. unfold CandidateStore.addSourceRecord in H.
  open_statement H; try exact Hk.
  keys_tables Hk.
  eapply NoDup_map_push; [eassumption | eassumption |].
  intros r0 Hr0. cbv beta. unfold source_key in Hr0. cbn in Hr0. pair_eqb.
Qed.

Lemma upsertIdentity_keys : forall now c p h u res,
    invariant keys_ok (CandidateStore.upsertIdentity now c p h u res).
Proof.
  intros now c p h u res s r s' H Hk. unfold CandidateStore.upsertIdentity in H.
  open_statement H; try exact Hk.
  - keys_tables Hk. rewrite map_key_upsert; [assumption | reflexivity].
  - keys_tables Hk. eapply NoDup_map_push; [eassumption | eassumption |].
    intros r0 Hr0. cbv beta. cbn in Hr0. pair_eqb.
Qed.

Lemma addSignals_keys : forall now c signals,
    invariant keys_ok (CandidateStore.addSignals now c signals).
Proof.
  intros now c signals. unfold CandidateStore.addSignals.
  apply inv_if; [apply inv_ret |]. apply transaction_keeps. apply for_each_keeps.
  intro a. keys_untouched CandidateStore.insert_signal.
Qed.

Lemma upsertScore_keys : forall now c r score,
    invariant keys_ok (CandidateStore.upsertScore now c r score).
Proof.
  intros now c rn score s r s' H Hk. unfold CandidateStore.upsertScore in H.
  open_statement H; try exact Hk.
  - keys_tables Hk.
    rewrite (map_key_upsert _ _ (fun _ => CandidateStore.score_row now c rn score));
      [assumption |].
    intros r0 Hsame. cbn. apply andb_true_iff in Hsame. destruct Hsame as [E1 E2].
    apply String.eqb_eq in E1, E2. now rewrite E1, E2.
  - keys_tables Hk. eapply NoDup_map_push; [eassumption | eassumption |].
    intros r0 Hr0. cbv beta. cbn in Hr0. pair_eqb.
Qed.

Lemma addEvidenceLinks_keys : forall now c r links,
    invariant keys_ok (CandidateStore.addEvidenceLinks now c r links).
Proof.
  intros now c rn links. unfold CandidateStore.addEvidenceLinks.
  apply inv_if; [apply inv_ret |]. apply transaction_keeps. apply for_each_keeps.
  intros a s r s' H Hk. unfold CandidateStore.insert_evidence_link in H.
  open_statement H; try exact Hk.
  keys_tables Hk. eapply NoDup_map_push; [eassumption | eassumption |].
  intros r0 Hr0. cbv beta. unfold evidence_key in Hr0. cbn in Hr0. pair_eqb.
Qed.

Lemma upsertReviewStatus_keys : forall now params,
    invariant keys_ok (CandidateStore.upsertReviewStatus now params).
Proof.
  intros now params s r s' H Hk. unfold CandidateStore.upsertReviewStatus in H.
  open_statement H; try exact Hk.
  - keys_tables Hk. rewrite map_key_upsert; [assumption | reflexivity].
  - keys_tables Hk. eapply NoDup_map_push; [eassumption | eassumption |].
    intros r0 Hr0. cbv beta. cbn in Hr0. pair_eqb.
Qed.

Lemma store_submitVerification_keys : forall now params,
    invariant keys_ok (CandidateStore.submitVerification now params).
Proof. intros now params. keys_untouched CandidateStore.submitVerification. Qed.

Lemma store_promoteCandidate_keys : forall now now' params,
    invariant keys_ok (CandidateStore.promoteCandidate now now' params).
Proof.
  intros now now' params. unfold CandidateStore.promoteCandidate.
  apply inv_bind; [| intro; apply upsertReviewStatus_keys].
  keys_untouched CandidateStore.insert_promotion.
Qed.

Lemma empty_store_keys_ok : keys_ok empty_store.
Proof. constructor; try constructor; constructor. Qed.

(** X11. The key constraints of the schema are an invariant of the pipeline:
    a run, a review update, a verification and a promotion each leave
    every PRIMARY KEY and every UNIQUE constraint satisfied, whether they
    return or throw, whatever the collaborators do. The empty store
    satisfies them, so every store the service has built does. *)
Theorem service_keeps_unique_keys :
  keys_ok empty_store
  /\ (forall s, keys_ok s -> schema_ok s)
  /\ (forall env recruiting input,
         invariant (on_db keys_ok) (CandidatePipelineService.run env recruiting input))
  /\ (forall now params,
         invariant keys_ok (CandidatePipelineWorkflow.updateReviewStatus now params))
  /\ (forall now now' params,
         invariant keys_ok (CandidatePipelineService.submitVerification now now' params))
  /\ (forall recruiting now now' params,
         invariant keys_ok
                   (CandidatePipelineService.promoteCandidate recruiting now now' params)).
Proof.
  split; [apply empty_store_keys_ok |].
  split; [intros s Hk; apply Hk |].
  split.
  { intros. apply run_keeps_P;
      auto using beginRun_keys, mark_run_keys, recordFailure_keys, upsertCandidate_keys,
        addSourceRecord_keys, upsertIdentity_keys, addSignals_keys, upsertScore_keys,
        addEvidenceLinks_keys. }
  split; [intros; apply upsertReviewStatus_keys |].
  split.
  - intros. unfold CandidatePipelineService.submitVerification.
    apply inv_bind; [apply inv_query | intro].
    apply inv_bind; [apply store_submitVerification_keys | intro].
    destruct (sv_outcome params); try apply upsertReviewStatus_keys. apply inv_ret.
  - intros. unfold CandidatePipelineService.promoteCandidate. cbv zeta.
    apply inv_if; [apply inv_ret |].
    apply inv_bind; [apply inv_query | intro existing].
    destruct existing; [apply inv_ret |].
    apply inv_bind; [apply store_promoteCandidate_keys | intro; apply inv_ret].
Qed.

(** ** The verification queue *)




(** ** Review priorities *)

(** What [upsertReviewStatus] leaves in the row of its (candidate, run)
    pair. *)
Lemma upsertReviewStatus_row : forall now params s s',
    CandidateStore.upsertReviewStatus now params s = (Ok tt, s') ->
    exists row,
      review_of (rp_candidateId params) (rp_runId params) s' = Some row
      /\ rv_priority row = nullish (rp_priority params) 0%Z
      /\ rv_status row = rp_status params
      /\ rv_notes row = rp_notes params
      /\ rv_updated_by row = rp_updatedBy params
      /\ rv_updated_at row = now
      /\ rv_created_at row
         = match review_of (rp_candidateId params) (rp_runId params) s with
           | Some old => rv_created_at old
           | None => now
           end.
Proof.
  intros now params s s' H. unfold CandidateStore.upsertReviewStatus in H.
  unfold review_of.
  set (same := fun r : ReviewRow =>
                 String.eqb (rv_candidate_id r) (rp_candidateId params)
                 && String.eqb (rv_run_id r) (rp_runId params)) in *.
  destruct (existsb same (candidate_reviews s)) eqn:Eex.
  - injection H as <-. cbn [candidate_reviews with_candidate_reviews].
    destruct (find_map_update same (CandidateStore.updated_review now params)
                (candidate_reviews s)) as (r0 & Hold & Hfind);
      [intros r0 Hr0; exact Hr0 | exact Eex |].
    exists (CandidateStore.updated_review now params r0). split; [exact Hfind |].
    rewrite Hold. cbn. auto 10.
  - destruct (negb _); [discriminate |]. injection H as <-.
    cbn [candidate_reviews with_candidate_reviews].
    exists (CandidateStore.inserted_review now params).
    split; [apply find_push_new;
            [exact Eex | unfold same; cbn; now rewrite !String.eqb_refl] |].
    cbn.
    assert (Hnone : find same (candidate_reviews s) = None).
    { destruct (find same (candidate_reviews s)) eqn:Ef; [| reflexivity].
      apply find_some in Ef. destruct Ef as [Hin Hs].
      assert (existsb same (candidate_reviews s) = true) by (apply existsb_exists; eauto).
      congruence. }
    rewrite Hnone. auto 10.
Qed.



(** ** Recent runs and the status query *)



Lemma started_desc_asym : forall a b : PipelineRunRow,
    (run_started_at b <? run_started_at a)%Z = true ->
    (run_started_at a <? run_started_at b)%Z = false.
Proof. intros a b H. apply Z.ltb_lt in H. apply Z.ltb_ge. lia. Qed.

Lemma recent_runs_sorted : forall limitArg s,
    StronglySorted (fun a b => (run_started_at b <= run_started_at a)%Z)
                   (CandidateStoreQueries.recent_runs limitArg s).
Proof.
  intros limitArg s.
  set (by_start := fun a b : PipelineRunRow => (run_started_at b <? run_started_at a)%Z).
  assert (Hsorted : StronglySorted (fun a b => (run_started_at b <= run_started_at a)%Z)
                                   (order_by by_start (pipeline_runs s))).
  { apply Sorted_strong; [intros x y z; lia |].
    eapply Sorted_weaken; [| apply (order_by_sorted by_start); apply started_desc_asym].
    intros a b H. unfold in_order, by_start in H. now apply Z.ltb_ge in H. }
  unfold CandidateStoreQueries.recent_runs, limit. fold by_start.
  set (bound := Z.to_nat (Z.max 1 (Math_trunc limitArg))).
  rewrite <- (firstn_skipn bound (order_by by_start (pipeline_runs s))) in Hsorted.
  clear -Hsorted.
  induction (firstn bound (order_by by_start (pipeline_runs s))) as [| a t IH];
    [constructor |].
  cbn in Hsorted. inversion Hsorted as [| ? ? Ht Ha]; subst. constructor; [now apply IH |].
  apply Forall_app in Ha. tauto.
Qed.


(** ** Workflow and verification statistics *)

Lemma reviewed_is_sum : forall rows : list ReviewRow,
    CandidateStoreQueries.sum_case (fun r => CandidateStoreQueries.is_reviewed (rv_status r)) rows
    = (CandidateStoreQueries.sum_case
         (fun r => CandidateReviewStatus_eqb (rv_status r) promoted_shortlist) rows
       + CandidateStoreQueries.sum_case
           (fun r => CandidateReviewStatus_eqb (rv_status r) deferred) rows
       + CandidateStoreQueries.sum_case
           (fun r => CandidateReviewStatus_eqb (rv_status r) rejected) rows)%nat.
Proof.
  unfold CandidateStoreQueries.sum_case. induction rows as [| r t IH]; [reflexivity |].
  cbn [filter]. destruct (rv_status r); cbn; lia.
Qed.

Lemma filter_and_length : forall {A} (p q : A -> bool) l,
    (List.length (filter (fun a => p a && q a) l) <= List.length (filter p l))%nat.
Proof.
  intros A p q l. induction l as [| a t IH]; [reflexivity |].
  cbn. destruct (p a), (q a); cbn; lia.
Qed.

Lemma filter_length_le' : forall {A} (p : A -> bool) l,
    (List.length (filter p l) <= List.length l)%nat.
Proof.
  intros A p l. induction l as [| a t IH]; [reflexivity |].
  cbn. destruct (p a); cbn; lia.
Qed.

(** X15. The statistics of a run add up: the reviewed count is the sum of the
    promoted, deferred and rejected counts; reviewed and queued reviews
    together never exceed the run's reviews; the verifications made by
    browser never exceed the verifications made. Both queries return for
    every run id, known or not, and change nothing. *)
Theorem workflow_statistics_add_up :
  forall (runId : string) (s : Store),
    exists (w : WorkflowStats) (v : VerificationStats),
      CandidateStoreQueries.getWorkflowStats runId s = (Ok w, s)
      /\ CandidateStoreQueries.getVerificationStats runId s = (Ok v, s)
      /\ ws_reviewedCount w
         = (ws_promotedCount w + ws_deferredCount w + ws_rejectedCount w)%nat
      /\ (ws_reviewedCount w + vs_queued v
          <= List.length (filter (fun r => String.eqb (rv_run_id r) runId)
                                 (candidate_reviews s)))%nat
      /\ (vs_browserVerified v <= vs_completed v)%nat
      /\ (run_exists runId s = false -> references_kept s ->
          w = {| ws_reviewedCount := 0; ws_promotedCount := 0; ws_deferredCount := 0;
                 ws_rejectedCount := 0 |}
          /\ v = {| vs_queued := 0; vs_completed := 0; vs_browserVerified := 0;
                    vs_blockedDomainHits := 0 |}).
Proof.
  intros runId s. eexists. eexists. split; [reflexivity |]. split; [reflexivity |].
  cbn [ws_reviewedCount ws_promotedCount ws_deferredCount ws_rejectedCount
       vs_queued vs_completed vs_browserVerified].
  split; [apply reviewed_is_sum |].
  split.
  { unfold CandidateStoreQueries.sum_case.
    induction (candidate_reviews s) as [| r t IH]; [reflexivity |].
    cbn [filter]. destruct (String.eqb (rv_run_id r) runId); cbn [andb]; [| exact IH].
    cbn [filter]. destruct (rv_status r); cbn; lia. }
  split; [apply filter_length_le' |].
  intros Hno Hrefs.
  assert (Hreviews : filter (fun r => String.eqb (rv_run_id r) runId) (candidate_reviews s) = []).
  { pose proof (refs_reviews _ Hrefs) as H.
    induction H as [| r t Hr Ht IH]; [reflexivity |].
    cbn. destruct (String.eqb (rv_run_id r) runId) eqn:E; [| exact IH].
    apply String.eqb_eq in E. unfold references_ok in Hr. apply andb_true_iff in Hr.
    destruct Hr as [_ Hr]. rewrite E in Hr. congruence. }
  assert (Hverif : filter (fun r => String.eqb (vf_run_id r) runId)
                          (candidate_verifications s) = []).
  { pose proof (refs_verifications _ Hrefs) as H.
    induction H as [| r t Hr Ht IH]; [reflexivity |].
    cbn. destruct (String.eqb (vf_run_id r) runId) eqn:E; [| exact IH].
    apply String.eqb_eq in E. unfold references_ok in Hr. apply andb_true_iff in Hr.
    destruct Hr as [_ Hr]. rewrite E in Hr. congruence. }
  assert (Hqueued : filter (fun r => String.eqb (rv_run_id r) runId
                                     && CandidateReviewStatus_eqb (rv_status r)
                                                                  under_verification)
                           (candidate_reviews s) = []).
  { pose proof (filter_and_length (fun r => String.eqb (rv_run_id r) runId)
                  (fun r => CandidateReviewStatus_eqb (rv_status r) under_verification)
                  (candidate_reviews s)) as H.
    rewrite Hreviews in H. apply length_zero_iff_nil. cbn in H. lia. }
  assert (Hfail : filter (fun r => String.eqb (fl_run_id r) runId
                                   && String.eqb (fl_error_type r) "blocked_domain")
                         (run_failures s) = []).
  { pose proof (refs_failures _ Hrefs) as H.
    induction H as [| r t Hr Ht IH]; [reflexivity |].
    cbn. destruct (String.eqb (fl_run_id r) runId) eqn:E; [| exact IH].
    apply String.eqb_eq in E. rewrite E in Hr. congruence. }
  unfold CandidateStoreQueries.sum_case. cbv zeta.
  rewrite Hreviews, Hverif, Hqueued, Hfail. split; reflexivity.
Qed.

(** ** The daily output contract *)

Lemma find_none_existsb : forall {A} (p : A -> bool) l,
    existsb p l = false -> find p l = None.
Proof.
  intros A p l H. destruct (find p l) eqn:E; [| reflexivity].
  apply find_some in E. destruct E as [Hin Hp].
  assert (existsb p l = true) by (apply existsb_exists; eauto). congruence.
Qed.

Lemma find_some_existsb : forall {A} (p : A -> bool) l a,
    find p l = Some a -> existsb p l = true.
Proof.
  intros A p l a H. apply find_some in H. apply existsb_exists. exists a. exact H.
Qed.

Lemma same_contract_distinct : forall r1 k1 d1 r2 k2 d2 row,
    String.eqb r1 r2 && String.eqb k1 k2 && String.eqb d1 d2 = false ->
    DailyOutputs.same_contract r1 k1 d1 row = true ->
    DailyOutputs.same_contract r2 k2 d2 row = false.
Proof.
  intros r1 k1 d1 r2 k2 d2 row Hne H. unfold DailyOutputs.same_contract in *.
  apply andb_true_iff in H. destruct H as [H H3]. apply andb_true_iff in H.
  destruct H as [H1 H2]. apply String.eqb_eq in H1, H2, H3. subst r1 k1 d1.
  exact Hne.
Qed.

(** X16. [updateDailyOutputContract] writes the contract of its (run, role,
    date): a first write inserts it, with 0 for every count not given, and
    needs the run to exist; a later write updates it in place, keeping
    every count not given. Reading the contract back returns what was
    written; the contracts of other keys and all other tables are
    untouched. *)
Theorem updateDailyOutputContract_merges_counts :
  forall (now : Z) (params : DailyUpdateParams) (d : Database),
    let runId := du_runId params in
    let roleKey := du_roleKey params in
    let date := du_date params in
    let old := find (DailyOutputs.same_contract runId roleKey date) (daily_run_outputs d) in
    let merged := fun (given : option Q) (column : DailyOutputRow -> Q) =>
                    nullish given (match old with Some row => column row | None => 0 end) in
    (old = None -> run_exists runId (tables d) = false ->
     DailyOutputs.updateDailyOutputContract now params d = (Throw foreign_key_failed, d))
    /\ (old <> None \/ run_exists runId (tables d) = true ->
        exists d',
          DailyOutputs.updateDailyOutputContract now params d = (Ok tt, d')
          /\ tables d' = tables d
          /\ List.length (daily_run_outputs d')
             = (List.length (daily_run_outputs d)
                + match old with Some _ => 0 | None => 1 end)%nat
          /\ DailyOutputs.getDailyOutputContract runId roleKey date d'
             = (Ok (Some {| doc_runId := runId;
                            doc_roleKey := roleKey;
                            doc_date := date;
                            doc_promotedCount :=
                              merged (dc_promotedCount (du_counts params)) dro_promoted_count;
                            doc_reviewedCount :=
                              merged (dc_reviewedCount (du_counts params)) dro_reviewed_count;
                            doc_verifiedCount :=
                              merged (dc_verifiedCount (du_counts params)) dro_verified_count;
                            doc_rejectedCount :=
                              merged (dc_rejectedCount (du_counts params)) dro_rejected_count;
                            doc_deferredCount :=
                              merged (dc_deferredCount (du_counts params)) dro_deferred_count;
                            doc_generatedAt := now |}), d')
          /\ (forall r k dt,
                 String.eqb runId r && String.eqb roleKey k && String.eqb date dt = false ->
                 fst (DailyOutputs.getDailyOutputContract r k dt d')
                 = fst (DailyOutputs.getDailyOutputContract r k dt d))).
Proof.
  intros now params d runId roleKey date old merged.
  unfold DailyOutputs.updateDailyOutputContract, DailyOutputs.getDailyOutputContract,
    bind, query.
  fold runId roleKey date. fold old.
  set (same := DailyOutputs.same_contract runId roleKey date) in *.
  split.
  - intros Hold Hrun. rewrite Hold. cbn [option_map].
    unfold DailyOutputs.insert_daily_row.
    cbn [DailyOutputs.inserted_daily_row dro_run_id dro_role_key dro_date].
    fold runId roleKey date. fold same.
    destruct (existsb same (daily_run_outputs d)) eqn:Eex.
    + apply existsb_exists in Eex. destruct Eex as (row & Hin & Hrow).
      destruct (find same (daily_run_outputs d)) eqn:Ef; [unfold old in Hold; congruence |].
      eapply find_none in Ef; [| exact Hin]. congruence.
    + now rewrite Hrun.
  - intros Hcan.
    destruct old as [row |] eqn:Eold; cbn [option_map].
    + (* the contract exists: UPDATE *)
      unfold exec. eexists. split; [reflexivity |]. cbn [tables daily_run_outputs].
      split; [reflexivity |].
      split; [now rewrite length_map, Nat.add_0_r |].
      assert (Hex : existsb same (daily_run_outputs d) = true)
        by (eapply find_some_existsb; exact Eold).
      destruct (find_map_update same
                  (DailyOutputs.updated_daily_row now (du_counts params)
                     (DailyOutputs.contract_of_row row))
                  (daily_run_outputs d)) as (r0 & Hr0 & Hfind);
        [intros r1 Hr1; exact Hr1 | exact Hex |].
      unfold old in Eold. rewrite Eold in Hr0. injection Hr0 as <-.
      split.
      * f_equal. f_equal.
        match goal with |- option_map _ ?f = _ => replace f with
            (Some (DailyOutputs.updated_daily_row now (du_counts params)
                     (DailyOutputs.contract_of_row row) row)) by (symmetry; exact Hfind) end.
        cbn [option_map DailyOutputs.contract_of_row DailyOutputs.updated_daily_row
             dro_run_id dro_role_key dro_date dro_promoted_count dro_reviewed_count
             dro_verified_count dro_rejected_count dro_deferred_count dro_generated_at
             doc_promotedCount doc_reviewedCount doc_verifiedCount doc_rejectedCount
             doc_deferredCount].
        apply find_some in Eold. destruct Eold as [_ Hsame].
        unfold same, DailyOutputs.same_contract in Hsame.
        apply andb_true_iff in Hsame. destruct Hsame as [Hsame H3].
        apply andb_true_iff in Hsame. destruct Hsame as [H1 H2].
        apply String.eqb_eq in H1, H2, H3.
        unfold DailyOutputs.contract_of_row, DailyOutputs.updated_daily_row, merged.
        cbn [dro_run_id dro_role_key dro_date dro_promoted_count dro_reviewed_count
             dro_verified_count dro_rejected_count dro_deferred_count dro_generated_at
             doc_promotedCount doc_reviewedCount doc_verifiedCount doc_rejectedCount
             doc_deferredCount].
        rewrite H1, H2, H3. reflexivity.
      * intros r k dt Hne. cbn [fst]. f_equal. f_equal.
        apply (find_map_other same (DailyOutputs.same_contract r k dt)).
        -- intros r1 Hr1. eapply same_contract_distinct; [exact Hne | exact Hr1].
        -- intros r1 Hr1. eapply same_contract_distinct; [exact Hne |].
           unfold DailyOutputs.same_contract in *. exact Hr1.
    + (* no contract yet: INSERT *)
      destruct Hcan as [Hcan | Hrun]; [congruence |].
      unfold DailyOutputs.insert_daily_row.
      cbn [DailyOutputs.inserted_daily_row dro_run_id dro_role_key dro_date].
      fold runId roleKey date. fold same.
      assert (Hex : existsb same (daily_run_outputs d) = false).
      { destruct (existsb same (daily_run_outputs d)) eqn:Eex; [| reflexivity].
        apply existsb_exists in Eex. destruct Eex as (row & Hin & Hrow).
        eapply find_none in Eold; [| exact Hin]. unfold same in *. congruence. }
      rewrite Hex, Hrun. cbn [negb].
      eexists. split; [reflexivity |]. cbn [tables daily_run_outputs].
      split; [reflexivity |].
      split; [unfold push; rewrite length_app; reflexivity |].
      split.
      * f_equal. f_equal.
        rewrite find_push_new; [reflexivity | exact Hex |].
        unfold same, DailyOutputs.same_contract. cbn. now rewrite !String.eqb_refl.
      * intros r k dt Hne. cbn [fst]. f_equal. f_equal.
        apply find_push_other. unfold DailyOutputs.same_contract. cbn. exact Hne.
Qed.

(** ** The daily report *)

Lemma find_map : forall {A B} (f : A -> B) (p : B -> bool) l,
    find p (map f l) = option_map f (find (fun a => p (f a)) l).
Proof.
  intros A B f p l. induction l as [| a t IH]; [reflexivity |].
  cbn. destruct (p (f a)); [reflexivity | exact IH].
Qed.

Lemma find_first_of_sorted : forall {A} (R : A -> A -> Prop) (p : A -> bool) l a,
    StronglySorted R l -> (forall x, R x x) -> find p l = Some a ->
    In a l /\ p a = true /\ forall b, In b l -> p b = true -> R a b.
Proof.
  intros A R p l a Hs Hrefl. induction Hs as [| x t Ht IH Hx]; intro H; [discriminate |].
  cbn in H. destruct (p x) eqn:E.
  - injection H as <-. split; [now left |]. split; [exact E |].
    intros b [<- | Hb] _; [apply Hrefl |]. rewrite Forall_forall in Hx. now apply Hx.
  - destruct (IH H) as (Hin & Hp & Hmax). split; [now right |]. split; [exact Hp |].
    intros b [<- | Hb] Hpb; [congruence | now apply Hmax].
Qed.

Lemma within_day_filter_le : forall {A} (p : A -> bool) (at_ : A -> Z) dayStart l,
    (List.length (filter (fun r => p r && CandidateStoreQueries.within_day dayStart (at_ r)) l)
     <= List.length (filter p l))%nat.
Proof. intros. apply (filter_and_length p). Qed.

Lemma filter_three_length : forall {A} (p q w : A -> bool) l,
    (List.length (filter (fun a => p a && q a && w a) l)
     <= List.length (filter q (filter p l)))%nat.
Proof.
  intros A p q w l. induction l as [| a t IH]; [reflexivity |].
  cbn [filter]. destruct (p a); cbn [andb filter]; [| exact IH].
  destruct (q a); cbn [andb]; [| exact IH].
  destruct (w a); cbn [List.length]; lia.
Qed.

(** X17. The daily report never throws and never writes. Without a run id (or
    with the empty string for one) it reports on the most recently
    started run of the role among the 20 most recent runs, and is null
    when there is none. The day's counts are bounded by the run's totals,
    they are all 0 for a date that does not parse, and without configured
    quotas the targets are 20, 10 and 30. *)
Theorem getDailyReport_reports_latest_run_of_role :
  forall (dailyQuotas : option DailyQuotas) (today : string) (getTime : string -> number)
         (params : DailyReportParams) (d : Database),
    let recent := CandidateStoreQueries.recent_runs 20 (tables d) in
    let date := nullish (dr_date params) today in
    exists res : option DailyReport,
      CandidatePipelineWorkflow.getDailyReport dailyQuotas today getTime params d = (Ok res, d)
      /\ (res = None <->
          truthy (dr_runId params) = false
          /\ forall r, In r recent -> run_role_key r <> dr_roleKey params)
      /\ (forall report, res = Some report ->
            (exists runId,
                (truthy (dr_runId params) = true -> dr_runId params = Some runId)
                /\ (truthy (dr_runId params) = false ->
                    exists r, In r recent /\ run_id r = runId
                              /\ run_role_key r = dr_roleKey params
                              /\ forall r', In r' recent ->
                                            run_role_key r' = dr_roleKey params ->
                                            (run_started_at r' <= run_started_at r)%Z)
                /\ CandidateStoreQueries.getWorkflowStats runId (tables d)
                   = (Ok (report_workflow report), tables d)
                /\ CandidateStoreQueries.getVerificationStats runId (tables d)
                   = (Ok (report_verification report), tables d)
                /\ DailyOutputs.getDailyOutputContract runId (dr_roleKey params) date d
                   = (Ok (report_contract report), d))
            /\ (qs_verificationUsedToday (report_quota report)
                <= vs_completed (report_verification report))%nat
            /\ (qs_reviewedToday (report_quota report)
                <= ws_reviewedCount (report_workflow report))%nat
            /\ (isFinite (getTime date) = false ->
                qs_verificationUsedToday (report_quota report) = 0%nat
                /\ qs_promotionsToday (report_quota report) = 0%nat
                /\ qs_reviewedToday (report_quota report) = 0%nat)
            /\ (dailyQuotas = None ->
                qs_verificationBudgetDaily (report_quota report) = 20
                /\ qs_promotionsTargetDaily (report_quota report) = 10
                /\ qs_reviewedTargetDaily (report_quota report) = 30)).
Proof.
  intros dailyQuotas today getTime params d recent date.
  unfold CandidatePipelineWorkflow.getDailyReport.
  set (found := if truthy (dr_runId params) then dr_runId params
                else option_map run_id
                       (find (fun r => String.eqb (run_role_key r) (dr_roleKey params))
                             recent)).
  assert (Hfound : forall A (k : option string -> Eff Database A),
             bind (if truthy (dr_runId params)
                   then ret (dr_runId params)
                   else
                     recentRuns <- on_tables (CandidateStoreQueries.listRecentRuns (Some 20)) ;;
                     ret (option_map status_runId
                            (find (fun r => String.eqb (status_roleKey r) (dr_roleKey params))
                                  recentRuns))) k d
             = k found d).
  { intros A k. unfold found. destruct (truthy (dr_runId params)); [reflexivity |].
    unfold bind, on_tables, CandidateStoreQueries.listRecentRuns, query, ret.
    cbn [nullish tables daily_run_outputs]. destruct d as [t dro]. cbn [tables daily_run_outputs].
    f_equal. rewrite find_map. unfold recent. cbn [tables].
    now destruct (find _ (CandidateStoreQueries.recent_runs 20 t)). }
  rewrite Hfound. clear Hfound.
  assert (Hnone : found = None <->
                  truthy (dr_runId params) = false
                  /\ forall r, In r recent -> run_role_key r <> dr_roleKey params).
  { unfold found. destruct (truthy (dr_runId params)) eqn:Et.
    - split; [| intros [H _]; discriminate].
      intro H. destruct (dr_runId params); discriminate.
    - split.
      + intro H. split; [reflexivity |]. intros r Hr Hrole.
        destruct (find _ recent) eqn:Ef; [discriminate |].
        eapply find_none in Ef; [| exact Hr]. rewrite Hrole, String.eqb_refl in Ef.
        discriminate.
      + intros [_ H]. destruct (find _ recent) eqn:Ef; [| reflexivity].
        apply find_some in Ef. destruct Ef as [Hin Hrole]. apply String.eqb_eq in Hrole.
        exfalso. now apply (H p). }
  destruct found as [runId |] eqn:Efound.
  - unfold bind, on_tables, DailyOutputs.getDailyOutputContract,
      CandidateStoreQueries.getWorkflowStats, CandidateStoreQueries.getVerificationStats,
      CandidateStoreQueries.getQuotaStatus, query, ret.
    destruct d as [t dro]. cbn [tables daily_run_outputs].
    eexists. split; [reflexivity |].
    split; [split; [discriminate | intro H; apply Hnone in H; discriminate] |].
    intros report Hreport. injection Hreport as <-.
    cbn [report_contract report_workflow report_verification report_quota
         qs_verificationBudgetDaily qs_verificationUsedToday qs_promotionsTargetDaily
         qs_promotionsToday qs_reviewedTargetDaily qs_reviewedToday
         vs_completed ws_reviewedCount
         qc_verificationBudgetDaily qc_promotionsTargetDaily qc_reviewedTargetDaily nullish].
    split.
    { exists runId. split.
      - intro Ht. unfold found in Efound. now rewrite Ht in Efound.
      - split; [| repeat split]. intro Ht. unfold found in Efound. rewrite Ht in Efound.
        destruct (find _ recent) as [r |] eqn:Ef; [| discriminate].
        injection Efound as <-.
        assert (Hsorted : StronglySorted
                            (fun a b => (run_started_at b <= run_started_at a)%Z) recent).
        { apply recent_runs_sorted. }
        assert (Hrefl : forall x : PipelineRunRow,
                   (run_started_at x <= run_started_at x)%Z) by (intro; lia).
        destruct (find_first_of_sorted _ _ _ _ Hsorted Hrefl Ef) as (Hin & Hrole & Hmax).
        apply String.eqb_eq in Hrole.
        exists r. repeat split; try assumption.
        intros r' Hr' Hrole'. apply Hmax; [exact Hr' |]. rewrite Hrole'.
        apply String.eqb_refl. }
    fold date.
    split; [apply within_day_filter_le |].
    split.
    { unfold CandidateStoreQueries.sum_case.
      apply (filter_three_length (fun r => String.eqb (rv_run_id r) runId)
               (fun r => CandidateStoreQueries.is_reviewed (rv_status r))). }
    split.
    { intro Hnan.
      assert (Hw : forall at_, CandidateStoreQueries.within_day (getTime date) at_ = false).
      { intro at_. unfold CandidateStoreQueries.within_day.
        destruct (getTime date); [discriminate | | |]; reflexivity. }
      assert (Hz : forall A (p : A -> bool) (at_ : A -> Z) l,
                 List.length (filter (fun r => p r && CandidateStoreQueries.within_day
                                                        (getTime date) (at_ r)) l) = 0%nat).
      { intros A p at_ l. induction l as [| a rest IH]; [reflexivity |].
        cbn. now rewrite Hw, andb_false_r. }
      repeat split; apply Hz. }
    intros ->. cbn. repeat split.
  - exists None. split; [reflexivity |].
    split; [split; [intros _; now apply Hnone | reflexivity] |].
    intros report H. discriminate.
Qed.

(** ** Signals and evidence links: the two transactions *)

Lemma for_each_insert_signal : forall now c signals s,
    candidate_exists c s = true ->
    CandidateStore.for_each (CandidateStore.insert_signal now c) signals s
    = (Ok tt,
       with_candidate_signals
         (candidate_signals s
          ++ map (fun signal =>
                    {| sg_candidate_id := c;
                       sg_signal_key := sig_key signal;
                       sg_signal_value := sig_value signal;
                       sg_numeric_value := sig_numericValue signal;
                       sg_observed_at := now;
                       sg_source := sig_source signal;
                       sg_details_json := sig_details signal |}) signals)%list s).
Proof.
  intros now c signals. induction signals as [| sg rest IH]; intros s Hc.
  - cbn. rewrite app_nil_r. now destruct s.
  - cbn [CandidateStore.for_each]. unfold bind.
    unfold CandidateStore.insert_signal at 1. rewrite Hc. cbn [negb].
    rewrite IH; [| exact Hc]. cbn [candidate_signals with_candidate_signals map].
    unfold push. now rewrite <- app_assoc.
Qed.

(** X18. [addSignals] is all or nothing. For a candidate that exists it
    appends one row per signal, in order, all observed at the same
    instant; for a candidate that does not exist it throws and leaves the
    store as it was; with no signal it returns at once, also for a
    candidate that does not exist. *)
Theorem addSignals_all_or_nothing :
  forall (now : Z) (candidateId : string) (signals : list CandidateSignal) (s : Store),
    (signals = [] -> CandidateStore.addSignals now candidateId signals s = (Ok tt, s))
    /\ (signals <> [] -> candidate_exists candidateId s = false ->
        CandidateStore.addSignals now candidateId signals s = (Throw foreign_key_failed, s))
    /\ (signals <> [] -> candidate_exists candidateId s = true ->
        CandidateStore.addSignals now candidateId signals s
        = (Ok tt,
           with_candidate_signals
             (candidate_signals s
              ++ map (fun signal =>
                        {| sg_candidate_id := candidateId;
                           sg_signal_key := sig_key signal;
                           sg_signal_value := sig_value signal;
                           sg_numeric_value := sig_numericValue signal;
                           sg_observed_at := now;
                           sg_source := sig_source signal;
                           sg_details_json := sig_details signal |}) signals)%list s))
    /\ (forall e s', CandidateStore.addSignals now candidateId signals s = (Throw e, s') ->
                     s' = s).
Proof.
  intros now c signals s.
  split; [intros ->; reflexivity |].
  split.
  { intros Hne Hc. destruct signals as [| sg rest]; [contradiction |].
    unfold CandidateStore.addSignals, CandidateStore.transaction.
    cbn [List.length Nat.eqb CandidateStore.for_each]. unfold bind.
    unfold CandidateStore.insert_signal at 1. now rewrite Hc. }
  split.
  { intros Hne Hc. destruct signals as [| sg rest]; [contradiction |].
    unfold CandidateStore.addSignals, CandidateStore.transaction.
    cbn [List.length Nat.eqb]. now rewrite for_each_insert_signal. }
  intros e s' H. unfold CandidateStore.addSignals in H.
  destruct (List.length signals =? 0)%nat; [discriminate |].
  unfold CandidateStore.transaction in H.
  destruct (CandidateStore.for_each _ signals s) as [[u | e'] s1]; [discriminate |].
  now injection H as _ <-.
Qed.

Lemma addSignals_all_or_nothing_witness :
  CandidateStore.addSignals 5000 "li:abc" [browserVerificationSignal] test_store_with_candidate
  = (Ok tt,
     with_candidate_signals
       (candidate_signals test_store_with_candidate
        ++ map (fun signal =>
                  {| sg_candidate_id := "li:abc";
                     sg_signal_key := sig_key signal;
                     sg_signal_value := sig_value signal;
                     sg_numeric_value := sig_numericValue signal;
                     sg_observed_at := 5000;
                     sg_source := sig_source signal;
                     sg_details_json := sig_details signal |})
              [browserVerificationSignal])%list test_store_with_candidate)
  /\ CandidateStore.addSignals 5000 "ghost" [browserVerificationSignal]
       test_store_with_candidate
     = (Throw foreign_key_failed, test_store_with_candidate).
Proof.
  split.
  - apply (proj1 (proj2 (proj2 (addSignals_all_or_nothing 5000 "li:abc"
                                  [browserVerificationSignal] test_store_with_candidate)))).
    + discriminate.
    + vm_compute. reflexivity.
  - apply (proj1 (proj2 (addSignals_all_or_nothing 5000 "ghost"
                           [browserVerificationSignal] test_store_with_candidate))).
    + discriminate.
    + vm_compute. reflexivity.
Defined.

Lemma with_candidate_evidence_links_same : forall s,
    with_candidate_evidence_links (candidate_evidence_links s) s = s.
Proof. now intros []. Qed.

Lemma for_each_insert_evidence_link : forall now c r links s s1,
    CandidateStore.for_each (CandidateStore.insert_evidence_link now c r) links s
    = (Ok tt, s1) ->
    exists added,
      s1 = with_candidate_evidence_links (candidate_evidence_links s ++ added)%list s
      /\ Forall (fun row =>
                   evl_candidate_id row = c /\ evl_run_id row = r
                   /\ evl_created_at row = now
                   /\ exists link, In link links /\ evl_url row = ev_url link
                                   /\ link_stored c r link s = false) added
      /\ forall link, In link links -> link_stored c r link s1 = true.
Proof.
  intros now c r links. induction links as [| l rest IH]; intros s s1 H.
  - cbn in H. injection H as <-. exists []. rewrite app_nil_r.
    rewrite with_candidate_evidence_links_same. repeat split; [constructor | intros ? []].
  - cbn [CandidateStore.for_each] in H. unfold bind in H.
    unfold CandidateStore.insert_evidence_link at 1 in H.
    fold (link_stored c r l s) in H.
    destruct (link_stored c r l s) eqn:Hst.
    + destruct (IH _ _ H) as (added & -> & Hall & Hin).
      exists added. split; [reflexivity |]. split.
      * eapply Forall_impl; [| exact Hall].
        intros row (? & ? & ? & link & ? & ? & ?).
        split; [assumption |]. split; [assumption |]. split; [assumption |].
        exists link. split; [now right |]. split; assumption.
      * intros link [<- | Hl]; [| now apply Hin].
        unfold link_stored in *. cbn [candidate_evidence_links with_candidate_evidence_links].
        rewrite existsb_app, Hst. reflexivity.
    + destruct (negb (references_ok c r s)); [discriminate |].
      destruct (IH _ _ H) as (added & -> & Hall & Hin).
      cbn [candidate_evidence_links with_candidate_evidence_links] in *.
      unfold push in *. rewrite <- app_assoc in *. cbn [app] in *.
      eexists. split; [reflexivity |]. split.
      * constructor.
        { cbn. split; [reflexivity |]. split; [reflexivity |]. split; [reflexivity |].
          exists l. split; [now left |]. split; [reflexivity | exact Hst]. }
        eapply Forall_impl; [| exact Hall].
        intros row (? & ? & ? & link & ? & ? & Hls).
        split; [assumption |]. split; [assumption |]. split; [assumption |].
        exists link. split; [now right |]. split; [assumption |].
        unfold link_stored in *. cbn [candidate_evidence_links with_candidate_evidence_links] in Hls.
        rewrite existsb_app in Hls. now apply orb_false_iff in Hls.
      * intros link [<- | Hl]; [| now apply Hin].
        unfold link_stored. cbn [candidate_evidence_links with_candidate_evidence_links].
        rewrite existsb_app. apply orb_true_iff. right.
        cbn. now rewrite !String.eqb_refl.
Qed.

Lemma for_each_stored_links : forall now c r links s,
    (forall link, In link links -> link_stored c r link s = true) ->
    CandidateStore.for_each (CandidateStore.insert_evidence_link now c r) links s
    = (Ok tt, s).
Proof.
  intros now c r links s. induction links as [| l rest IH]; intros H; [reflexivity |].
  cbn [CandidateStore.for_each]. unfold bind.
  unfold CandidateStore.insert_evidence_link at 1.
  fold (link_stored c r l s). rewrite (H l (or_introl eq_refl)).
  apply IH. intros link Hl. apply H. now right.
Qed.

(** X19. [addEvidenceLinks] stores each URL once per candidate and run
    ([INSERT OR IGNORE]). After a successful call every given link is
    stored, the rows that were there before are untouched and come
    first, and each added row is a given link whose URL was not stored
    yet; storing the same links again, at any later time, changes
    nothing. *)
Theorem addEvidenceLinks_stores_each_url_once :
  forall (now now' : Z) (candidateId runId : string)
         (links : list CandidateEvidenceLink) (s s1 : Store),
    CandidateStore.addEvidenceLinks now candidateId runId links s = (Ok tt, s1) ->
    (forall link, In link links -> link_stored candidateId runId link s1 = true)
    /\ (exists added,
           s1 = with_candidate_evidence_links
                  (candidate_evidence_links s ++ added)%list s
           /\ Forall (fun row =>
                        evl_candidate_id row = candidateId /\ evl_run_id row = runId
                        /\ evl_created_at row = now
                        /\ exists link, In link links /\ evl_url row = ev_url link
                                        /\ link_stored candidateId runId link s = false)
                     added)
    /\ CandidateStore.addEvidenceLinks now' candidateId runId links s1 = (Ok tt, s1).
Proof.
  intros now now' c r links s s1 H.
  unfold CandidateStore.addEvidenceLinks in *.
  destruct (List.length links =? 0)%nat eqn:Hlen.
  - cbn in H. injection H as <-.
    apply Nat.eqb_eq, length_zero_iff_nil in Hlen. subst links.
    split; [intros ? [] |]. split; [| reflexivity].
    exists []. rewrite app_nil_r, with_candidate_evidence_links_same.
    split; [reflexivity | constructor].
  - unfold CandidateStore.transaction in *.
    destruct (CandidateStore.for_each _ links s) as [[[] | e] s2] eqn:Hfe; [| discriminate].
    injection H as <-.
    destruct (for_each_insert_evidence_link _ _ _ _ _ _ Hfe) as (added & Hs & Hall & Hin).
    split; [exact Hin |]. split; [exists added; split; assumption |].
    now rewrite (for_each_stored_links now' c r links s2 Hin).
Qed.

Lemma addEvidenceLinks_stores_each_url_once_witness :
  let links := [test_link "https://github.com/alice" None;
                test_link "https://huggingface.co/alice" (Some (1 # 2))] in
  let s1 := snd (CandidateStore.addEvidenceLinks 2000 "li:abc" "uuid-1" links
                   test_results_store) in
  List.length (candidate_evidence_links s1)
  = S (List.length (candidate_evidence_links test_results_store))
  /\ CandidateStore.addEvidenceLinks 3000 "li:abc" "uuid-1" links s1 = (Ok tt, s1).
Proof.
  intros links s1.
  assert (H : CandidateStore.addEvidenceLinks 2000 "li:abc" "uuid-1" links
                test_results_store = (Ok tt, s1)) by (vm_compute; reflexivity).
  split; [vm_compute; reflexivity |].
  exact (proj2 (proj2 (addEvidenceLinks_stores_each_url_once
                         2000 3000 "li:abc" "uuid-1" links test_results_store s1 H))).
Defined.

(** ** A candidate seen again *)

Lemma find_map_first : forall {A} (pred same : A -> bool) (upd : A -> A) (l : list A),
    (forall c, In c l -> same c = true -> pred (upd c) = true /\ same (upd c) = true) ->
    match find pred l with Some e => same e = true | None => True end ->
    existsb same l = true ->
    exists c', find pred (map (fun c => if same c then upd c else c) l) = Some c'
               /\ same c' = true.
Proof.
  intros A pred same upd l. induction l as [| a t IH]; cbn; intros Hupd Hfind Hex;
    [discriminate |].
  destruct (same a) eqn:Ea.
  - destruct (Hupd a (or_introl eq_refl) Ea) as [Hp Hs]. rewrite Hp. eauto.
  - destruct (pred a) eqn:Ep; [congruence |]. cbn in Hex. apply IH; auto.
Qed.

Lemma filter_others_map : forall {A} (same : A -> bool) (upd : A -> A) (l : list A),
    (forall c, same c = true -> same (upd c) = true) ->
    filter (fun c => negb (same c)) (map (fun c => if same c then upd c else c) l)
    = filter (fun c => negb (same c)) l.
Proof.
  intros A same upd l Hupd. induction l as [| a t IH]; cbn; [reflexivity |].
  destruct (same a) eqn:Ea.
  - rewrite (Hupd a Ea). exact IH.
  - rewrite Ea. cbn. now rewrite IH.
Qed.

Lemma filter_others_push : forall {A} (same : A -> bool) (l : list A) (row : A),
    same row = true ->
    filter (fun c => negb (same c)) (push l row) = filter (fun c => negb (same c)) l.
Proof.
  intros A same l row Hrow. unfold push. rewrite filter_app. cbn. rewrite Hrow. cbn.
  apply app_nil_r.
Qed.

Lemma map_update_keeps : forall {A B} (same : A -> bool) (upd : A -> A) (g : A -> B)
                                (l : list A),
    (forall c, g (upd c) = g c) ->
    map g (map (fun c => if same c then upd c else c) l) = map g l.
Proof.
  intros A B same upd g l Hg. induction l as [| a t IH]; cbn; [reflexivity |].
  rewrite IH. now destruct (same a); [rewrite Hg |].
Qed.

Lemma find_none_existsb_false : forall {A} (p : A -> bool) (l : list A),
    find p l = None -> existsb p l = false.
Proof.
  intros A p l. induction l as [| a t IH]; cbn; [reflexivity |].
  destruct (p a); [discriminate | exact IH].
Qed.

Lemma sql_eq_refl_some : forall v, v <> None -> sql_eq v v = true.
Proof. intros [x |] H; [apply String.eqb_refl | contradiction]. Qed.

Lemma sql_eq_param_some : forall column param, sql_eq column param = true -> param <> None.
Proof. intros [a |] [b |]; cbn; congruence. Qed.

Lemma upsert_candidate_row_ok : forall row s s1,
    CandidateStore.upsert_candidate_row row s = (Ok tt, s1) ->
    CandidateStore.candidate_unique_violation row
      (filter (fun c => negb (String.eqb (cand_id c) (cand_id row))) (candidates s)) = None
    /\ s1 = if candidate_exists (cand_id row) s
            then with_candidates
                   (map (fun c =>
                           if String.eqb (cand_id c) (cand_id row)
                           then {| cand_id := cand_id c;
                                   cand_provider := cand_provider c;
                                   cand_provider_id := cand_provider_id row;
                                   cand_public_identifier := cand_public_identifier row;
                                   cand_normalized_profile_url_hash :=
                                     cand_normalized_profile_url_hash row;
                                   cand_full_name := cand_full_name row;
                                   cand_headline := cand_headline row;
                                   cand_location := cand_location row;
                                   cand_current_company := cand_current_company row;
                                   cand_current_role := cand_current_role row;
                                   cand_first_seen_at := cand_first_seen_at c;
                                   cand_last_seen_at := cand_last_seen_at row |}
                           else c)
                        (candidates s)) s
            else with_candidates (push (candidates s) row) s.
Proof.
  intros row s s1 H. unfold CandidateStore.upsert_candidate_row in H.
  destruct (CandidateStore.candidate_unique_violation _ _); [discriminate |].
  split; [reflexivity |].
  destruct (candidate_exists (cand_id row) s); now injection H as <-.
Qed.

(** X20. A candidate that is upserted a second time is recognised. When the
    record carries a provider id, a public identifier or a profile URL
    that hashes, the second [upsertCandidate] of the same record returns
    the same candidate id and URL hash as the first, adds no row, keeps
    every [first_seen_at], sets [last_seen_at] of the candidate to the
    new time and leaves the rows of the other candidates alone. *)
Theorem upsertCandidate_seen_again :
  forall (now1 now2 : Z) (hashUrl : string -> string) (uuid1 uuid2 : string)
         (input : CandidateRecord) (s s1 : Store) (id : string) (h : option string),
    Forall (fun c => cand_provider c = "linkedin") (candidates s) ->
    (cr_providerId input <> None \/ cr_publicIdentifier input <> None \/ h <> None) ->
    CandidateStore.upsertCandidate now1 hashUrl uuid1 input s = (Ok (id, h), s1) ->
    exists s2,
      CandidateStore.upsertCandidate now2 hashUrl uuid2 input s1 = (Ok (id, h), s2)
      /\ candidate_exists id s2 = true
      /\ map cand_id (candidates s2) = map cand_id (candidates s1)
      /\ map cand_first_seen_at (candidates s2) = map cand_first_seen_at (candidates s1)
      /\ (forall c, In c (candidates s2) -> cand_id c = id -> cand_last_seen_at c = now2)
      /\ (forall c, cand_id c <> id -> In c (candidates s2) <-> In c (candidates s1)).
Proof.
  intros now1 now2 hashUrl uuid1 uuid2 input s s1 id h Hprov Hkey H.
  unfold CandidateStore.upsertCandidate in *.
  set (h0 := if truthy (CandidateStore.normalizeProfileUrl (cr_profileUrl input))
             then option_map hashUrl (CandidateStore.normalizeProfileUrl (cr_profileUrl input))
             else None) in *.
  unfold bind, query, ret in *. cbv beta iota in *.
  pose (pred := fun c : CandidateRow =>
                  (String.eqb (cand_provider c) "linkedin"
                   && sql_eq (cand_provider_id c) (cr_providerId input))
                  || (String.eqb (cand_provider c) "linkedin"
                      && sql_eq (cand_public_identifier c) (cr_publicIdentifier input))
                  || (String.eqb (cand_provider c) "linkedin"
                      && sql_eq (cand_normalized_profile_url_hash c) h0)).
  fold pred in H |- *.
  set (cid1 := match find pred (candidates s) with
               | Some c => cand_id c
               | None => CandidateStore.buildCandidateId uuid1 (cr_providerId input)
                           (cr_publicIdentifier input) h0
               end) in *.
  destruct (CandidateStore.upsert_candidate_row _ s) as [[[] | e] sx] eqn:Hup;
    [| discriminate].
  injection H as Hid Hh Hs. subst sx.
  apply upsert_candidate_row_ok in Hup. cbn [cand_id] in Hup.
  destruct Hup as [Hviol Hs1].
  pose (same := fun c : CandidateRow => String.eqb (cand_id c) cid1).
  assert (Hpred_new : forall c, cand_provider c = "linkedin" ->
                                cand_provider_id c = cr_providerId input ->
                                cand_public_identifier c = cr_publicIdentifier input ->
                                cand_normalized_profile_url_hash c = h0 ->
                                pred c = true).
  { intros c Hp H1 H2 H3. unfold pred. rewrite Hp, H1, H2, H3.
    change (String.eqb "linkedin" "linkedin") with true. cbn [andb].
    destruct Hkey as [Hk | [Hk | Hk]].
    - rewrite (sql_eq_refl_some _ Hk). reflexivity.
    - rewrite (sql_eq_refl_some _ Hk). apply orb_true_iff. left. apply orb_true_r.
    - rewrite <- Hh in Hk. rewrite (sql_eq_refl_some _ Hk). apply orb_true_r. }
  assert (K : exists c', find pred (candidates s1) = Some c' /\ same c' = true).
  { destruct (candidate_exists cid1 s) eqn:Hex; subst s1;
      cbn [candidates with_candidates].
    - apply (find_map_first pred same).
      + intros c Hin Hsame. split; [| exact Hsame].
        apply Hpred_new; try reflexivity. cbn [cand_provider].
        rewrite Forall_forall in Hprov. now apply Hprov.
      + destruct (find pred (candidates s)) as [e0 |] eqn:Hf; [| exact I].
        unfold same, cid1. apply String.eqb_refl.
      + exact Hex.
    - destruct (find pred (candidates s)) as [e0 |] eqn:Hf.
      + apply find_some in Hf. destruct Hf as [Hin _].
        unfold candidate_exists in Hex.
        assert (existsb (fun c => String.eqb (cand_id c) cid1) (candidates s) = true).
        { apply existsb_exists. exists e0. split; [exact Hin |]. unfold cid1.
          apply String.eqb_refl. }
        congruence.
      + eexists. split.
        * apply find_push_new; [now apply find_none_existsb_false |].
          now apply Hpred_new.
        * unfold same. cbn [cand_id]. apply String.eqb_refl. }
  destruct K as (c' & Hfind2 & Hsame2).
  rewrite Hfind2.
  assert (Hc' : cand_id c' = cid1) by (now apply String.eqb_eq).
  rewrite Hc'.
  assert (Hex1 : candidate_exists cid1 s1 = true).
  { unfold candidate_exists. apply existsb_exists. exists c'.
    apply find_some in Hfind2. split; [tauto | exact Hsame2]. }
  assert (Hothers : filter (fun c => negb (same c)) (candidates s1)
                    = filter (fun c => negb (same c)) (candidates s)).
  { destruct (candidate_exists cid1 s) eqn:Hex; subst s1; cbn [candidates with_candidates].
    - apply (filter_others_map same). intros c Hc. exact Hc.
    - apply filter_others_push. unfold same. cbn [cand_id]. apply String.eqb_refl. }
  unfold CandidateStore.upsert_candidate_row. cbn [cand_id].
  unfold same in Hothers. rewrite Hothers.
  unfold CandidateStore.candidate_unique_violation in *.
  cbn [cand_provider cand_provider_id cand_public_identifier
       cand_normalized_profile_url_hash] in *.
  rewrite Hviol. rewrite Hex1.
  eexists. split; [rewrite Hid, Hh; reflexivity |].
  cbn [candidates with_candidates cand_id cand_provider cand_provider_id
       cand_public_identifier cand_normalized_profile_url_hash cand_full_name
       cand_headline cand_location cand_current_company cand_current_role
       cand_first_seen_at cand_last_seen_at].
  rewrite <- Hid. clear Hs1 Hviol Hothers.
  split.
  { unfold candidate_exists in *. cbn [candidates with_candidates].
    destruct (find_map_update same
                (fun c => {| cand_id := cand_id c;
                             cand_provider := cand_provider c;
                             cand_provider_id := cr_providerId input;
                             cand_public_identifier := cr_publicIdentifier input;
                             cand_normalized_profile_url_hash := h0;
                             cand_full_name := cr_name input;
                             cand_headline := cr_headline input;
                             cand_location := cr_location input;
                             cand_current_company := cr_currentCompany input;
                             cand_current_role := cr_currentRole input;
                             cand_first_seen_at := cand_first_seen_at c;
                             cand_last_seen_at := now2 |})
                (candidates s1) (fun r Hr => Hr) Hex1) as (r0 & _ & Hf).
    exact (find_some_existsb _ _ _ Hf). }
  split; [now apply map_update_keeps |].
  split; [now apply map_update_keeps |].
  split.
  - intros c Hin Hc. apply in_map_iff in Hin. destruct Hin as (c0 & Hc0 & _).
    destruct (String.eqb (cand_id c0) cid1) eqn:E.
    + now subst c.
    + subst c. apply String.eqb_neq in E. contradiction.
  - intros c Hc. rewrite in_map_iff. split.
    + intros (c0 & Hc0 & Hin). destruct (String.eqb (cand_id c0) cid1) eqn:E.
      * subst c. cbn in Hc. apply String.eqb_eq in E. contradiction.
      * now subst c.
    + intros Hin. exists c. split; [| exact Hin].
      apply String.eqb_neq in Hc. now rewrite Hc.
Qed.

Lemma upsertCandidate_seen_again_witness :
  exists s2,
    CandidateStore.upsertCandidate 1200 (fun url => url) "uuid-z" test_candidate_record
      test_store_with_candidate
    = (Ok ("li:abc", Some "https://linkedin.com/in/alice"), s2)
    /\ map cand_id (candidates s2) = ["li:abc"]
    /\ map cand_first_seen_at (candidates s2) = [1100%Z].
Proof.
  assert (H : CandidateStore.upsertCandidate 1100 (fun url => url) "uuid-c"
                test_candidate_record test_store_after_first_run
              = (Ok ("li:abc", Some "https://linkedin.com/in/alice"),
                 test_store_with_candidate)) by (vm_compute; reflexivity).
  assert (Hprov : Forall (fun c => cand_provider c = "linkedin")
                         (candidates test_store_after_first_run))
    by (vm_compute; constructor).
  assert (Hkey : cr_providerId test_candidate_record <> None
                 \/ cr_publicIdentifier test_candidate_record <> None
                 \/ Some "https://linkedin.com/in/alice" <> None)
    by (left; discriminate).
  destruct (upsertCandidate_seen_again 1100 1200 (fun url => url) "uuid-c" "uuid-z"
              test_candidate_record test_store_after_first_run
              test_store_with_candidate "li:abc"
              (Some "https://linkedin.com/in/alice") Hprov Hkey H)
    as (s2 & H2 & _ & Hids & Hfirst & _).
  exists s2. split; [exact H2 |].
  rewrite Hids, Hfirst. split; vm_compute; reflexivity.
Defined.

(** ** At most one promotion per candidate and run *)

(** The store operations of [run] write none of the workflow tables: an
    invariant that reads only those tables is kept by each of them. *)
Ltac begin_run_leaves_table :=
  let now := fresh "now" in
  let uuid := fresh "uuid" in
  let params := fresh "params" in
  let existing := fresh "existing" in
  let Hins := fresh "Hins" in
  let id := fresh "id" in
  intros now uuid params; unfold CandidateStore.beginRun;
  apply inv_bind; [apply inv_query | intro existing];
  match goal with
  | |- invariant ?P _ =>
      assert (Hins : forall id, invariant P (CandidateStore.insert_run now id params))
        by (intro id; unfold CandidateStore.insert_run;
            apply inv_bind; [inv_statement CandidateStore.insert_pipeline_run | intro];
            apply inv_bind; [inv_statement CandidateStore.insert_run_role
                            | intro; apply inv_ret])
  end;
  destruct existing; [apply inv_if; [apply inv_ret | apply Hins] | apply Hins].

Ltac mark_run_leaves_table :=
  let H := fresh "H" in
  let Hk := fresh "Hk" in
  intros ? ? ? ? ? ? ? H Hk;
  unfold CandidateStore.mark_run, bind, exec in H; injection H as _ <-; exact Hk.

Ltac run_leaves_workflow_tables :=
  apply run_keeps_P;
  [ begin_run_leaves_table
  | mark_run_leaves_table
  | intros; inv_statement CandidateStore.recordFailure
  | intros; unfold CandidateStore.upsertCandidate; inv_compose;
    inv_statement CandidateStore.upsert_candidate_row
  | intros; inv_statement CandidateStore.addSourceRecord
  | intros; inv_statement CandidateStore.upsertIdentity
  | intros; unfold CandidateStore.addSignals;
    apply inv_if; [apply inv_ret |]; apply transaction_keeps; apply for_each_keeps;
    intro; inv_statement CandidateStore.insert_signal
  | intros; inv_statement CandidateStore.upsertScore
  | intros; unfold CandidateStore.addEvidenceLinks;
    apply inv_if; [apply inv_ret |]; apply transaction_keeps; apply for_each_keeps;
    intro; inv_statement CandidateStore.insert_evidence_link ].

Lemma promotions_of_nil_not_in : forall c r s,
    promotions_of c r s = [] ->
    ~ In (c, r) (map (fun p => (pr_candidate_id p, pr_run_id p)) (candidate_promotions s)).
Proof.
  intros c r s H Hin. apply in_map_iff in Hin. destruct Hin as (p & Hp & Hin).
  injection Hp as Hc Hr.
  assert (In p (promotions_of c r s)).
  { apply filter_In. split; [exact Hin |]. now rewrite Hc, Hr, !String.eqb_refl. }
  rewrite H in *. contradiction.
Qed.

Lemma getPromotion_none_inv : forall c r s,
    fst (CandidateStore.getPromotion c r s) = Ok None -> promotions_of c r s = [].
Proof.
  intros c r s H. destruct (promotions_of c r s) as [| p t] eqn:E; [reflexivity |].
  destruct (getPromotion_some c r s) as (p0 & Hp0); [rewrite E; discriminate |].
  rewrite Hp0 in H. discriminate.
Qed.

Lemma store_promote_once : forall now now' params s r s',
    CandidateStore.promoteCandidate now now' params s = (r, s') ->
    promoted_once s ->
    ~ In (pp_candidateId params, pp_runId params)
         (map (fun p => (pr_candidate_id p, pr_run_id p)) (candidate_promotions s)) ->
    promoted_once s'.
Proof.
  intros now now' params s r s' H Hk Hnew.
  assert (Hrv : forall p, invariant promoted_once (CandidateStore.upsertReviewStatus now' p))
    by (intro p; inv_statement CandidateStore.upsertReviewStatus).
  unfold CandidateStore.promoteCandidate, CandidateStore.insert_promotion in H.
  unfold bind at 1 in H.
  destruct (negb (references_ok _ _ s)); cbv beta iota in H;
    [injection H as _ <-; exact Hk |].
  apply (Hrv _ _ _ _ H).
  unfold promoted_once. cbn [candidate_promotions with_candidate_promotions].
  unfold push. rewrite map_app. apply NoDup_snoc; assumption.
Qed.

Lemma store_promote_adds : forall now now' params s s1,
    CandidateStore.promoteCandidate now now' params s = (Ok tt, s1) ->
    promotions_of (pp_candidateId params) (pp_runId params) s1 <> [].
Proof.
  intros now now' params s s1 H.
  unfold CandidateStore.promoteCandidate, CandidateStore.insert_promotion in H.
  unfold bind at 1 in H.
  destruct (negb (references_ok _ _ s)); cbv beta iota in H; [discriminate |].
  match type of H with
  | CandidateStore.upsertReviewStatus _ ?p ?st = _ =>
      assert (Hrv : invariant (fun x => candidate_promotions x = candidate_promotions st)
                              (CandidateStore.upsertReviewStatus now' p))
        by (inv_statement CandidateStore.upsertReviewStatus);
      pose proof (Hrv _ _ _ H eq_refl) as Hsame
  end.
  unfold promotions_of. rewrite Hsame.
  cbn [candidate_promotions with_candidate_promotions]. unfold push.
  rewrite filter_app. cbn. rewrite !String.eqb_refl. cbn.
  intro Habs. apply app_eq_nil in Habs. destruct Habs. discriminate.
Qed.

(** X21. The service promotes a candidate at most once per run, although
    [candidate_promotions] declares no uniqueness: starting from the
    empty store, [run], the review update, the verification and
    [promoteCandidate] all keep the promotions free of duplicate
    (candidate, run) pairs, and after a successful promotion every
    further attempt for the same pair, with whatever reason and links,
    returns [{success: false, error}] and leaves the store as it is. *)
Theorem service_promotes_at_most_once :
  promoted_once empty_store
  /\ (forall env recruiting input,
         invariant (on_db promoted_once)
                   (CandidatePipelineService.run env recruiting input))
  /\ (forall now params,
         invariant promoted_once (CandidatePipelineWorkflow.updateReviewStatus now params))
  /\ (forall now now' params,
         invariant promoted_once
                   (CandidatePipelineService.submitVerification now now' params))
  /\ (forall recruiting now now' params,
         invariant promoted_once
                   (CandidatePipelineService.promoteCandidate recruiting now now' params))
  /\ (forall recruiting recruiting2 now now' now2 now2' params params2 s s1,
         CandidatePipelineService.promoteCandidate recruiting now now' params s
         = (Ok {| success := true; error := None |}, s1) ->
         pc_candidateId params2 = pc_candidateId params ->
         pc_runId params2 = pc_runId params ->
         exists message,
           CandidatePipelineService.promoteCandidate recruiting2 now2 now2' params2 s1
           = (Ok {| success := false; error := Some message |}, s1)).
Proof.
  split; [constructor |].
  split; [intros; run_leaves_workflow_tables |].
  split.
  { intros. unfold CandidatePipelineWorkflow.updateReviewStatus.
    inv_statement CandidateStore.upsertReviewStatus. }
  split.
  { intros. unfold CandidatePipelineService.submitVerification.
    apply inv_bind; [apply inv_query | intro].
    apply inv_bind; [inv_statement CandidateStore.submitVerification | intro].
    destruct (sv_outcome params); try apply inv_ret;
      inv_statement CandidateStore.upsertReviewStatus. }
  split.
  { intros recruiting now now' params.
    unfold CandidatePipelineService.promoteCandidate. cbv zeta.
    apply inv_if; [apply inv_ret |].
    intros s r s' H Hk. unfold bind at 1 in H.
    destruct (promotions_of (pc_candidateId params) (pc_runId params) s) eqn:E.
    - rewrite (getPromotion_none _ _ _ E) in H. unfold bind, ret in H.
      match type of H with
      | context [CandidateStore.promoteCandidate ?n ?n' ?p ?st] =>
          destruct (CandidateStore.promoteCandidate n n' p st) as [[[] | e] sx] eqn:Hp
      end; injection H as _ <-;
        (eapply store_promote_once; [exact Hp | exact Hk |]);
        now apply promotions_of_nil_not_in.
    - destruct (getPromotion_some (pc_candidateId params) (pc_runId params) s)
        as (p0 & Hp0); [rewrite E; discriminate |].
      rewrite Hp0 in H. injection H as _ <-. exact Hk. }
  intros recruiting recruiting2 now now' now2 now2' params params2 s s1 H Hc Hr.
  unfold CandidatePipelineService.promoteCandidate in *. cbv zeta in *.
  destruct (_ <? _)%Z in H; [discriminate |].
  destruct (_ <? _)%Z; [eexists; reflexivity |].
  unfold bind at 1 in H.
  destruct (CandidateStore.getPromotion (pc_candidateId params) (pc_runId params) s)
    as [[existing | e] s0] eqn:Hget; [| discriminate].
  unfold CandidateStore.getPromotion, query in Hget. injection Hget as _ <-.
  destruct existing; [discriminate |].
  unfold bind, ret in H.
  match type of H with
  | context [CandidateStore.promoteCandidate ?n ?n' ?p ?st] =>
      destruct (CandidateStore.promoteCandidate n n' p st) as [[[] | e] sx] eqn:Hp
  end; [| discriminate].
  injection H as <-.
  apply store_promote_adds in Hp. cbn [pp_candidateId pp_runId] in Hp.
  rewrite <- Hc, <- Hr in Hp.
  destruct (getPromotion_some _ _ _ Hp) as (p & Hgot).
  unfold bind. rewrite Hgot. eexists. reflexivity.
Qed.

Lemma service_promotes_at_most_once_witness :
  let s1 := snd (CandidatePipelineService.promoteCandidate default_config 2000 2001
                   (test_promote_params "li:abc") test_store_with_candidate) in
  List.length (candidate_promotions s1) = 1%nat
  /\ exists message,
      CandidatePipelineService.promoteCandidate default_config 3000 3001
        (test_promote_params "li:abc") s1
      = (Ok {| success := false; error := Some message |}, s1).
Proof.
  intros s1.
  assert (H : CandidatePipelineService.promoteCandidate default_config 2000 2001
                (test_promote_params "li:abc") test_store_with_candidate
              = (Ok {| success := true; error := None |}, s1))
    by (vm_compute; reflexivity).
  split; [vm_compute; reflexivity |].
  exact (proj2 (proj2 (proj2 (proj2 (proj2 service_promotes_at_most_once))))
           default_config default_config 2000%Z 2001%Z 3000%Z 3001%Z
           (test_promote_params "li:abc") (test_promote_params "li:abc")
           test_store_with_candidate s1 H eq_refl eq_refl).
Defined.

(** ** The status of a run through its life *)

Lemma run_id_distinct : forall id other (r : PipelineRunRow),
    other <> id -> String.eqb (run_id r) id = true -> String.eqb (run_id r) other = false.
Proof.
  intros id other r Hne H. apply String.eqb_eq in H. apply String.eqb_neq. congruence.
Qed.

(** X22. A run that [beginRun] created is reported by [getRunStatus] as
    running, with the start time, target and role it was given, no end
    time and no diagnostics. [markRunCompleted] and [markRunFailed] (here
    [mark_run] with the status) then always succeed and change, for that
    run, exactly the status, the end time and the diagnostics. Neither
    step changes what [getRunStatus] reports for any other run id. *)
Theorem run_status_follows_lifecycle :
  forall (now : Z) (uuid : string) (params : BeginRunParams) (s s1 : Store) (id : string),
    CandidateStore.beginRun now uuid params s = (Ok {| runId := id; resumed := false |}, s1) ->
    CandidateStore.getRunStatus id s1
    = (Ok (Some {| status_runId := id;
                   status_status := running;
                   status_startedAt := now;
                   status_finishedAt := None;
                   status_targetCandidates := br_targetCandidates params;
                   status_roleKey := br_roleKey params;
                   status_roleTitle := br_roleTitle params;
                   status_diagnostics := None |}), s1)
    /\ (forall other, other <> id ->
                      fst (CandidateStore.getRunStatus other s1)
                      = fst (CandidateStore.getRunStatus other s))
    /\ (forall status finished summary,
           exists s2,
             CandidateStore.mark_run status finished id summary s1 = (Ok tt, s2)
             /\ CandidateStore.getRunStatus id s2
                = (Ok (Some {| status_runId := id;
                               status_status := status;
                               status_startedAt := now;
                               status_finishedAt := Some finished;
                               status_targetCandidates := br_targetCandidates params;
                               status_roleKey := br_roleKey params;
                               status_roleTitle := br_roleTitle params;
                               status_diagnostics := summary |}), s2)
             /\ (forall other, other <> id ->
                               fst (CandidateStore.getRunStatus other s2)
                               = fst (CandidateStore.getRunStatus other s1))).
Proof.
  intros now uuid params s s1 id H.
  destruct (beginRun_not_resumed _ _ _ _ _ _ H eq_refl) as [id0 Hins]. clear H.
  unfold CandidateStore.insert_run in Hins. unfold bind at 1 in Hins.
  unfold CandidateStore.insert_pipeline_run in Hins. cbn [run_id run_idempotency_key] in Hins.
  destruct (existsb (fun r => String.eqb (run_id r) id0) (pipeline_runs s)) eqn:Hfresh;
    [discriminate |].
  destruct (existsb _ (pipeline_runs s)) in Hins; [discriminate |].
  unfold bind at 1 in Hins. unfold CandidateStore.insert_run_role in Hins.
  destruct (existsb _ _) in Hins; [discriminate |].
  destruct (negb _) in Hins; [discriminate |].
  unfold ret in Hins. injection Hins as -> <-.
  set (row := {| run_id := id; run_idempotency_key := br_idempotencyKey params;
                 run_status := running; run_started_at := now; run_finished_at := None;
                 run_target_candidates := br_targetCandidates params;
                 run_role_key := br_roleKey params; run_role_title := br_roleTitle params;
                 run_config_json := br_config params; run_summary_json := None |}) in *.
  assert (Hfind : find (fun r => String.eqb (run_id r) id) (push (pipeline_runs s) row)
                  = Some row).
  { apply find_push_new; [exact Hfresh | apply String.eqb_refl]. }
  split.
  { unfold CandidateStore.getRunStatus, query.
    cbn [pipeline_runs with_run_roles with_pipeline_runs]. now rewrite Hfind. }
  split.
  { intros other Hne. unfold CandidateStore.getRunStatus, query.
    cbn [fst pipeline_runs with_run_roles with_pipeline_runs].
    rewrite find_push_other; [reflexivity |].
    apply String.eqb_neq. cbn. congruence. }
  intros status finished summary. eexists. split; [reflexivity |].
  cbn [pipeline_runs with_run_roles with_pipeline_runs run_roles].
  unfold CandidateStore.getRunStatus, query.
  cbn [fst pipeline_runs with_run_roles with_pipeline_runs run_roles].
  split.
  - destruct (find_map_update (fun r => String.eqb (run_id r) id)
                (CandidateStore.finish_run status finished summary)
                (push (pipeline_runs s) row) (fun r Hr => Hr)
                (find_some_existsb _ _ _ Hfind)) as (r0 & Hr0 & Hupd).
    rewrite Hfind in Hr0. injection Hr0 as <-. rewrite Hupd. reflexivity.
  - intros other Hne.
    rewrite (find_map_other (fun r => String.eqb (run_id r) id)
               (fun r => String.eqb (run_id r) other));
      [reflexivity | |]; intros r Hr; now apply (run_id_distinct id).
Qed.

Lemma run_status_follows_lifecycle_witness :
  fst (CandidateStore.getRunStatus "uuid-1" test_store_after_first_run)
  = Ok (Some {| status_runId := "uuid-1";
                status_status := running;
                status_startedAt := 1000;
                status_finishedAt := None;
                status_targetCandidates := 300;
                status_roleKey := "backend";
                status_roleTitle := "Backend Engineer";
                status_diagnostics := None |}).
Proof.
  assert (H : CandidateStore.beginRun 1000 "uuid-1" test_begin_params empty_store
              = (Ok {| runId := "uuid-1"; resumed := false |}, test_store_after_first_run))
    by (vm_compute; reflexivity).
  rewrite (proj1 (run_status_follows_lifecycle 1000 "uuid-1" test_begin_params
                    empty_store test_store_after_first_run "uuid-1" H)).
  reflexivity.
Defined.

(** ** The latest verification *)

Lemma hd_order_by_desc : forall {A} (key : A -> Z) (l : list A),
    match hd_error (order_by (fun a b => (key b <? key a)%Z) l) with
    | Some v => In v l /\ forall v', In v' l -> (key v' <= key v)%Z
    | None => l = []
    end.
Proof.
  intros A key l.
  destruct (order_by (fun a b => (key b <? key a)%Z) l) as [| v t] eqn:E; cbn.
  - now apply order_by_nil_iff in E.
  - assert (Hin : forall x, In x l <-> In x (v :: t))
      by (intro x; rewrite <- E; symmetry; apply order_by_In).
    split; [apply Hin; now left |].
    assert (Hs : Sorted (in_order (fun a b => (key b <? key a)%Z)) (v :: t)).
    { rewrite <- E. apply order_by_sorted. intros x y H.
      apply Z.ltb_lt in H. apply Z.ltb_ge. lia. }
    apply Sorted_strong in Hs.
    + apply StronglySorted_inv in Hs. destruct Hs as [_ Hall].
      rewrite Forall_forall in Hall.
      intros v' Hv'. apply Hin in Hv'. destruct Hv' as [<- | Hv']; [lia |].
      specialize (Hall _ Hv'). unfold in_order in Hall. apply Z.ltb_ge in Hall. exact Hall.
    + unfold in_order. intros x y z H1 H2.
      apply Z.ltb_ge in H1, H2. apply Z.ltb_ge. lia.
Qed.

Lemma submitVerification_appends : forall now now' params s s1,
    CandidatePipelineService.submitVerification now now' params s = (Ok tt, s1) ->
    exists before,
      candidate_verifications s1
      = push (candidate_verifications s)
             {| vf_candidate_id := sv_candidateId params;
                vf_run_id := sv_runId params;
                vf_method := browser;
                vf_outcome := sv_outcome params;
                vf_identity_confidence_before := before;
                vf_identity_confidence_after := sv_identityConfidenceAfter params;
                vf_proof_json := sv_proofLinks params;
                vf_notes := sv_notes params;
                vf_created_at := now |}.
Proof.
  intros now now' params s s1 H.
  unfold CandidatePipelineService.submitVerification in H.
  unfold bind at 1 in H. unfold CandidateStore.getCandidate at 1, query at 1 in H.
  cbv beta iota in H. unfold bind at 1 in H.
  unfold CandidateStore.submitVerification at 1 in H.
  cbn [vp_candidateId vp_runId vp_method vp_outcome vp_identityConfidenceBefore
       vp_identityConfidenceAfter vp_proofLinks vp_notes] in H.
  destruct (negb (references_ok _ _ s)); cbv beta iota in H; [discriminate |].
  eexists.
  assert (Hrv : forall p X, invariant (fun x => candidate_verifications x = X)
                                      (CandidateStore.upsertReviewStatus now' p))
    by (intros p X; inv_statement CandidateStore.upsertReviewStatus).
  destruct (sv_outcome params) eqn:Eo.
  - apply (Hrv _ _ _ _ _ H). reflexivity.
  - apply (Hrv _ _ _ _ _ H). reflexivity.
  - unfold ret in H. injection H as <-. reflexivity.
Qed.

(** X23. [getVerification] returns a verification of the (candidate, run)
    pair with the greatest [created_at], and [null] exactly when the
    pair has none. After [submitVerification] succeeds at a time later
    than the pair's earlier verifications, it returns the verification
    just submitted. *)
Theorem getVerification_returns_latest :
  forall (s : Store),
    (forall candidateId runId,
        snd (CandidateStoreQueries.getVerification candidateId runId s) = s
        /\ match fst (CandidateStoreQueries.getVerification candidateId runId s) with
           | Ok (Some v) =>
               In v (candidate_verifications s)
               /\ vf_candidate_id v = candidateId /\ vf_run_id v = runId
               /\ forall v', In v' (candidate_verifications s) ->
                             vf_candidate_id v' = candidateId -> vf_run_id v' = runId ->
                             (vf_created_at v' <= vf_created_at v)%Z
           | Ok None =>
               forall v', In v' (candidate_verifications s) ->
                          ~ (vf_candidate_id v' = candidateId /\ vf_run_id v' = runId)
           | Throw _ => False
           end)
    /\ (forall now now' params s1,
           CandidatePipelineService.submitVerification now now' params s = (Ok tt, s1) ->
           (forall v, In v (candidate_verifications s) ->
                      vf_candidate_id v = sv_candidateId params ->
                      vf_run_id v = sv_runId params ->
                      (vf_created_at v < now)%Z) ->
           exists v,
             fst (CandidateStoreQueries.getVerification
                    (sv_candidateId params) (sv_runId params) s1) = Ok (Some v)
             /\ vf_created_at v = now
             /\ vf_method v = browser
             /\ vf_outcome v = sv_outcome params
             /\ vf_identity_confidence_after v = sv_identityConfidenceAfter params
             /\ vf_proof_json v = sv_proofLinks params
             /\ vf_notes v = sv_notes params).
Proof.
  intro s.
  assert (Hget : forall c r st,
             match fst (CandidateStoreQueries.getVerification c r st) with
             | Ok (Some v) =>
                 In v (candidate_verifications st)
                 /\ vf_candidate_id v = c /\ vf_run_id v = r
                 /\ forall v', In v' (candidate_verifications st) ->
                               vf_candidate_id v' = c -> vf_run_id v' = r ->
                               (vf_created_at v' <= vf_created_at v)%Z
             | Ok None =>
                 forall v', In v' (candidate_verifications st) ->
                            ~ (vf_candidate_id v' = c /\ vf_run_id v' = r)
             | Throw _ => False
             end).
  { intros c r st. unfold CandidateStoreQueries.getVerification, query. cbn [fst].
    pose proof (hd_order_by_desc vf_created_at
                  (filter (fun x => String.eqb (vf_candidate_id x) c
                                    && String.eqb (vf_run_id x) r)
                          (candidate_verifications st))) as Hhd.
    destruct (hd_error _) as [v |].
    - destruct Hhd as [Hin Hmax]. apply filter_In in Hin. destruct Hin as [Hin Hkey].
      apply andb_true_iff in Hkey. destruct Hkey as [Hc Hr].
      apply String.eqb_eq in Hc, Hr.
      repeat split; try assumption.
      intros v' Hin' Hc' Hr'. apply Hmax. apply filter_In. split; [exact Hin' |].
      now rewrite Hc', Hr', !String.eqb_refl.
    - intros v' Hin' [Hc' Hr'].
      assert (In v' (filter (fun x => String.eqb (vf_candidate_id x) c
                                      && String.eqb (vf_run_id x) r)
                            (candidate_verifications st))).
      { apply filter_In. split; [exact Hin' |]. now rewrite Hc', Hr', !String.eqb_refl. }
      rewrite Hhd in *. contradiction. }
  split; [intros c r; split; [reflexivity | apply Hget] |].
  intros now now' params s1 H Hlater.
  destruct (submitVerification_appends _ _ _ _ _ H) as (before & Hrows).
  specialize (Hget (sv_candidateId params) (sv_runId params) s1).
  destruct (fst (CandidateStoreQueries.getVerification _ _ s1)) as [[v |] | e];
    [| | contradiction].
  - destruct Hget as (Hin & Hc & Hr & Hmax).
    rewrite Hrows in Hin, Hmax. unfold push in Hin, Hmax.
    apply in_app_or in Hin. destruct Hin as [Hold | [<- | []]].
    + specialize (Hlater _ Hold Hc Hr).
      match type of Hmax with
      | forall v', In v' (_ ++ [?new]) -> _ =>
          assert (Hnew : (vf_created_at new <= vf_created_at v)%Z)
            by (apply Hmax; [apply in_or_app; right; now left | reflexivity | reflexivity])
      end.
      cbn [vf_created_at] in Hnew. lia.
    + eexists. split; [reflexivity |]. cbn. repeat split.
  - exfalso. rewrite Hrows in Hget. unfold push in Hget.
    match type of Hget with
    | forall v', In v' (_ ++ [?new]) -> _ =>
        apply (Hget new); [apply in_or_app; right; now left | split; reflexivity]
    end.
Qed.

Lemma getVerification_returns_latest_witness :
  let s1 := snd (CandidatePipelineService.submitVerification 2000 2001
                   (test_verification "li:abc" outcome_inconclusive)
                   test_store_with_candidate) in
  exists v,
    fst (CandidateStoreQueries.getVerification "li:abc" "uuid-1" s1) = Ok (Some v)
    /\ vf_created_at v = 2000%Z
    /\ vf_outcome v = outcome_inconclusive.
Proof.
  intros s1.
  assert (H : CandidatePipelineService.submitVerification 2000 2001
                (test_verification "li:abc" outcome_inconclusive)
                test_store_with_candidate = (Ok tt, s1)) by (vm_compute; reflexivity).
  assert (Hlater : forall v, In v (candidate_verifications test_store_with_candidate) ->
                             vf_candidate_id v = "li:abc" -> vf_run_id v = "uuid-1" ->
                             (vf_created_at v < 2000)%Z)
    by (intros v []).
  destruct (proj2 (getVerification_returns_latest test_store_with_candidate)
              2000%Z 2001%Z (test_verification "li:abc" outcome_inconclusive) s1 H Hlater)
    as (v & Hv & Hat & _ & Hout & _).
  exists v. repeat split; assumption.
Defined.

(** ** The books of a run: every candidate is accounted for *)

Lemma books_bind : forall {A B} (L : Ledger -> Prop) (m : Run A) (k : A -> Run B)
                          (Q : A -> Ledger -> Prop) (Q' : B -> Ledger -> Prop)
                          (R : Ledger -> Prop),
    books L m Q R -> (forall a, books (Q a) (k a) Q' R) -> books L (bind m k) Q' R.
Proof.
  intros A B L m k Q Q' R Hm Hk st r st' H HL. unfold bind in H.
  destruct (m st) as [[a | e] st1] eqn:E.
  - exact (Hk a st1 r st' H (Hm st (Ok a) st1 E HL)).
  - injection H as <- <-. exact (Hm st (Throw e) st1 E HL).
Qed.

Lemma books_ret : forall {A} (L : Ledger -> Prop) (a : A) (Q : A -> Ledger -> Prop)
                         (R : Ledger -> Prop),
    (forall l, L l -> Q a l) -> books L (ret a) Q R.
Proof.
  intros A L a Q R HQ st r st' H HL. unfold ret in H. injection H as <- <-. now apply HQ.
Qed.

Lemma books_if : forall {A} (L : Ledger -> Prop) (c : bool) (m1 m2 : Run A)
                        (Q : A -> Ledger -> Prop) (R : Ledger -> Prop),
    books L m1 Q R -> books L m2 Q R -> books L (if c then m1 else m2) Q R.
Proof. intros A L [] m1 m2 Q R H1 H2; assumption. Qed.

Lemma books_quiet : forall {A} (L : Ledger -> Prop) (m : Run A) (R : Ledger -> Prop),
    quiet m -> (forall l, L l -> R l) -> books L m (fun _ => L) R.
Proof.
  intros A L m R Hq HR st r st' H HL. rewrite (Hq _ _ _ H).
  destruct r; [exact HL | now apply HR].
Qed.

Lemma books_counts : forall (L : Ledger -> Prop) f (Q : unit -> Ledger -> Prop)
                            (R : Ledger -> Prop),
    (forall l, L l -> Q tt (ledger_counts f l)) -> books L (update_counts f) Q R.
Proof.
  intros L f Q R HQ st r st' H HL. unfold update_counts, exec in H.
  injection H as <- <-. exact (HQ _ HL).
Qed.

Lemma quiet_ret : forall {A} (a : A), quiet (ret a).
Proof. intros A a st r st' H. unfold ret in H. now injection H as _ <-. Qed.

Lemma quiet_throw : forall {A} e, quiet (@throw RunState A e).
Proof. intros A e st r st' H. unfold throw in H. now injection H as _ <-. Qed.

Lemma quiet_read : forall {A} (f : nat -> A), quiet (read f).
Proof. intros A f st r st' H. unfold read in H. now injection H as _ <-. Qed.

Lemma quiet_call : forall {A} (f : nat -> Result A), quiet (call f).
Proof. intros A f st r st' H. unfold call in H. now injection H as _ <-. Qed.

Lemma quiet_if : forall {A} (c : bool) (m1 m2 : Run A),
    quiet m1 -> quiet m2 -> quiet (if c then m1 else m2).
Proof. intros A [] m1 m2 H1 H2; assumption. Qed.

Lemma quiet_bind : forall {A B} (m : Run A) (k : A -> Run B),
    quiet m -> (forall a, quiet (k a)) -> quiet (bind m k).
Proof.
  intros A B m k Hm Hk st r st' H. unfold bind in H.
  destruct (m st) as [[a | e] st1] eqn:E.
  - rewrite (Hk _ _ _ _ H). exact (Hm _ _ _ E).
  - injection H as _ <-. exact (Hm _ _ _ E).
Qed.

Lemma quiet_try_catch : forall {A} (body : Run A) (handler : Thrown -> Run A),
    quiet body -> (forall e, quiet (handler e)) -> quiet (try_catch body handler).
Proof.
  intros A body handler Hb Hh st r st' H. unfold try_catch in H.
  destruct (body st) as [[a | e] st1] eqn:E.
  - injection H as _ <-. exact (Hb _ _ _ E).
  - rewrite (Hh _ _ _ _ H). exact (Hb _ _ _ E).
Qed.

Lemma quiet_retry_loop :
  forall {A} retryable (task : Run A) maxAttempts remaining attempt,
    quiet task -> quiet (retry_loop retryable task maxAttempts attempt remaining).
Proof.
  intros A retryable task maxAttempts remaining.
  induction remaining as [| n IH]; intros attempt Ht; cbn [retry_loop].
  - apply quiet_throw.
  - apply quiet_try_catch; [exact Ht |]. intro e.
    apply quiet_if; [apply quiet_throw |].
    apply quiet_bind; [apply quiet_ret | intro; now apply IH].
Qed.

Lemma quiet_withRetry : forall {A} env provider (task : Run A),
    quiet task -> quiet (withRetry env provider task).
Proof. intros. unfold withRetry. now apply quiet_retry_loop. Qed.

(** A store operation that leaves [run_failures] alone is quiet. *)
Lemma quiet_store_op : forall {A} env (op : Z -> string -> DB A),
    (forall now uuid F, invariant (fun s => run_failures s = F) (op now uuid)) ->
    quiet (store_op env op).
Proof.
  intros A env op Hop st r st' H. unfold store_op in H.
  destruct (op (Date_now env (tick st)) (randomUUID env (tick st)) (db st))
    as [r0 s1] eqn:E.
  injection H as _ <-. unfold ledger. cbn [db counts stageErrors with_db next_tick].
  now rewrite (Hop _ _ _ _ _ _ E eq_refl).
Qed.

Lemma quiet_liftDB_query : forall {A} (f : Store -> A), quiet (liftDB (query f)).
Proof.
  intros A f st r st' H. unfold liftDB, query in H. injection H as _ <-.
  unfold ledger. cbn. now destruct st.
Qed.

Ltac quiet_statement :=
  first
    [ apply quiet_ret
    | apply quiet_read
    | apply quiet_withRetry; apply quiet_call
    | apply quiet_store_op; intros ? ? ?;
      first
        [ unfold CandidateStore.upsertCandidate; inv_compose;
          inv_statement CandidateStore.upsert_candidate_row
        | inv_statement CandidateStore.addSourceRecord
        | inv_statement CandidateStore.upsertIdentity
        | inv_statement CandidateStore.upsertScore
        | unfold CandidateStore.addSignals;
          apply inv_if; [apply inv_ret |]; apply transaction_keeps; apply for_each_keeps;
          intro; inv_statement CandidateStore.insert_signal
        | unfold CandidateStore.addEvidenceLinks;
          apply inv_if; [apply inv_ret |]; apply transaction_keeps; apply for_each_keeps;
          intro; inv_statement CandidateStore.insert_evidence_link ]
    | apply quiet_if; quiet_statement ].

Ltac books_arith :=
  unfold ledger_tried, ledger_advance, counts_advance, ledger_counts, identified,
    incr_enriched, incr_enrichFailed, incr_externalDiscovered,
    incr_identityConfirmedHigh, incr_identityMediumLow, incr_shortlistEligible in *;
  cbn [led_counts led_errors led_failures sourced enriched enrichFailed
       externalDiscovered identityConfirmedHigh identityMediumLow
       count_shortlistEligible] in *;
  intuition (subst; cbn [led_counts led_errors led_failures sourced enriched enrichFailed
                         externalDiscovered identityConfirmedHigh identityMediumLow
                         count_shortlistEligible] in *; try lia).

(** The [try] of one candidate. If it returns, the candidate is counted
    as enriched and identified; if it throws, nothing but the identity
    and external counters has moved. *)
Lemma enrichAndScore_books :
  forall env recruiting id opts mode bv index candidate l0,
    books (fun l => l = l0)
          (CandidatePipelineService.enrichAndScore env recruiting id opts mode bv
             index candidate)
          (fun _ l => ledger_advance 1 l0 l
                      /\ enrichFailed (led_counts l) = enrichFailed (led_counts l0))
          (ledger_tried l0).
Proof.
  intros. unfold CandidatePipelineService.enrichAndScore. cbv zeta.
  (* the requests: nothing is counted *)
  do 10 (eapply books_bind;
         [apply books_quiet; [quiet_statement | intros l ->; books_arith] | intro]).
  (* externalDiscovered *)
  eapply (books_bind _ _ _
            (fun _ l => l = l0 \/ l = ledger_counts incr_externalDiscovered l0));
    [apply books_if; [apply books_counts | apply books_ret]; intros l ->; auto | intro].
  (* identityConfirmedHigh or identityMediumLow *)
  eapply (books_bind _ _ _
            (fun _ l => ledger_tried l0 l
                        /\ identified (led_counts l) = S (identified (led_counts l0))));
    [apply books_if; apply books_counts; intros l [-> | ->]; books_arith | intro].
  (* the writes *)
  do 6 (eapply books_bind;
        [apply books_quiet; [quiet_statement | intros l Hl; apply Hl] | intro]).
  (* shortlistEligible, enriched *)
  eapply (books_bind _ _ _
            (fun _ l => exists l1,
                 (ledger_tried l0 l1
                  /\ identified (led_counts l1) = S (identified (led_counts l0)))
                 /\ (l = l1 \/ l = ledger_counts incr_shortlistEligible l1)));
    [apply books_if; [apply books_counts | apply books_ret]; intros l Hl; exists l; auto
    | intro].
  apply books_counts. intros l (l1 & Hl1 & [-> | ->]); books_arith.
Qed.

Lemma ledger_advance_refl : forall l, ledger_advance 0 l l.
Proof. intro l. books_arith. Qed.

Lemma ledger_advance_trans : forall n m l0 l1 l2,
    ledger_advance n l0 l1 -> ledger_advance m l1 l2 -> ledger_advance (n + m) l0 l2.
Proof. intros n m l0 l1 l2 H1 H2. books_arith. Qed.

(** One turn of the candidate loop on a store that holds the run: it
    returns, whatever the candidate's requests and writes did, and the
    candidate is counted once, as enriched or as failed; a failed one
    adds one aggregated error and one [run_failures] row. *)
Lemma processCandidate_books :
  forall env recruiting id opts mode bv index candidate st,
    run_exists id (db st) = true ->
    exists st',
      CandidatePipelineService.processCandidate env recruiting id opts mode bv
        index candidate st = (Ok tt, st')
      /\ run_exists id (db st') = true
      /\ ledger_advance 1 (ledger st) (ledger st').
Proof.
  intros env recruiting id opts mode bv index candidate st Hex.
  unfold CandidatePipelineService.processCandidate, try_catch.
  destruct (CandidatePipelineService.enrichAndScore env recruiting id opts mode bv
              index candidate st) as [[[] | e] st1] eqn:Hbody.
  - exists st1. split; [reflexivity |]. split.
    + exact (enrichAndScore_keeps id _ _ _ _ _ _ _ _ _ _ _ Hbody Hex).
    + exact (proj1 (enrichAndScore_books _ _ _ _ _ _ _ _ _ _ _ _ Hbody eq_refl)).
  - pose proof (enrichAndScore_keeps id _ _ _ _ _ _ _ _ _ _ _ Hbody Hex) as Hex1.
    pose proof (enrichAndScore_books _ _ _ _ _ _ _ _ _ _ _ _ Hbody eq_refl) as Htried.
    cbv beta iota in Htried. unfold on_db, run_kept in Hex1.
    unfold CandidatePipelineService.persistFailure, CandidateStore.recordFailure,
      update_counts, update_stageErrors, store_op, bind, exec.
    cbn [db tick counts stageErrors with_db next_tick fp_runId].
    rewrite Hex1. cbn [negb].
    eexists. split; [reflexivity |].
    cbn [db tick counts stageErrors with_db next_tick].
    split; [exact Hex1 |].
    unfold ledger in *.
    cbn [db tick counts stageErrors with_db next_tick run_failures with_run_failures].
    rewrite errors_total_upsert.
    unfold push. rewrite length_app. cbn [List.length].
    books_arith.
Qed.

Lemma candidateLoop_books :
  forall env recruiting id opts mode bv candidates index st,
    run_exists id (db st) = true ->
    exists st',
      CandidatePipelineService.candidateLoop env recruiting id opts mode bv
        index candidates st = (Ok tt, st')
      /\ run_exists id (db st') = true
      /\ ledger_advance (List.length candidates) (ledger st) (ledger st').
Proof.
  intros env recruiting id opts mode bv candidates.
  induction candidates as [| c rest IH]; intros index st Hex.
  - exists st. split; [reflexivity |]. split; [exact Hex | apply ledger_advance_refl].
  - cbn [CandidatePipelineService.candidateLoop List.length]. unfold bind.
    destruct (processCandidate_books env recruiting id opts mode bv index c st Hex)
      as (st1 & -> & Hex1 & Hadv1).
    destruct (IH (S index) st1 Hex1) as (st2 & -> & Hex2 & Hadv2).
    exists st2. split; [reflexivity |]. split; [exact Hex2 |].
    exact (ledger_advance_trans 1 _ _ _ _ Hadv1 Hadv2).
Qed.
Lemma runBody_books : forall env recruiting ctx id st,
    run_exists id (db st) = true ->
    match CandidatePipelineService.runBody env recruiting ctx id st with
    | (Ok out, st') =>
        exists n status diagnostics,
          out = {| out_runId := id; out_resumed := false; out_status := Some status |}
          /\ status_status status = completed
          /\ status_diagnostics status = Some diagnostics
          /\ diag_failure diagnostics = None
          /\ diag_counts diagnostics = counts st'
          /\ diag_errorsByStage diagnostics = buildStageErrors (stageErrors st')
          /\ ledger_advance n (ledger_counts (set_sourced n) (ledger st)) (ledger st')
    | (Throw _, st') => ledger st' = ledger st
    end.
Proof.
  intros env recruiting ctx id st Hex.
  unfold CandidatePipelineService.runBody.
  unfold bind at 1.
  destruct (negb (acc_enabled (ctx_account ctx))); cbn [throw ret]; [reflexivity |].
  unfold bind at 1.
  destruct (buildClientOptions env (ctx_account ctx)) as [opts |]; cbn [throw ret];
    [| reflexivity].
  unfold bind at 1.
  match goal with
  | |- context [withRetry env unipile ?task st] =>
      destruct (withRetry env unipile task st) as [[found | e] st1] eqn:Hsearch;
      pose proof (quiet_withRetry env unipile task (quiet_call _) _ _ _ Hsearch) as Hq1;
      pose proof (withRetry_keeps (run_kept id) env unipile task (call_keeps _ _)
                    _ _ _ Hsearch Hex) as Hex1
  end; [| exact Hq1].
  unfold on_db, run_kept in Hex1.
  unfold bind at 1.
  destruct (negb (sr_success found)); cbn [throw ret]; [exact Hq1 |].
  unfold bind at 1. unfold update_counts at 1, exec at 1.
  set (st2 := {| db := db st1; tick := tick st1;
                 counts := set_sourced (List.length (sr_candidates found)) (counts st1);
                 stageErrors := stageErrors st1 |}).
  unfold bind at 1.
  destruct (candidateLoop_books env recruiting id opts (ctx_evidenceQueryMode ctx)
              (ctx_browserVerificationEnabled ctx) (sr_candidates found) 0 st2 Hex1)
    as (st3 & -> & Hex3 & Hadv).
  cbv beta iota zeta delta
      [bind CandidatePipelineService.buildDiagnostics query store_op liftDB
       CandidateStore.markRunCompleted CandidateStore.mark_run exec
       CandidateStore.getRunStatus ret].
  cbn [db tick counts stageErrors with_db next_tick pipeline_runs
       with_pipeline_runs with_run_roles].
  match goal with
  | |- context [CandidateStore.finish_run completed ?now ?summary] =>
      destruct (find_run_after_mark completed now id summary (pipeline_runs (db st3)) Hex3)
        as [r0 Hfind]
  end.
  rewrite Hfind. cbn [option_map].
  exists (List.length (sr_candidates found)). eexists. eexists.
  split; [reflexivity |]. cbn.
  repeat (split; [reflexivity |]).
  unfold ledger in *. subst st2.
  cbn [db tick counts stageErrors with_db next_tick run_failures
       with_pipeline_runs with_run_roles] in *.
  injection Hq1 as Hc He Hf. unfold ledger_counts. cbn [led_counts led_errors led_failures].
  rewrite <- Hc, <- He, <- Hf. exact Hadv.
Qed.

(** The [catch] of [run] on a store that holds the run: one more
    [run_failures] row, the run marked failed, and the counters as they
    stood in the diagnostics. *)
Lemma runFailed_books : forall env ctx id err st,
    run_exists id (db st) = true ->
    exists out st' status diagnostics,
      CandidatePipelineService.runFailed env ctx id err st = (Ok out, st')
      /\ out = {| out_runId := id; out_resumed := false; out_status := Some status |}
      /\ status_status status = failed
      /\ status_diagnostics status = Some diagnostics
      /\ diag_failure diagnostics = Some (CandidatePipelineService.failureDescriptor env err)
      /\ diag_counts diagnostics = counts st
      /\ List.length (run_failures (db st')) = S (List.length (run_failures (db st))).
Proof.
  intros env ctx id err st Hex.
  cbv beta iota zeta delta
      [CandidatePipelineService.runFailed CandidatePipelineService.persistFailure
       CandidatePipelineService.buildDiagnostics CandidateStore.markRunFailed
       CandidateStore.mark_run CandidateStore.recordFailure CandidateStore.getRunStatus
       update_stageErrors store_op liftDB bind exec query ret].
  cbn [db tick counts stageErrors with_db next_tick fp_runId].
  rewrite Hex. cbn [negb].
  cbn [db tick counts stageErrors with_db next_tick pipeline_runs run_failures
       with_run_failures with_pipeline_runs with_run_roles].
  match goal with
  | |- context [CandidateStore.finish_run failed ?now ?summary] =>
      destruct (find_run_after_mark failed now id summary (pipeline_runs (db st)) Hex)
        as [r0 Hfind]
  end.
  rewrite Hfind. cbn [option_map].
  eexists. eexists. eexists. eexists.
  split; [reflexivity |]. split; [reflexivity |]. cbn.
  repeat (split; [reflexivity |]).
  unfold push. rewrite length_app. cbn. lia.
Qed.

Lemma begin_quiet : forall env recruiting input,
    quiet (CandidatePipelineService.begin env recruiting input).
Proof.
  intros env recruiting input. unfold CandidatePipelineService.begin.
  apply quiet_bind; [apply quiet_read | intro date].
  apply quiet_store_op. intros now uuid F.
  generalize (CandidatePipelineService.beginRunParams recruiting input date).
  revert now uuid. begin_run_leaves_table.
Qed.

(** X24. Every candidate the search returned is accounted for. A run that was
    not resumed always ends with diagnostics. If they carry no failure,
    the run is completed and, of the [sourced] candidates, each was
    counted once as [enriched] or as [enrichFailed]; the shortlisted are
    among the enriched, the enriched among those whose identity was
    counted, and those with external evidence among those too; each
    failed candidate left one [run_failures] row and one aggregated
    error. If they carry a failure, the run is failed, all counters are
    0 and exactly one [run_failures] row was written: after the search has
    returned, no candidate can fail the run. *)
Theorem run_accounts_for_every_candidate :
  forall (env : Collaborators) (recruiting : RecruitingConfig)
         (input : CandidatePipelineRunInput) (s : Store) (out : RunOutput)
         (st2 : RunState),
    CandidatePipelineService.run env recruiting input (start s) = (Ok out, st2) ->
    out_resumed out = false ->
    exists status diagnostics,
      out_status out = Some status
      /\ status_diagnostics status = Some diagnostics
      /\ (let c := diag_counts diagnostics in
          enriched c + enrichFailed c = sourced c
          /\ count_shortlistEligible c <= enriched c
          /\ enriched c <= identityConfirmedHigh c + identityMediumLow c
          /\ identityConfirmedHigh c + identityMediumLow c <= sourced c
          /\ externalDiscovered c <= identityConfirmedHigh c + identityMediumLow c)%nat
      /\ match diag_failure diagnostics with
         | None =>
             status_status status = completed
             /\ List.length (run_failures (db st2))
                = (List.length (run_failures s) + enrichFailed (diag_counts diagnostics))%nat
             /\ exists map,
                 diag_errorsByStage diagnostics = buildStageErrors map
                 /\ errors_total map = enrichFailed (diag_counts diagnostics)
         | Some _ =>
             status_status status = failed
             /\ diag_counts diagnostics = emptyCounts
             /\ List.length (run_failures (db st2)) = S (List.length (run_failures s))
         end.
Proof.
  intros env recruiting input s out st2 H Hres.
  unfold CandidatePipelineService.run in H. unfold bind at 1 in H.
  destruct (CandidatePipelineService.begin env recruiting input (start s))
    as [[info | e] st1] eqn:Hbegin; [| discriminate].
  pose proof (begin_quiet _ _ _ _ _ _ Hbegin) as Hq.
  destruct (resumed info) eqn:Hinfo.
  { unfold bind, liftDB, CandidateStore.getRunStatus, query, ret in H.
    injection H as <- _. discriminate Hres. }
  pose proof (begin_created_run_exists _ _ _ _ _ _ Hbegin Hinfo) as Hex.
  cbv zeta in H. unfold try_catch in H.
  pose proof (runBody_books env recruiting
                (CandidatePipelineService.runContext env recruiting input)
                (runId info) st1 Hex) as Hbody.
  destruct (CandidatePipelineService.runBody env recruiting
              (CandidatePipelineService.runContext env recruiting input)
              (runId info) st1) as [[done | err] stb] eqn:Erun.
  - injection H as <- <-.
    destruct Hbody as (n & status & diagnostics & -> & Hst & Hd & Hf & Hc & He & Hadv).
    exists status, diagnostics. cbn [out_status].
    split; [reflexivity |]. split; [exact Hd |].
    rewrite Hf, Hc. rewrite Hq in Hadv. unfold ledger, start in Hadv.
    cbn [db counts stageErrors] in Hadv.
    change (errors_total []) with 0%nat in Hadv.
    unfold emptyCounts, set_sourced in Hadv.
    split; [cbv zeta; books_arith |].
    split; [exact Hst |].
    split; [books_arith |].
    exists (stageErrors stb). split; [exact He | books_arith].
  - assert (Hexb : run_exists (runId info) (db stb) = true).
    { eapply (runBody_keeps (runId info)); [exact Erun | exact Hex]. }
    destruct (runFailed_books env (CandidatePipelineService.runContext env recruiting input)
                (runId info) err stb Hexb)
      as (out' & st' & status & diagnostics & Hrun & -> & Hst & Hd & Hf & Hc & Hlen).
    rewrite Hrun in H. injection H as <- <-.
    exists status, diagnostics. cbn [out_status].
    split; [reflexivity |]. split; [exact Hd |].
    rewrite Hf, Hc. rewrite Hq in Hbody. unfold ledger, start in Hbody.
    cbn [db counts stageErrors] in Hbody. injection Hbody as Hcb _ Hfb.
    rewrite Hcb. split; [cbn; lia |].
    split; [exact Hst |]. split; [reflexivity |].
    rewrite Hlen, Hfb. reflexivity.
Qed.

Lemma run_accounts_for_every_candidate_witness :
  exists out st2 status diagnostics,
    CandidatePipelineService.run scripted_env default_config (test_input None None None)
      (start empty_store) = (Ok out, st2)
    /\ out_status out = Some status
    /\ status_diagnostics status = Some diagnostics
    /\ (enriched (diag_counts diagnostics) + enrichFailed (diag_counts diagnostics)
        = sourced (diag_counts diagnostics))%nat
    /\ sourced (diag_counts diagnostics) = 2%nat.
Proof.
  pose (result := CandidatePipelineService.run scripted_env default_config
                    (test_input None None None) (start empty_store)).
  pose (out := match fst result with
               | Ok o => o
               | Throw _ => {| out_runId := ""; out_resumed := true; out_status := None |}
               end).
  assert (H : CandidatePipelineService.run scripted_env default_config
                (test_input None None None) (start empty_store) = (Ok out, snd result))
    by (vm_compute; reflexivity).
  assert (Hres : out_resumed out = false) by (vm_compute; reflexivity).
  destruct (run_accounts_for_every_candidate scripted_env default_config
              (test_input None None None) empty_store out (snd result) H Hres)
    as (status & diagnostics & Hs & Hd & Hcounts & _).
  exists out, (snd result), status, diagnostics.
  split; [exact H |]. split; [exact Hs |]. split; [exact Hd |].
  split; [exact (proj1 Hcounts) |].
  vm_compute in Hs. injection Hs as <-. vm_compute in Hd. injection Hd as <-.
  reflexivity.
Defined.

(** ** external.ts: the evidence and the signals of the external footprint *)

Lemma dedupe_spec : forall links seenUrls,
    NoDup (map ev_url (External.dedupe seenUrls links))
    /\ (forall link, In link (External.dedupe seenUrls links) ->
                     In link links /\ ev_url link <> "" /\ ~ In (ev_url link) seenUrls)
    /\ (forall link, In link links -> ev_url link <> "" ->
                     In (ev_url link) seenUrls
                     \/ In (ev_url link) (map ev_url (External.dedupe seenUrls links)))
    /\ (List.length (External.dedupe seenUrls links) <= List.length links)%nat.
Proof.
  induction links as [| l rest IH]; intro seenUrls; cbn [External.dedupe].
  - split; [constructor |]. split; [intros ? [] |]. split; [intros ? [] | cbn; lia].
  - destruct (String.eqb (ev_url l) "") eqn:Eempty; cbn [orb].
    + destruct (IH seenUrls) as (Hnd & Hin & Hall & Hlen).
      split; [exact Hnd |]. split; [| split].
      * intros link Hl. destruct (Hin link Hl) as (? & ? & ?). auto using in_cons.
      * intros link [<- | Hl] Hne; [apply String.eqb_eq in Eempty; contradiction |].
        now apply Hall.
      * cbn [List.length]. lia.
    + destruct (existsb (String.eqb (ev_url l)) seenUrls) eqn:Eseen.
      * destruct (IH seenUrls) as (Hnd & Hin & Hall & Hlen).
        split; [exact Hnd |]. split; [| split].
        -- intros link Hl. destruct (Hin link Hl) as (? & ? & ?). auto using in_cons.
        -- intros link [<- | Hl] Hne; [| now apply Hall].
           left. apply existsb_exists in Eseen. destruct Eseen as (u & Hu & Heq).
           apply String.eqb_eq in Heq. now subst.
        -- cbn [List.length]. lia.
      * destruct (IH (ev_url l :: seenUrls)) as (Hnd & Hin & Hall & Hlen).
        split; [| split; [| split]].
        -- cbn [map]. constructor; [| exact Hnd].
           intro Habs. apply in_map_iff in Habs. destruct Habs as (l' & Heq & Hl').
           destruct (Hin l' Hl') as (_ & _ & Hnot). apply Hnot. left. now symmetry.
        -- intros link [<- | Hl].
           ++ split; [now left |]. split; [now apply String.eqb_neq |].
              intro Habs.
              assert (existsb (String.eqb (ev_url l)) seenUrls = true); [| congruence].
              apply existsb_exists. exists (ev_url l). split; [exact Habs |].
              apply String.eqb_refl.
           ++ destruct (Hin link Hl) as (? & ? & Hnot).
              split; [now right |]. split; [assumption |].
              intro Habs. apply Hnot. now right.
        -- intros link [<- | Hl] Hne; [right; now left |].
           destruct (Hall link Hl Hne) as [[Heq | Hs] | Hd].
           ++ right. left. exact Heq.
           ++ now left.
           ++ right. right. exact Hd.
        -- cbn [List.length]. lia.
Qed.

Lemma keywordScore_bounds : forall text keywords,
    0 <= External.keywordScore text keywords <= 1.
Proof.
  intros text keywords. unfold External.keywordScore.
  destruct (_ =? 0)%nat; [split; discriminate |].
  split; [| apply Math_min_le_l].
  match goal with
  | |- 0 <= Math_min 1 (inject_Z (Z.of_nat ?m) / ?d) =>
      assert (Hd : 2 <= d) by apply Math_max_le_l;
      assert (Hm : 0 <= inject_Z (Z.of_nat m))
        by (change 0 with (inject_Z 0); rewrite <- Zle_Qle; lia);
      destruct (Math_min_cases 1 (inject_Z (Z.of_nat m) / d)) as [-> | ->];
      [discriminate |]
  end.
  apply Qle_shift_div_l; [lra | lra].
Qed.

Lemma positive_score : forall q, negb (Qle_bool q 0) = true -> 0 < q.
Proof.
  intros q H. apply negb_true_iff in H. apply Qnot_le_lt. intro Hle.
  apply Qle_bool_iff in Hle. congruence.
Qed.

Lemma strictSignals_spec : forall hits,
    Forall (fun sg =>
              sig_key sg = "ai_native_evidence" /\ sig_source sg = "exa.search"
              /\ exists q, sig_numericValue sg = Some (Fin q) /\ 35 # 100 <= q <= 1)
           (External.strictSignals hits).
Proof.
  intro hits. unfold External.strictSignals. rewrite Forall_forall.
  intros sg Hin. apply in_flat_map in Hin. destruct Hin as (hit & _ & Hsg).
  cbv zeta in Hsg.
  destruct (negb (Qle_bool _ 0)) eqn:Epos; [| destruct Hsg].
  destruct Hsg as [<- | []]. cbn.
  split; [reflexivity |]. split; [reflexivity |].
  eexists. split; [reflexivity |]. split; [apply Math_max_le_l |].
  match goal with
  | |- Math_max ?a ?b <= 1 =>
      destruct (Math_max_cases a b) as [-> | ->];
      [discriminate | apply keywordScore_bounds]
  end.
Qed.

Lemma fetchedSignals_spec : forall items,
    Forall (fun sg =>
              (sig_key sg = "ai_native_evidence" \/ sig_key sg = "builder_activity")
              /\ sig_source sg = "web_fetch"
              /\ exists q, sig_numericValue sg = Some (Fin q) /\ 0 < q <= 1)
           (External.fetchedSignals items).
Proof.
  intro items. unfold External.fetchedSignals. rewrite Forall_forall.
  intros sg Hin. apply in_flat_map in Hin. destruct Hin as (item & _ & Hsg).
  cbv zeta in Hsg. apply in_app_or in Hsg.
  destruct Hsg as [Hsg | Hsg];
    destruct (negb (Qle_bool _ 0)) eqn:Epos; try (now destruct Hsg);
    destruct Hsg as [<- | []]; cbn.
  - split; [now left |]. split; [reflexivity |].
    eexists. split; [reflexivity |].
    split; [now apply positive_score | apply keywordScore_bounds].
  - split; [now right |]. split; [reflexivity |].
    eexists. split; [reflexivity |].
    split; [now apply positive_score | apply keywordScore_bounds].
Qed.

Lemma all_fetches : forall (web : External.Web) links n contents n',
    External.all (fun link =>
                    content <- External.request
                                 (fun k => External.fetchUrl web k (ev_url link)) ;;
                    ret (link, content))
                 links n = (Ok contents, n') ->
    n' = (n + List.length links)%nat /\ map fst contents = links.
Proof.
  intros web links. induction links as [| l rest IH]; intros n contents n' H.
  - cbn in H. injection H as <- <-. cbn. split; [lia | reflexivity].
  - cbn [External.all] in H. unfold bind at 1 in H. unfold bind at 1 in H.
    unfold External.request at 1 in H.
    destruct (External.fetchUrl web n (ev_url l)) as [content | e]; [| discriminate].
    unfold ret at 1 in H. unfold bind at 1 in H.
    destruct (External.all _ rest (S n)) as [[others | e] n1] eqn:Hrest; [| discriminate].
    unfold ret in H. injection H as <- <-.
    destruct (IH _ _ _ Hrest) as [-> Hmap].
    cbn [List.length map fst]. split; [lia | now rewrite Hmap].
Qed.

(** X25. What [enrichExternalFootprint] returns. The evidence links have
    distinct, non-empty URLs; every URL found for an identity hint is
    among them unless it is empty. Every signal is [ai_native_evidence]
    or [builder_activity] with a value in (0, 1], at least 0.35 when it
    comes from the strict search. Outside strict mode there are at most
    three links, all from [exa.search], every signal comes from a
    fetched page, and the requests made are the three searches and one
    fetch per link. *)
Theorem enrichExternalFootprint_evidence_is_deduplicated :
  forall (web : External.Web) (params : EnrichRequest) (n n' : nat)
         (ext : ExternalEnrichment),
    External.enrichExternalFootprint web params n = (Ok ext, n') ->
    NoDup (map ev_url (ext_evidenceLinks ext))
    /\ Forall (fun link =>
                 ev_url link <> ""
                 /\ (ev_source link = "exa.search"
                     \/ (er_evidenceQueryMode params = mode_strict
                         /\ ev_source link = "exa.search.strict")))
              (ext_evidenceLinks ext)
    /\ Forall (fun sg =>
                 (sig_key sg = "ai_native_evidence" \/ sig_key sg = "builder_activity")
                 /\ (exists q, sig_numericValue sg = Some (Fin q) /\ 0 < q <= 1
                               /\ (sig_source sg = "exa.search" -> 35 # 100 <= q))
                 /\ (sig_source sg = "web_fetch"
                     \/ (er_evidenceQueryMode params = mode_strict
                         /\ sig_source sg = "exa.search")))
              (ext_signals ext)
    /\ (forall url,
           opt_field (hints_github (ext_identityHints ext)) hint_url = Some url
           \/ opt_field (hints_x (ext_identityHints ext)) hint_url = Some url
           \/ hints_personalSite (ext_identityHints ext) = Some (Some url) ->
           url <> "" -> In url (map ev_url (ext_evidenceLinks ext)))
    /\ (er_evidenceQueryMode params <> mode_strict ->
        (List.length (ext_evidenceLinks ext) <= 3)%nat
        /\ n' = (n + 3 + List.length (ext_evidenceLinks ext))%nat).
Proof.
  intros web params n n' ext H.
  unfold External.enrichExternalFootprint in H. cbv zeta in H.
  unfold bind at 1 in H. unfold External.request at 1 in H.
  destruct (External.searchExa web n _) as [githubHits | e]; [| discriminate].
  unfold bind at 1 in H. unfold External.request at 1 in H.
  destruct (External.searchExa web (S n) _) as [socialHits | e]; [| discriminate].
  unfold bind at 1 in H. unfold External.request at 1 in H.
  destruct (External.searchExa web (S (S n)) _) as [webHits | e]; [| discriminate].
  unfold bind at 1 in H.
  match type of H with
  | context [(if ?c then External.request ?f else ret []) ?k] =>
      destruct ((if c then External.request f else ret []) k)
        as [[strictAiHits | e] n1] eqn:Hstrict
  end; [| discriminate].
  set (github := find _ githubHits) in *.
  set (xHit := find _ socialHits) in *.
  set (personal := find _ webHits) in *.
  set (evidenceLinks := (External.option_list _ ++ _)%list) in *.
  unfold bind at 1 in H.
  destruct (External.all _ _ n1) as [[fetchedContent | e] n2] eqn:Hfetch; [| discriminate].
  unfold ret in H. injection H as <- <-.
  cbn [ext_signals ext_evidenceLinks ext_identityHints hints_github hints_x
       hints_personalSite].
  destruct (dedupe_spec evidenceLinks []) as (Hnd & Hin & Hall & Hlen).
  destruct (all_fetches _ _ _ _ _ Hfetch) as [Hn2 Hfst].
  assert (Hmode : External.is_strict (er_evidenceQueryMode params) = true ->
                  er_evidenceQueryMode params = mode_strict)
    by (destruct (er_evidenceQueryMode params); cbn; congruence).
  assert (Hsrc : forall link, In link evidenceLinks ->
                              ev_source link = "exa.search"
                              \/ (er_evidenceQueryMode params = mode_strict
                                  /\ ev_source link = "exa.search.strict")).
  { intros link Hl. unfold evidenceLinks in Hl.
    repeat (apply in_app_or in Hl; destruct Hl as [Hl | Hl]).
    - destruct github; [destruct Hl as [<- | []]; now left | destruct Hl].
    - destruct xHit; [destruct Hl as [<- | []]; now left | destruct Hl].
    - destruct personal; [destruct Hl as [<- | []]; now left | destruct Hl].
    - destruct (External.is_strict (er_evidenceQueryMode params)) eqn:Es; [| destruct Hl].
      apply in_map_iff in Hl. destruct Hl as (hit & <- & _). right. auto. }
  split; [exact Hnd |].
  split.
  { rewrite Forall_forall. intros link Hl. destruct (Hin link Hl) as (Hl' & Hne & _).
    split; [exact Hne | now apply Hsrc]. }
  split.
  { apply Forall_app. split.
    - destruct (External.is_strict (er_evidenceQueryMode params)) eqn:Es; [| constructor].
      eapply Forall_impl; [| apply strictSignals_spec].
      intros sg (Hk & Hs & q & Hq & Hlo & Hhi).
      split; [now left |]. split; [| right; auto].
      exists q. split; [exact Hq |]. split; [split; [lra | exact Hhi] | intros _; exact Hlo].
    - eapply Forall_impl; [| apply fetchedSignals_spec].
      intros sg (Hk & Hs & q & Hq & Hb).
      split; [exact Hk |]. split; [| now left].
      exists q. split; [exact Hq |]. split; [exact Hb |].
      rewrite Hs. discriminate. }
  split.
  { intros url Hurl Hne.
    assert (Hlink : exists link, In link evidenceLinks /\ ev_url link = url).
    { unfold evidenceLinks. destruct Hurl as [Hu | [Hu | Hu]].
      - destruct github as [hit |]; [| discriminate]. cbn in Hu. injection Hu as <-.
        eexists. split; [apply in_or_app; left; now left | reflexivity].
      - destruct xHit as [hit |]; [| discriminate]. cbn in Hu. injection Hu as <-.
        eexists. split; [apply in_or_app; right; apply in_or_app; left; now left
                        | reflexivity].
      - destruct personal as [hit |]; [| discriminate]. cbn in Hu. injection Hu as <-.
        eexists. split; [apply in_or_app; right; apply in_or_app; right;
                         apply in_or_app; left; now left
                        | reflexivity]. }
    destruct Hlink as (link & Hl & <-).
    destruct (Hall link Hl Hne) as [[] | Hd]. exact Hd. }
  intros Hdefault.
  destruct (External.is_strict (er_evidenceQueryMode params)) eqn:Es;
    [elim Hdefault; now apply Hmode |].
  unfold ret in Hstrict. injection Hstrict as <- <-.
  assert (Hthree : (List.length evidenceLinks <= 3)%nat).
  { unfold evidenceLinks. rewrite !length_app.
    destruct github, xHit, personal; cbn; lia. }
  split; [lia |].
  rewrite Hn2. rewrite firstn_all2; lia.
Qed.

Lemma enrichExternalFootprint_evidence_is_deduplicated_witness :
  exists ext,
    External.enrichExternalFootprint test_web test_enrich_request 0%nat = (Ok ext, 5%nat)
    /\ map ev_url (ext_evidenceLinks ext) = ["https://github.com/alice"; "https://alice.dev/"]
    /\ NoDup (map ev_url (ext_evidenceLinks ext))
    /\ opt_field (hints_github (ext_identityHints ext)) hint_handle = Some "alice".
Proof.
  pose (result := External.enrichExternalFootprint test_web test_enrich_request 0%nat).
  pose (ext := match fst result with
               | Ok e => e
               | Throw _ => {| ext_signals := []; ext_evidenceLinks := [];
                               ext_identityHints :=
                                 {| hints_github := None; hints_x := None;
                                    hints_personalSite := None |} |}
               end).
  assert (H : External.enrichExternalFootprint test_web test_enrich_request 0%nat
              = (Ok ext, 5%nat)) by (vm_compute; reflexivity).
  exists ext. split; [exact H |].
  split; [vm_compute; reflexivity |].
  split; [| vm_compute; reflexivity].
  exact (proj1 (enrichExternalFootprint_evidence_is_deduplicated
                  test_web test_enrich_request 0%nat 5%nat ext H)).
Defined.

(** ** The review of a candidate *)

Lemma upsertReviewStatus_others : forall now p s s' c rn,
    CandidateStore.upsertReviewStatus now p s = (Ok tt, s') ->
    String.eqb (rp_candidateId p) c && String.eqb (rp_runId p) rn = false ->
    review_of c rn s' = review_of c rn s.
Proof.
  intros now p s s' c rn H Hneq. unfold CandidateStore.upsertReviewStatus in H.
  fold (review_key_eqb (rp_candidateId p) (rp_runId p)) in H.
  unfold review_of. fold (review_key_eqb c rn).
  destruct (existsb _ (candidate_reviews s)).
  - injection H as <-. cbn [candidate_reviews with_candidate_reviews].
    apply find_map_other; intros r Hr; eapply review_key_distinct; eauto.
  - destruct (negb _); [discriminate |]. injection H as <-.
    cbn [candidate_reviews with_candidate_reviews].
    apply find_push_other. unfold review_key_eqb. cbn.
    exact Hneq.
Qed.

(** X26. [updateReviewStatus] followed by [getReviewStatus]. The update
    throws, and writes nothing, exactly when the pair has no review yet
    and the candidate or the run is unknown. Otherwise
    [getReviewStatus] returns the pair's review with the new status and
    notes, priority 0, no [updated_by], [updated_at] the time of the
    update and [created_at] that of the first review of the pair; the
    reviews of all other pairs are as before. *)
Theorem updateReviewStatus_then_getReviewStatus :
  forall (now : Z) (params : UpdateReviewParams) (s : Store),
    let c := ur_candidateId params in
    let r := ur_runId params in
    match CandidatePipelineWorkflow.updateReviewStatus now params s with
    | (Throw e, s') =>
        e = foreign_key_failed /\ s' = s
        /\ review_of c r s = None /\ references_ok c r s = false
    | (Ok _, s') =>
        (review_of c r s <> None \/ references_ok c r s = true)
        /\ (exists row,
               CandidateStore.getReviewStatus c r s' = (Ok (Some row), s')
               /\ rv_status row = ur_status params
               /\ rv_notes row = ur_notes params
               /\ rv_priority row = 0%Z
               /\ rv_updated_by row = None
               /\ rv_updated_at row = now
               /\ rv_created_at row = match review_of c r s with
                                      | Some old => rv_created_at old
                                      | None => now
                                      end)
        /\ (forall c' r',
               String.eqb c c' && String.eqb r r' = false ->
               CandidateStore.getReviewStatus c' r' s'
               = (fst (CandidateStore.getReviewStatus c' r' s), s'))
    end.
Proof.
  intros now params s c r. subst c r.
  destruct (CandidatePipelineWorkflow.updateReviewStatus now params s)
    as [[[] | e] s'] eqn:H.
  - unfold CandidatePipelineWorkflow.updateReviewStatus in H.
    split.
    { unfold CandidateStore.upsertReviewStatus in H.
      cbn [rp_candidateId rp_runId] in H. unfold review_of.
      destruct (existsb _ (candidate_reviews s)) eqn:Eex.
      - left. apply existsb_exists in Eex. destruct Eex as (x & Hin & Hx).
        destruct (find _ (candidate_reviews s)) eqn:Ef; [discriminate |].
        exfalso. exact (eq_true_false_abs _ Hx (find_none _ _ Ef x Hin)).
      - right. destruct (references_ok _ _ s); [reflexivity | discriminate]. }
    split.
    { destruct (upsertReviewStatus_row _ _ _ _ H)
        as (row & Hrow & Hprio & Hst & Hnotes & Hby & Hat & Hcreated).
      cbn [rp_candidateId rp_runId rp_priority rp_status rp_notes rp_updatedBy nullish]
        in *.
      exists row. unfold CandidateStore.getReviewStatus, query.
      fold (review_of (ur_candidateId params) (ur_runId params) s').
      rewrite Hrow. auto 10. }
    intros c' r' Hneq. unfold CandidateStore.getReviewStatus, query. cbn [fst].
    fold (review_of c' r' s'). fold (review_of c' r' s).
    now rewrite (upsertReviewStatus_others _ _ _ _ _ _ H Hneq).
  - unfold CandidatePipelineWorkflow.updateReviewStatus,
      CandidateStore.upsertReviewStatus in H.
    cbn [rp_candidateId rp_runId] in H.
    destruct (existsb _ (candidate_reviews s)) eqn:Eex; [discriminate |].
    destruct (references_ok _ _ s); [discriminate |].
    cbn in H. injection H as <- <-.
    repeat split.
    unfold review_of. apply find_none_existsb. exact Eex.
Qed.

(** ** The full record of a candidate *)




(** ** Candidate ids *)

Lemma truthy_nullish_inj : forall a b : option string,
    truthy a = true -> truthy b = true -> nullish a "" = nullish b "" -> a = b.
Proof. intros [a |] [b |]; cbn; congruence. Qed.

(** X28. A candidate id tells which key it was built from, and for a provider
    id or a public identifier which one: two calls of [buildCandidateId]
    that give the same id used the same kind of key, and the same
    provider id, the same public identifier or the same random UUID. *)
Theorem buildCandidateId_tells_keys_apart :
  forall (uuid1 uuid2 : string) (providerId1 publicIdentifier1 hash1 : option string)
         (providerId2 publicIdentifier2 hash2 : option string),
    CandidateStore.buildCandidateId uuid1 providerId1 publicIdentifier1 hash1
    = CandidateStore.buildCandidateId uuid2 providerId2 publicIdentifier2 hash2 ->
    truthy providerId1 = truthy providerId2
    /\ (truthy providerId1 = true -> providerId1 = providerId2)
    /\ (truthy providerId1 = false ->
        truthy publicIdentifier1 = truthy publicIdentifier2
        /\ (truthy publicIdentifier1 = true -> publicIdentifier1 = publicIdentifier2)
        /\ (truthy publicIdentifier1 = false ->
            truthy hash1 = truthy hash2
            /\ (truthy hash1 = false -> uuid1 = uuid2))).
Proof.
  intros uuid1 uuid2 p1 pub1 h1 p2 pub2 h2 H.
  unfold CandidateStore.buildCandidateId in H.
  destruct (truthy p1) eqn:Ep1, (truthy p2) eqn:Ep2;
    destruct (truthy pub1) eqn:Eb1, (truthy pub2) eqn:Eb2;
    destruct (truthy h1) eqn:Eh1, (truthy h2) eqn:Eh2;
    cbn in H; try discriminate; injection H as H;
    repeat split; try congruence; intros;
    try (apply truthy_nullish_inj; assumption).
Qed.

Lemma buildCandidateId_tells_keys_apart_witness :
  CandidateStore.buildCandidateId "uuid-1" (Some "abc") None None
  = CandidateStore.buildCandidateId "uuid-2" (Some "abc") (Some "alice") None
  /\ Some "abc" = Some "abc".
Proof.
  assert (H : CandidateStore.buildCandidateId "uuid-1" (Some "abc") None None
              = CandidateStore.buildCandidateId "uuid-2" (Some "abc") (Some "alice") None)
    by reflexivity.
  split; [exact H |].
  exact (proj1 (proj2 (buildCandidateId_tells_keys_apart
                         "uuid-1" "uuid-2" (Some "abc") None None
                         (Some "abc") (Some "alice") None H)) eq_refl).
Defined.

(** ** The search of a run *)

Lemma trimmed_keywords_nonempty : forall filters,
    Forall (fun k => k <> "") (trimmed_keywords filters).
Proof.
  intro filters. unfold trimmed_keywords. rewrite Forall_forall.
  intros k Hin. apply in_flat_map in Hin. destruct Hin as (f & _ & Hk).
  destruct (option_map trim (f_keywords f)) as [k0 |]; [| destruct Hk].
  destruct (String.eqb k0 "") eqn:E; [destruct Hk |].
  destruct Hk as [<- | []]. now apply String.eqb_neq.
Qed.

(** X29. What [run] asks of the search and reports about it. The target is
    at least 1; the pages allowed, at least three, suffice to reach the
    target at fifty candidates a page; the API is one of the three known
    ones; the reported keyword lists hold no empty string and the
    reported network distances are among 1, 2 and 3; unless the source
    mode is [broad] the search sent is the one the role gave. *)
Theorem runContext_search_reaches_target :
  forall (env : Collaborators) (recruiting : RecruitingConfig)
         (input : CandidatePipelineRunInput),
    let ctx := CandidatePipelineService.runContext env recruiting input in
    let reported := ctx_searchQueryUsed ctx in
    (1 <= ctx_targetCandidates ctx)%Z
    /\ (3 <= ctx_maxPages ctx)%Z
    /\ (ctx_targetCandidates ctx <= ctx_maxPages ctx * DEFAULT_PAGE_SIZE)%Z
    /\ ((ctx_targetCandidates ctx <= 150)%Z -> ctx_maxPages ctx = 3%Z)
    /\ sq_pageSize reported = 50%Z
    /\ sq_maxPages reported = ctx_maxPages ctx
    /\ In (ctx_api ctx) ["classic"; "recruiter"; "sales_navigator"]
    /\ sq_api reported = ctx_api ctx
    /\ Forall (fun d => In d [1; 2; 3]%Z) (sq_networkDistance reported)
    /\ Forall (fun k => k <> "")
              (sq_roleKeywords reported ++ sq_skills reported
               ++ sq_companyKeywords reported)%list
    /\ (ctx_sourceQueryMode ctx <> mode_broad ->
        ctx_normalizedSearch ctx = role_search (in_role input)).
Proof.
  intros env recruiting input ctx reported. subst reported ctx.
  unfold CandidatePipelineService.runContext. cbv zeta.
  cbn [ctx_targetCandidates ctx_maxPages ctx_searchQueryUsed ctx_api ctx_sourceQueryMode
       ctx_normalizedSearch].
  set (target := effectiveTargetCandidates recruiting (in_role input)).
  assert (Htarget : (1 <= target)%Z) by (unfold target, effectiveTargetCandidates; lia).
  set (pages := Math_ceil (inject_Z target / inject_Z DEFAULT_PAGE_SIZE)).
  assert (Hceil : (target <= pages * DEFAULT_PAGE_SIZE)%Z).
  { pose proof (Qle_ceiling (inject_Z target / inject_Z DEFAULT_PAGE_SIZE)) as H.
    fold (Math_ceil (inject_Z target / inject_Z DEFAULT_PAGE_SIZE)) in H. fold pages in H.
    rewrite Zle_Qle, inject_Z_mult.
    unfold DEFAULT_PAGE_SIZE in *. change (inject_Z 50) with (50 # 1) in *.
    generalize dependent (inject_Z pages). generalize (inject_Z target).
    intros t p H.
    setoid_replace t with ((t / (50 # 1)) * (50 # 1)) by field.
    apply Qmult_le_compat_r; [exact H | discriminate]. }
  unfold DEFAULT_PAGE_SIZE in *.
  split; [exact Htarget |].
  split; [lia |].
  split; [lia |].
  split.
  { intro Hsmall.
    assert (Hpages : (pages <= 3)%Z).
    { unfold pages, Math_ceil. change 3%Z with (Qceiling (inject_Z 3)).
      apply Qceiling_resp_le. apply Qle_shift_div_r; [reflexivity |].
      rewrite <- inject_Z_mult, <- Zle_Qle. lia. }
    lia. }
  split; [reflexivity |]. split; [reflexivity |].
  split.
  { unfold resolvedApi. destruct (ts_api (role_search (in_role input))) as [a |];
      [| cbn; tauto].
    destruct (String.eqb a "recruiter") eqn:E1; [apply String.eqb_eq in E1; subst; cbn; tauto |].
    destruct (String.eqb a "sales_navigator") eqn:E2;
      [apply String.eqb_eq in E2; subst; cbn; tauto | cbn; tauto]. }
  split; [reflexivity |].
  split.
  { unfold buildSearchQueryUsed. cbn [sq_networkDistance]. rewrite Forall_forall.
    intros d Hd. apply filter_In in Hd. destruct Hd as [_ Hd].
    apply orb_true_iff in Hd. destruct Hd as [Hd | Hd];
      [apply orb_true_iff in Hd; destruct Hd as [Hd | Hd] |];
      apply Z.eqb_eq in Hd; subst; cbn; tauto. }
  split.
  { unfold buildSearchQueryUsed. cbn [sq_roleKeywords sq_skills sq_companyKeywords].
    apply Forall_app. split; [apply trimmed_keywords_nonempty |].
    apply Forall_app. split; [apply trimmed_keywords_nonempty |].
    rewrite Forall_forall. intros k Hin. apply in_flat_map in Hin.
    destruct Hin as (f & _ & Hk). cbv zeta in Hk.
    match type of Hk with
    | In k (if truthy ?chosen then _ else _) =>
        destruct chosen as [v |] eqn:Ec; cbn [truthy nullish] in Hk; [| destruct Hk];
        destruct (String.eqb v "") eqn:Ev; cbn in Hk; [destruct Hk |];
        destruct Hk as [<- | []]; now apply String.eqb_neq
    end. }
  intro Hmode. unfold normalizeSearchForSourceMode.
  destruct (nullish (in_sourceQueryMode input) mode_default); try reflexivity.
  now elim Hmode.
Qed.

(** ** A resumed run *)

Lemma beginRun_resumed : forall now uuid params s info s1,
    CandidateStore.beginRun now uuid params s = (Ok info, s1) ->
    resumed info = true ->
    s1 = s
    /\ exists row, In row (pipeline_runs s) /\ run_id row = runId info
                   /\ run_idempotency_key row = br_idempotencyKey params
                   /\ (run_status row = running \/ run_status row = completed).
Proof.
  intros now uuid params s info s1 H Hres.
  unfold CandidateStore.beginRun, bind, query in H.
  destruct (truthy (br_idempotencyKey params)) eqn:Ekey.
  - destruct (CandidateStore.select_run_by_key (br_idempotencyKey params) s)
      as [row |] eqn:Esel.
    + destruct (CandidateStore.resumable (run_status row)) eqn:Eres.
      * unfold ret in H. injection H as <- <-. split; [reflexivity |].
        exists row. cbn [runId].
        unfold CandidateStore.select_run_by_key in Esel.
        destruct (order_by _ _) as [| first rest] eqn:Eord; [discriminate |].
        cbn in Esel. injection Esel as ->.
        assert (Hin : In row (row :: rest)) by now left.
        rewrite <- Eord in Hin. apply order_by_In in Hin. apply filter_In in Hin.
        destruct Hin as [Hin Hk].
        split; [exact Hin |]. split; [reflexivity |].
        split.
        -- destruct (run_idempotency_key row) as [a |],
             (br_idempotencyKey params) as [b |]; cbn in Hk; try discriminate.
           apply String.eqb_eq in Hk. now subst.
        -- destruct (run_status row); cbn in Eres; auto; discriminate.
      * destruct (insert_run_ok _ _ _ _ _ _ H) as [-> _]. discriminate Hres.
    + destruct (insert_run_ok _ _ _ _ _ _ H) as [-> _]. discriminate Hres.
  - destruct (insert_run_ok _ _ _ _ _ _ H) as [-> _]. discriminate Hres.
Qed.

(** X30. A run that is resumed does nothing but look: when [run] returns
    [resumed = true], the store, the counters and the stage errors are
    as it found them, and the status it returns is what [getRunStatus]
    gives for the run id it returns. The run it resumed is stored under
    the idempotency key of the call and is running or completed. *)
Theorem run_resumed_writes_nothing :
  forall (env : Collaborators) (recruiting : RecruitingConfig)
         (input : CandidatePipelineRunInput) (st st2 : RunState) (out : RunOutput),
    CandidatePipelineService.run env recruiting input st = (Ok out, st2) ->
    out_resumed out = true ->
    db st2 = db st
    /\ counts st2 = counts st
    /\ stageErrors st2 = stageErrors st
    /\ CandidateStore.getRunStatus (out_runId out) (db st) = (Ok (out_status out), db st)
    /\ exists row,
        In row (pipeline_runs (db st))
        /\ run_id row = out_runId out
        /\ run_idempotency_key row
           = br_idempotencyKey
               (CandidatePipelineService.beginRunParams recruiting input
                  (today env (tick st)))
        /\ (run_status row = running \/ run_status row = completed).
Proof.
  intros env recruiting input st st2 out H Hres.
  unfold CandidatePipelineService.run in H. unfold bind at 1 in H.
  destruct (CandidatePipelineService.begin env recruiting input st)
    as [[info | e] st1] eqn:Hbegin; [| discriminate].
  destruct (resumed info) eqn:Hinfo.
  - unfold bind, liftDB, CandidateStore.getRunStatus, query, ret in H.
    injection H as <- <-. cbn [out_runId out_status db tick counts stageErrors with_db].
    unfold CandidatePipelineService.begin, bind, read, store_op in Hbegin.
    cbn [db tick next_tick] in Hbegin.
    match type of Hbegin with
    | context [CandidateStore.beginRun ?n ?u ?p ?s] =>
        destruct (CandidateStore.beginRun n u p s) as [[i | e] s1] eqn:E
    end; [| discriminate].
    injection Hbegin as -> <-.
    destruct (beginRun_resumed _ _ _ _ _ _ E Hinfo) as (-> & row & Hin & Hid & Hkey & Hst).
    cbn [db tick counts stageErrors with_db next_tick].
    split; [reflexivity |]. split; [reflexivity |]. split; [reflexivity |].
    split; [reflexivity |].
    exists row. auto.
  - cbv zeta in H. unfold try_catch in H.
    destruct (CandidatePipelineService.runBody _ _ _ _ st1) as [[done | err] stb] eqn:Erun.
    + destruct (runBody_output _ _ _ _ _ _ _ Erun) as [_ Hr].
      injection H as <- _. congruence.
    + unfold CandidatePipelineService.runFailed in H.
      repeat (apply bind_ok_inv in H; destruct H as (? & ? & _ & H)).
      unfold ret in H. injection H as <- _. discriminate Hres.
Qed.

Lemma run_resumed_writes_nothing_witness :
  exists st out st2,
    CandidatePipelineService.run scripted_env default_config (test_input None None None) st
    = (Ok out, st2)
    /\ out_resumed out = true
    /\ pipeline_runs (db st) <> []
    /\ db st2 = db st
    /\ out_status out <> None.
Proof.
  pose (first := CandidatePipelineService.run scripted_env default_config
                   (test_input None None None) (start empty_store)).
  pose (st := start (db (snd first))).
  pose (second := CandidatePipelineService.run scripted_env default_config
                    (test_input None None None) st).
  pose (out := match fst second with
               | Ok o => o
               | Throw _ => {| out_runId := ""; out_resumed := false; out_status := None |}
               end).
  assert (H : CandidatePipelineService.run scripted_env default_config
                (test_input None None None) st = (Ok out, snd second))
    by (vm_compute; reflexivity).
  assert (Hres : out_resumed out = true) by (vm_compute; reflexivity).
  assert (Hrows : pipeline_runs (db st) <> []) by (vm_compute; discriminate).
  destruct (run_resumed_writes_nothing scripted_env default_config
              (test_input None None None) st (snd second) out H Hres)
    as (Hdb & _ & _ & _ & _).
  assert (Hstatus : out_status out <> None) by (vm_compute; discriminate).
  exists st, out, (snd second).
  split; [exact H |]. split; [exact Hres |]. split; [exact Hrows |].
  split; [exact Hdb | exact Hstatus].
Defined.
